(* ===== verification/_CoqProject ===== *)
-Q . S2P
Prelude.v
GoStrings.v
GoTime.v
GoState.v
Conn.v
GoIO.v
NetIP.v
GoNet.v
FakeIP.v
Patterns.v
AddrTrie.v
Policy.v
Route.v
Gfw.v
IPPool.v
Core.v
Dns.v
Plan.v
Socks5.v
Servers.v
ClientHello.v
Fragment.v
Desync.v
Bridge.v
Noise.v
NoiseWindows.v
Tunnel.v
Http.v
Doh.v
Config.v
Aead.v
ShadowStream.v
Ciphers.v
SocksClient.v
Obfs.v
HttpObfs.v
Shadowsocks.v
Proxies.v
Upstream.v
Queue.v
Mobile.v
TunTunnel.v
TunTcp.v
RelayProxy.v
Netstack.v
Engine.v
Allocator.v
