(* ===== verification/Prelude.v ===== *)
(** * Verification of the bill-VPN proxy core

    ** The program

    bill-VPN is a proxy for networks with deep packet inspection.  Clients reach it
    through a SOCKS5 server, an HTTP proxy or a TUN device; for every connection it
    looks rules up (by domain or by address), decides where to dial and how to treat
    the first TLS record, and then copies bytes.  Names seen in hijacked DNS queries
    get fake addresses, which later connections are mapped back from.  The core is
    the Go package src/internal, with the matchers of src/vendor/github.com/moi-si/addrtrie.
    On Android, src/mobile runs the same core behind the TUN device: it starts the engine
    of src/tun2socks with itself as the proxy, and every TCP connection and UDP session
    of the device's netstack reaches its BillProxy, UDP through the sessions of TunTunnel.

    The parts and how they meet: a server (Socks5, Http), the TUN bridge or the mobile
    proxy (Mobile) asks for a dial plan (Plan); the plan recovers the domain behind a fake
    address (FakeIP, Dns), classifies it by the rules (Route, on the tries of AddrTrie, the
    patterns of Patterns and the built-in list of Gfw), merges the policies (Policy),
    resolves names (Dns, Core) and redirects addresses (IPPool, Patterns).  The tunnel and
    the bridge then inspect the ClientHello (ClientHello) and send it whole, in fragments
    (Fragment) or behind a fake packet (Desync).  DoH connections of the resolver go through
    the same senders (Doh), and queries leave through Upstream.  How a fake packet is put on
    the wire is modelled below the connection: Noise and NoiseWindows.  Config sets all of
    this up; Engine opens and closes the device and the network stack, which Netstack sets up
    and connects to the tunnel (TunTunnel for UDP, TunTcp for TCP).  The proxies the engine
    can be given instead (Proxies, Shadowsocks, RelayProxy) run over the transports of
    tun2socks (SocksClient, Aead, ShadowStream, Ciphers, Obfs, HttpObfs).

    ** Files

    - Prelude: results of Go code ([go]: return, error, panic), machine integers, slices
      with their bounds checks, list and byte lemmas, tactics and hints.
    - GoStrings, GoTime, NetIP, GoNet: what the source uses of Go's strings, strconv,
      time, net and net/netip (parsing and printing of addresses, prefixes, durations,
      host:port), with the round trips the components need.
    - GoState, Conn: state-and-error programs; connections as traces of sends, urgent
      sends, sleeps and closes, with an environment that decides which sends fail.
    - GoIO: byte streams read in pieces: sequences of Read calls with given buffer sizes,
      and the class [Delivers], which a transport's reader proves once and from which what
      any sequence of reads returns follows.
    - ClientHello: parseClientHello, parseSNI, findLastDot (utils.go).
    - Fragment: sendRecords and its helpers (fragment.go, oob_unix.go).
    - Desync: the TTL rule language, the TTL search and the split of desyncSend
      (desync.go, desync_linux.go).
    - Noise: desyncSend and sendWithNoise on Linux as interleaved goroutines over a page
      shared with the kernel, which resends at will (desync_linux.go, utils.go wrappedError).
    - NoiseWindows: the same through TransmitFile, with the deferred calls
      (desync_windows.go).
    - FakeIP: the two fake-address stores (fake_ip.go).
    - Patterns: expandPattern, transformIP and the address helpers (utils.go).
    - AddrTrie: the label trie and the two bit tries (addrtrie domain.go, ipv4.go, ipv6.go).
    - Policy: policies, their JSON form, printing and merging (policy.go).
    - Route: the matchers built from the configuration, classification (config.go,
      gfwlist.go, policy.go).
    - Gfw: the parser of the embedded list: base64, lines, rules, host names and the
      regular expression that finds them (gfwlist.go).
    - IPPool: address pools, their ranking and weighted choice (ip_pool.go).
    - Core: the package variables requests read and change, as one record, and the
      monad over it; DNS messages; the interface of the LRU caches.
    - Dns: resolution, recorded answers, hijacked queries (dns.go, resolver.go).
    - Plan: genPolicyWithOptions, ipRedirect, PlanRequest, bootstrap resolution
      (policy.go, utils.go, dial_plan.go, config.go).
    - Socks5: the handler, its replies, the UDP codec and relay (internal socks5.go).
    - Servers: the accept loops of the SOCKS5 server and the HTTP proxy (socks5.go, http.go).
    - Bridge: policyConn of the TUN bridge (tun_bridge.go) and the alert of tunnel.go.
    - Tunnel: handleTunnel with its buffered reader, handleTLS, handleHTTP and the two
      concurrent copies (tunnel.go).
    - Http: httpHandler, handleConnect, forwardHTTPRequest (http.go).
    - Doh: genDialContext and interceptConn (config.go).
    - Upstream: do53Exchange, dohExchange and the resolver's dialer (dns.go, dns_patch.go).
    - Config: LoadConfig, step by step (config.go).
    - Mobile: BillProxy's TCP dial and UDP session, the DNS-over-TCP server, the log ring
      (src/mobile: bill_proxy.go, dns_tcp_conn.go, mobile_api.go).
    - Queue: the packet queue of a UDP session as a system of interleaved goroutines
      (src/mobile/queued_packet_conn.go).
    - TunTunnel: a UDP session of the netstack over the mobile proxy, with its copy loops,
      deadlines, symmetric NAT and statistics (src/tun2socks/tunnel, metadata).
    - TunTcp: a TCP connection of the netstack: two copies, half-closes, deadlines,
      statistics (src/tun2socks/tunnel/tcp.go, statistic/tracker.go).
    - Netstack: CreateStack and its options, the hand-over of connections to the tunnel, the
      packet loops of the link (src/tun2socks/core, tunnel/tunnel.go).
    - Engine: the engine's package variables, start, stop and netstack
      (src/tun2socks/engine), driven by StartBill and StopBill (src/mobile/mobile_api.go).
    - SocksClient: the SOCKS5 client, its addresses and UDP packets
      (src/tun2socks/transport/socks5, proxy/socks5.go).
    - Aead: the Shadowsocks AEAD stream and packets (src/tun2socks/transport/shadowsocks/shadowaead).
    - ShadowStream: the stream-cipher connection and its packets (.../shadowsocks/shadowstream).
    - Ciphers: the cipher tables, keys from passwords with MD5, PickCipher
      (.../shadowsocks/core/cipher.go and the two cipher.go).
    - Obfs: the fake TLS session of simple-obfs (src/tun2socks/transport/simple-obfs/tls.go).
    - HttpObfs: its fake websocket upgrade (simple-obfs/http.go).
    - Shadowsocks: the proxy over any cipher and camouflage (src/tun2socks/proxy/shadowsocks.go).
    - Proxies: SOCKS4, dialling through SOCKS5, SOCKS4 and HTTP CONNECT, and the proxy URLs
      (transport/socks4, proxy/socks4.go, socks5.go, http.go, engine/parse.go).
    - RelayProxy: the relay client (src/tun2socks/proxy/relay.go).
    - Allocator: the buffer pools (src/tun2socks/buffer/allocator, internal/pool).

    ** Theorems

    - C1-C2, the ClientHello: no panic beyond the header guard, agreement with encoded
      hellos.
    - C3, fragments: the peer reassembles the handshake for every sane setting.
    - C4-C5, fake packets: the rule language reads what it prints, the minimal TTL.
    - C6-C7, fake packets on the wire, on Linux and on Windows: what the server and the
      censor see under every interleaving and retransmission, that the send returns or where
      it hangs, and what it releases.
    - C8-C9, fake addresses: allocation, the invariant of every reachable state.
    - C10, patterns; C11-C12, the tries refine longest-match lookup in a rule list.
    - C13-C14, policies: which JSON is accepted, what merging means.
    - C15-C16, pools: the ranking, and fairness of the weighted choice.
    - C17, DNS: fake replies; C18, dial plans: a fake address is planned as its domain
      (composition of the DNS and planning components).
    - C19-C20, the bridge: the stream the target sees under a plan that forwards unchanged,
      with the bytes that a rejected first record duplicates; what is blocked is never
      forwarded.
    - C21, a whole CONNECT session of the SOCKS5 server.
    - C22-C23, the tunnel: what the first packet decides, and that copying ends and loses
      nothing under every interleaving.
    - C24, the HTTP proxy; C25, the DoH connection.
    - C26, a mobile session end to end: the answer a UDP query gets back through the queue,
      and the dial of its address, which is planned as the domain of the query.
    - C27, UDP sessions of the netstack: what of a run's packets they deliver, and that they
      can end.
    - C28, configuration: what is accepted, the values a load installs, what it keeps.
    - C29, the built-in list: its entries are those its lines say, by a description that is
      independent of the parser, and what it matches.
    - C30, the packet queue: first in, first out, lossless, bounded, and where it stays or
      panics.
    - C31, the engine: every device opened is closed, in use, or one a failed start lost.
    - C32-C33, the SOCKS5 client and server, written independently, run a session and
      exchange UDP packets; C34, C38, Shadowsocks: what is written is read, under nonces
      that do not repeat, and a dialled connection with every cipher and camouflage.
    - C35, the allocator: slices of the size asked for from pools that stay well typed.
    - C36, TCP connections of the netstack: nothing is lost, both deadlines, and with which
      peers the session ends; C37, the keys and ciphers a name and a password give.
    - C39-C40, the network stack: the hand-over of connections, what CreateStack asks of the
      stack in which order, and that it stops at the first required request refused.

    Lemmas without a number state more of the same components: the split of a fake packet
    (Desync), survival of bindings (FakeIP), independence of map order (Route), which rule a
    name gets (Plan), DNS over TCP (Mobile), the query of DoH (Upstream), the sessions in
    which UDP replies are lost (TunTunnel), the stream ciphers (ShadowStream), both
    camouflages (Obfs, HttpObfs), the Shadowsocks datagrams, SOCKS4, CONNECT and proxy URLs
    (Proxies), the relay (RelayProxy), the link (Netstack), the accept loop (Servers), and among the defects: the cut
    past the record (ClientHello), the fragment settings that lose the handshake (Fragment),
    hidden defaults (Policy).  Theorems that state a defect of the code prove the behaviour
    the code has (in part C6, C7, C13, C19, C22, C24, C25, C28, C30, C31, C33,
    C36, C39 and C40).

    ** Conventions, bounds and fuel

    Integers are Z with Go's wrapping written out ([i64], [u32], [u16], [u8]) where a
    value can leave its range.  An index or slice out of range is [Panic].  Loops that
    are not structural have fuel and a theorem that it suffices: pattern expansion by the
    length of the pattern (C10), allocation by the number of addresses of the prefix
    (C8), TTL rules by the length of the text (C4), the TTL search by the interval (C5),
    the stream readers and writers by the bytes they are given (C34, C38), the key
    derivation by the length of the key (C37).
    bufio's buffer has its 4096 bytes.  Each operation of the core reads the clock once;
    operations guarded by a mutex are one step, and concurrency is their interleaving
    (C6, C7, C9, C20, C23, C27, C30, C36, C39).  The iteration order of a Go map is a parameter (RangeOrder).
    The operating system is Linux where the code asks for it, except in NoiseWindows, and in
    Config, where it is the parameter [windows].
    In Noise and NoiseWindows the kernel may send or resend any queued range at any time and
    then reads the shared store and the TTL: nothing is assumed about when it does.

    Parameters, with what the code relies on as the laws of a class where there are any:
    the LRU caches (a vendored package), the name tables and the wire format of miekg/dns,
    the upstream exchange, the system resolver, dialling and probing, net/http's codec
    and transport, url.Parse, the failures of sends; crypto/cipher's AEAD (opening what was
    sealed under the same nonce), the stream ciphers and block ciphers of Go's crypto
    packages, and HKDF (class Primitives); the relay message codec (class Relay), URLs (class
    UrlLib) and http.ReadResponse (class HttpLib); for the engine, the device, the stack, the
    REST server and the parsers of its addresses; what gVisor refuses (class StackEnv).  An
    error is its message.

    ** Not modelled

    Log lines (except where a nil logger would panic); JSON decoding below the policy and
    pool fields; the MSG_OOB system call; main.go, which only reads flags and starts the
    servers; of the tun2socks tree gVisor itself, the device drivers, socket options and
    the REST API; the Android application.  What is left is system calls and calls into
    libraries without logic of their own. *)

From stdpp Require Export base list list_numbers gmap strings.
From Stdlib Require Export ZArith Lia.
From Stdlib Require Export Ascii.

#[global] Open Scope Z_scope.

(** ** Results of Go code *)

(** What a call of a Go function does: it returns a value, it returns a non-nil
    [error] (with its message), or it panics.  Functions that return partial
    values beside an error carry them in a record and use [Ret]. *)
Inductive go (A : Type) : Type :=
| Ret (a : A)
| Err (e : string)
| Panic.
Arguments Ret {A} a.
Arguments Err {A} e.
Arguments Panic {A}.

Definition go_bind {A B : Type} (m : go A) (k : A -> go B) : go B :=
  match m with
  | Ret a => k a
  | Err e => Err e
  | Panic => Panic
  end.

Declare Scope go_scope.
Delimit Scope go_scope with go.
Notation "'let!' x ':=' m 'in' k" := (go_bind m (fun x => k))
  (at level 10, x pattern, m at level 100, k at level 200) : go_scope.
#[global] Open Scope go_scope.

(** A guard [if c { return errors.New(e) }] followed by the rest. *)
Definition reject_if {A : Type} (c : bool) (e : string) (k : go A) : go A :=
  if c then Err e else k.

Definition is_ret {A : Type} (m : go A) : bool :=
  match m with Ret _ => true | _ => false end.

Definition is_panic {A : Type} (m : go A) : bool :=
  match m with Panic => true | _ => false end.

(** A loop that maps a fallible body over a slice. *)
Fixpoint go_map {A B : Type} (f : A -> go B) (l : list A) : go (list B) :=
  match l with
  | [] => Ret []
  | x :: l => go_bind (f x) (fun y => go_bind (go_map f l) (fun ys => Ret (y :: ys)))
  end.

Lemma mjoin_cons {A} (x : list A) (l : list (list A)) : mjoin (x :: l) = x ++ mjoin l.
Proof. done. Qed.

Lemma go_map_Ret {A B} (f : A -> go B) (g : A -> B) l :
  (forall x, x ∈ l -> f x = Ret (g x)) -> go_map f l = Ret (g <$> l).
Proof.
  induction l as [|x l IH]; intros H; simpl; [done|].
  rewrite H by constructor. simpl. rewrite IH; [done|]. intros y Hy. apply H. by constructor.
Qed.

Lemma go_bind_Ret {A B} (m : go A) (k : A -> go B) b :
  go_bind m k = Ret b <-> exists a, m = Ret a /\ k a = Ret b.
Proof. destruct m; simpl; naive_solver. Qed.

Lemma go_bind_no_panic {A B} (m : go A) (k : A -> go B) :
  m <> Panic -> (forall a, m = Ret a -> k a <> Panic) -> go_bind m k <> Panic.
Proof. destruct m; simpl; naive_solver. Qed.

(** ** Machine integers *)

Definition u8 (z : Z) : Z := z mod 2 ^ 8.
Definition u16 (z : Z) : Z := z mod 2 ^ 16.
Definition u32 (z : Z) : Z := z mod 2 ^ 32.
Definition u64 (z : Z) : Z := z mod 2 ^ 64.
(** Go's [int] on the 64-bit targets, two's complement. *)
Definition i64 (z : Z) : Z := (z + 2 ^ 63) mod 2 ^ 64 - 2 ^ 63.

Definition is_byte (b : Z) : Prop := 0 <= b < 256.
Abbreviation bytes := (list Z).
Definition bytes_ok (l : bytes) : Prop := Forall is_byte l.

Definition is_byteb (b : Z) : bool := (0 <=? b) && (b <? 256).

Lemma i64_small z : - 2 ^ 63 <= z < 2 ^ 63 -> i64 z = z.
Proof. intros H. unfold i64. rewrite Z.mod_small; lia. Qed.
Lemma i64_add_l x y : i64 (i64 x + y) = i64 (x + y).
Proof.
  unfold i64. f_equal. replace ((x + 2 ^ 63) mod 2 ^ 64 - 2 ^ 63 + y + 2 ^ 63) with ((x + 2 ^ 63) mod 2 ^ 64 + y) by lia.
  rewrite Zplus_mod_idemp_l. f_equal. lia.
Qed.

Lemma u16_small z : 0 <= z < 65536 -> u16 z = z.
Proof. intros H. apply Z.mod_small. lia. Qed.

Lemma u8_range z : 0 <= u8 z < 256.
Proof. apply Z.mod_pos_bound. lia. Qed.

(** ** Slices *)

(** [zlen l] is Go's [len(l)]. *)
Definition zlen {A : Type} (l : list A) : Z := Z.of_nat (length l).

(** [l[i]]: panics out of range. *)
Definition idx {A : Type} (l : list A) (i : Z) : go A :=
  if (i <? 0) then Panic
  else match l !! Z.to_nat i with Some x => Ret x | None => Panic end.

(** [l[i:j]] for a slice whose capacity is its length. *)
Definition slice {A : Type} (l : list A) (i j : Z) : go (list A) :=
  if (0 <=? i) && (i <=? j) && (j <=? zlen l)
  then Ret (take (Z.to_nat (j - i)) (drop (Z.to_nat i) l))
  else Panic.

Definition slice_from {A : Type} (l : list A) (i : Z) : go (list A) := slice l i (zlen l).
Definition slice_to {A : Type} (l : list A) (j : Z) : go (list A) := slice l 0 j.

(** [binary.BigEndian.Uint16(l[i:i+2])]. *)
Definition be16_at (l : bytes) (i : Z) : go Z :=
  let! a := idx l i in
  let! b := idx l (i + 1) in
  Ret (a * 256 + b).

(** [binary.BigEndian.PutUint16] / [AppendUint16] of [uint16(z)]. *)
Definition put16 (z : Z) : bytes := [u16 z / 256; u16 z mod 256].

Definition be16 (a b : Z) : Z := a * 256 + b.

#[global] Arguments put16 : simpl never.
#[global] Arguments zlen : simpl never.
#[global] Arguments idx : simpl never.
#[global] Arguments slice : simpl never.
#[global] Arguments be16_at : simpl never.

Create Rewrite HintDb len.
#[export] Hint Rewrite @length_app @length_take @length_drop @length_fmap @length_replicate
  @length_cons @length_nil : len.

Ltac len := autorewrite with len in *; simpl in *; try lia.

(** Close [exists r, ... = r /\ ...] goals whose witness is computed. *)
Ltac give := eexists; split; [reflexivity|simpl; auto].

(** Case analysis on the boolean comparisons of the goal and the context. *)
Ltac zcase :=
  repeat match goal with
  | H : context [?a <? ?b] |- _ => destruct (Z.ltb_spec a b)
  | H : context [?a <=? ?b] |- _ => destruct (Z.leb_spec a b)
  | H : context [?a =? ?b] |- _ => destruct (Z.eqb_spec a b)
  | |- context [?a <? ?b] => destruct (Z.ltb_spec a b)
  | |- context [?a <=? ?b] => destruct (Z.leb_spec a b)
  | |- context [?a =? ?b] => destruct (Z.eqb_spec a b)
  end.

Lemma zlen_app {A} (l k : list A) : zlen (l ++ k) = zlen l + zlen k.
Proof. unfold zlen. rewrite length_app. lia. Qed.

Lemma zlen_cons {A} (x : A) l : zlen (x :: l) = 1 + zlen l.
Proof. unfold zlen. simpl. lia. Qed.

Lemma zlen_nil {A} : zlen (@nil A) = 0.
Proof. reflexivity. Qed.

Lemma zlen_nonneg {A} (l : list A) : 0 <= zlen l.
Proof. unfold zlen. lia. Qed.

#[export] Hint Rewrite @zlen_app @zlen_cons @zlen_nil : len.

Lemma idx_Ret {A} (l : list A) i x :
  idx l i = Ret x <-> 0 <= i /\ l !! Z.to_nat i = Some x.
Proof.
  unfold idx. destruct (Z.ltb_spec i 0); [naive_solver lia|].
  destruct (l !! Z.to_nat i); naive_solver.
Qed.

Lemma idx_in_range {A} (l : list A) i :
  0 <= i < zlen l -> exists x, idx l i = Ret x /\ l !! Z.to_nat i = Some x.
Proof.
  intros H. destruct (lookup_lt_is_Some_2 l (Z.to_nat i)) as [x Hx]; [unfold zlen in H; lia|].
  exists x. split; [|done]. apply idx_Ret. lia || (split; [lia|done]).
Qed.

Lemma idx_out_of_range {A} (l : list A) i : i < 0 \/ zlen l <= i -> idx l i = Panic.
Proof.
  intros H. unfold idx. destruct (Z.ltb_spec i 0); [done|].
  rewrite lookup_ge_None_2; [done|]. unfold zlen in H. lia.
Qed.

Lemma slice_Ret {A} (l : list A) i j r :
  slice l i j = Ret r <->
  0 <= i <= j /\ j <= zlen l /\ r = take (Z.to_nat (j - i)) (drop (Z.to_nat i) l).
Proof.
  unfold slice. destruct (Z.leb_spec 0 i), (Z.leb_spec i j), (Z.leb_spec j (zlen l)); simpl;
    naive_solver lia.
Qed.

Lemma slice_in_range {A} (l : list A) i j :
  0 <= i <= j -> j <= zlen l ->
  slice l i j = Ret (take (Z.to_nat (j - i)) (drop (Z.to_nat i) l)).
Proof. intros. apply slice_Ret. done. Qed.

Lemma length_slice {A} (l : list A) i j r :
  slice l i j = Ret r -> zlen r = j - i.
Proof.
  intros (H1 & H2 & ->)%slice_Ret. unfold zlen in *. rewrite length_take, length_drop. lia.
Qed.

Lemma slice_split {A} (l : list A) i r s :
  slice_to l i = Ret r -> slice_from l i = Ret s -> r ++ s = l.
Proof.
  intros (H1 & H2 & ->)%slice_Ret (H3 & H4 & ->)%slice_Ret.
  rewrite Z.sub_0_r. change (Z.to_nat 0) with 0%nat. rewrite drop_0.
  rewrite (take_ge (drop _ _)) by (rewrite length_drop; unfold zlen; lia).
  apply take_drop.
Qed.

Lemma be16_at_in_range l i :
  bytes_ok l -> 0 <= i -> i + 2 <= zlen l ->
  exists v, be16_at l i = Ret v /\ 0 <= v < 65536.
Proof.
  intros Hok H1 H2. unfold be16_at.
  destruct (idx_in_range l i) as (a & -> & Ha); [lia|].
  destruct (idx_in_range l (i + 1)) as (b & -> & Hb); [lia|]. simpl.
  eexists; split; [done|].
  pose proof (Forall_lookup_1 _ _ _ _ Hok Ha) as Wa.
  pose proof (Forall_lookup_1 _ _ _ _ Hok Hb) as Wb.
  unfold is_byte in *. lia.
Qed.

(** Reading at a known position of a concatenation. *)
Lemma idx_app {A} (l pre post : list A) x i :
  l = pre ++ x :: post -> i = zlen pre -> idx l i = Ret x.
Proof.
  intros -> ->. apply idx_Ret. split; [apply zlen_nonneg|].
  unfold zlen. rewrite Nat2Z.id. by rewrite list_lookup_middle.
Qed.

Lemma be16_at_app (l pre post : bytes) z i :
  l = pre ++ put16 z ++ post -> i = zlen pre -> be16_at l i = Ret (u16 z).
Proof.
  intros -> ->. unfold be16_at, put16.
  rewrite (idx_app _ pre (u16 z mod 256 :: post) (u16 z / 256)) by done. simpl.
  rewrite (idx_app _ (pre ++ [u16 z / 256]) post (u16 z mod 256))
    by solve [by rewrite <- app_assoc | len].
  simpl. f_equal. pose proof (Z.div_mod (u16 z) 256). lia.
Qed.

Lemma slice_app {A} (l pre mid post : list A) i j :
  l = pre ++ mid ++ post -> i = zlen pre -> j = zlen pre + zlen mid -> slice l i j = Ret mid.
Proof.
  intros -> -> ->. apply slice_Ret. split_and!; try (len; unfold zlen; lia).
  replace (zlen pre + zlen mid - zlen pre) with (zlen mid) by lia.
  unfold zlen. rewrite !Nat2Z.id. by rewrite drop_app_length, take_app_length.
Qed.

Lemma length_put16 z : zlen (put16 z) = 2.
Proof. done. Qed.
#[export] Hint Rewrite length_put16 : len.

(** [hi<<8 | lo] is the big-endian sum. *)
Lemma lor_shiftl8 hi lo : 0 <= lo < 256 -> Z.lor (Z.shiftl hi 8) lo = hi * 256 + lo.
Proof.
  intros H. pose proof (Z.add_lor_land (Z.shiftl hi 8) lo) as L.
  assert (Z.land (Z.shiftl hi 8) lo = 0) as E.
  { apply Z.bits_inj. intros n. rewrite Z.land_spec, Z.bits_0.
    destruct (Z.ltb_spec n 0); [by rewrite Z.testbit_neg_r|].
    destruct (Z.ltb_spec n 8); [by rewrite Z.shiftl_spec_low|].
    rewrite <- (Z.mod_small lo (2 ^ 8)) by lia.
    rewrite (Z.mod_pow2_bits_high lo 8 n) by lia. by rewrite andb_false_r. }
  rewrite E, Z.shiftl_mul_pow2 in L by lia. rewrite Z.shiftl_mul_pow2 by lia. lia.
Qed.

Lemma put16_ok z : bytes_ok (put16 z).
Proof.
  unfold put16, u16, bytes_ok, is_byte.
  pose proof (Z.mod_pos_bound z (2 ^ 16) eq_refl).
  repeat constructor; try apply Z.mod_pos_bound; try lia.
  - apply Z.div_pos; lia.
  - apply Z.div_lt_upper_bound; lia.
Qed.

Lemma put16_be16 z a b : put16 z = [a; b] -> be16 a b = u16 z.
Proof. unfold put16, be16. intros [= <- <-]. pose proof (Z.div_mod (u16 z) 256). lia. Qed.

(** Bytes as characters of a Go string and back. *)
Definition byte_char (b : Z) : Ascii.ascii := Ascii.ascii_of_N (Z.to_N b).
Definition char_byte (c : Ascii.ascii) : Z := Z.of_N (Ascii.N_of_ascii c).

(** [string(b)] and [[]byte(s)]. *)
Fixpoint string_of_bytes (l : bytes) : string :=
  match l with
  | [] => EmptyString
  | b :: l => String (byte_char b) (string_of_bytes l)
  end.

Fixpoint bytes_of_string (s : string) : bytes :=
  match s with
  | EmptyString => []
  | String c s => char_byte c :: bytes_of_string s
  end.

Lemma char_byte_range c : is_byte (char_byte c).
Proof.
  unfold is_byte, char_byte. pose proof (Ascii.N_ascii_bounded c). lia.
Qed.

Lemma byte_char_byte c : byte_char (char_byte c) = c.
Proof. unfold byte_char, char_byte. rewrite N2Z.id. apply Ascii.ascii_N_embedding. Qed.

Lemma char_byte_char b : is_byte b -> char_byte (byte_char b) = b.
Proof.
  intros [H1 H2]. unfold byte_char, char_byte. rewrite Ascii.N_ascii_embedding; lia.
Qed.

Lemma bytes_of_string_ok s : bytes_ok (bytes_of_string s).
Proof. induction s; constructor; auto using char_byte_range. Qed.

Lemma string_of_bytes_of_string s : string_of_bytes (bytes_of_string s) = s.
Proof. induction s; simpl; [done|]. by rewrite byte_char_byte, IHs. Qed.

Lemma bytes_of_string_of_bytes l : bytes_ok l -> bytes_of_string (string_of_bytes l) = l.
Proof. induction 1; simpl; [done|]. by rewrite char_byte_char, IHForall. Qed.

#[global] Instance bytes_of_string_inj : Inj (=) (=) bytes_of_string.
Proof.
  intros s t H. rewrite <- (string_of_bytes_of_string s), <- (string_of_bytes_of_string t).
  by rewrite H.
Qed.

(** Congruent numbers less than the modulus apart are equal. *)
Lemma mod_cong_small a b m : 0 < m -> a mod m = b mod m -> - m < a - b < m -> a = b.
Proof.
  intros Hm E H. pose proof (Z.div_mod a m ltac:(lia)) as Ha. pose proof (Z.div_mod b m ltac:(lia)) as Hb.
  assert (a - b = m * (a / m - b / m)) as D by lia. rewrite D in H.
  assert (a / m - b / m = 0) as D0 by (set (q := a / m - b / m) in *; nia). rewrite D0 in D. lia.
Qed.
