(* ===== verification/GoStrings.v ===== *)
(** * The string functions of the Go standard library the sources use

    Go strings are byte sequences; here a [string] is a list of 8-bit characters.
    Decimal formatting and parsing (strconv), the [strings] helpers and
    [net.JoinHostPort].  [ToLower] and [ToUpper] map the ASCII letters and leave
    other bytes alone, which is what Go does on ASCII strings. *)

From S2P Require Import Prelude.

(** ** Decimal digits (strconv.Itoa, FormatInt, FormatUint) *)

Fixpoint dec_digits (fuel : nat) (n : Z) : bytes :=
  match fuel with
  | O => []
  | S fuel => if n <? 10 then [48 + n] else dec_digits fuel (n / 10) ++ [48 + n mod 10]
  end.

(** As many rounds as bits: the decimal digits are never more. *)
Definition format_uint (n : Z) : bytes := dec_digits (S (Z.to_nat (Z.log2 n))) n.

Definition Itoa (z : Z) : string :=
  if z <? 0 then String "-"%char (string_of_bytes (format_uint (- z)))
  else string_of_bytes (format_uint z).

Definition is_digit (c : Z) : bool := (48 <=? c) && (c <=? 57).

(** The value of a digit string, digits read left to right. *)
Definition dec_value (ds : bytes) : Z := fold_left (fun a c => a * 10 + (c - 48)) ds 0.

Lemma dec_value_snoc ds c : dec_value (ds ++ [c]) = dec_value ds * 10 + (c - 48).
Proof. unfold dec_value. by rewrite fold_left_app. Qed.

Lemma dec_digits_spec fuel : forall n, 0 <= n < 2 ^ Z.of_nat fuel -> (0 < fuel)%nat ->
  dec_value (dec_digits fuel n) = n /\ forallb is_digit (dec_digits fuel n) = true /\
  dec_digits fuel n <> [].
Proof.
  induction fuel as [|fuel IH]; intros n Hn Hf; [lia|]. cbn [dec_digits].
  destruct (Z.ltb_spec n 10).
  - unfold dec_value, is_digit. simpl. split_and!; [lia|lia|done].
  - pose proof (Z.div_mod n 10 ltac:(lia)). pose proof (Z.mod_pos_bound n 10 ltac:(lia)).
    assert (0 <= n / 10 < 2 ^ Z.of_nat fuel) as Hq.
    { split; [apply Z.div_pos; lia|]. apply Z.div_lt_upper_bound; [lia|].
      rewrite Nat2Z.inj_succ, Z.pow_succ_r in Hn by lia. lia. }
    destruct fuel as [|fuel]; [simpl in Hq; lia|].
    destruct (IH (n / 10) Hq ltac:(lia)) as (E1 & E2 & E3).
    rewrite dec_value_snoc, forallb_app, E1, E2. unfold is_digit. simpl.
    split_and!; [lia|lia|]. by intros [_ ?]%app_nil.
Qed.

Lemma format_uint_spec n : 0 <= n ->
  dec_value (format_uint n) = n /\ forallb is_digit (format_uint n) = true /\
  format_uint n <> [].
Proof.
  intros Hn. unfold format_uint. apply dec_digits_spec; [|lia].
  split; [done|]. rewrite Nat2Z.inj_succ, Z2Nat.id by apply Z.log2_nonneg.
  destruct (decide (n = 0)) as [->|]; [done|]. apply Z.log2_spec. lia.
Qed.

Lemma format_uint_inj m n : 0 <= m -> 0 <= n -> format_uint m = format_uint n -> m = n.
Proof.
  intros Hm Hn E. destruct (format_uint_spec m Hm) as [<- _].
  destruct (format_uint_spec n Hn) as [<- _]. by rewrite E.
Qed.

Lemma digits_bytes_ok ds : forallb is_digit ds = true -> bytes_ok ds.
Proof.
  intros H. apply Forall_forall. intros c Hc%list_elem_of_In.
  apply (proj1 (forallb_forall _ _) H) in Hc. unfold is_digit, is_byte in *. lia.
Qed.

(** ** strings *)

Fixpoint HasPrefix (s p : string) : bool :=
  match p, s with
  | EmptyString, _ => true
  | String c p, String d s => Ascii.eqb c d && HasPrefix s p
  | _, EmptyString => false
  end.

Fixpoint sdrop (n : nat) (s : string) : string :=
  match n, s with
  | S n, String _ s => sdrop n s
  | _, _ => s
  end.

Fixpoint stake (n : nat) (s : string) : string :=
  match n, s with
  | S n, String c s => String c (stake n s)
  | _, _ => EmptyString
  end.

(** [strings.Contains(s, sub)]. *)
Fixpoint Contains (s sub : string) : bool :=
  HasPrefix s sub || match s with EmptyString => false | String _ s => Contains s sub end.

(** [strings.IndexByte(s, c)] as an option; [strings.LastIndexByte] likewise. *)
Fixpoint IndexByte (s : string) (c : Ascii.ascii) : option nat :=
  match s with
  | EmptyString => None
  | String d s => if Ascii.eqb c d then Some 0%nat else S <$> IndexByte s c
  end.

Fixpoint LastIndexByte (s : string) (c : Ascii.ascii) : option nat :=
  match s with
  | EmptyString => None
  | String d s =>
    match LastIndexByte s c with
    | Some n => Some (S n)
    | None => if Ascii.eqb c d then Some 0%nat else None
    end
  end.

(** [strings.TrimSuffix(s, suf)] for a one-character suffix. *)
Definition TrimSuffix1 (s : string) (c : Ascii.ascii) : string :=
  match LastIndexByte s c with
  | Some n => if (S n =? String.length s)%nat then stake n s else s
  | None => s
  end.

(** [strings.Split(s, string(c))]. *)
Fixpoint Split (s : string) (c : Ascii.ascii) : list string :=
  match s with
  | EmptyString => [EmptyString]
  | String d s =>
    if Ascii.eqb c d then EmptyString :: Split s c
    else match Split s c with
         | p :: ps => String d p :: ps
         | [] => [String d EmptyString]
         end
  end.

Fixpoint Join (l : list string) (sep : string) : string :=
  match l with
  | [] => EmptyString
  | [s] => s
  | s :: l => (s +:+ sep +:+ Join l sep)%string
  end.

Definition lower_char (c : Ascii.ascii) : Ascii.ascii :=
  let b := char_byte c in
  if (65 <=? b) && (b <=? 90) then byte_char (b + 32) else c.
Definition upper_char (c : Ascii.ascii) : Ascii.ascii :=
  let b := char_byte c in
  if (97 <=? b) && (b <=? 122) then byte_char (b - 32) else c.

Fixpoint smap (f : Ascii.ascii -> Ascii.ascii) (s : string) : string :=
  match s with
  | EmptyString => EmptyString
  | String c s => String (f c) (smap f s)
  end.

Definition ToLower : string -> string := smap lower_char.
Definition ToUpper : string -> string := smap upper_char.

Lemma lower_char_idem c : lower_char (lower_char c) = lower_char c.
Proof. by destruct c as [[] [] [] [] [] [] [] []]; vm_compute. Qed.

Lemma ToLower_idem s : ToLower (ToLower s) = ToLower s.
Proof.
  unfold ToLower. induction s as [|c s IH]; simpl; [done|]. by rewrite lower_char_idem, IH.
Qed.

Lemma ToLower_empty s : ToLower s = EmptyString <-> s = EmptyString.
Proof. by destruct s. Qed.

(** [net.JoinHostPort(host, port)]. *)
Definition JoinHostPort (host port : string) : string :=
  if Contains host ":" then ("[" +:+ host +:+ "]:" +:+ port)%string
  else (host +:+ ":" +:+ port)%string.

(** ** Concatenation *)

Lemma sapp_cons (x : Ascii.ascii) (a b : string) : (String x a +:+ b = String x (a +:+ b))%string.
Proof. done. Qed.

Lemma sapp_nil (b : string) : ("" +:+ b = b)%string.
Proof. done. Qed.

Create Rewrite HintDb sapp.
#[export] Hint Rewrite sapp_cons sapp_nil : sapp.

Lemma sapp_assoc (a b c : string) : ((a +:+ b) +:+ c = a +:+ b +:+ c)%string.
Proof. induction a as [|x a IH]; autorewrite with sapp; simpl; [done|]. by rewrite IH. Qed.

Lemma slength_app (a b : string) : String.length (a +:+ b) = (String.length a + String.length b)%nat.
Proof. induction a as [|x a IH]; autorewrite with sapp; simpl; [done|]. by rewrite IH. Qed.

Lemma sapp_nil_r (a : string) : (a +:+ "" = a)%string.
Proof. induction a as [|x a IH]; autorewrite with sapp; simpl; [done|]. by rewrite IH. Qed.

Lemma bytes_of_string_app (a b : string) :
  bytes_of_string (a +:+ b) = bytes_of_string a ++ bytes_of_string b.
Proof. induction a as [|x a IH]; autorewrite with sapp; simpl; [done|]. by rewrite IH. Qed.

Lemma string_of_bytes_app (a b : bytes) :
  string_of_bytes (a ++ b) = (string_of_bytes a +:+ string_of_bytes b)%string.
Proof. induction a as [|x a IH]; autorewrite with sapp; simpl; [done|]. by rewrite IH. Qed.
