(* ===== verification/GoTime.v ===== *)
(** * Durations of the Go standard library (package time)

    [time.ParseDuration] and [Duration.String]; a duration is its number of
    nanoseconds.  The fractional part of a parsed duration goes through float64,
    modelled by the IEEE 754 operations of SpecFloat (53 bits, round to nearest
    even). *)

From S2P Require Import Prelude GoStrings.
From Stdlib Require Import SpecFloat.

(** ** float64 *)

Definition prec : Z := 53.
Definition emax : Z := 1024.

Definition f64 : Type := spec_float.
Definition f_of_Z (z : Z) : f64 := binary_normalize prec emax z 0 false.
Definition f_add : f64 -> f64 -> f64 := SFadd prec emax.
Definition f_sub : f64 -> f64 -> f64 := SFsub prec emax.
Definition f_mul : f64 -> f64 -> f64 := SFmul prec emax.
Definition f_div : f64 -> f64 -> f64 := SFdiv prec emax.
Definition f_lt (x y : f64) : bool := SFltb x y.
Definition f_eqb (x y : f64) : bool := SFeqb x y.

(** Conversion of a finite float to an integer: truncation toward zero. *)
Definition f_trunc (x : f64) : Z :=
  match x with
  | S754_finite s m e =>
    let v := if 0 <=? e then Z.pos m * 2 ^ e else Z.pos m / 2 ^ (- e) in
    if s then - v else v
  | _ => 0
  end.

(** ** ParseDuration *)

Definition Nanosecond : Z := 1.
Definition Microsecond : Z := 1000.
Definition Millisecond : Z := 1000000.
Definition Second : Z := 1000000000.
Definition Minute : Z := 60 * Second.
Definition Hour : Z := 60 * Minute.

(** [unitMap]; the two spellings of the micro sign in UTF-8. *)
Definition unitMap (u : bytes) : option Z :=
  if decide (u = bytes_of_string "ns") then Some Nanosecond
  else if decide (u = bytes_of_string "us") then Some Microsecond
  else if decide (u = [0xC2; 0xB5; 115]) then Some Microsecond
  else if decide (u = [0xCE; 0xBC; 115]) then Some Microsecond
  else if decide (u = bytes_of_string "ms") then Some Millisecond
  else if decide (u = bytes_of_string "s") then Some Second
  else if decide (u = bytes_of_string "m") then Some Minute
  else if decide (u = bytes_of_string "h") then Some Hour
  else None.

(** [leadingInt]: [None] on overflow. *)
Fixpoint leadingInt (s : bytes) (x : Z) : option (Z * bytes) :=
  match s with
  | c :: s' =>
    if is_digit c then
      if 2 ^ 63 / 10 <? x then None
      else let y := x * 10 + (c - 48) in
           if 2 ^ 63 <? y then None else leadingInt s' y
    else Some (x, s)
  | [] => Some (x, [])
  end.

Fixpoint leadingFraction (s : bytes) (x : Z) (scale : f64) (overflow : bool) : Z * f64 * bytes :=
  match s with
  | c :: s' =>
    if is_digit c then
      if overflow then leadingFraction s' x scale true
      else if (2 ^ 63 - 1) / 10 <? x then leadingFraction s' x scale true
      else let y := x * 10 + (c - 48) in
           if 2 ^ 63 <? y then leadingFraction s' x scale true
           else leadingFraction s' y (f_mul scale (f_of_Z 10)) false
    else (x, scale, s)
  | [] => (x, scale, [])
  end.

Definition is_num (c : Z) : bool := (c =? 46) || is_digit c.

Fixpoint span_unit (s : bytes) : bytes * bytes :=
  match s with
  | c :: s' => if is_num c then ([], s) else let (u, r) := span_unit s' in (c :: u, r)
  | [] => ([], [])
  end.

(** One "number unit" element: its value in nanoseconds and the rest. *)
Definition duration_part (s : bytes) : option (Z * bytes) :=
  match s with
  | [] => None
  | c :: _ =>
    if negb (is_num c) then None
    else
      '(v, s1) ← leadingInt s 0;
      let pre := negb (zlen s =? zlen s1) in
      let '(f, scale, s2, post) :=
        match s1 with
        | 46 :: s1' =>
          let '(f, scale, r) := leadingFraction s1' 0 (f_of_Z 1) false in
          (f, scale, r, negb (zlen s1' =? zlen r))
        | _ => (0, f_of_Z 1, s1, false)
        end in
      if negb pre && negb post then None
      else
        let (u, s3) := span_unit s2 in
        unit ← unitMap u;
        if 2 ^ 63 / unit <? v then None
        else
          let v := v * unit in
          let v := if 0 <? f then u64 (v + f_trunc (f_mul (f_of_Z f) (f_div (f_of_Z unit) scale))) else v in
          if 2 ^ 63 <? v then None else Some (v, s3)
  end.

Fixpoint duration_loop (fuel : nat) (s : bytes) (d : Z) : option Z :=
  match s with
  | [] => Some d
  | _ =>
    match fuel with
    | O => None
    | S fuel =>
      '(v, s) ← duration_part s;
      let d := d + v in
      if 2 ^ 63 <? d then None else duration_loop fuel s d
    end
  end.

(** Every element uses at least one byte. *)
Definition parse_duration (s : bytes) : option Z :=
  let (neg, s) := match s with
                  | 45 :: s => (true, s)
                  | 43 :: s => (false, s)
                  | _ => (false, s)
                  end in
  if decide (s = [48]) then Some 0
  else if decide (s = []) then None
  else
    d ← duration_loop (length s) s 0;
    if (neg : bool) then Some (- d)
    else if 2 ^ 63 - 1 <? d then None else Some d.

Definition ParseDuration (s : string) : option Z := parse_duration (bytes_of_string s).

(** ** Duration.String *)

(** fmtFrac: the fraction of [u] at [prec] decimals without trailing zeros, and the
    integral part. *)
Fixpoint fmtFrac (n : nat) (u : Z) (print : bool) : bytes * Z :=
  match n with
  | O => ([], u)
  | S n =>
    let digit := u mod 10 in
    let print := print || negb (digit =? 0) in
    let (r, v) := fmtFrac n (u / 10) print in
    (r ++ (if print then [48 + digit] else []), v)
  end.

Definition frac (n : nat) (u : Z) : bytes * Z :=
  let (f, v) := fmtFrac n u false in ((if zlen f =? 0 then [] else 46 :: f), v).

Definition duration_bytes (d : Z) : bytes :=
  let u := Z.abs d in
  let sign := if d <? 0 then [45] else [] in
  if u <? Second then
    if u =? 0 then [48; 115]
    else if u <? Microsecond then sign ++ format_uint u ++ [110; 115]
    else if u <? Millisecond then
      let (f, v) := frac 3 u in sign ++ format_uint v ++ f ++ [0xC2; 0xB5; 115]
    else let (f, v) := frac 6 u in sign ++ format_uint v ++ f ++ [109; 115]
  else
    let (f, v) := frac 9 u in
    let m := v / 60 in
    let h := m / 60 in
    sign ++ (if 0 <? h then format_uint h ++ [104] else []) ++
    (if 0 <? m then format_uint (m mod 60) ++ [109] else []) ++
    format_uint (v mod 60) ++ f ++ [115].

Definition DurationString (d : Z) : string := string_of_bytes (duration_bytes d).
