(* ===== verification/GoState.v ===== *)
(** * State and errors

    Operations on a state of type [T] that return, fail or panic: the shape of the
    handlers that own a connection and change it step by step. *)

From S2P Require Import Prelude.

Definition St (T A : Type) : Type := T -> go A * T.

Section ops.
Context {T : Type}.

Definition stret {A} (a : A) : St T A := fun s => (Ret a, s).
Definition stfail {A} (e : string) : St T A := fun s => (Err e, s).
Definition stlift {A} (m : go A) : St T A := fun s => (m, s).
Definition stbind {A B} (m : St T A) (k : A -> St T B) : St T B := fun s =>
  match m s with
  | (Ret a, s) => k a s
  | (Err e, s) => (Err e, s)
  | (Panic, s) => (Panic, s)
  end.
End ops.

Declare Scope state_scope.
Delimit Scope state_scope with state.
Notation "x <~ m ; k" := (stbind m (fun x => k))
  (at level 100, m at level 90, k at level 200, right associativity) : state_scope.
Notation "m ~; k" := (stbind m (fun _ => k)) (at level 100, k at level 200, right associativity) : state_scope.
#[global] Open Scope state_scope.
