(* ===== verification/Conn.v ===== *)
(** * Connections as traces

    The code under src/internal drives a [net.Conn] by sends, urgent sends
    (MSG_OOB), sleeps and closes.  A run is a state transformer on the trace of
    what went out; whether a send fails is decided by an environment that sees
    the trace so far. *)

From S2P Require Import Prelude.

Inductive event :=
| EvWrite (b : bytes)            (* conn.Write(b) that succeeded *)
| EvOOB (b : bytes) (oob : Z)    (* sendWithOOB(conn, b, oob) that succeeded *)
| EvSleep (d : Z)                (* time.Sleep(d) *)
| EvClose.                       (* conn.Close() *)

(** [fail tr ev] is the error of performing [ev] after the trace [tr]; a failing
    send puts nothing on the wire. *)
Class Env := env_fail : list event -> event -> option string.

(** Effects on one connection. *)
Definition net (A : Type) : Type := list event -> go A * list event.

Definition nret {A} (a : A) : net A := fun tr => (Ret a, tr).
Definition nbind {A B} (m : net A) (k : A -> net B) : net B := fun tr =>
  match m tr with
  | (Ret a, tr) => k a tr
  | (Err e, tr) => (Err e, tr)
  | (Panic, tr) => (Panic, tr)
  end.
Definition nlift {A} (m : go A) : net A := fun tr => (m, tr).

Declare Scope net_scope.
Delimit Scope net_scope with net.
Notation "'do!' x ':=' m 'in' k" := (nbind m (fun x => k))
  (at level 10, x pattern, m at level 100, k at level 200) : net_scope.
Notation "m ;! k" := (nbind m (fun _ => k)) (at level 100, k at level 200, right associativity)
  : net_scope.
#[global] Open Scope net_scope.

(** src/internal/utils.go, [wrap(msg, cause)]: the message of the wrapped error. *)
Definition wrap (msg cause : string) : string := (msg +:+ ": " +:+ cause)%string.

Section ops.
Context {env : Env}.

(** Perform one event, mapping its error message. *)
Definition perform (f : string -> string) (ev : event) : net unit := fun tr =>
  match env_fail tr ev with
  | Some e => (Err (f e), tr)
  | None => (Ret tt, tr ++ [ev])
  end.

Definition write (f : string -> string) (b : bytes) : net unit := perform f (EvWrite b).
Definition send_oob (f : string -> string) (b : bytes) (oob : Z) : net unit :=
  perform f (EvOOB b oob).
(** Sleeping cannot fail. *)
Definition sleep (d : Z) : net unit := fun tr => (Ret tt, tr ++ [EvSleep d]).
(** [if interval > 0 { time.Sleep(interval) }]. *)
Definition sleep_if (interval : Z) : net unit :=
  if 0 <? interval then sleep interval else nret tt.

(** [for i, x := range l { body }], from index [i]. *)
Fixpoint nfor {A} (i : Z) (l : list A) (body : Z -> A -> net unit) : net unit :=
  match l with
  | [] => nret tt
  | x :: l => body i x ;! nfor (i + 1) l body
  end.
End ops.

(** The environment in which every send succeeds. *)
Definition reliable : Env := fun _ _ => None.

Definition is_oob (e : event) : bool := match e with EvOOB _ _ => true | _ => false end.

(** What the peer's TCP stream delivers.  Of several urgent sends only the last
    one's urgent byte stays out of band: each new urgent pointer turns the byte
    marked before it into ordinary stream data. *)
Fixpoint delivered (evs : list event) : bytes :=
  match evs with
  | [] => []
  | EvWrite b :: evs => b ++ delivered evs
  | EvOOB b o :: evs => b ++ (if existsb is_oob evs then [o] else []) ++ delivered evs
  | _ :: evs => delivered evs
  end.

Lemma delivered_no_oob evs evs' :
  existsb is_oob evs' = false -> delivered (evs ++ evs') = delivered evs ++ delivered evs'.
Proof.
  intros H. induction evs as [|[b|b o|d|] evs IH]; simpl; rewrite ?IH, ?app_assoc; try done.
  rewrite existsb_app, H, orb_false_r. by rewrite <- !app_assoc.
Qed.

Lemma nbind_nret {A B} (m : net A) (k : A -> net B) tr a tr' :
  m tr = (Ret a, tr') -> nbind m k tr = k a tr'.
Proof. intros H. unfold nbind. by rewrite H. Qed.

Lemma nbind_lift {A B} (a : A) (k : A -> net B) tr : nbind (nlift (Ret a)) k tr = k a tr.
Proof. done. Qed.

Lemma nbind_ret {A B} (a : A) (k : A -> net B) tr : nbind (nret a) k tr = k a tr.
Proof. done. Qed.
