(* ===== verification/GoIO.v ===== *)
(** * Reading from a byte stream (Go's io package)

    A reader whose bytes are known: what it will still deliver before it ends.  The code
    that only uses [io.ReadFull] cannot see how the bytes arrive in segments. *)

From S2P Require Import Prelude GoState.

(** [io.ReadFull(r, buf)] with [n = len(buf)]: the bytes read and what is left. *)
Definition ReadFull (n : Z) (r : bytes) : go bytes * bytes :=
  if n <=? zlen r then (Ret (take (Z.to_nat n) r), drop (Z.to_nat n) r)
  else (Err (if zlen r =? 0 then "EOF" else "unexpected EOF"), []).

Lemma ReadFull_app n a b : zlen a = n -> ReadFull n (a ++ b) = (Ret a, b).
Proof.
  intros <-. unfold ReadFull. rewrite zlen_app. pose proof (zlen_nonneg b).
  rewrite (proj2 (Z.leb_le _ _)) by lia. unfold zlen. rewrite Nat2Z.id.
  by rewrite take_app_length, drop_app_length.
Qed.

Lemma ReadFull_eof n : 0 < n -> ReadFull n [] = (Err "EOF", []).
Proof. intros H. unfold ReadFull. change (zlen []) with 0. by rewrite (proj2 (Z.leb_gt _ _)). Qed.

(** ** Little-endian counters *)

(** The [n] bytes of [z] modulo [256 ^ n], least significant first. *)
Fixpoint le_bytes (n : nat) (z : Z) : bytes :=
  match n with
  | O => []
  | S n => z mod 256 :: le_bytes n (z / 256)
  end.

Lemma length_le_bytes n : forall z, length (le_bytes n z) = n.
Proof. induction n; intros; simpl; auto. Qed.

Lemma le_bytes_inj n : forall a b, le_bytes n a = le_bytes n b -> a mod 256 ^ Z.of_nat n = b mod 256 ^ Z.of_nat n.
Proof.
  induction n as [|n IH]; intros a b E; [by rewrite !Z.mod_1_r|].
  simpl in E. injection E as E1 E2. apply IH in E2.
  rewrite Nat2Z.inj_succ, Z.pow_succ_r, !Z.rem_mul_r by lia. by rewrite E1, E2.
Qed.

(** ** Segments

    Where the code also calls [Conn.Read], how the bytes arrive matters: the input is the
    list of segments still to come, and one [Read] sees the bytes of one segment. *)

(** [conn.Read(b)] with [k = len(b)]. *)
Definition seg_read (k : Z) (segs : list bytes) : go bytes * list bytes :=
  match segs with
  | [] => (Err "EOF", [])
  | s :: ss =>
    (Ret (take (Z.to_nat k) s), if zlen s <=? k then ss else drop (Z.to_nat k) s :: ss)
  end.

(** The segments after the first [n] bytes were taken. *)
Fixpoint seg_drop (n : nat) (segs : list bytes) : list bytes :=
  match segs with
  | [] => []
  | s :: ss => if (n <? length s)%nat then drop n s :: ss else seg_drop (n - length s) ss
  end.

(** [io.ReadFull] over segments. *)
Definition seg_ReadFull (n : Z) (segs : list bytes) : go bytes * list bytes :=
  match ReadFull n (mjoin segs) with
  | (Ret b, _) => (Ret b, seg_drop (Z.to_nat n) segs)
  | (e, _) => (e, [])
  end.

Definition segs_ok (segs : list bytes) : Prop := Forall (fun s => s <> []) segs.

Lemma seg_drop_ok segs : segs_ok segs -> forall n, segs_ok (seg_drop n segs).
Proof.
  induction 1 as [|s ss Hs Hss IH]; intros n; cbn [seg_drop]; [constructor|].
  destruct (Nat.ltb_spec n (length s)); [|apply IH]. constructor; [|done].
  intros E%(f_equal length). rewrite length_drop in E. simpl in E. lia.
Qed.

Lemma mjoin_seg_drop segs : forall n, mjoin (seg_drop n segs) = drop n (mjoin segs).
Proof.
  induction segs as [|s ss IH]; intros n; cbn [seg_drop]; [by destruct n|].
  rewrite mjoin_cons. destruct (Nat.ltb_spec n (length s)).
  - by rewrite mjoin_cons, drop_app_le by lia.
  - by rewrite IH, drop_app_ge by lia.
Qed.

Lemma seg_ReadFull_app n segs a b : segs_ok segs -> mjoin segs = a ++ b -> zlen a = n ->
  exists segs', seg_ReadFull n segs = (Ret a, segs') /\ segs_ok segs' /\ mjoin segs' = b.
Proof.
  intros Hs E Hn. exists (seg_drop (Z.to_nat n) segs). unfold seg_ReadFull. rewrite E, ReadFull_app by done.
  split; [done|]. split; [by apply seg_drop_ok|]. rewrite mjoin_seg_drop, E, <- Hn. unfold zlen.
  by rewrite Nat2Z.id, drop_app_length.
Qed.

Lemma seg_ReadFull_eof n segs : 0 < n -> mjoin segs = [] -> seg_ReadFull n segs = (Err "EOF", []).
Proof. intros Hn E. unfold seg_ReadFull. by rewrite E, ReadFull_eof. Qed.

(** A [Read] into a buffer that is not empty returns at least one byte. *)
Lemma seg_read_spec k segs : 1 <= k -> segs_ok segs -> mjoin segs <> [] ->
  exists b segs', seg_read k segs = (Ret b, segs') /\ b <> [] /\ zlen b <= k /\
    b ++ mjoin segs' = mjoin segs /\ segs_ok segs'.
Proof.
  intros Hk Hs Hne. destruct Hs as [|s ss Hs Hss]; [done|]. cbn [seg_read].
  exists (take (Z.to_nat k) s). eexists. split; [done|]. split.
  { destruct s; [done|]. by destruct (Z.to_nat k) eqn:E; [lia|]. }
  split; [unfold zlen; rewrite length_take; lia|]. rewrite mjoin_cons.
  destruct (Z.leb_spec (zlen s) k) as [Hl|Hl]; unfold zlen in Hl.
  - by rewrite take_ge by lia.
  - rewrite mjoin_cons, app_assoc, take_drop. split; [done|]. constructor; [|done].
    intros E%(f_equal length). rewrite length_drop in E. simpl in E. lia.
Qed.

(** ** Sequences of reads *)

(** How a sequence of Read calls ended: all of them returned, or one failed. *)
Inductive ending := More | Failed (e : string) | Panicked.

Fixpoint reads {T} (Read : Z -> St T bytes) (ks : list Z) (r : T) : list bytes * ending :=
  match ks with
  | [] => ([], More)
  | k :: ks =>
    match Read k r with
    | (Ret b, r) => let (outs, e) := reads Read ks r in (b :: outs, e)
    | (Err e, _) => ([], Failed e)
    | (Panic, _) => ([], Panicked)
    end
  end.

(** What a reader promises: in a state that [holds] some bytes, each Read with a buffer
    that is not empty hands out some of them, in order, and with none left it fails with
    [E]. *)
Class Delivers {T} (Read : Z -> St T bytes) (holds : bytes -> T -> Prop) (E : string) : Prop := {
  deliver_step left k r : 1 <= k -> holds left r -> left <> [] ->
    exists out left' r', Read k r = (Ret out, r') /\ out <> [] /\ out ++ left' = left /\ holds left' r';
  deliver_end k r : 1 <= k -> holds [] r -> fst (Read k r) = Err E;
}.

(** Calls with buffers of any sizes return a prefix of what is held; enough of them
    return all of it, and then the error. *)
Lemma reads_deliver {T} (Read : Z -> St T bytes) holds E `{!Delivers Read holds E} ks :
  Forall (fun k => 1 <= k) ks -> forall left r, holds left r ->
  mjoin (fst (reads Read ks r)) `prefix_of` left /\
  (zlen left < zlen ks -> mjoin (fst (reads Read ks r)) = left /\ snd (reads Read ks r) = Failed E).
Proof.
  induction 1 as [|k ks Hk _ IH]; intros left r Hr; cbn [reads].
  { split; [apply prefix_nil|]. pose proof (zlen_nonneg left). change (zlen (@nil Z)) with 0. lia. }
  destruct (decide (left = [])) as [->|Hne].
  - pose proof (deliver_end k r Hk Hr) as HR. destruct (Read k r) as [[b|e|] r']; try discriminate HR.
    injection HR as ->. split; [done|]. done.
  - destruct (deliver_step left k r Hk Hr Hne) as (out & left' & r' & -> & Ho & <- & Hr').
    destruct (IH left' r' Hr') as [Hp Hf]. destruct (reads Read ks r') as [outs e]. cbn [fst snd] in *.
    rewrite mjoin_cons. split; [by apply prefix_app|].
    rewrite zlen_app, zlen_cons. intros Hlt. destruct Hf as [-> ->]; [|done].
    assert (1 <= zlen out) by (destruct out; [done|rewrite zlen_cons; pose proof (zlen_nonneg out); lia]). lia.
Qed.
