(* ===== verification/NetIP.v ===== *)
(** * IP addresses of the Go standard library (net/netip and net)

    The parts of [netip.Addr], [netip.Prefix] and [net.IP] that src/internal
    uses: parsing and printing of IPv4 and IPv6 addresses, CIDR prefixes,
    [Contains], [Masked], [Next], and [net.ParseIP].  An address is its number;
    a failed parse is [None] (the sources use the error only as a flag). *)

From S2P Require Import Prelude GoStrings.

(** [netip.Addr]; the zero (invalid) Addr is represented by [None] where the
    sources can meet it. *)
Inductive Addr :=
| Addr4 (v : Z)
| Addr6 (v : Z) (zone : string).

#[global] Instance Addr_eq_dec : EqDecision Addr.
Proof. solve_decision. Defined.

Definition Is4 (a : Addr) : bool := match a with Addr4 _ => true | _ => false end.
Definition BitLen (a : Addr) : Z := match a with Addr4 _ => 32 | Addr6 _ _ => 128 end.
Definition addr_val (a : Addr) : Z := match a with Addr4 v => v | Addr6 v _ => v end.
Definition Zone (a : Addr) : string := match a with Addr4 _ => "" | Addr6 _ z => z end.

Definition addr_ok (a : Addr) : Prop := 0 <= addr_val a < 2 ^ BitLen a.
(** Addresses without a zone, in range. *)
Definition plain (a : Addr) : Prop := addr_ok a /\ Zone a = ""%string.

(** [Addr.Next]: [None] is the zero Addr that follows the last address. *)
Definition Next (a : Addr) : option Addr :=
  match a with
  | Addr4 v => if v + 1 <? 2 ^ 32 then Some (Addr4 (v + 1)) else None
  | Addr6 v z => if v + 1 <? 2 ^ 128 then Some (Addr6 (v + 1) z) else None
  end.

Definition is4in6 (v : Z) : bool := Z.shiftr v 32 =? 0xffff.

(** [Addr.Unmap]. *)
Definition Unmap (a : Addr) : Addr :=
  match a with
  | Addr6 v _ => if is4in6 v then Addr4 (v mod 2 ^ 32) else a
  | _ => a
  end.

(** The [i]-th of the [w]-bit fields of a [n]-field number, most significant first. *)
Definition field (w n i v : Z) : Z := Z.land (Z.shiftr v (w * (n - 1 - i))) (Z.ones w).
Definition octets (v : Z) : list Z := (fun i => field 8 4 i v) <$> [0; 1; 2; 3].
Definition groups (v : Z) : list Z := (fun i => field 16 8 i v) <$> [0; 1; 2; 3; 4; 5; 6; 7].
(** Big-endian value of a list of [w]-bit fields. *)
Definition of_fields (w : Z) (l : list Z) : Z := fold_left (fun a x => a * 2 ^ w + x) l 0.

(** [Addr.As16] as a number: IPv4 addresses in their mapped form. *)
Definition As16 (a : Addr) : Z :=
  match a with Addr4 v => 0xffff * 2 ^ 32 + v | Addr6 v _ => v end.

(** ** Parsing *)

Fixpoint split_byte (c : Z) (s : bytes) : list bytes :=
  match s with
  | [] => [[]]
  | d :: s =>
    if c =? d then [] :: split_byte c s
    else match split_byte c s with
         | p :: ps => (d :: p) :: ps
         | [] => [[d]]
         end
  end.

Fixpoint join_byte (c : Z) (l : list bytes) : bytes :=
  match l with
  | [] => []
  | [p] => p
  | p :: l => p ++ c :: join_byte c l
  end.

(** One field of parseIPv4Fields: digits only, at least one, no leading zero,
    at most 255. *)
Definition octet (p : bytes) : option Z :=
  if forallb is_digit p && negb (zlen p =? 0) &&
     ((zlen p =? 1) || negb (default 0 (head p) =? 48)) && (dec_value p <=? 255)
  then Some (dec_value p) else None.

Definition parseIPv4Fields (s : bytes) : option (list Z) :=
  match split_byte 46 s with
  | [a; b; c; d] =>
    a ← octet a; b ← octet b; c ← octet c; d ← octet d; Some [a; b; c; d]
  | _ => None
  end.

Definition hexval (c : Z) : option Z :=
  if (48 <=? c) && (c <=? 57) then Some (c - 48)
  else if (97 <=? c) && (c <=? 102) then Some (c - 97 + 10)
  else if (65 <=? c) && (c <=? 70) then Some (c - 65 + 10)
  else None.

(** The hex digits at the front of [s] as values, and what follows. *)
Fixpoint span_hex (s : bytes) : list Z * bytes :=
  match s with
  | [] => ([], [])
  | c :: s' =>
    match hexval c with
    | Some d => let (ds, r) := span_hex s' in (d :: ds, r)
    | None => ([], s)
    end
  end.

(** The loop of parseIPv6: [gs] are the 16-bit groups read so far, [ell] the
    number of groups before "::".  It ends with the unread rest of the text. *)
Fixpoint parse6_loop (fuel : nat) (gs : list Z) (ell : option nat) (s : bytes)
    : option (list Z * option nat * bytes) :=
  match fuel with
  | O => None
  | S fuel =>
    if (8 <=? length gs)%nat then Some (gs, ell, s)
    else
      let (ds, r) := span_hex s in
      if (zlen ds =? 0) || (4 <? zlen ds) then None
      else match r with
      | 46 :: _ =>
        if negb (bool_decide (is_Some ell)) && negb (length gs =? 6)%nat then None
        else if (8 <? length gs + 2)%nat then None
        else match parseIPv4Fields s with
             | Some [a; b; c; d] => Some (gs ++ [a * 256 + b; c * 256 + d], ell, [])
             | _ => None
             end
      | [] => Some (gs ++ [of_fields 4 ds], ell, [])
      | [58] => None
      | 58 :: 58 :: r =>
        match ell with
        | Some _ => None
        | None =>
          let gs := gs ++ [of_fields 4 ds] in
          match r with
          | [] => Some (gs, Some (length gs), [])
          | _ => parse6_loop fuel gs (Some (length gs)) r
          end
        end
      | 58 :: r => parse6_loop fuel (gs ++ [of_fields 4 ds]) ell r
      | _ => None
      end
  end.

(** After the loop: the text is used up and "::" stands for at least one group. *)
Definition parse6_finish (r : list Z * option nat * bytes) : option Z :=
  match r with
  | (gs, ell, []) =>
    if (length gs <? 8)%nat then
      match ell with
      | None => None
      | Some e => Some (of_fields 16 (take e gs ++ replicate (8 - length gs) 0 ++ drop e gs))
      end
    else match ell with Some _ => None | None => Some (of_fields 16 gs) end
  | _ => None
  end.

(** parseIPv6 of the text before any zone. *)
Definition parse6 (s : bytes) : option Z :=
  match s with
  | 58 :: 58 :: [] => Some 0
  | 58 :: 58 :: s => r ← parse6_loop 9 [] (Some 0%nat) s; parse6_finish r
  | _ => r ← parse6_loop 9 [] None s; parse6_finish r
  end.

Definition parseIPv6 (s : bytes) : option Addr :=
  match split_byte 37 s with
  | [s] => v ← parse6 s; Some (Addr6 v "")
  | s :: zone =>
    let zone := join_byte 37 zone in
    if zlen zone =? 0 then None
    else v ← parse6 s; Some (Addr6 v (string_of_bytes zone))
  | [] => None
  end.

(** [netip.ParseAddr]: the first of '.', ':' and '%' decides. *)
Fixpoint addr_kind (s : bytes) : option Z :=
  match s with
  | [] => None
  | c :: s => if (c =? 46) || (c =? 58) || (c =? 37) then Some c else addr_kind s
  end.

Definition parse_addr (s : bytes) : option Addr :=
  match addr_kind s with
  | Some 46 => l ← parseIPv4Fields s; Some (Addr4 (of_fields 8 l))
  | Some 58 => parseIPv6 s
  | _ => None
  end.

Definition ParseAddr (s : string) : option Addr := parse_addr (bytes_of_string s).

(** [net.ParseIP], as a 16-byte number. *)
Definition ParseIP (s : string) : option Z :=
  a ← ParseAddr s; if decide (Zone a = "")%string then Some (As16 a) else None.

(** [net.ParseIP(s) == nil]. *)
Definition not_ip (s : string) : bool := match ParseIP s with None => true | Some _ => false end.

(** ** Prefixes *)

Record Prefix := mkPrefix { pAddr : Addr; pBits : Z }.

(** [netip.ParsePrefix]. *)
Definition ParsePrefix (s : string) : option Prefix :=
  i ← LastIndexByte s "/";
  a ← ParseAddr (stake i s);
  let b := bytes_of_string (sdrop (S i) s) in
  if negb (bool_decide (Zone a = "")%string) then None
  else if (1 <? zlen b) && negb ((49 <=? default 0 (head b)) && (default 0 (head b) <=? 57)) then None
  else if negb (forallb is_digit b) || (zlen b =? 0) then None
  else if BitLen a <? dec_value b then None
  else Some (mkPrefix a (dec_value b)).

(** [Prefix.Contains] of a valid prefix. *)
Definition prefix_contains (p : Prefix) (a : Addr) : bool :=
  bool_decide (Zone a = "")%string && Bool.eqb (Is4 (pAddr p)) (Is4 a) &&
  (Z.shiftr (Z.lxor (addr_val a) (addr_val (pAddr p))) (BitLen a - pBits p) =? 0).

(** [Prefix.Masked().Addr()]. *)
Definition Masked (p : Prefix) : Addr :=
  let k := BitLen (pAddr p) - pBits p in
  match pAddr p with
  | Addr4 v => Addr4 (Z.shiftl (Z.shiftr v k) k)
  | Addr6 v _ => Addr6 (Z.shiftl (Z.shiftr v k) k) ""
  end.

(** ** Printing *)

Definition string4 (v : Z) : bytes := join_byte 46 (format_uint <$> octets v).

Definition hexdigit (d : Z) : Z := if d <? 10 then 48 + d else 87 + d.
Definition appendHex (x : Z) : bytes :=
  (if 0x1000 <=? x then [hexdigit (x / 0x1000)] else []) ++
  (if 0x100 <=? x then [hexdigit (x / 0x100 mod 16)] else []) ++
  (if 0x10 <=? x then [hexdigit (x / 0x10 mod 16)] else []) ++
  [hexdigit (x mod 16)].

Fixpoint zero_run (l : list Z) : nat :=
  match l with
  | x :: l => if x =? 0 then S (zero_run l) else 0
  | [] => 0
  end.

(** Start and length of the first longest run of at least two zero groups. *)
Fixpoint best_run (i : nat) (l : list Z) (best : nat * nat) : nat * nat :=
  match l with
  | [] => best
  | _ :: l' =>
    let n := zero_run l in
    best_run (S i) l' (if (2 <=? n)%nat && (snd best <? n)%nat then (i, n) else best)
  end.

Definition hex_join (l : list Z) : bytes := join_byte 58 (appendHex <$> l).

Definition string6 (v : Z) : bytes :=
  if is4in6 v then [58; 58; 102; 102; 102; 102; 58] ++ string4 (v mod 2 ^ 32)
  else
    let g := groups v in
    match best_run 0 g (0, 0)%nat with
    | (_, O) => hex_join g
    | (s, n) => hex_join (take s g) ++ [58; 58] ++ hex_join (drop (s + n) g)
    end.

(** [Addr.String]. *)
Definition addr_bytes (a : Addr) : bytes :=
  match a with
  | Addr4 v => string4 v
  | Addr6 v EmptyString => string6 v
  | Addr6 v z => string6 v ++ 37 :: bytes_of_string z
  end.
Definition AddrString (a : Addr) : string := string_of_bytes (addr_bytes a).

(** [net.IP.String] of a 16-byte address. *)
Definition IPString (ip : Z) : string := AddrString (Unmap (Addr6 ip "")).

#[global] Arguments field : simpl never.
#[global] Arguments of_fields : simpl never.
#[global] Arguments octets : simpl never.
#[global] Arguments groups : simpl never.
#[global] Arguments format_uint : simpl never.
#[global] Arguments appendHex : simpl never.
#[global] Arguments string4 : simpl never.
#[global] Arguments string6 : simpl never.
#[global] Arguments hex_join : simpl never.
#[global] Arguments parse_addr : simpl never.
#[global] Arguments addr_bytes : simpl never.
#[global] Arguments AddrString : simpl never.
#[global] Arguments ParseAddr : simpl never.

(** ** Numbers and their fields *)

Lemma field_div k w n i v : k = w * (n - 1 - i) -> 0 <= w -> 0 <= k ->
  field w n i v = v / 2 ^ k mod 2 ^ w.
Proof. intros -> ? ?. unfold field. by rewrite Z.land_ones, Z.shiftr_div_pow2. Qed.

Lemma field_range w n i v : 0 <= w -> 0 <= field w n i v < 2 ^ w.
Proof.
  intros Hw. unfold field. rewrite Z.land_ones by done. apply Z.mod_pos_bound. lia.
Qed.

(** One more field: the quotient by a shorter power. *)
Lemma div_step v w k k' : k' = k + w -> 0 <= w -> 0 <= k ->
  v / 2 ^ k' * 2 ^ w + v / 2 ^ k mod 2 ^ w = v / 2 ^ k.
Proof.
  intros -> Hw Hk. rewrite Z.pow_add_r, <- Z.div_div by lia.
  pose proof (Z.div_mod (v / 2 ^ k) (2 ^ w) ltac:(lia)). lia.
Qed.

(** The value [v] put together again from its fields. *)
Ltac refold v :=
  repeat match goal with
  | |- context [field ?w ?n ?i v] =>
    let k := eval compute in (w * (n - 1 - i)) in
    rewrite (field_div k w n i v) by done
  end;
  repeat match goal with
  | |- context [v / 2 ^ ?k' * 2 ^ ?w + v / 2 ^ ?k mod 2 ^ ?w] =>
    rewrite (div_step v w k k') by done
  end;
  apply Z.div_1_r.

Lemma of_fields_octets v : 0 <= v < 2 ^ 32 -> of_fields 8 (octets v) = v.
Proof.
  intros H. unfold octets, of_fields. simpl fmap. cbn [fold_left].
  rewrite <- (Z.div_small v (2 ^ 32)) at 1 by done. refold v.
Qed.

Lemma of_fields_groups v : 0 <= v < 2 ^ 128 -> of_fields 16 (groups v) = v.
Proof.
  intros H. unfold groups, of_fields. simpl fmap. cbn [fold_left].
  rewrite <- (Z.div_small v (2 ^ 128)) at 1 by done. refold v.
Qed.

Lemma octets_byte v : Forall is_byte (octets v).
Proof. unfold octets. repeat constructor; apply (field_range 8); lia. Qed.

Lemma groups_u16 v : Forall (fun x => 0 <= x < 65536) (groups v).
Proof. unfold groups. repeat constructor; apply (field_range 16); lia. Qed.

(** ** Round trips *)

Lemma split_byte_free c p : c ∉ p -> split_byte c p = [p].
Proof.
  induction p as [|d p IH]; simpl; [done|]. intros [H1 H2]%not_elem_of_cons.
  destruct (Z.eqb_spec c d); [done|]. by rewrite IH.
Qed.

Lemma split_byte_app c p s : c ∉ p -> split_byte c (p ++ c :: s) = p :: split_byte c s.
Proof.
  induction p as [|d p IH]; simpl; [by rewrite Z.eqb_refl|]. intros [H1 H2]%not_elem_of_cons.
  destruct (Z.eqb_spec c d); [done|]. by rewrite IH.
Qed.

Lemma split_join c l : l <> [] -> Forall (fun p => c ∉ p) l -> split_byte c (join_byte c l) = l.
Proof.
  intros Hl H. induction H as [|p l Hp H IH]; [done|].
  destruct l as [|q l]; [by apply split_byte_free|].
  change (join_byte c (p :: q :: l)) with (p ++ c :: join_byte c (q :: l)).
  rewrite split_byte_app, IH by done. done.
Qed.

Definition bytes_below (n : Z) : list Z := seqZ 0 n.

Lemma forall_below (n : Z) (P : Z -> bool) :
  forallb P (bytes_below n) = true -> forall x, 0 <= x < n -> P x = true.
Proof.
  intros H x Hx. apply (proj1 (forallb_forall _ _) H). apply list_elem_of_In, elem_of_seqZ. lia.
Qed.

(** Printing an octet and reading it back, over all 256 values. *)
Lemma octet_format_all :
  forallb (fun x => bool_decide (octet (format_uint x) = Some x)) (bytes_below 256) = true.
Proof. vm_compute. reflexivity. Qed.

Lemma octet_format x : is_byte x -> octet (format_uint x) = Some x.
Proof.
  intros Hx. pose proof (forall_below 256 _ octet_format_all x Hx) as E.
  by apply bool_decide_eq_true in E.
Qed.

Lemma digits_free c ds : is_digit c = false -> forallb is_digit ds = true -> c ∉ ds.
Proof.
  intros Hc H Hin%list_elem_of_In. apply (proj1 (forallb_forall _ _) H) in Hin. congruence.
Qed.

Lemma format_free c x : 0 <= x -> is_digit c = false -> c ∉ format_uint x.
Proof. intros Hx Hc. apply digits_free; [done|]. by apply format_uint_spec. Qed.

Lemma parseIPv4Fields_string v : parseIPv4Fields (string4 v) = Some (octets v).
Proof.
  pose proof (octets_byte v) as H. unfold parseIPv4Fields, string4.
  rewrite split_join; [|done|].
  - unfold octets in *. simpl fmap in *. repeat (apply Forall_cons in H as [? H]).
    rewrite !octet_format by done. done.
  - apply Forall_fmap. eapply Forall_impl; [done|]. intros x Hx. apply format_free; [apply Hx|done].
Qed.

Lemma addr_kind_app p c s : c = 46 \/ c = 58 ->
  Forall (fun d => d <> 46 /\ d <> 58 /\ d <> 37) p -> addr_kind (p ++ c :: s) = Some c.
Proof.
  intros Hc. induction 1 as [|d p (H1 & H2 & H3) H IH]; simpl.
  - destruct Hc as [-> | ->]; done.
  - zcase; done.
Qed.

Lemma format_plain x : 0 <= x -> Forall (fun d => d <> 46 /\ d <> 58 /\ d <> 37) (format_uint x).
Proof.
  intros Hx. apply Forall_forall. intros d Hd.
  pose proof (format_uint_spec x Hx) as (_ & H & _).
  apply list_elem_of_In in Hd. apply (proj1 (forallb_forall _ _) H) in Hd.
  unfold is_digit in Hd. lia.
Qed.

Lemma parse_addr4 v : 0 <= v < 2 ^ 32 -> parse_addr (string4 v) = Some (Addr4 v).
Proof.
  intros Hv. unfold parse_addr.
  assert (addr_kind (string4 v) = Some 46) as ->.
  { pose proof (octets_byte v) as H. unfold string4, octets in *. cbn [fmap list_fmap] in *.
    apply Forall_cons in H as [[Hx _] _]. cbn [join_byte].
    apply addr_kind_app; [by left|by apply format_plain]. }
  rewrite parseIPv4Fields_string. simpl. by rewrite of_fields_octets.
Qed.

(** Printing a group and reading it back, over all 65536 values. *)
Definition hex_digits (p : bytes) : list Z := omap hexval p.

Definition hex_ok (x : Z) : bool :=
  let p := appendHex x in
  forallb (fun c => bool_decide (is_Some (hexval c))) p && (of_fields 4 (hex_digits p) =? x) &&
  (1 <=? zlen p) && (zlen p <=? 4).

Lemma hex_ok_all :
  forallb (fun h => forallb (fun l => hex_ok (h * 256 + l)) (bytes_below 256)) (bytes_below 256) = true.
Proof. vm_compute. reflexivity. Qed.

Lemma hex_ok_u16 x : 0 <= x < 65536 -> hex_ok x = true.
Proof.
  intros Hx. pose proof (Z.div_mod x 256 ltac:(lia)). pose proof (Z.mod_pos_bound x 256 ltac:(lia)).
  pose proof (forall_below 256 _ hex_ok_all (x / 256) ltac:(lia)) as E. cbv beta in E.
  pose proof (forall_below 256 _ E (x mod 256) ltac:(lia)) as E'. cbv beta in E'.
  by replace (x / 256 * 256 + x mod 256) with x in E' by lia.
Qed.

Lemma appendHex_spec x : 0 <= x < 65536 ->
  Forall (fun c => is_Some (hexval c)) (appendHex x) /\
  of_fields 4 (hex_digits (appendHex x)) = x /\ (1 <= zlen (appendHex x) <= 4).
Proof.
  intros Hx. pose proof (hex_ok_u16 x Hx) as E. unfold hex_ok in E.
  apply andb_prop in E as [[[E1 E2]%andb_prop E3]%andb_prop E4].
  split_and!; try lia. apply Forall_forall. intros c Hc%list_elem_of_In.
  apply (proj1 (forallb_forall _ _) E1) in Hc. by apply bool_decide_eq_true in Hc.
Qed.

Definition hex_stop (r : bytes) : Prop :=
  match r with [] => True | c :: _ => hexval c = None end.

Lemma span_hex_app p r : Forall (fun c => is_Some (hexval c)) p -> hex_stop r ->
  span_hex (p ++ r) = (hex_digits p, r).
Proof.
  intros Hp Hr. induction Hp as [|c p [d Hd] Hp IH]; simpl.
  - destruct r as [|c r]; [done|]. simpl in *. by rewrite Hr.
  - unfold hex_digits in *. simpl. by rewrite Hd, IH.
Qed.

Lemma hex_digits_length p : Forall (fun c => is_Some (hexval c)) p -> zlen (hex_digits p) = zlen p.
Proof.
  unfold hex_digits. induction 1 as [|c p [d Hd] Hp IH]; csimpl; [done|]. by rewrite Hd, !zlen_cons, IH.
Qed.

(** What one group contributes to the loop. *)
Lemma span_group x r : 0 <= x < 65536 -> hex_stop r ->
  exists ds, span_hex (appendHex x ++ r) = (ds, r) /\ of_fields 4 ds = x /\
    (zlen ds =? 0) || (4 <? zlen ds) = false.
Proof.
  intros Hx Hr. destruct (appendHex_spec x Hx) as (H1 & H2 & H3).
  exists (hex_digits (appendHex x)). rewrite span_hex_app by done.
  pose proof (hex_digits_length _ H1). split_and!; [done|done|lia].
Qed.

Abbreviation u16s := (Forall (fun x => 0 <= x < 65536)).

Lemma hex_join_cons x y l : hex_join (x :: y :: l) = appendHex x ++ 58 :: hex_join (y :: l).
Proof. done. Qed.

Lemma hex_join_head x l : 0 <= x < 65536 ->
  exists c s, hex_join (x :: l) = c :: s /\ is_Some (hexval c).
Proof.
  intros Hx. destruct (appendHex_spec x Hx) as (H1 & _ & H3).
  destruct (appendHex x) as [|c p] eqn:E; [rewrite zlen_nil in H3; lia|].
  apply Forall_cons in H1 as [Hc _].
  destruct l; [exists c, p|exists c, (p ++ 58 :: hex_join (z :: l))]; split; try done;
    unfold hex_join; simpl; by rewrite E.
Qed.

Lemma hexval_not_colon c : is_Some (hexval c) -> c <> 58 /\ c <> 46 /\ c <> 37.
Proof. intros [d Hd]. split_and!; intros ->; by vm_compute in Hd. Qed.

Lemma parse6_loop_S fuel gs ell s : parse6_loop (S fuel) gs ell s =
    if (8 <=? length gs)%nat then Some (gs, ell, s)
    else
      let (ds, r) := span_hex s in
      if (zlen ds =? 0) || (4 <? zlen ds) then None
      else match r with
      | 46 :: _ =>
        if negb (bool_decide (is_Some ell)) && negb (length gs =? 6)%nat then None
        else if (8 <? length gs + 2)%nat then None
        else match parseIPv4Fields s with
             | Some [a; b; c; d] => Some (gs ++ [a * 256 + b; c * 256 + d], ell, [])
             | _ => None
             end
      | [] => Some (gs ++ [of_fields 4 ds], ell, [])
      | [58] => None
      | 58 :: 58 :: r =>
        match ell with
        | Some _ => None
        | None =>
          let gs := gs ++ [of_fields 4 ds] in
          match r with
          | [] => Some (gs, Some (length gs), [])
          | _ => parse6_loop fuel gs (Some (length gs)) r
          end
        end
      | 58 :: r => parse6_loop fuel (gs ++ [of_fields 4 ds]) ell r
      | _ => None
      end.
Proof. done. Qed.

(** Reading a group that is followed by a colon and more. *)
Lemma loop_group fuel gs ell x c r : 0 <= x < 65536 -> (length gs < 8)%nat -> c <> 58 ->
  parse6_loop (S fuel) gs ell (appendHex x ++ 58 :: c :: r) =
  parse6_loop fuel (gs ++ [x]) ell (c :: r).
Proof.
  intros Hx Hl Hc. rewrite parse6_loop_S.
  rewrite (proj2 (Nat.leb_gt 8 (length gs)) Hl).
  destruct (span_group x (58 :: c :: r)) as (ds & -> & -> & ->); [done|done|].
  destruct (decide (c = 58)); [done|].
  destruct c as [|p|p]; try done. repeat (destruct p as [p|p|]; try done).
Qed.

(** The loop on groups joined by colons, with no ellipsis ahead. *)
Lemma loop_join l : forall fuel gs ell, l <> [] -> u16s l ->
  (length gs + length l <= 8)%nat -> (length l <= fuel)%nat ->
  parse6_loop fuel gs ell (hex_join l) = Some (gs ++ l, ell, []).
Proof.
  induction l as [|x l IH]; intros fuel gs ell Hl Hok Hlen Hf; [done|].
  apply Forall_cons in Hok as [Hx Hok].
  destruct fuel as [|fuel]; [simpl in Hf; lia|]. simpl in Hlen, Hf.
  destruct l as [|y l].
  - change (hex_join [x]) with (appendHex x). rewrite <- (app_nil_r (appendHex x)).
    rewrite parse6_loop_S. rewrite (proj2 (Nat.leb_gt 8 (length gs))) by lia.
    by destruct (span_group x []) as (ds & -> & -> & ->).
  - rewrite hex_join_cons. apply Forall_cons in Hok as Hok'. destruct Hok' as [Hy _].
    destruct (hex_join_head y l Hy) as (c & s & E & Hc). rewrite E.
    rewrite loop_group by (try done; try lia; by apply hexval_not_colon). rewrite <- E.
    rewrite IH by (try done; rewrite ?length_app; simpl in *; lia). by rewrite <- app_assoc.
Qed.

(** The loop on groups before "::", then the groups after it. *)
Lemma loop_ellipsis l : forall fuel gs k, l <> [] -> u16s l -> u16s k ->
  (length gs + length l + length k <= 8)%nat -> (length l + length k <= fuel)%nat ->
  parse6_loop fuel gs None (hex_join l ++ [58; 58] ++ hex_join k) =
  Some (gs ++ l ++ k, Some (length gs + length l)%nat, []).
Proof.
  induction l as [|x l IH]; intros fuel gs k Hl Hok Hk Hlen Hf; [done|].
  apply Forall_cons in Hok as [Hx Hok].
  destruct fuel as [|fuel]; [simpl in Hf; lia|]. simpl in Hlen, Hf.
  destruct l as [|y l].
  - change (hex_join [x]) with (appendHex x).
    rewrite parse6_loop_S, (proj2 (Nat.leb_gt 8 (length gs))) by lia.
    destruct (span_group x ([58; 58] ++ hex_join k)) as (ds & -> & -> & ->); [done|done|].
    cbn [app]. destruct k as [|y k].
    + change (hex_join []) with (@nil Z). cbn. by rewrite length_app.
    + apply Forall_cons in Hk as Hk'. destruct Hk' as [Hy _].
      destruct (hex_join_head y k Hy) as (c & s & E & Hc). rewrite E. cbv zeta. rewrite <- E.
      rewrite loop_join by (try done; rewrite ?length_app; simpl in *; lia).
      rewrite length_app, <- app_assoc. done.
  - rewrite hex_join_cons. apply Forall_cons in Hok as Hok'. destruct Hok' as [Hy _].
    destruct (hex_join_head y l Hy) as (c & s & E & Hc). rewrite E.
    rewrite <- app_assoc. cbn [app]. rewrite loop_group by (try done; try lia; by apply hexval_not_colon).
    change (c :: s ++ 58 :: 58 :: hex_join k) with ((c :: s) ++ [58; 58] ++ hex_join k).
    rewrite <- E, IH by (try done; rewrite ?length_app; simpl in *; lia).
    rewrite length_app, <- !app_assoc. simpl. f_equal. f_equal. f_equal. f_equal. lia.
Qed.

(** *** The compressed run *)

Lemma zero_run_spec l :
  (zero_run l <= length l)%nat /\ take (zero_run l) l = replicate (zero_run l) 0.
Proof.
  induction l as [|x l [IH1 IH2]]; simpl; [done|].
  destruct (Z.eqb_spec x 0) as [->|]; simpl; [|split; [lia|done]].
  split; [lia|]. by rewrite IH2.
Qed.

(** [(s, n)] is no run, or a run of zeros of [g]. *)
Definition run_of (g : list Z) (b : nat * nat) : Prop :=
  snd b = 0%nat \/
  ((2 <= snd b)%nat /\ g = take (fst b) g ++ replicate (snd b) 0 ++ drop (fst b + snd b) g /\
   (fst b + snd b <= length g)%nat).

Lemma best_run_spec g l : forall i b,
  l = drop i g -> (i <= length g)%nat -> run_of g b -> run_of g (best_run i l b).
Proof.
  induction l as [|x l IH]; intros i b E Hi Hb; [done|]. cbn [best_run].
  assert (l = drop (S i) g) as E'.
  { change l with (drop 1 (x :: l)). rewrite E, drop_drop. f_equal. lia. }
  assert (length (x :: l) = length g - i)%nat as HL by (rewrite E; apply length_drop).
  simpl in HL.
  apply IH; [done|lia|]. destruct (_ && _) eqn:Hn; [|done].
  apply andb_prop in Hn as [Hn _]. apply Nat.leb_le in Hn.
  destruct (zero_run_spec (x :: l)) as [H1 H2]. right. cbn [fst snd]. split; [done|].
  split; [|cbn [length] in H1; lia].
  rewrite <- H2, E, <- drop_drop, take_drop. symmetry. apply take_drop.
Qed.

Lemma groups_length v : length (groups v) = 8%nat.
Proof. done. Qed.

Lemma u16s_take n l : u16s l -> u16s (take n l).
Proof. apply Forall_take. Qed.

(** Text that starts with a hex digit takes the last branch of [parse6]. *)
Lemma parse6_plain c s : is_Some (hexval c) ->
  parse6 (c :: s) = (r ← parse6_loop 9 [] None (c :: s); parse6_finish r).
Proof.
  intros (H & _ & _)%hexval_not_colon. unfold parse6.
  destruct c as [|p|p]; try done. repeat (destruct p as [p|p|]; try done).
Qed.

Lemma parse6_join g : length g = 8%nat -> u16s g -> parse6 (hex_join g) = Some (of_fields 16 g).
Proof.
  intros Hl Hg. destruct g as [|x g]; [done|]. apply Forall_cons in Hg as Hx.
  destruct Hx as [Hx _]. destruct (hex_join_head x g Hx) as (c & s & E & Hc).
  rewrite E, parse6_plain, <- E by done.
  rewrite loop_join by (try done; rewrite ?Hl; simpl in *; lia).
  cbn [mbind option_bind parse6_finish]. simpl app. by rewrite Hl.
Qed.

Lemma parse6_run g a k n : g = a ++ replicate n 0 ++ k -> length g = 8%nat -> (1 <= n)%nat ->
  u16s g -> parse6 (hex_join a ++ [58; 58] ++ hex_join k) = Some (of_fields 16 g).
Proof.
  intros E Hl Hn Hg. rewrite E in Hg. apply Forall_app in Hg as [Ha [_ Hk]%Forall_app].
  assert (length a + n + length k = 8)%nat as HL.
  { rewrite E, !length_app, length_replicate in Hl. lia. }
  assert (forall e, e = length a ->
    parse6_finish (a ++ k, Some e, []) = Some (of_fields 16 g)) as Hfin.
  { intros e ->. unfold parse6_finish. rewrite length_app.
    rewrite (proj2 (Nat.ltb_lt (length a + length k) 8)) by lia.
    rewrite take_app_length, drop_app_length, E.
    by replace (8 - (length a + length k))%nat with n by lia. }
  destruct a as [|x a].
  - change (hex_join [] ++ [58; 58] ++ hex_join k) with (58 :: 58 :: hex_join k).
    destruct k as [|y k].
    + simpl in HL. change (hex_join []) with (@nil Z). cbn [parse6]. rewrite E. replace n with 8%nat by lia. done.
    + apply Forall_cons in Hk as Hy. destruct Hy as [Hy _].
      destruct (hex_join_head y k Hy) as (c & s & E' & Hc). rewrite E'. cbn [parse6]. rewrite <- E'.
      rewrite loop_join by (try done; simpl in *; lia). by apply Hfin.
  - apply Forall_cons in Ha as Hx. destruct Hx as [Hx _].
    destruct (hex_join_head x a Hx) as (c & s & E' & Hc). rewrite E'. cbn [app].
    rewrite parse6_plain by done.
    change (c :: s ++ 58 :: 58 :: hex_join k) with ((c :: s) ++ [58; 58] ++ hex_join k).
    rewrite <- E'. rewrite loop_ellipsis by (try done; simpl in *; lia). by apply Hfin.
Qed.

(** *** Mapped IPv4 addresses *)

Lemma string4_head v : exists c s, string4 v = c :: s /\ is_digit c = true.
Proof.
  unfold string4, octets. cbn [fmap list_fmap join_byte].
  destruct (format_uint_spec (field 8 4 0 v) ltac:(apply (field_range 8); lia)) as (_ & H & Hn).
  destruct (format_uint _) as [|c s]; [done|]. simpl in H. apply andb_prop in H as [H _].
  simpl. eauto.
Qed.

Lemma digit_hexval c : is_digit c = true -> hexval c = Some (c - 48).
Proof. unfold is_digit, hexval. by intros ->. Qed.

Lemma span_octet v : exists ds r, span_hex (string4 v) = (ds, 46 :: r) /\
  (zlen ds =? 0) || (4 <? zlen ds) = false.
Proof.
  unfold string4, octets. cbn [fmap list_fmap join_byte].
  pose proof (field_range 8 4 0 v ltac:(lia)) as Hx. change (2 ^ 8) with 256 in Hx.
  destruct (format_uint_spec (field 8 4 0 v) (proj1 Hx)) as (_ & H & Hn).
  assert (Forall (fun c => is_Some (hexval c)) (format_uint (field 8 4 0 v))) as Hh.
  { apply Forall_forall. intros c Hc%list_elem_of_In. apply (proj1 (forallb_forall _ _) H) in Hc.
    rewrite digit_hexval; eauto. }
  rewrite span_hex_app by done. do 2 eexists. split; [done|].
  rewrite hex_digits_length by done.
  pose proof (forall_below 256 (fun x => (1 <=? zlen (format_uint x)) && (zlen (format_uint x) <=? 4))
    eq_refl _ Hx). cbv beta in *. lia.
Qed.

Lemma is4in6_spec v : 0 <= v < 2 ^ 128 -> is4in6 v = true ->
  v = 0xffff * 2 ^ 32 + v mod 2 ^ 32.
Proof.
  intros Hv H. apply Z.eqb_eq in H. rewrite Z.shiftr_div_pow2 in H by lia.
  pose proof (Z.div_mod v (2 ^ 32) ltac:(lia)). lia.
Qed.

Lemma parse6_mapped w : 0 <= w < 2 ^ 32 ->
  parse6 ([58; 58; 102; 102; 102; 102; 58] ++ string4 w) = Some (0xffff * 2 ^ 32 + w).
Proof.
  intros Hw. destruct (string4_head w) as (c & s & E & Hc).
  cbn [app parse6]. rewrite E.
  change (102 :: 102 :: 102 :: 102 :: 58 :: c :: s) with (appendHex 0xffff ++ 58 :: c :: s).
  rewrite loop_group by (try done; unfold is_digit in Hc; simpl; lia). rewrite <- E.
  rewrite parse6_loop_S. destruct (span_octet w) as (ds & r & -> & ->).
  rewrite parseIPv4Fields_string.
  pose proof (of_fields_octets w Hw) as Ew. unfold octets, of_fields in Ew.
  cbn [fmap list_fmap fold_left] in Ew. unfold octets. simpl. f_equal. unfold of_fields. simpl. lia.
Qed.

Lemma parse6_string v : 0 <= v < 2 ^ 128 -> parse6 (string6 v) = Some v.
Proof.
  intros Hv. unfold string6. destruct (is4in6 v) eqn:H4.
  - rewrite parse6_mapped by (apply Z.mod_pos_bound; lia). f_equal. symmetry. by apply is4in6_spec.
  - cbv zeta. pose proof (best_run_spec (groups v) (groups v) 0 (0, 0)%nat eq_refl) as H.
    destruct H as [H|(H1 & H2 & H3)]; [lia|by left| |];
      destruct (best_run 0 (groups v) (0, 0)%nat) as [s n]; cbn [fst snd] in *.
    + subst n. rewrite parse6_join by (try done; apply groups_u16). by rewrite of_fields_groups.
    + destruct n as [|n]; [lia|].
      rewrite (parse6_run (groups v) _ _ (S n)) by (try done; try lia; apply groups_u16).
      by rewrite of_fields_groups.
Qed.

(** *** Addresses *)

Lemma join_byte_free c d l : c <> d -> Forall (fun p => c ∉ p) l -> c ∉ join_byte d l.
Proof.
  intros Hc H. induction H as [|p l Hp H IH]; [apply not_elem_of_nil|].
  destruct l as [|q l]; [done|].
  change (join_byte d (p :: q :: l)) with (p ++ d :: join_byte d (q :: l)).
  by rewrite not_elem_of_app, not_elem_of_cons.
Qed.

(** A character no address without a zone contains. *)
Definition foreign (c : Z) : Prop := c <> 46 /\ c <> 58 /\ hexval c = None.

Lemma foreign_digit c : foreign c -> is_digit c = false.
Proof.
  intros (_ & _ & H). destruct (is_digit c) eqn:E; [|done]. unfold hexval in H. unfold is_digit in E. by rewrite E in H.
Qed.

Lemma hex_join_free c l : foreign c -> u16s l -> c ∉ hex_join l.
Proof.
  intros (Hd & Hn & Hc) H. apply join_byte_free; [done|]. apply Forall_fmap. eapply Forall_impl; [done|].
  intros x Hx Hin. destruct (appendHex_spec x Hx) as (H1 & _).
  rewrite Forall_forall in H1. apply H1 in Hin. rewrite Hc in Hin. by destruct Hin.
Qed.

Lemma string4_free c v : foreign c -> c ∉ string4 v.
Proof.
  intros Hc. apply join_byte_free; [apply Hc|]. apply Forall_fmap. eapply Forall_impl; [apply octets_byte|].
  intros x [Hx _]. by apply format_free, foreign_digit.
Qed.

Lemma string6_free c v : foreign c -> c ∉ string6 v.
Proof.
  intros Hc. unfold string6. pose proof (groups_u16 v) as Hg. destruct (is4in6 v).
  - rewrite not_elem_of_app. split; [|by apply string4_free].
    destruct Hc as (? & ? & Hh). rewrite !not_elem_of_cons.
    split_and!; try done; try apply not_elem_of_nil; intros ->; by vm_compute in Hh.
  - cbv zeta. destruct (best_run _ _ _) as [s [|n]]; [by apply hex_join_free|].
    rewrite !not_elem_of_app. split_and!.
    + by apply hex_join_free, Forall_take.
    + destruct Hc as (? & ? & _). rewrite !not_elem_of_cons. split_and!; try done. apply not_elem_of_nil.
    + by apply hex_join_free, Forall_drop.
Qed.

Lemma addr_kind_hex l s : l <> [] -> u16s l ->
  addr_kind (hex_join l ++ 58 :: s) = Some 58.
Proof.
  intros Hl H. destruct H as [|x l Hx H]; [done|].
  assert (Forall (fun d => d <> 46 /\ d <> 58 /\ d <> 37) (appendHex x)) as Hn.
  { destruct (appendHex_spec x Hx) as (H1 & _). eapply Forall_impl; [done|].
    intros d Hd%hexval_not_colon. naive_solver. }
  destruct l as [|y l]; [apply addr_kind_app; auto|].
  rewrite hex_join_cons, <- app_assoc. apply addr_kind_app; auto.
Qed.

Lemma addr_kind_string6 v : 0 <= v < 2 ^ 128 -> addr_kind (string6 v) = Some 58.
Proof.
  intros Hv. unfold string6. pose proof (groups_u16 v) as Hg. destruct (is4in6 v); [done|]. cbv zeta.
  destruct (best_run _ _ _) as [s [|n]].
  - destruct (groups v) as [|x [|y l]] eqn:E; [done..|].
    rewrite hex_join_cons. apply (addr_kind_hex [x]); [done|]. apply Forall_cons in Hg as [? _].
    apply Forall_singleton. done.
  - destruct (take s (groups v)) eqn:E; [done|]. rewrite <- E.
    apply addr_kind_hex; [by rewrite E|by apply Forall_take].
Qed.

Lemma parse_addr_bytes a : plain a -> parse_addr (addr_bytes a) = Some a.
Proof.
  intros [Hok Hz]. destruct a as [v|v z]; [by apply parse_addr4|]. simpl in Hz. subst z.
  unfold addr_bytes, parse_addr. rewrite addr_kind_string6 by done.
  unfold parseIPv6. rewrite split_byte_free by (by apply string6_free).
  by rewrite parse6_string.
Qed.

Lemma join_bytes_ok c l : is_byte c -> Forall bytes_ok l -> bytes_ok (join_byte c l).
Proof.
  intros Hc H. induction H as [|p l Hp H IH]; [constructor|].
  destruct l; [done|]. apply Forall_app. split; [done|]. by constructor.
Qed.

Lemma string4_ok v : bytes_ok (string4 v).
Proof.
  apply join_bytes_ok; [done|]. apply Forall_fmap. eapply Forall_impl; [apply octets_byte|].
  intros x [Hx _]. by apply digits_bytes_ok, format_uint_spec.
Qed.

Lemma hex_join_ok l : u16s l -> bytes_ok (hex_join l).
Proof.
  intros H. apply join_bytes_ok; [done|]. apply Forall_fmap. eapply Forall_impl; [done|].
  intros x Hx. destruct (appendHex_spec x Hx) as (H1 & _). eapply Forall_impl; [done|].
  intros c [d Hd]. unfold hexval, is_byte in *. repeat case_match; lia || done.
Qed.

Lemma addr_bytes_ok a : bytes_ok (addr_bytes a).
Proof.
  assert (forall v, bytes_ok (string6 v)) as H6.
  { intros v. unfold string6. pose proof (groups_u16 v) as Hg. destruct (is4in6 v).
    - apply Forall_app. split; [by repeat constructor|apply string4_ok].
    - cbv zeta. destruct (best_run _ _ _) as [s [|n]]; [by apply hex_join_ok|].
      unfold bytes_ok; rewrite !Forall_app. split_and!; [by apply hex_join_ok, Forall_take|by repeat constructor|].
      by apply hex_join_ok, Forall_drop. }
  unfold addr_bytes. destruct a as [v|v [|c z]]; [apply string4_ok|done|].
  apply Forall_app. split; [apply H6|]. constructor; [by unfold is_byte|].
  apply (bytes_of_string_ok (String c z)).
Qed.

(** Parsing a printed address gives it back; so printing is injective. *)
Lemma ParseAddr_String a : plain a -> ParseAddr (AddrString a) = Some a.
Proof.
  intros H. unfold ParseAddr, AddrString. rewrite bytes_of_string_of_bytes by apply addr_bytes_ok.
  by apply parse_addr_bytes.
Qed.

Lemma AddrString_inj a b : plain a -> plain b -> AddrString a = AddrString b -> a = b.
Proof.
  intros Ha Hb E. apply (f_equal ParseAddr) in E. rewrite !ParseAddr_String in E by done. congruence.
Qed.

Lemma ParseIP_String a : plain a -> ParseIP (AddrString a) = Some (As16 a).
Proof.
  intros H. unfold ParseIP. rewrite ParseAddr_String by done. simpl. rewrite decide_True; [done|].
  by destruct H.
Qed.

(** ** Parsed addresses are in range *)

Lemma of_fields_snoc w l x : of_fields w (l ++ [x]) = of_fields w l * 2 ^ w + x.
Proof. unfold of_fields. by rewrite fold_left_app. Qed.

Lemma of_fields_range w l : 0 <= w -> Forall (fun x => 0 <= x < 2 ^ w) l ->
  0 <= of_fields w l < 2 ^ (w * zlen l).
Proof.
  intros Hw. induction l as [|x l IH] using rev_ind; intros H.
  { change (zlen []) with 0. rewrite Z.mul_0_r. done. }
  apply Forall_app in H as [Hl Hx]. apply (proj1 (Forall_singleton _ _)) in Hx. cbv beta in Hx. specialize (IH Hl).
  rewrite of_fields_snoc, zlen_app. change (zlen [x]) with 1.
  replace (w * (zlen l + 1)) with (w * zlen l + w) by lia.
  pose proof (zlen_nonneg l). rewrite Z.pow_add_r by lia.
  pose proof (Z.mul_le_mono_nonneg_r (of_fields w l + 1) (2 ^ (w * zlen l)) (2 ^ w)).
  pose proof (Z.mul_nonneg_nonneg (of_fields w l) (2 ^ w)). pose proof (Z.pow_pos_nonneg 2 w). lia.
Qed.

Lemma dec_value_nonneg ds : forallb is_digit ds = true -> 0 <= dec_value ds.
Proof.
  unfold dec_value.
  assert (forall a, 0 <= a -> forallb is_digit ds = true ->
    0 <= fold_left (fun a c => a * 10 + (c - 48)) ds a) as H; [|by apply H].
  induction ds as [|c p IH]; intros a Ha E; [done|]. simpl in *. apply andb_prop in E as [E1 E].
  apply IH; [|done]. unfold is_digit in E1. lia.
Qed.

Lemma octet_range p x : octet p = Some x -> 0 <= x < 256.
Proof.
  unfold octet. destruct (forallb is_digit p) eqn:E; [|done]. simpl.
  destruct (dec_value p <=? 255) eqn:E2; [|by rewrite andb_false_r]. destruct (_ && _); [|done].
  intros [= <-]. split; [by apply dec_value_nonneg|lia].
Qed.

Lemma parseIPv4Fields_range s l : parseIPv4Fields s = Some l ->
  length l = 4%nat /\ Forall (fun x => 0 <= x < 2 ^ 8) l.
Proof.
  unfold parseIPv4Fields. destruct (split_byte 46 s) as [|a [|b [|c [|d [|]]]]]; try done.
  destruct (octet a) eqn:Ea; [|done]. destruct (octet b) eqn:Eb; [|done].
  destruct (octet c) eqn:Ec; [|done]. destruct (octet d) eqn:Ed; [|done]. simpl. intros [= <-].
  split; [done|]. repeat constructor; by eapply octet_range.
Qed.

Lemma span_hex_range s : Forall (fun x => 0 <= x < 2 ^ 4) (fst (span_hex s)).
Proof.
  induction s as [|c s IH]; simpl; [constructor|]. destruct (hexval c) as [d|] eqn:E; [|constructor].
  destruct (span_hex s). simpl in *. constructor; [|done]. unfold hexval in E.
  repeat case_match; simplify_eq; lia.
Qed.

Lemma group_range s ds r : span_hex s = (ds, r) -> (zlen ds =? 0) || (4 <? zlen ds) = false ->
  0 <= of_fields 4 ds < 65536.
Proof.
  intros E H. pose proof (span_hex_range s) as R. rewrite E in R. simpl in R.
  apply of_fields_range in R; [|done]. pose proof (zlen_nonneg ds).
  assert (2 ^ (4 * zlen ds) <= 2 ^ 16) by (apply Z.pow_le_mono_r; lia). lia.
Qed.

Definition loop_ok (r : list Z * option nat * bytes) : Prop :=
  let '(gs, ell, _) := r in
  u16s gs /\ (length gs <= 8)%nat /\ match ell with Some e => (e <= length gs)%nat | None => True end.

Lemma u16s_snoc gs x : u16s gs -> 0 <= x < 65536 -> u16s (gs ++ [x]).
Proof. intros. apply Forall_app_2; [done|]. by apply Forall_singleton. Qed.

Lemma loop_ok_v4 gs ell s z0 z1 z2 z3 : loop_ok (gs, ell, []) -> (8 <? length gs + 2)%nat = false ->
  parseIPv4Fields s = Some [z0; z1; z2; z3] ->
  loop_ok (gs ++ [z0 * 256 + z1; z2 * 256 + z3], ell, []).
Proof.
  intros (H1 & H2 & H3) Hn%Nat.ltb_ge [_ H]%parseIPv4Fields_range. rewrite !Forall_cons in H.
  split_and!; [apply Forall_app_2; [done|]; repeat constructor; lia| |destruct ell; [|done]];
    rewrite length_app; simpl; lia.
Qed.

Lemma parse6_loop_ok fuel : forall gs ell s r, loop_ok (gs, ell, []) ->
  parse6_loop fuel gs ell s = Some r -> loop_ok r.
Proof.
  induction fuel as [|fuel IH]; intros gs ell s r (H1 & H2 & H3); [done|]. rewrite parse6_loop_S.
  destruct (Nat.leb_spec 8 (length gs)); [by intros [= <-]|].
  destruct (span_hex s) as [ds rest] eqn:E.
  destruct ((zlen ds =? 0) || (4 <? zlen ds)) eqn:Hds; [done|].
  pose proof (group_range _ _ _ E Hds) as Hx. pose proof (u16s_snoc gs _ H1 Hx) as H1'.
  assert (forall e' r', (match e' with Some e => (e <= length (gs ++ [of_fields 4 ds]))%nat | None => True end) ->
    loop_ok (gs ++ [of_fields 4 ds], e', r')) as Hok.
  { intros e' r' He'. split_and!; [done| |done]. rewrite length_app. simpl. lia. }
  assert (match ell with Some e => (e <= length (gs ++ [of_fields 4 ds]))%nat | None => True end) as Hell.
  { destruct ell; [|done]. rewrite length_app. simpl. lia. }
  assert (loop_ok (gs, ell, [])) as Hg by done. clear H1' E. intros Hr.
  repeat case_match; simplify_eq; try (by apply Hok); try (by eapply loop_ok_v4);
    try (by eapply IH; [apply Hok|done]); cbv zeta in Hr.
  - injection Hr as <-. by apply Hok.
  - eapply IH; [|exact Hr]. by apply Hok.
Qed.

Lemma parse6_finish_range r v : loop_ok r -> parse6_finish r = Some v -> 0 <= v < 2 ^ 128.
Proof.
  destruct r as [[gs ell] rest]. intros (H1 & H2 & H3). unfold parse6_finish.
  assert (forall l, u16s l -> length l = 8%nat -> 0 <= of_fields 16 l < 2 ^ 128) as H.
  { intros l Hl Hn. apply (of_fields_range 16) in Hl; [|done]. unfold zlen in Hl. rewrite Hn in Hl. exact Hl. }
  destruct rest; [|done]. destruct (Nat.ltb_spec (length gs) 8); destruct ell as [e|]; try done.
  - intros [= <-]. apply H.
    + rewrite !Forall_app. split_and!; [by apply Forall_take| |by apply Forall_drop].
      apply Forall_replicate. lia.
    + rewrite !length_app, length_take, length_replicate, length_drop. lia.
  - intros [= <-]. apply H; [done|lia].
Qed.

Lemma parse6_range s v : parse6 s = Some v -> 0 <= v < 2 ^ 128.
Proof.
  assert (forall ell s, match ell with Some e => (e <= 0)%nat | None => True end ->
    (r ← parse6_loop 9 [] ell s; parse6_finish r) = Some v -> 0 <= v < 2 ^ 128) as H.
  { intros ell s' He. destruct (parse6_loop 9 [] ell s') as [r|] eqn:E; [|done]. simpl.
    apply parse6_finish_range. eapply parse6_loop_ok; [|done]. split_and!; [constructor|simpl; lia|done]. }
  unfold parse6. repeat case_match; subst; try (by apply H); by intros [= <-].
Qed.

Lemma ParseAddr_ok s a : ParseAddr s = Some a -> addr_ok a.
Proof.
  unfold ParseAddr, parse_addr. destruct (addr_kind _) as [k|]; [|done].
  assert (forall l, parseIPv4Fields (bytes_of_string s) = Some l -> addr_ok (Addr4 (of_fields 8 l))) as H4.
  { intros l [Hl H]%parseIPv4Fields_range. apply of_fields_range in H; [|done].
    unfold zlen in H. rewrite Hl in H. exact H. }
  assert (parseIPv6 (bytes_of_string s) = Some a -> addr_ok a) as H6.
  { unfold parseIPv6. destruct (split_byte 37 _) as [|p [|q l]]; [done| |].
    - destruct (parse6 p) eqn:E; [|done]. intros [= <-]. by eapply parse6_range.
    - destruct (_ =? 0); [done|]. destruct (parse6 p) eqn:E; [|done]. intros [= <-]. by eapply parse6_range. }
  destruct (decide (k = 46)) as [->|]; [|destruct (decide (k = 58)) as [->|]; [done|]].
  - destruct (parseIPv4Fields _) as [l|] eqn:E; [|done]. intros [= <-]. by apply H4.
  - destruct k as [|p|p]; try done. repeat (destruct p as [p|p|]; try done).
Qed.

Lemma ParsePrefix_ok s p : ParsePrefix s = Some p -> plain (pAddr p) /\ 0 <= pBits p <= BitLen (pAddr p).
Proof.
  unfold ParsePrefix. destruct (LastIndexByte s "/") as [i|]; [|done]. cbn [mbind option_bind].
  destruct (ParseAddr (stake i s)) as [a|] eqn:E; [|done]. cbn [mbind option_bind].
  generalize (bytes_of_string (sdrop (S i) s)) as b. intros b.
  destruct (bool_decide (Zone a = "")%string) eqn:HZ; simpl; [|done].
  destruct (_ && negb _); [done|]. destruct (forallb is_digit b) eqn:D; simpl; [|done].
  destruct (zlen b =? 0); [done|]. destruct (Z.ltb_spec (BitLen a) (dec_value b)); [done|].
  intros [= <-]. simpl. apply bool_decide_eq_true in HZ. split; [split; [by eapply ParseAddr_ok|done]|].
  split; [by apply dec_value_nonneg|done].
Qed.
