(* ===== verification/GoNet.v ===== *)
(** * Host and port text (Go's net and strconv)

    [net.SplitHostPort], [strconv.Atoi] and their round trips with
    [net.JoinHostPort] and the formatting of numbers. *)

From S2P Require Import Prelude GoStrings NetIP.

(** ** Positions in strings *)

Lemma IndexByte_app a b c : IndexByte a c = None ->
  IndexByte (a +:+ b) c = (fun n => (String.length a + n)%nat) <$> IndexByte b c.
Proof.
  induction a as [|d a IH]; intros H; autorewrite with sapp; [by destruct (IndexByte b c)|].
  simpl in *. destruct (Ascii.eqb c d); [done|].
  destruct (IndexByte a c) eqn:E; [done|]. rewrite IH by done. by destruct (IndexByte b c).
Qed.

Lemma IndexByte_here a b c : IndexByte a c = None -> IndexByte (a +:+ String c b) c = Some (String.length a).
Proof.
  intros H. rewrite IndexByte_app by done. simpl. rewrite Ascii.eqb_refl. simpl. by rewrite Nat.add_0_r.
Qed.

Lemma LastIndexByte_here a b c : IndexByte b c = None ->
  LastIndexByte (a +:+ String c b) c = Some (String.length a).
Proof.
  intros H. assert (LastIndexByte b c = None) as Hb.
  { clear a. induction b as [|d b IH]; [done|]. simpl in *. destruct (Ascii.eqb c d); [done|].
    destruct (IndexByte b c); [done|]. by rewrite IH. }
  induction a as [|d a IH]; autorewrite with sapp; simpl.
  - by rewrite Hb, Ascii.eqb_refl.
  - by rewrite IH.
Qed.

Lemma HasPrefix_one d s c : HasPrefix (String d s) (String c "") = Ascii.eqb c d.
Proof. simpl. assert (HasPrefix s "" = true) as -> by by destruct s. apply andb_true_r. Qed.

Lemma Contains_IndexByte s c : Contains s (String c "") = bool_decide (is_Some (IndexByte s c)).
Proof.
  induction s as [|d s IH]; [done|]. cbn [Contains IndexByte]. rewrite HasPrefix_one, IH.
  destruct (Ascii.eqb c d); [done|]. simpl. by destruct (IndexByte s c).
Qed.

Lemma sdrop_length_app a b : sdrop (String.length a) (a +:+ b) = b.
Proof. induction a; autorewrite with sapp; done. Qed.
Lemma sdrop_plus a b n : sdrop (String.length a + n) (a +:+ b) = sdrop n b.
Proof. induction a; autorewrite with sapp; done. Qed.
Lemma sdrop_S n c s : sdrop (S n) (String c s) = sdrop n s.
Proof. done. Qed.
Lemma stake_S n c s : stake (S n) (String c s) = String c (stake n s).
Proof. done. Qed.
Lemma sdrop_0 s : sdrop 0 s = s.
Proof. by destruct s. Qed.
Lemma stake_length_app a b : stake (String.length a) (a +:+ b) = a.
Proof. induction a as [|d a IH]; autorewrite with sapp; [by destruct b|]. simpl. by rewrite IH. Qed.

(** ** SplitHostPort *)

Definition addrErr {A} (addr why : string) : go A :=
  Err (if decide (addr = "")%string then why else "address " +:+ addr +:+ ": " +:+ why).

Definition SplitHostPort (hostport : string) : go (string * string) :=
  match LastIndexByte hostport ":" with
  | None => addrErr hostport "missing port in address"
  | Some i =>
    let! (host, j, k) :=
      (if HasPrefix hostport "[" then
         match IndexByte hostport "]" with
         | None => addrErr hostport "missing ']' in address"
         | Some end_ =>
           if (S end_ =? String.length hostport)%nat then addrErr hostport "missing port in address"
           else if (S end_ =? i)%nat then Ret (sdrop 1 (stake end_ hostport), 1%nat, S end_)
           else if HasPrefix (sdrop (S end_) hostport) ":"
           then addrErr hostport "too many colons in address"
           else addrErr hostport "missing port in address"
         end
       else
         let host := stake i hostport in
         if bool_decide (is_Some (IndexByte host ":")) then addrErr hostport "too many colons in address"
         else Ret (host, 0%nat, 0%nat)) in
    if bool_decide (is_Some (IndexByte (sdrop j hostport) "[")) then addrErr hostport "unexpected '[' in address"
    else if bool_decide (is_Some (IndexByte (sdrop k hostport) "]")) then addrErr hostport "unexpected ']' in address"
    else Ret (host, sdrop (S i) hostport)
  end.

(** Text without the separators. *)
Definition clean (s : string) : Prop := IndexByte s "[" = None /\ IndexByte s "]" = None.

Lemma clean_cons_app c a b : clean a -> clean b -> c <> "["%char -> c <> "]"%char -> clean (a +:+ String c b).
Proof.
  intros [A1 A2] [B1 B2] H1 H2. split; rewrite IndexByte_app by done; cbn [IndexByte].
  - destruct (Ascii.eqb_spec "[" c); [congruence|]. by rewrite B1.
  - destruct (Ascii.eqb_spec "]" c); [congruence|]. by rewrite B2.
Qed.

Lemma SplitHostPort_Join host port : clean host -> clean port -> IndexByte port ":" = None ->
  SplitHostPort (JoinHostPort host port) = Ret (host, port).
Proof.
  intros Hh Hp Hc. unfold JoinHostPort. rewrite Contains_IndexByte. case_bool_decide as HB.
  - assert (("[" +:+ host +:+ "]:" +:+ port)%string = (String "[" (host +:+ String "]" (String ":" port)))) as -> by done.
    unfold SplitHostPort.
    assert (LastIndexByte (String "[" (host +:+ String "]" (String ":" port))) ":" = Some (S (S (String.length host)))) as ->.
    { pose proof (LastIndexByte_here (String "[" (host +:+ "]")) port ":" Hc) as H.
      rewrite sapp_cons, sapp_assoc in H. rewrite sapp_cons, sapp_nil in H. rewrite H. f_equal. cbn [String.length].
      rewrite slength_app. simpl. lia. }
    assert (IndexByte (String "[" (host +:+ String "]" (String ":" port))) "]" = Some (S (String.length host))) as ->.
    { simpl. by rewrite IndexByte_here by apply Hh. }
    rewrite HasPrefix_one, Ascii.eqb_refl.
    assert ((S (S (String.length host)) =? String.length (String "[" (host +:+ String "]" (String ":" port))))%nat = false) as ->.
    { apply Nat.eqb_neq. cbn [String.length]. rewrite slength_app. cbn [String.length]. lia. }
    rewrite Nat.eqb_refl. cbn [go_bind]. rewrite stake_S, !sdrop_S, !sdrop_0, stake_length_app.
    rewrite bool_decide_eq_false_2.
    2:{ intros [n Hn]. rewrite IndexByte_app in Hn by apply Hh. simpl in Hn. by rewrite (proj1 Hp) in Hn. }
    assert (sdrop (S (String.length host)) (host +:+ String "]" (String ":" port)) = String ":" port) as Hd.
    { rewrite <- Nat.add_1_r, sdrop_plus. done. }
    rewrite Hd. rewrite bool_decide_eq_false_2 by (intros [n Hn]; simpl in Hn; by rewrite (proj2 Hp) in Hn).
    do 2 f_equal. replace (S (S (String.length host))) with (String.length host + 2)%nat by lia.
    rewrite sdrop_plus. done.
  - assert ((host +:+ ":" +:+ port)%string = host +:+ String ":" port) as -> by done.
    assert (IndexByte host ":" = None) as Hn by (apply eq_None_not_Some; done).
    pose proof (clean_cons_app ":" host port Hh Hp ltac:(done) ltac:(done)) as [C1 C2].
    unfold SplitHostPort. rewrite LastIndexByte_here by done.
    assert (HasPrefix (host +:+ String ":" port) "[" = false) as ->.
    { destruct host as [|d host]; [done|]. autorewrite with sapp. rewrite HasPrefix_one.
      destruct Hh as [Hh _]. cbn [IndexByte] in Hh. by destruct (Ascii.eqb "[" d). }
    cbv zeta. rewrite stake_length_app, Hn. rewrite bool_decide_eq_false_2 by by intros [? ?].
    cbn [go_bind]. rewrite !sdrop_0, C1, C2. rewrite !bool_decide_eq_false_2 by by intros [? ?].
    do 2 f_equal. rewrite <- Nat.add_1_r, sdrop_plus. done.
Qed.

(** ** Atoi *)

(** [strconv.Atoi]: an optional sign and decimal digits, in the range of int. *)
Definition Atoi (s : string) : option Z :=
  let b := bytes_of_string s in
  let '(neg, ds) := match b with 45 :: ds => (true, ds) | 43 :: ds => (false, ds) | _ => (false, b) end in
  if (zlen ds =? 0) || negb (forallb is_digit ds) then None
  else
    let v := if neg then - dec_value ds else dec_value ds in
    if (v <? - 2 ^ 63) || (2 ^ 63 <=? v) then None else Some v.

(** ** The characters of numbers and addresses *)

Lemma IndexByte_free s c : char_byte c ∉ bytes_of_string s -> IndexByte s c = None.
Proof.
  induction s as [|d s IH]; [done|]. cbn [bytes_of_string IndexByte]. rewrite not_elem_of_cons.
  intros [Hd Hs]. destruct (Ascii.eqb_spec c d) as [->|]; [done|]. by rewrite IH.
Qed.

Lemma digits_index ds c : forallb is_digit ds = true -> is_digit (char_byte c) = false ->
  IndexByte (string_of_bytes ds) c = None.
Proof.
  intros Hd Hc. apply IndexByte_free. rewrite bytes_of_string_of_bytes by by apply digits_bytes_ok.
  by apply digits_free.
Qed.

Lemma Itoa_clean n : 0 <= n -> clean (Itoa n) /\ IndexByte (Itoa n) ":" = None.
Proof.
  intros H. unfold Itoa. rewrite (proj2 (Z.ltb_ge _ _)) by done.
  destruct (format_uint_spec n H) as (_ & Hd & _). unfold clean.
  split_and!; by apply digits_index.
Qed.

Lemma Atoi_Itoa n : 0 <= n < 2 ^ 63 -> Atoi (Itoa n) = Some n.
Proof.
  intros [H1 H2]. unfold Itoa, Atoi. rewrite (proj2 (Z.ltb_ge _ _)) by done.
  destruct (format_uint_spec n H1) as (Hv & Hd & Hne).
  rewrite bytes_of_string_of_bytes by by apply digits_bytes_ok.
  destruct (format_uint n) as [|c ds] eqn:E; [done|].
  assert (is_digit c = true) as Hc by by apply andb_prop in Hd as [? _].
  assert (match c :: ds with 45 :: ds => (true, ds) | 43 :: ds => (false, ds) | _ => (false, c :: ds) end
    = (false, c :: ds)) as ->.
  { unfold is_digit in Hc. destruct c as [|p|p]; try done.
    repeat (destruct p as [p|p|]; try done). }
  rewrite Hd, Hv. cbn [negb]. rewrite orb_false_r.
  rewrite (proj2 (Z.eqb_neq _ _)) by (rewrite zlen_cons; pose proof (zlen_nonneg ds); lia).
  rewrite (proj2 (Z.ltb_ge _ _)), (proj2 (Z.leb_gt _ _)) by lia. done.
Qed.

Lemma AddrString_clean a : plain a -> clean (AddrString a).
Proof.
  intros [_ Hz]. unfold clean, AddrString.
  assert (forall c, foreign (char_byte c) -> IndexByte (string_of_bytes (addr_bytes a)) c = None) as H.
  { intros c Hc. apply IndexByte_free. rewrite bytes_of_string_of_bytes by apply addr_bytes_ok.
    destruct a as [v|v z]; simpl in Hz |- *; [by apply string4_free|]. subst z. by apply string6_free. }
  split; by apply H.
Qed.

(** ** Numbers and addresses with ports *)

(** [strconv.ParseUint(s, 10, 16)]. *)
Definition ParseUint16 (s : string) : option Z :=
  let ds := bytes_of_string s in
  if (zlen ds =? 0) || negb (forallb is_digit ds) then None
  else if 65535 <? dec_value ds then None else Some (dec_value ds).

Lemma ParseUint16_Itoa n : 0 <= n < 65536 -> ParseUint16 (Itoa n) = Some n.
Proof.
  intros [H1 H2]. unfold Itoa, ParseUint16. rewrite (proj2 (Z.ltb_ge _ _)) by done.
  destruct (format_uint_spec n H1) as (Hv & Hd & Hne). rewrite bytes_of_string_of_bytes by by apply digits_bytes_ok.
  cbv zeta. rewrite Hd, Hv. cbn [negb]. rewrite orb_false_r.
  rewrite (proj2 (Z.eqb_neq _ _)). 2:{ destruct (format_uint n) as [|c ds]; [done|]. rewrite zlen_cons. pose proof (zlen_nonneg ds). lia. }
  by rewrite (proj2 (Z.ltb_ge _ _)) by lia.
Qed.

(** [netip.ParseAddrPort]. *)
Definition ParseAddrPort (s : string) : option (Addr * Z) :=
  i ← LastIndexByte s ":";
  let ip := stake i s in
  let port := sdrop (S i) s in
  let ip6 := HasPrefix ip "[" in
  if bool_decide (ip = "")%string then None
  else if ip6 && negb (bool_decide (String.get (String.length ip - 1) ip = Some "]"%char)) then None
  else
    p ← ParseUint16 port;
    a ← ParseAddr (if ip6 then stake (String.length ip - 2) (sdrop 1 ip) else ip);
    if Bool.eqb ip6 (Is4 a) then None else Some (a, p).

Lemma sdrop_sep a c b : sdrop (S (String.length a)) (a +:+ String c b) = b.
Proof. rewrite <- Nat.add_1_r, sdrop_plus, sdrop_S. apply sdrop_0. Qed.

Lemma stake_app_1 a c : stake (String.length a) (a +:+ String c "") = a.
Proof. by rewrite stake_length_app. Qed.

Lemma get_app a c b : String.get (String.length a) (a +:+ String c b) = Some c.
Proof. induction a as [|d a IH]; [done|]. autorewrite with sapp. simpl. exact IH. Qed.

(** An address prints with a colon exactly when it is an IPv6 one. *)
Lemma AddrString_colon a : plain a -> Contains (AddrString a) ":" = negb (Is4 a).
Proof.
  intros [Hr Hz]. rewrite Contains_IndexByte. unfold AddrString.
  assert (bytes_of_string (string_of_bytes (addr_bytes a)) = addr_bytes a) as Hb
    by (apply bytes_of_string_of_bytes, addr_bytes_ok).
  destruct a as [v|v z]; cbn [Zone] in Hz; cbn [Is4 negb].
  - apply bool_decide_eq_false_2. rewrite IndexByte_free; [by intros []|]. rewrite Hb. change (addr_bytes (Addr4 v)) with (string4 v).
    apply join_byte_free; [done|]. apply Forall_fmap. eapply Forall_impl; [apply octets_byte|].
    intros x [Hx _]. by apply format_free.
  - subst z. apply bool_decide_eq_true_2. destruct (IndexByte _ ":") eqn:E; [done|]. exfalso.
    change (addr_bytes (Addr6 v "")) with (string6 v) in *.
    pose proof (addr_kind_string6 v Hr) as Hk. rewrite <- Hb in Hk. revert E Hk.
    generalize (string_of_bytes (string6 v)) as s. induction s as [|c s IH]; [done|]. cbn [IndexByte bytes_of_string addr_kind].
    destruct (Ascii.eqb_spec ":" c) as [|Hc]; [done|]. destruct (IndexByte s ":"); [done|]. intros _.
    destruct (_ || _) eqn:Eo; [|by apply IH]. intros [= Ec]. apply Hc.
    by rewrite <- (byte_char_byte c), Ec.
Qed.

Lemma ParseAddrPort_String a p : plain a -> 0 <= p < 65536 ->
  ParseAddrPort (JoinHostPort (AddrString a) (Itoa p)) = Some (a, p).
Proof.
  intros Ha Hp. destruct (Itoa_clean p ltac:(lia)) as [_ Hi]. pose proof (ParseAddr_String a Ha) as HP.
  pose proof (AddrString_clean a Ha) as [Hc _].
  unfold JoinHostPort. rewrite AddrString_colon by done. destruct (Is4 a) eqn:E4; cbn [negb].
  - assert ((AddrString a +:+ ":" +:+ Itoa p)%string = AddrString a +:+ String ":" (Itoa p)) as -> by done.
    unfold ParseAddrPort. rewrite LastIndexByte_here by done. cbn [mbind option_bind]. cbv zeta.
    rewrite stake_length_app, sdrop_sep.
    destruct (AddrString a) as [|d s]; [by vm_compute in HP|]. rewrite HasPrefix_one.
    cbn [IndexByte] in Hc. destruct (Ascii.eqb "[" d); [done|]. rewrite bool_decide_eq_false_2 by done. cbn [andb].
    rewrite ParseUint16_Itoa by done. cbn [mbind option_bind]. rewrite HP. cbn [mbind option_bind]. by rewrite E4.
  - assert (("[" +:+ AddrString a +:+ "]:" +:+ Itoa p)%string = (String "[" (AddrString a +:+ "]")) +:+ String ":" (Itoa p)) as ->.
    { rewrite (sapp_cons "[" (AddrString a +:+ "]")), sapp_assoc. done. }
    unfold ParseAddrPort. rewrite LastIndexByte_here by done. cbn [mbind option_bind]. cbv zeta.
    rewrite stake_length_app, sdrop_sep.
    rewrite HasPrefix_one, Ascii.eqb_refl, bool_decide_eq_false_2 by done. cbn [andb].
    assert (String.length (String "[" (AddrString a +:+ "]")) = S (S (String.length (AddrString a)))) as ->.
    { cbn [String.length]. rewrite slength_app. simpl. lia. }
    rewrite bool_decide_eq_true_2.
    2:{ change (S (S (String.length (AddrString a))) - 1)%nat with (S (String.length (AddrString a))). apply get_app. }
    cbn [negb]. rewrite ParseUint16_Itoa by done. cbn [mbind option_bind].
    rewrite sdrop_S, sdrop_0. replace (S (S (String.length (AddrString a))) - 2)%nat with (String.length (AddrString a)) by lia.
    rewrite stake_app_1, HP. cbn [mbind option_bind]. by rewrite E4.
Qed.
