(* ===== verification/FakeIP.v ===== *)
(** * The fake-IP stores (src/internal/fake_ip.go)

    A [fakeIPStore] hands out addresses of a private prefix for domain names and
    maps them back.  Times are nanoseconds; [now] is an argument of each
    operation (the [now] field of the struct is a clock).  A Go [range] over a
    map visits the keys in an unspecified order, which is a parameter with the
    law that it visits exactly the keys of the map, each once. *)

From S2P Require Import Prelude GoStrings NetIP.

Class RangeOrder := {
  range_keys : forall {A : Type}, gmap string A -> list string;
  range_keys_dom : forall {A : Type} (m : gmap string A) k, k ∈ range_keys m <-> is_Some (m !! k);
  range_keys_NoDup : forall {A : Type} (m : gmap string A), NoDup (range_keys m)
}.

(** The order of the key sort of [gmap]. *)
Definition sorted_order : RangeOrder.
Proof.
  refine {| range_keys := fun A m => (map_to_list m).*1 |}.
  - intros A m k. rewrite list_elem_of_fmap. split.
    + intros ([k' v] & -> & H%elem_of_map_to_list). by exists v.
    + intros [v H]. exists (k, v). split; [done|]. by apply elem_of_map_to_list.
  - intros A m. apply NoDup_fst_map_to_list.
Defined.

Module FakeIP.

(** fake_ip.go: [type fakeIPEntry]. *)
Record fakeIPEntry := mkEntry { e_domain : string; e_ip : string; expiresAt : Z }.

(** fake_ip.go: [type fakeIPStore]; [next] is [None] for the zero Addr. *)
Record fakeIPStore := mkStore {
  prefix : Prefix;
  next : option Addr;
  domainToEntry : gmap string fakeIPEntry;
  ipToEntry : gmap string fakeIPEntry
}.

Definition with_maps (s : fakeIPStore) (d i : gmap string fakeIPEntry) : fakeIPStore :=
  mkStore (prefix s) (next s) d i.

Definition second : Z := 10 ^ 9.
Definition defaultFakeTTL : Z := 60.
Definition fakeIPv4CIDR : string := "198.18.0.0/15".
Definition fakeIPv6CIDR : string := "fd66:6c75:6d69:100::/56".
Definition vpnDNSIPv4Addr : string := "172.19.0.2".

(** [netip.MustParsePrefix] panics on a bad constant. *)
Definition mustNewFakeIPStore (cidr : string) : go fakeIPStore :=
  match ParsePrefix cidr with
  | None => Panic
  | Some p => Ret (mkStore p (Next (pAddr p)) ∅ ∅)
  end.

Definition IsVPNDNSAddress (host : string) (port : Z) : bool :=
  bool_decide (host = vpnDNSIPv4Addr) && (port =? 53).

(** [Prefix.Contains] and [Addr.String] of a possibly zero Addr. *)
Definition contains (p : Prefix) (a : option Addr) : bool :=
  match a with Some a => prefix_contains p a | None => false end.
Definition opt_string (a : option Addr) : string :=
  match a with Some a => AddrString a | None => "invalid IP" end.
Definition opt_next (a : option Addr) : option Addr := a ≫= Next.

Definition deleteEntryLocked (s : fakeIPStore) (entry : fakeIPEntry) : fakeIPStore :=
  let d := match domainToEntry s !! e_domain entry with
           | Some current =>
             if decide (e_ip current = e_ip entry)
             then delete (e_domain entry) (domainToEntry s) else domainToEntry s
           | None => domainToEntry s
           end in
  let i := match ipToEntry s !! e_ip entry with
           | Some current =>
             if decide (e_domain current = e_domain entry)
             then delete (e_ip entry) (ipToEntry s) else ipToEntry s
           | None => ipToEntry s
           end in
  with_maps s d i.

(** One visit of the range loop: a key deleted before it is reached is skipped. *)
Definition cleanup_key (now : Z) (s : fakeIPStore) (k : string) : fakeIPStore :=
  match domainToEntry s !! k with
  | Some entry => if expiresAt entry <=? now then deleteEntryLocked s entry else s
  | None => s
  end.

Definition LookupDomain (s : fakeIPStore) (now : Z) (ip : string) : option string * fakeIPStore :=
  match ipToEntry s !! ip with
  | None => (None, s)
  | Some entry =>
    if expiresAt entry <=? now then (None, deleteEntryLocked s entry)
    else (Some (e_domain entry), s)
  end.

(** The [for] loop of Allocate; [None] when [fuel] runs out. *)
Fixpoint allocate_loop (fuel : nat) (now expires : Z) (domain : string)
    (start candidate : option Addr) (s : fakeIPStore) : option (go string * fakeIPStore) :=
  match fuel with
  | O => None
  | S fuel =>
    let candidate := if contains (prefix s) candidate then candidate else Next (pAddr (prefix s)) in
    let ip := opt_string candidate in
    let take s :=
      let entry := mkEntry domain ip expires in
      Some (Ret ip, mkStore (prefix s) (opt_next candidate)
                            (<[domain := entry]> (domainToEntry s)) (<[ip := entry]> (ipToEntry s))) in
    match ipToEntry s !! ip with
    | Some entry =>
      if now <? expiresAt entry then
        let candidate := opt_next candidate in
        if decide (candidate = start) then Some (Err "fake ip pool exhausted", s)
        else allocate_loop fuel now expires domain start candidate s
      else take (deleteEntryLocked s entry)
    | None => take s
    end
  end.

Section ops.
Context {ord : RangeOrder}.

Definition cleanupExpiredLocked (s : fakeIPStore) (now : Z) : fakeIPStore :=
  fold_left (cleanup_key now) (range_keys (domainToEntry s)) s.

(** The loop runs once per occupied address and once more. *)
Definition Allocate (s : fakeIPStore) (now : Z) (domain : string) (lifetime : Z)
    : option (go string * fakeIPStore) :=
  let domain := ToLower domain in
  if decide (domain = "")%string then Some (Err "domain is empty", s)
  else
    let lifetime := if lifetime <=? 0 then defaultFakeTTL * second else lifetime in
    let s := cleanupExpiredLocked s now in
    match domainToEntry s !! domain with
    | Some entry =>
      let entry := mkEntry (e_domain entry) (e_ip entry) (now + lifetime) in
      Some (Ret (e_ip entry),
            with_maps s (<[domain := entry]> (domainToEntry s)) (<[e_ip entry := entry]> (ipToEntry s)))
    | None =>
      allocate_loop (S (size (ipToEntry s))) now (now + lifetime) domain (next s) (next s) s
    end.
End ops.

(** [time.Duration(ttl) * time.Second] of a uint32 [ttl]. *)
Definition fakeIPLifetime (dnsCacheTTL ttl : Z) : Z :=
  let ttl := if ttl =? 0 then defaultFakeTTL else ttl in
  let lifetime := i64 (ttl * second) in
  if lifetime <? dnsCacheTTL then dnsCacheTTL else lifetime.

(** The package's two stores. *)
Record fakeStores := mkStores { store4 : fakeIPStore; store6 : fakeIPStore }.

Definition defaultStores : go fakeStores :=
  let! s4 := mustNewFakeIPStore fakeIPv4CIDR in
  let! s6 := mustNewFakeIPStore fakeIPv6CIDR in
  Ret (mkStores s4 s6).

Definition lookupFakeDomainByIP (g : fakeStores) (now : Z) (ip : string)
    : option string * fakeStores :=
  let (d, s4) := LookupDomain (store4 g) now ip in
  match d with
  | Some domain => (Some domain, mkStores s4 (store6 g))
  | None => let (d, s6) := LookupDomain (store6 g) now ip in (d, mkStores s4 s6)
  end.

Definition isFakeIPAddress (g : fakeStores) (ip : string) : bool :=
  match ParseAddr ip with
  | None => false
  | Some addr => prefix_contains (prefix (store4 g)) addr || prefix_contains (prefix (store6 g)) addr
  end.

Definition TypeA : Z := 1.
Definition TypeAAAA : Z := 28.

Definition allocateFakeIP {ord : RangeOrder} (g : fakeStores) (now dnsCacheTTL : Z)
    (domain : string) (qtype ttl : Z) : option (go string * fakeStores) :=
  let lifetime := fakeIPLifetime dnsCacheTTL ttl in
  if qtype =? TypeA then
    '(r, s) ← Allocate (store4 g) now domain lifetime; Some (r, mkStores s (store6 g))
  else if qtype =? TypeAAAA then
    '(r, s) ← Allocate (store6 g) now domain lifetime; Some (r, mkStores (store4 g) s)
  else Some (Err "unsupported fake ip qtype", g).

(** ** The offsets of a prefix *)

(** A prefix in canonical form with more than one address. *)
Definition prefix_ok (p : Prefix) : Prop :=
  plain (pAddr p) /\ 0 <= pBits p < BitLen (pAddr p) /\ Masked p = pAddr p.

Definition size_of (p : Prefix) : Z := 2 ^ (BitLen (pAddr p) - pBits p).

(** The address [k] after the first one, if there is one. *)
Definition nth_addr (p : Prefix) (k : Z) : option Addr :=
  match pAddr p with
  | Addr4 v => if v + k <? 2 ^ 32 then Some (Addr4 (v + k)) else None
  | Addr6 v z => if v + k <? 2 ^ 128 then Some (Addr6 (v + k) z) else None
  end.

(** The [t]-th address the loop of Allocate looks at when it starts at offset
    [k0]: all offsets but 0, cyclically. *)
Definition cand (p : Prefix) (k0 : Z) (t : Z) : Z := 1 + (k0 - 1 + t) mod (size_of p - 1).

Lemma size_of_ge p : prefix_ok p -> 2 <= size_of p.
Proof.
  intros (_ & H & _). unfold size_of.
  change 2 with (2 ^ 1) at 1. apply Z.pow_le_mono_r; lia.
Qed.

(** A canonical prefix ends inside the address space. *)
Lemma prefix_aligned p : prefix_ok p ->
  exists q, addr_val (pAddr p) = q * size_of p /\ addr_val (pAddr p) + size_of p <= 2 ^ BitLen (pAddr p).
Proof.
  intros ([[H1 H2] _] & Hb & Hm). unfold size_of, Masked in *.
  set (k := BitLen (pAddr p) - pBits p) in *.
  assert (addr_val (pAddr p) = addr_val (pAddr p) / 2 ^ k * 2 ^ k) as E.
  { destruct (pAddr p) as [v|v z]; simpl in *; injection Hm as E; intros;
      rewrite Z.shiftl_mul_pow2, Z.shiftr_div_pow2 in E by lia; lia. }
  exists (addr_val (pAddr p) / 2 ^ k). split; [done|].
  replace (BitLen (pAddr p)) with (pBits p + k) in * by lia.
  rewrite Z.pow_add_r in * by lia.
  set (q := addr_val (pAddr p) / 2 ^ k) in *.
  assert (q < 2 ^ pBits p) by (apply (Z.mul_lt_mono_pos_r (2 ^ k)); lia).
  pose proof (Z.mul_le_mono_nonneg_r (q + 1) (2 ^ pBits p) (2 ^ k)). lia.
Qed.

Lemma shiftr_lxor_0 a b k : 0 <= a -> 0 <= b -> 0 <= k ->
  (Z.shiftr (Z.lxor a b) k =? 0) = (a / 2 ^ k =? b / 2 ^ k).
Proof.
  intros Ha Hb Hk. rewrite Z.shiftr_lxor, !Z.shiftr_div_pow2 by done.
  destruct (Z.eqb_spec (a / 2 ^ k) (b / 2 ^ k)) as [->|Hn].
  - by rewrite Z.lxor_nilpotent.
  - apply Z.eqb_neq. by intros ?%Z.lxor_eq.
Qed.

Lemma nth_addr_inj p j k a : nth_addr p j = Some a -> nth_addr p k = Some a -> j = k.
Proof. unfold nth_addr. destruct (pAddr p); zcase; naive_solver lia. Qed.

Lemma nth_addr_plain p k a : prefix_ok p -> 0 <= k -> nth_addr p k = Some a -> plain a.
Proof.
  intros ([[H1 H2] Hz] & _) Hk. unfold nth_addr, plain, addr_ok in *.
  destruct (pAddr p) as [v|v z]; simpl in *; zcase; intros [= <-]; simpl; split; try done; lia.
Qed.

Lemma nth_addr_Some p k : prefix_ok p -> 0 <= k < size_of p -> exists a, nth_addr p k = Some a.
Proof.
  intros Hp Hk. destruct (prefix_aligned p Hp) as (q & _ & H). unfold nth_addr.
  destruct (pAddr p) as [v|v z]; simpl in *; zcase; eauto; lia.
Qed.

(** The offsets of [nth_addr] that the prefix contains. *)
Lemma contains_nth p k : prefix_ok p -> 0 <= k <= size_of p ->
  contains p (nth_addr p k) = (k <? size_of p).
Proof.
  intros Hp Hk. destruct (prefix_aligned p Hp) as (q & Hq & H).
  pose proof (size_of_ge p Hp) as Hs. destruct Hp as ([[H1 H2] Hz] & Hb & _).
  assert (forall v, addr_val (pAddr p) = v -> 0 <= v ->
    ((v + k) / 2 ^ (BitLen (pAddr p) - pBits p) =? v / 2 ^ (BitLen (pAddr p) - pBits p)) =
    (k <? size_of p)) as Hc.
  { intros v <- Hv. fold (size_of p). rewrite Hq. rewrite Z.div_mul by lia.
    replace (q * size_of p + k) with (k + q * size_of p) by lia.
    rewrite Z.div_add by lia. destruct (Z.ltb_spec k (size_of p)).
    - rewrite Z.div_small by lia. lia.
    - replace k with (size_of p) by lia. rewrite Z.div_same by lia. lia. }
  assert (0 <= k) by lia. unfold contains, nth_addr, prefix_contains.
  destruct (pAddr p) as [v|v z]; simpl in *; [|rewrite Hz in *].
  all: destruct (Z.ltb_spec (v + k) (2 ^ 32)); destruct (Z.ltb_spec (v + k) (2 ^ 128)); try lia;
    simpl; rewrite ?bool_decide_eq_true_2 by done; simpl; rewrite ?shiftr_lxor_0 by lia;
    rewrite ?Hc by (done || lia); try done; symmetry; apply Z.ltb_ge; lia.
Qed.

Lemma next_nth p k : 0 <= k -> opt_next (nth_addr p k) = nth_addr p (k + 1) \/ nth_addr p k = None.
Proof.
  intros Hk. unfold opt_next, nth_addr, Next. destruct (pAddr p) as [v|v z]; zcase; simpl; zcase; auto;
    rewrite ?Z.add_assoc; auto; lia.
Qed.

Lemma next_nth_in p k : prefix_ok p -> 0 <= k < size_of p ->
  opt_next (nth_addr p k) = nth_addr p (k + 1).
Proof.
  intros Hp Hk. destruct (nth_addr_Some p k Hp Hk) as [a Ha].
  destruct (next_nth p k); [lia|done|congruence].
Qed.

Lemma first_nth p : prefix_ok p -> Next (pAddr p) = nth_addr p 1.
Proof. intros _. unfold nth_addr, Next. by destruct (pAddr p). Qed.

(** Distinct offsets up to the end of the prefix are distinct addresses. *)
Lemma nth_addr_eq p j k : prefix_ok p -> 0 <= j <= size_of p -> 0 <= k <= size_of p ->
  nth_addr p j = nth_addr p k <-> j = k.
Proof.
  intros Hp Hj Hk. split; [|by intros ->]. intros E.
  destruct (decide (j < size_of p)) as [Hlt|].
  - destruct (nth_addr_Some p j Hp) as [a Ha]; [lia|]. eapply nth_addr_inj; [done|congruence].
  - destruct (decide (k < size_of p)); [|lia].
    destruct (nth_addr_Some p k Hp) as [a Ha]; [lia|]. symmetry. eapply nth_addr_inj; [done|congruence].
Qed.

Lemma opt_string_inj p j k : prefix_ok p -> 0 <= j < size_of p -> 0 <= k < size_of p ->
  opt_string (nth_addr p j) = opt_string (nth_addr p k) -> j = k.
Proof.
  intros Hp Hj Hk. destruct (nth_addr_Some p j Hp Hj) as [a Ha].
  destruct (nth_addr_Some p k Hp Hk) as [b Hb]. rewrite Ha, Hb. simpl. intros E.
  apply AddrString_inj in E; [|eapply nth_addr_plain; [done| |done]; lia..]. subst b.
  by eapply nth_addr_inj.
Qed.

(** ** The invariant *)

(** The two maps are inverse views of one set of entries; every address handed
    out lies in the prefix, after its first address; the search position is an
    offset of the prefix, and is past offset 1 once an address is in use. *)
Record store_ok (s : fakeIPStore) : Prop := {
  ok_prefix : prefix_ok (prefix s);
  ok_domain : forall d e, domainToEntry s !! d = Some e ->
    e_domain e = d /\ d <> ""%string /\ ToLower d = d /\ ipToEntry s !! e_ip e = Some e;
  ok_ip : forall i e, ipToEntry s !! i = Some e ->
    e_ip e = i /\ domainToEntry s !! e_domain e = Some e /\
    exists k, 1 <= k < size_of (prefix s) /\ i = opt_string (nth_addr (prefix s) k);
  ok_next : exists k0, 1 <= k0 <= size_of (prefix s) /\ next s = nth_addr (prefix s) k0 /\
    (ipToEntry s = ∅ \/ 2 <= k0)
}.

Lemma ok_same_ip s d1 d2 e1 e2 : store_ok s ->
  domainToEntry s !! d1 = Some e1 -> domainToEntry s !! d2 = Some e2 -> e_ip e1 = e_ip e2 -> d1 = d2.
Proof.
  intros Hs H1 H2 E. destruct (ok_domain s Hs _ _ H1) as (<- & _ & _ & I1).
  destruct (ok_domain s Hs _ _ H2) as (<- & _ & _ & I2). rewrite E in I1. congruence.
Qed.

Lemma mustNew_ok cidr s : mustNewFakeIPStore cidr = Ret s -> prefix_ok (prefix s) -> store_ok s.
Proof.
  unfold mustNewFakeIPStore. destruct (ParsePrefix cidr) as [p|]; [|done]. intros [= <-] Hp. simpl in Hp.
  split; simpl; [done|by intros ?? ?%lookup_empty_Some..|].
  exists 1. pose proof (size_of_ge p Hp). split; [lia|]. split; [by apply first_nth|by left].
Qed.

Lemma delete_entry_eq s e : store_ok s -> domainToEntry s !! e_domain e = Some e ->
  deleteEntryLocked s e =
  with_maps s (delete (e_domain e) (domainToEntry s)) (delete (e_ip e) (ipToEntry s)).
Proof.
  intros Hs He. destruct (ok_domain s Hs _ _ He) as (_ & _ & _ & Hi).
  unfold deleteEntryLocked. by rewrite He, Hi, !decide_True.
Qed.

Lemma delete_entry_ok s e : store_ok s -> domainToEntry s !! e_domain e = Some e ->
  store_ok (deleteEntryLocked s e).
Proof.
  intros Hs He. rewrite delete_entry_eq by done. destruct (ok_domain s Hs _ _ He) as (_ & _ & _ & Hi).
  split; simpl.
  - apply Hs.
  - intros d e' [Hd H]%lookup_delete_Some. destruct (ok_domain s Hs _ _ H) as (<- & H1 & H2 & H3).
    split_and!; try done. rewrite lookup_delete_ne; [done|]. intros E. apply Hd. congruence.
  - intros i e' [Hd H]%lookup_delete_Some. destruct (ok_ip s Hs _ _ H) as (<- & H1 & H2).
    split_and!; try done. rewrite lookup_delete_ne; [done|]. intros E. congruence.
  - destruct (ok_next s Hs) as (k0 & H1 & H2 & H3). exists k0. split_and!; try done; try lia.
    destruct H3 as [->|]; [left; apply delete_empty|by right].
Qed.

(** ** Expiry *)

Definition unexpired (now : Z) (o : option fakeIPEntry) : option fakeIPEntry :=
  e ← o; if expiresAt e <=? now then None else Some e.

Lemma cleanup_key_spec now s k : store_ok s ->
  let s' := cleanup_key now s k in
  store_ok s' /\ prefix s' = prefix s /\ next s' = next s /\
  (forall d, domainToEntry s' !! d =
     if decide (d = k) then unexpired now (domainToEntry s !! d) else domainToEntry s !! d).
Proof.
  intros Hs. unfold cleanup_key. destruct (domainToEntry s !! k) as [e|] eqn:E; simpl.
  - destruct (ok_domain s Hs _ _ E) as (Ek & _). destruct (Z.leb_spec (expiresAt e) now).
    + split; [apply delete_entry_ok; [done|by rewrite Ek]|].
      rewrite delete_entry_eq by (done || by rewrite Ek). simpl. rewrite Ek.
      split_and!; [done..|]. intros d. destruct (decide (d = k)) as [->|].
      * rewrite lookup_delete_eq, E. simpl. by rewrite (proj2 (Z.leb_le _ _)).
      * by rewrite lookup_delete_ne.
    + split_and!; try done. intros d. case_decide; [subst|done]. rewrite E. simpl.
      by rewrite (proj2 (Z.leb_gt _ _)).
  - split_and!; try done. intros d. case_decide; [subst|done]. by rewrite E.
Qed.

Lemma cleanup_fold now l : forall s, store_ok s ->
  let s' := fold_left (cleanup_key now) l s in
  store_ok s' /\ prefix s' = prefix s /\ next s' = next s /\
  (forall d, domainToEntry s' !! d =
     if decide (d ∈ l) then unexpired now (domainToEntry s !! d) else domainToEntry s !! d).
Proof.
  induction l as [|k l IH]; intros s Hs; simpl.
  { by split_and!. }
  destruct (cleanup_key_spec now s k Hs) as (H1 & H2 & H3 & H4).
  destruct (IH _ H1) as (I1 & I2 & I3 & I4). split_and!; [done|congruence|congruence|].
  intros d. rewrite I4, H4. destruct (decide (d = k)) as [->|].
  - destruct (decide (k ∈ k :: l)) as [_|[]]; [|constructor]. case_decide; [|done].
    destruct (domainToEntry s !! k) as [e|]; simpl; [|done].
    destruct (expiresAt e <=? now) eqn:E; simpl; [done|]. by rewrite E.
  - destruct (decide (d ∈ l)), (decide (d ∈ k :: l)); try done; set_solver.
Qed.

(** The domains bound at time [now], with their addresses. *)
Definition live (s : fakeIPStore) (now : Z) : gmap string string :=
  omap (fun e => if expiresAt e <=? now then None else Some (e_ip e)) (domainToEntry s).

Lemma lookup_live s now d : live s now !! d = e_ip <$> unexpired now (domainToEntry s !! d).
Proof.
  unfold live. rewrite lookup_omap. destruct (domainToEntry s !! d) as [e|]; simpl; [|done].
  by destruct (expiresAt e <=? now).
Qed.

Section cleanup.
Context {ord : RangeOrder}.

(** Whatever the order of the range loop, exactly the unexpired entries stay. *)
Lemma cleanup_spec s now : store_ok s ->
  let s' := cleanupExpiredLocked s now in
  store_ok s' /\ prefix s' = prefix s /\ next s' = next s /\
  (forall d, domainToEntry s' !! d = unexpired now (domainToEntry s !! d)).
Proof.
  intros Hs. unfold cleanupExpiredLocked.
  destruct (cleanup_fold now (range_keys (domainToEntry s)) s Hs) as (H1 & H2 & H3 & H4).
  split_and!; try done. intros d. rewrite H4. case_decide as Hd; [done|].
  rewrite range_keys_dom in Hd. by apply eq_None_not_Some in Hd as ->.
Qed.

Lemma cleanup_live s now : store_ok s ->
  (forall i e, ipToEntry (cleanupExpiredLocked s now) !! i = Some e -> now < expiresAt e) /\
  live (cleanupExpiredLocked s now) now = live s now.
Proof.
  intros Hs. destruct (cleanup_spec s now Hs) as (H1 & _ & _ & H4). split.
  - intros i e Hi. destruct (ok_ip _ H1 _ _ Hi) as (_ & Hd & _). rewrite H4 in Hd.
    destruct (domainToEntry s !! e_domain e) as [e'|]; simpl in Hd; [|done].
    destruct (Z.leb_spec (expiresAt e') now); congruence.
  - apply map_eq. intros d. rewrite !lookup_live, H4.
    destruct (domainToEntry s !! d) as [e|]; simpl; [|done].
    destruct (expiresAt e <=? now) eqn:E; simpl; [done|]. by rewrite E.
Qed.
End cleanup.

(** ** The search loop *)

(** The offset the loop holds before its [t]-th look: one past the last one. *)
Definition raw (p : Prefix) (k0 t : Z) : Z := if t =? 0 then k0 else cand p k0 (t - 1) + 1.

Lemma cand_range p k0 t : prefix_ok p -> 1 <= cand p k0 t < size_of p.
Proof.
  intros Hp%size_of_ge. unfold cand.
  pose proof (Z.mod_pos_bound (k0 - 1 + t) (size_of p - 1)). lia.
Qed.

Lemma raw_range p k0 t : prefix_ok p -> 1 <= k0 <= size_of p -> 1 <= raw p k0 t <= size_of p.
Proof.
  intros Hp Hk. unfold raw. pose proof (cand_range p k0 (t - 1) Hp). zcase; lia.
Qed.

(** Wrapping a position that has left the prefix gives the next candidate. *)
Lemma raw_cand p k0 t : prefix_ok p -> 1 <= k0 <= size_of p -> 0 <= t ->
  (if raw p k0 t <? size_of p then raw p k0 t else 1) = cand p k0 t.
Proof.
  intros Hp%size_of_ge Hk Ht. unfold raw, cand. set (m := size_of p - 1).
  replace (size_of p) with (m + 1) in * by lia.
  destruct (Z.eqb_spec t 0) as [->|].
  - rewrite Z.add_0_r. destruct (Z.ltb_spec k0 (m + 1)).
    + rewrite Z.mod_small; lia.
    + replace (k0 - 1) with m by lia. rewrite Z.mod_same; lia.
  - pose proof (Z.mod_pos_bound (k0 - 1 + (t - 1)) m ltac:(lia)).
    replace (k0 - 1 + t) with (k0 - 1 + (t - 1) + 1) by lia.
    rewrite <- (Z.add_mod_idemp_l (k0 - 1 + (t - 1))) by lia.
    set (x := (k0 - 1 + (t - 1)) mod m) in *. destruct (Z.ltb_spec (1 + x + 1) (m + 1)).
    + rewrite Z.mod_small; lia.
    + replace (x + 1) with m by lia. rewrite Z.mod_same; lia.
Qed.

Lemma cand_inj p k0 t u : prefix_ok p -> 0 <= t < size_of p - 1 -> 0 <= u < size_of p - 1 ->
  cand p k0 t = cand p k0 u -> t = u.
Proof.
  intros Hp%size_of_ge Ht Hu E. unfold cand in E.
  apply Z.add_cancel_l, mod_cong_small in E; lia.
Qed.

(** The loop is back at its start exactly after the last candidate. *)
Lemma cand_wraps p k0 t : prefix_ok p -> 2 <= k0 <= size_of p -> 0 <= t < size_of p - 1 ->
  cand p k0 t + 1 = k0 <-> t = size_of p - 2.
Proof.
  intros Hp%size_of_ge Hk Ht. unfold cand. split.
  - intros E. assert ((k0 - 1 + t) mod (size_of p - 1) = (k0 - 2 + (size_of p - 1)) mod (size_of p - 1)) as E'.
    { replace (k0 - 2 + (size_of p - 1)) with (k0 - 2 + 1 * (size_of p - 1)) by lia.
      rewrite Z.mod_add, (Z.mod_small (k0 - 2)) by lia. lia. }
    apply mod_cong_small in E'; lia.
  - intros ->. replace (k0 - 1 + (size_of p - 2)) with (k0 - 2 + 1 * (size_of p - 1)) by lia.
    rewrite Z.mod_add, Z.mod_small by lia. lia.
Qed.

Lemma cand_surj p k0 k : prefix_ok p -> 1 <= k < size_of p ->
  exists t, 0 <= t < size_of p - 1 /\ cand p k0 t = k.
Proof.
  intros Hp%size_of_ge Hk. exists ((k - k0) mod (size_of p - 1)).
  split; [apply Z.mod_pos_bound; lia|]. unfold cand.
  rewrite Z.add_mod_idemp_r by lia. replace (k0 - 1 + (k - k0)) with (k - 1) by lia.
  rewrite Z.mod_small; lia.
Qed.

Lemma size_pigeonhole {A} (m : gmap string A) (l : list string) :
  NoDup l -> (forall i, i ∈ l -> is_Some (m !! i)) -> (length l <= size m)%nat.
Proof.
  intros Hn H. rewrite <- size_dom, <- (size_list_to_set (C := gset string) l) by done.
  apply subseteq_size. intros i Hi. apply elem_of_dom, H. by apply elem_of_list_to_set in Hi.
Qed.

Definition occupied (s : fakeIPStore) (k : Z) : Prop :=
  is_Some (ipToEntry s !! opt_string (nth_addr (prefix s) k)).

(** Each look that found its address taken found a different one. *)
Lemma occupied_bound s k0 (t : Z) : store_ok s -> 0 <= t <= size_of (prefix s) - 1 ->
  (forall u, 0 <= u < t -> occupied s (cand (prefix s) k0 u)) -> t <= Z.of_nat (size (ipToEntry s)).
Proof.
  intros Hs Ht H. pose proof (ok_prefix s Hs) as Hp.
  set (f u := opt_string (nth_addr (prefix s) (cand (prefix s) k0 u))).
  pose proof (size_pigeonhole (ipToEntry s) (f <$> seqZ 0 t)) as P.
  rewrite length_fmap, length_seqZ in P. apply Nat2Z.inj_le in P; [lia| |].
  - apply NoDup_fmap_2_strong; [|apply NoDup_seqZ]. intros u v Hu%elem_of_seqZ Hv%elem_of_seqZ E.
    pose proof (cand_range (prefix s) k0 u Hp). pose proof (cand_range (prefix s) k0 v Hp).
    apply opt_string_inj in E; [|done|lia..]. apply cand_inj in E; try done; lia.
  - intros i (u & -> & Hu%elem_of_seqZ)%list_elem_of_fmap. apply H. lia.
Qed.

Definition taken (s : fakeIPStore) (domain : string) (expires k : Z) : fakeIPStore :=
  let ip := opt_string (nth_addr (prefix s) k) in
  let e := mkEntry domain ip expires in
  mkStore (prefix s) (nth_addr (prefix s) (k + 1))
    (<[domain := e]> (domainToEntry s)) (<[ip := e]> (ipToEntry s)).

(** What the search promises: a free offset, or every offset in use. *)
Definition search_result (s : fakeIPStore) (domain : string) (expires : Z)
    (o : option (go string * fakeIPStore)) : Prop :=
  (exists k, 1 <= k < size_of (prefix s) /\ ~ occupied s k /\
     o = Some (Ret (opt_string (nth_addr (prefix s) k)), taken s domain expires k)) \/
  (o = Some (Err "fake ip pool exhausted", s) /\
   forall k, 1 <= k < size_of (prefix s) -> occupied s k).

Lemma allocate_loop_spec s now expires domain k0 : store_ok s ->
  (forall i e, ipToEntry s !! i = Some e -> now < expiresAt e) ->
  1 <= k0 <= size_of (prefix s) -> (ipToEntry s = ∅ \/ 2 <= k0) ->
  forall fuel t, 0 <= t < size_of (prefix s) - 1 ->
  (forall u, 0 <= u < t -> occupied s (cand (prefix s) k0 u)) ->
  Z.of_nat (size (ipToEntry s)) < Z.of_nat fuel + t ->
  search_result s domain expires
    (allocate_loop fuel now expires domain (nth_addr (prefix s) k0)
       (nth_addr (prefix s) (raw (prefix s) k0 t)) s).
Proof.
  intros Hs Hlive Hk Hstart. pose proof (ok_prefix s Hs) as Hp. set (p := prefix s) in *.
  induction fuel as [|fuel IH]; intros t Ht Hocc Hf.
  { pose proof (occupied_bound s k0 t Hs) as B. fold p in B. specialize (B ltac:(lia) Hocc). lia. }
  cbn [allocate_loop]. fold p. 
  pose proof (raw_range p k0 t Hp Hk) as Hr. rewrite contains_nth by (done || lia).
  replace (if raw p k0 t <? size_of p then nth_addr p (raw p k0 t) else Next (pAddr p))
    with (nth_addr p (cand p k0 t)).
  2:{ rewrite <- raw_cand, first_nth by (done || lia). by destruct (_ <? _). }
  pose proof (cand_range p k0 t Hp) as Hc. rewrite next_nth_in by (done || lia).
  destruct (ipToEntry s !! opt_string (nth_addr p (cand p k0 t))) as [e|] eqn:E.
  - rewrite (proj2 (Z.ltb_lt _ _) (Hlive _ _ E)).
    assert (2 <= k0) as Hk2 by (destruct Hstart as [H0|]; [by rewrite H0 in E|done]).
    assert (forall u, 0 <= u < t + 1 -> occupied s (cand p k0 u)) as Hocc'.
    { intros u Hu. destruct (decide (u = t)) as [->|]; [by exists e|apply Hocc; lia]. }
    destruct (decide (t = size_of p - 2)) as [->|Hne].
    + rewrite decide_True by (f_equal; apply cand_wraps; try done; lia). right. split; [done|].
      intros k Hk'. destruct (cand_surj p k0 k Hp Hk') as (u & Hu & <-). apply Hocc'. lia.
    + rewrite decide_False.
      2:{ intros E'. apply nth_addr_eq in E'; [|done|lia..]. apply cand_wraps in E'; try done; lia. }
      specialize (IH (t + 1)). unfold raw in IH. rewrite (proj2 (Z.eqb_neq (t + 1) 0)) in IH by lia.
      replace (t + 1 - 1) with t in IH by lia. apply IH; [lia|done|lia].
  - left. exists (cand p k0 t). split; [exact Hc|]. split; [unfold occupied; fold p; rewrite E; by intros [??]|done].
Qed.

(** ** The operations *)

Lemma taken_ok s domain expires k : store_ok s -> domain <> ""%string -> ToLower domain = domain ->
  domainToEntry s !! domain = None -> 1 <= k < size_of (prefix s) -> ~ occupied s k ->
  store_ok (taken s domain expires k).
Proof.
  intros Hs Hd Hl Hn Hk Hfree. apply eq_None_not_Some in Hfree. split; simpl.
  - apply Hs.
  - intros d e. rewrite lookup_insert_Some. intros [[<- <-]|[Hne H]]; simpl.
    + by rewrite lookup_insert_eq.
    + destruct (ok_domain s Hs _ _ H) as (<- & H1 & H2 & H3). split_and!; try done.
      rewrite lookup_insert_ne; [done|]. intros E. rewrite E in Hfree. congruence.
  - intros i e. rewrite lookup_insert_Some. intros [[<- <-]|[Hne H]]; simpl.
    + rewrite lookup_insert_eq. eauto.
    + destruct (ok_ip s Hs _ _ H) as (<- & H1 & H2). split_and!; try done.
      rewrite lookup_insert_ne; [done|]. intros ->. congruence.
  - exists (k + 1). split_and!; [lia|lia|done|]. right. lia.
Qed.

Definition renewed (s : fakeIPStore) (e : fakeIPEntry) (expires : Z) : fakeIPStore :=
  let e' := mkEntry (e_domain e) (e_ip e) expires in
  with_maps s (<[e_domain e := e']> (domainToEntry s)) (<[e_ip e := e']> (ipToEntry s)).

Lemma renewed_ok s e expires : store_ok s -> domainToEntry s !! e_domain e = Some e ->
  store_ok (renewed s e expires).
Proof.
  intros Hs He. destruct (ok_domain s Hs _ _ He) as (_ & Hd & Hl & Hi).
  destruct (ok_ip s Hs _ _ Hi) as (_ & _ & Hk). split; simpl.
  - apply Hs.
  - intros d e'. rewrite lookup_insert_Some. intros [[<- <-]|[Hne H]]; simpl.
    + by rewrite lookup_insert_eq.
    + destruct (ok_domain s Hs _ _ H) as (<- & H1 & H2 & H3). split_and!; try done.
      rewrite lookup_insert_ne; [done|]. intros E. rewrite E in Hi. congruence.
  - intros i e'. rewrite lookup_insert_Some. intros [[<- <-]|[Hne H]]; simpl.
    + rewrite lookup_insert_eq. eauto.
    + destruct (ok_ip s Hs _ _ H) as (<- & H1 & H2). split_and!; try done.
      rewrite lookup_insert_ne; [done|]. intros E. rewrite E in He. congruence.
  - destruct (ok_next s Hs) as (k0 & H1 & H2 & H3). exists k0. split_and!; try done; try lia.
    destruct H3 as [H3|]; [|by right]. by rewrite H3 in Hi.
Qed.

Definition effective (lifetime : Z) : Z := if lifetime <=? 0 then defaultFakeTTL * second else lifetime.

(** Entries of domains other than [d] that are alive at [now] are kept as they are. *)
Definition keeps_others (s s' : fakeIPStore) (d : string) (now : Z) : Prop :=
  forall d', d' <> d -> domainToEntry s' !! d' = unexpired now (domainToEntry s !! d').

Section theorems.
Context {ord : RangeOrder}.

Lemma Allocate_spec s now domain lifetime : store_ok s -> ToLower domain <> ""%string ->
  let d := ToLower domain in
  exists r s', Allocate s now domain lifetime = Some (r, s') /\ store_ok s' /\ prefix s' = prefix s /\
    keeps_others s s' d now /\
    match r with
    | Ret ip =>
      (exists k, 1 <= k < size_of (prefix s) /\ ip = opt_string (nth_addr (prefix s) k)) /\
      domainToEntry s' !! d = Some (mkEntry d ip (now + effective lifetime)) /\
      (forall ip', live s now !! d = Some ip' -> ip' = ip)
    | Err e =>
      e = "fake ip pool exhausted"%string /\ live s now !! d = None /\
      domainToEntry s' !! d = None /\
      forall k, 1 <= k < size_of (prefix s) ->
        exists d', live s now !! d' = Some (opt_string (nth_addr (prefix s) k))
    | Panic => False
    end.
Proof.
  intros Hs Hd d. unfold Allocate. fold d. rewrite decide_False by done.
  destruct (cleanup_spec s now Hs) as (C1 & C2 & C3 & C4).
  destruct (cleanup_live s now Hs) as (L1 & L2).
  set (s0 := cleanupExpiredLocked s now) in *. fold (effective lifetime).
  destruct (domainToEntry s0 !! d) as [e|] eqn:E.
  - destruct (ok_domain _ C1 _ _ E) as (Ed & _ & _ & Ei).
    destruct (ok_ip _ C1 _ _ Ei) as (_ & _ & Hk).
    exists (Ret (e_ip e)), (renewed s0 e (now + effective lifetime)).
    split; [unfold renewed; by rewrite Ed|]. split; [by apply renewed_ok; [|rewrite Ed]|].
    split; [done|]. split.
    { intros d' Hne. simpl. rewrite lookup_insert_ne by congruence. apply C4. }
    split; [by rewrite <- C2|]. simpl. rewrite Ed, lookup_insert_eq. split; [done|].
    intros ip' Hl. rewrite <- L2, lookup_live, E in Hl. simpl in Hl.
    destruct (expiresAt e <=? now); simpl in Hl; congruence.
  - destruct (ok_next _ C1) as (k0 & N1 & N2 & N3).
    pose proof (allocate_loop_spec s0 now (now + effective lifetime) d k0 C1 L1 N1 N3
      (S (size (ipToEntry s0))) 0) as H.
    change (raw (prefix s0) k0 0) with k0 in H. rewrite <- N2 in H.
    pose proof (size_of_ge _ (ok_prefix _ C1)).
    assert (live s now !! d = None) as Hl.
    { rewrite <- L2, lookup_live, E. done. }
    destruct H as [(k & K1 & K2 & ->)|[-> Hocc]]; [lia|lia|lia| |].
    + do 2 eexists. split; [done|]. split; [apply taken_ok; try done; apply ToLower_idem|].
      split; [done|]. split.
      { intros d' Hne. simpl. rewrite lookup_insert_ne by congruence. apply C4. }
      split; [rewrite <- C2; eauto|]. simpl. rewrite lookup_insert_eq. split; [done|]. congruence.
    + exists (Err "fake ip pool exhausted"), s0. split_and!; try done.
      { intros d' _. apply C4. }
      intros k Hk. rewrite <- C2 in *. destruct (Hocc k Hk) as [e He].
      destruct (ok_ip _ C1 _ _ He) as (H1 & H2 & _). exists (e_domain e).
      rewrite <- L2, lookup_live, H2. simpl.
      rewrite (proj2 (Z.leb_gt (expiresAt e) now)) by by eapply L1. simpl. congruence.
Qed.

Lemma Allocate_empty s now domain lifetime : ToLower domain = ""%string ->
  Allocate s now domain lifetime = Some (Err "domain is empty", s).
Proof. intros H. unfold Allocate. by rewrite H. Qed.

(** LookupDomain is the inverse of the bindings alive at [now]. *)
Lemma LookupDomain_spec s now ip : store_ok s ->
  let (o, s') := LookupDomain s now ip in
  store_ok s' /\ prefix s' = prefix s /\
  (forall d, o = Some d <-> live s now !! d = Some ip) /\
  (forall d, unexpired now (domainToEntry s !! d) = unexpired now (domainToEntry s' !! d)) /\
  (forall d e, domainToEntry s' !! d = Some e -> domainToEntry s !! d = Some e).
Proof.
  intros Hs. unfold LookupDomain.
  assert (forall d, live s now !! d = Some ip <->
    exists e, ipToEntry s !! ip = Some e /\ e_domain e = d /\ now < expiresAt e) as Hlive.
  { intros d. rewrite lookup_live. split.
    - destruct (domainToEntry s !! d) as [e|] eqn:E; [|done]. simpl.
      destruct (Z.leb_spec (expiresAt e) now); simpl; [done|]. intros [= <-].
      destruct (ok_domain _ Hs _ _ E) as (? & _ & _ & ?). eauto.
    - intros (e & H1 & <- & H2). destruct (ok_ip _ Hs _ _ H1) as (<- & H3 & _). rewrite H3. simpl.
      by rewrite (proj2 (Z.leb_gt (expiresAt e) now)). }
  destruct (ipToEntry s !! ip) as [e|] eqn:E.
  - destruct (ok_ip _ Hs _ _ E) as (Ei & Ed & _). destruct (Z.leb_spec (expiresAt e) now).
    + split; [by apply delete_entry_ok|]. split; [done|].
      split; [intros d; rewrite Hlive; split; [done|]; intros (e' & ? & ?); simplify_eq; lia|].
      rewrite delete_entry_eq by done. simpl. split.
      * intros d. destruct (decide (d = e_domain e)) as [->|].
        { rewrite lookup_delete_eq, Ed. simpl. by rewrite (proj2 (Z.leb_le _ _)). }
        by rewrite lookup_delete_ne.
      * by intros d e' [_ ?]%lookup_delete_Some.
    + split_and!; try done. intros d. rewrite Hlive. naive_solver.
  - split_and!; try done. intros d. rewrite Hlive. naive_solver.
Qed.
End theorems.

(** ** Properties *)

Lemma live_inj s now d1 d2 ip : store_ok s ->
  live s now !! d1 = Some ip -> live s now !! d2 = Some ip -> d1 = d2.
Proof.
  intros Hs. rewrite !lookup_live.
  destruct (domainToEntry s !! d1) as [e1|] eqn:E1, (domainToEntry s !! d2) as [e2|] eqn:E2; try done.
  simpl. destruct (expiresAt e1 <=? now), (expiresAt e2 <=? now); simpl; try done.
  intros [= <-] [= H]. by eapply ok_same_ip.
Qed.

(** The address at an offset of the prefix, as the theorems name it. *)
Lemma offset_addr p k : prefix_ok p -> 1 <= k < size_of p ->
  exists a, nth_addr p k = Some a /\ plain a /\ prefix_contains p a = true /\ a <> pAddr p.
Proof.
  intros Hp Hk. destruct (nth_addr_Some p k Hp) as [a Ha]; [lia|]. exists a. split; [done|].
  split; [eapply nth_addr_plain; [done| |done]; lia|]. split.
  - pose proof (contains_nth p k Hp ltac:(lia)) as C. rewrite Ha in C. simpl in C. rewrite C. lia.
  - intros ->. unfold nth_addr in Ha. destruct (pAddr p); zcase; naive_solver lia.
Qed.

Lemma LookupDomain_entry s t d ip x : ipToEntry s !! ip = Some (mkEntry d ip x) ->
  fst (LookupDomain s t ip) = if x <=? t then None else Some d.
Proof. intros H. unfold LookupDomain. rewrite H. simpl. by destruct (x <=? t). Qed.

Section properties.
Context {ord : RangeOrder}.

(** C8: On a well-formed store Allocate of a non-empty name always returns and
    leaves a well-formed store.  If it returns an address, that address lies in the
    prefix and is not its first one, no other domain holds it, a domain already
    bound keeps its address, the live bindings of all other domains are as before,
    and LookupDomain maps the address back to the lower-cased name until exactly
    the lifetime (60 s if not positive) has passed.  If it fails, the error is
    pool exhaustion and every usable address of the prefix is held by a live
    binding. *)
Theorem Allocate_correct s now domain lifetime :
  store_ok s -> ToLower domain <> ""%string ->
  exists r s', Allocate s now domain lifetime = Some (r, s') /\ store_ok s' /\
    match r with
    | Ret ip =>
      (exists a, ip = AddrString a /\ prefix_contains (prefix s) a = true /\ a <> pAddr (prefix s)) /\
      (forall d', d' <> ToLower domain ->
         live s' now !! d' = live s now !! d' /\ live s now !! d' <> Some ip) /\
      (forall ip', live s now !! ToLower domain = Some ip' -> ip' = ip) /\
      (forall t, fst (LookupDomain s' t ip) =
         if t <? now + effective lifetime then Some (ToLower domain) else None)
    | Err e =>
      e = "fake ip pool exhausted"%string /\
      forall k, 1 <= k < size_of (prefix s) ->
        exists d' a, nth_addr (prefix s) k = Some a /\ live s now !! d' = Some (AddrString a)
    | Panic => False
    end.
Proof.
  intros Hs Hd. destruct (Allocate_spec s now domain lifetime Hs Hd) as (r & s' & -> & Hs' & Hp & Ho & H).
  exists r, s'. split; [done|]. split; [done|].
  assert (forall d', d' <> ToLower domain -> live s' now !! d' = live s now !! d') as Hlive.
  { intros d' Hne. rewrite !lookup_live, (Ho d' Hne).
    destruct (domainToEntry s !! d') as [e|]; simpl; [|done].
    destruct (expiresAt e <=? now) eqn:E; simpl; [done|]. by rewrite E. }
  pose proof (ok_prefix s Hs) as Hpre. destruct r as [ip|e|]; [| |done].
  - destruct H as ((k & Hk & ->) & He & Hsame).
    destruct (offset_addr _ k Hpre Hk) as (a & Ha & _ & Hc & Hne). rewrite Ha in *. simpl in *.
    split; [by exists a|]. destruct (ok_domain _ Hs' _ _ He) as (_ & _ & _ & Hi). split.
    + intros d' Hd'. split; [by apply Hlive|]. rewrite <- (Hlive d' Hd'), lookup_live. intros Hx.
      destruct (domainToEntry s' !! d') as [e'|] eqn:E'; [|done]. simpl in Hx.
      destruct (expiresAt e' <=? now); simplify_eq/=. apply Hd'. by eapply ok_same_ip.
    + split; [done|]. intros t. rewrite (LookupDomain_entry _ _ _ _ _ Hi).
      zcase; done || lia.
  - destruct H as (-> & _ & _ & H). split; [done|]. intros k Hk.
    destruct (offset_addr _ k Hpre Hk) as (a & Ha & _). destruct (H k Hk) as [d' Hd'].
    rewrite Ha in Hd'. eauto.
Qed.

(** A request of a run: its time and what it asks. *)
Inductive op :=
| OpAllocate (domain : string) (lifetime : Z)
| OpLookup (ip : string).

Definition exec (s : fakeIPStore) (now : Z) (o : op) : option fakeIPStore :=
  match o with
  | OpAllocate d lifetime => snd <$> Allocate s now d lifetime
  | OpLookup ip => Some (snd (LookupDomain s now ip))
  end.

Fixpoint run (s : fakeIPStore) (l : list (Z * op)) : option fakeIPStore :=
  match l with
  | [] => Some s
  | (now, o) :: l => s' ← exec s now o; run s' l
  end.

Definition allocates (d : string) (o : op) : bool :=
  match o with OpAllocate d' _ => bool_decide (ToLower d' = ToLower d) | OpLookup _ => false end.

(** One request that is not an allocation for [d] keeps the unexpired entry of [d]. *)
Lemma exec_keeps s now o d e : store_ok s -> allocates d o = false -> now < expiresAt e ->
  domainToEntry s !! ToLower d = Some e ->
  exists s', exec s now o = Some s' /\ store_ok s' /\ domainToEntry s' !! ToLower d = Some e.
Proof.
  intros Hs Ho Hnow He. assert (unexpired now (Some e) = Some e) as Hu.
  { simpl. by rewrite (proj2 (Z.leb_gt (expiresAt e) now)). }
  destruct o as [d' lifetime|ip]; simpl in *.
  - destruct (decide (ToLower d' = ""%string)) as [E|Hne].
    { rewrite Allocate_empty by done. eauto. }
    destruct (Allocate_spec s now d' lifetime Hs Hne) as (r & s' & -> & Hs' & _ & Hk & _).
    exists s'. split_and!; try done. apply bool_decide_eq_false in Ho.
    rewrite Hk by congruence. by rewrite He.
  - pose proof (LookupDomain_spec s now ip Hs) as H. destruct (LookupDomain s now ip) as [o s'].
    destruct H as (H1 & _ & _ & H2 & _). exists s'. split_and!; try done. specialize (H2 (ToLower d)).
    rewrite He in H2. simpl in H2. rewrite Hu in H2. destruct (domainToEntry s' !! ToLower d) as [e'|]; simpl in H2; [|done].
    destruct (expiresAt e' <=? now); congruence.
Qed.

Lemma run_keeps l : forall s d e, store_ok s -> Forall (fun x => allocates d (snd x) = false) l ->
  Forall (fun x => fst x < expiresAt e) l -> domainToEntry s !! ToLower d = Some e ->
  exists s', run s l = Some s' /\ store_ok s' /\ domainToEntry s' !! ToLower d = Some e.
Proof.
  induction l as [|[now o] l IH]; intros s d e Hs Ha Ht He; [by exists s|].
  apply Forall_cons in Ha as [Ha1 Ha2]. apply Forall_cons in Ht as [Ht1 Ht2].
  destruct (exec_keeps s now o d e) as (s' & E & Hs' & He'); [done..|].
  destruct (IH s' d e) as (s'' & ? & ? & ?); [done..|]. exists s''. simpl. by rewrite E.
Qed.

(** A binding survives other traffic.  After Allocate has returned [ip] for a
    domain, any sequence of allocations for other domains and of lookups, at times
    before the binding expires, runs to completion, and a lookup of [ip] before the
    expiry then still gives that domain. *)
Theorem binding_survives s now domain lifetime ip s1 l t :
  store_ok s -> Allocate s now domain lifetime = Some (Ret ip, s1) ->
  Forall (fun x => allocates domain (snd x) = false) l ->
  Forall (fun x => fst x < now + effective lifetime) l ->
  t < now + effective lifetime ->
  exists s2, run s1 l = Some s2 /\ fst (LookupDomain s2 t ip) = Some (ToLower domain).
Proof.
  intros Hs HA Ha Ht Hlt. destruct (decide (ToLower domain = ""%string)) as [E|Hne].
  { by rewrite Allocate_empty in HA. }
  destruct (Allocate_spec s now domain lifetime Hs Hne) as (r & s' & E & Hs' & _ & _ & H).
  rewrite HA in E. injection E as <- <-. destruct H as (_ & He & _).
  destruct (run_keeps l s1 domain (mkEntry (ToLower domain) ip (now + effective lifetime)) Hs' Ha Ht He) as (s2 & -> & Hs2 & He2). exists s2. split; [done|].
  destruct (ok_domain _ Hs2 _ _ He2) as (_ & _ & _ & Hi).
  rewrite (LookupDomain_entry _ _ _ _ _ Hi).
  by rewrite (proj2 (Z.leb_gt _ _)).
Qed.

(** The stores of the running program. *)
Inductive reachable (dnsCacheTTL : Z) : fakeStores -> Prop :=
| reach_init g : defaultStores = Ret g -> reachable dnsCacheTTL g
| reach_allocate g now domain qtype ttl r g' : reachable dnsCacheTTL g ->
    allocateFakeIP g now dnsCacheTTL domain qtype ttl = Some (r, g') -> reachable dnsCacheTTL g'
| reach_lookup g now ip d g' : reachable dnsCacheTTL g ->
    lookupFakeDomainByIP g now ip = (d, g') -> reachable dnsCacheTTL g'.

(** Both stores are well formed and keep the prefixes of the constants. *)
Definition stores_ok (g : fakeStores) : Prop :=
  store_ok (store4 g) /\ store_ok (store6 g) /\
  prefix (store4 g) = mkPrefix (Addr4 0xc6120000) 15 /\
  prefix (store6 g) = mkPrefix (Addr6 0xfd666c756d6901000000000000000000 "") 56.

Lemma const_prefix_ok :
  prefix_ok (mkPrefix (Addr4 0xc6120000) 15) /\
  prefix_ok (mkPrefix (Addr6 0xfd666c756d6901000000000000000000 "") 56).
Proof. unfold prefix_ok, plain, addr_ok. simpl. split; split_and!; try done; lia. Qed.

Lemma default_stores_ok g : defaultStores = Ret g -> stores_ok g.
Proof.
  destruct const_prefix_ok as [P4 P6]. intros [= <-]. unfold stores_ok. simpl. split_and!; try done.
  - by apply (mustNew_ok fakeIPv4CIDR).
  - by apply (mustNew_ok fakeIPv6CIDR).
Qed.

Lemma Allocate_keeps_ok s now domain lifetime r s' : store_ok s ->
  Allocate s now domain lifetime = Some (r, s') -> store_ok s' /\ prefix s' = prefix s.
Proof.
  intros Hs H. destruct (decide (ToLower domain = ""%string)) as [E|Hne].
  { rewrite Allocate_empty in H by done. by simplify_eq. }
  destruct (Allocate_spec s now domain lifetime Hs Hne) as (r1 & s1 & E & ? & ? & _).
  rewrite H in E. by simplify_eq.
Qed.

Lemma allocateFakeIP_ok g now dnsCacheTTL domain qtype ttl r g' : stores_ok g ->
  allocateFakeIP g now dnsCacheTTL domain qtype ttl = Some (r, g') -> stores_ok g'.
Proof.
  intros (H4 & H6 & P4 & P6). unfold allocateFakeIP, stores_ok.
  destruct (qtype =? TypeA); [|destruct (qtype =? TypeAAAA)].
  - destruct (Allocate _ _ _ _) as [[r1 s1]|] eqn:E; [|done]. intros [= <- <-]. simpl.
    apply Allocate_keeps_ok in E as [? Ep]; [|done]. rewrite Ep. done.
  - destruct (Allocate _ _ _ _) as [[r1 s1]|] eqn:E; [|done]. intros [= <- <-]. simpl.
    apply Allocate_keeps_ok in E as [? Ep]; [|done]. rewrite Ep. done.
  - intros [= <- <-]. done.
Qed.

Lemma lookupFakeDomainByIP_ok g now ip d g' : stores_ok g ->
  lookupFakeDomainByIP g now ip = (d, g') -> stores_ok g'.
Proof.
  intros (H4 & H6 & P4 & P6). unfold lookupFakeDomainByIP, stores_ok.
  pose proof (LookupDomain_spec (store4 g) now ip H4) as L4.
  destruct (LookupDomain (store4 g) now ip) as [[d4|] s4]; destruct L4 as (O4 & E4 & _).
  - intros [= <- <-]. simpl. by rewrite E4.
  - pose proof (LookupDomain_spec (store6 g) now ip H6) as L6.
    destruct (LookupDomain (store6 g) now ip) as [d6 s6]; destruct L6 as (O6 & E6 & _).
    intros [= <- <-]. simpl. by rewrite E4, E6.
Qed.

Lemma reachable_ok dnsCacheTTL g : reachable dnsCacheTTL g -> stores_ok g.
Proof.
  induction 1; eauto using default_stores_ok, allocateFakeIP_ok, lookupFakeDomainByIP_ok.
Qed.

Lemma entry_address s d e : store_ok s -> domainToEntry s !! d = Some e ->
  exists a, e_ip e = AddrString a /\ plain a /\ prefix_contains (prefix s) a = true.
Proof.
  intros Hs E. destruct (ok_domain _ Hs _ _ E) as (_ & _ & _ & Hi).
  destruct (ok_ip _ Hs _ _ Hi) as (_ & _ & k & Hk & ->).
  destruct (offset_addr _ k (ok_prefix _ Hs) Hk) as (a & -> & ? & ? & _). by exists a.
Qed.

Lemma live_entry s now d ip : live s now !! d = Some ip <->
  exists e, domainToEntry s !! d = Some e /\ e_ip e = ip /\ now < expiresAt e.
Proof.
  rewrite lookup_live. destruct (domainToEntry s !! d) as [e|]; simpl; [|naive_solver].
  destruct (Z.leb_spec (expiresAt e) now); simpl; naive_solver lia.
Qed.

Lemma live_address s now d ip : store_ok s -> live s now !! d = Some ip ->
  exists a, ip = AddrString a /\ plain a /\ prefix_contains (prefix s) a = true.
Proof. intros Hs (e & E & <- & _)%live_entry. by eapply entry_address. Qed.

(** The two stores never hold the same address. *)
Lemma stores_disjoint g d1 d2 e1 e2 : stores_ok g -> domainToEntry (store4 g) !! d1 = Some e1 ->
  domainToEntry (store6 g) !! d2 = Some e2 -> e_ip e1 <> e_ip e2.
Proof.
  intros (H4 & H6 & P4 & P6) E1 E2 E. apply entry_address in E1 as (a & A & Ha & Ca); [|done].
  apply entry_address in E2 as (b & B & Hb & Cb); [|done]. rewrite E, B in A.
  apply AddrString_inj in A; [subst b|done..]. rewrite P4 in Ca. rewrite P6 in Cb.
  apply andb_prop in Ca as [[_ Ca]%andb_prop _]. apply andb_prop in Cb as [[_ Cb]%andb_prop _].
  by destruct a.
Qed.

(** C9: In every state the program's two stores can reach, through any sequence of
    allocations and lookups from start-up, no two domains hold the same address at
    the same time, in either store or across them, and every bound address is one
    isFakeIPAddress recognises. *)
Theorem reachable_bindings dnsCacheTTL g now :
  reachable dnsCacheTTL g ->
  (forall d1 d2 ip, live (store4 g) now !! d1 = Some ip -> live (store4 g) now !! d2 = Some ip -> d1 = d2) /\
  (forall d1 d2 ip, live (store6 g) now !! d1 = Some ip -> live (store6 g) now !! d2 = Some ip -> d1 = d2) /\
  (forall d1 d2 ip, live (store4 g) now !! d1 = Some ip -> live (store6 g) now !! d2 <> Some ip) /\
  (forall d ip, live (store4 g) now !! d = Some ip \/ live (store6 g) now !! d = Some ip ->
     isFakeIPAddress g ip = true).
Proof.
  intros Hg%reachable_ok. pose proof Hg as (H4 & H6 & P4 & P6). split; [intros ??? A B; exact (live_inj _ _ _ _ _ H4 A B)|].
  split; [intros ??? A B; exact (live_inj _ _ _ _ _ H6 A B)|]. split.
  - intros d1 d2 ip (e1 & L4 & E1 & _)%live_entry (e2 & L6 & E2 & _)%live_entry.
    eapply stores_disjoint; [done..|congruence].
  - intros d ip [L|L]; apply live_address in L as (a & -> & Ha & Ca); try done;
      unfold isFakeIPAddress; rewrite ParseAddr_String by done; rewrite Ca; [done|apply orb_true_r].
Qed.
End properties.

(** ** Fake addresses *)

Definition prefix_of (qtype : Z) : Prefix :=
  if qtype =? TypeA then mkPrefix (Addr4 0xc6120000) 15
  else mkPrefix (Addr6 0xfd666c756d6901000000000000000000 "") 56.

(** An address of the fake range of a query type. *)
Definition fake_addr (qtype : Z) (a : Addr) : Prop :=
  plain a /\ prefix_contains (prefix_of qtype) a = true.

Lemma fake_addr_family qtype a : fake_addr qtype a -> Is4 a = (qtype =? TypeA).
Proof.
  intros [_ H]. unfold prefix_contains, prefix_of in H.
  apply andb_prop in H as [[_ H%eqb_prop]%andb_prop _]. by destruct (qtype =? TypeA).
Qed.

(** The 16-byte form of a fake address is of its own family and prints alike. *)
(** The address of the VPN's resolver is not a fake one. *)
Lemma fake_addr_not_dns qtype a port : fake_addr qtype a -> IsVPNDNSAddress (AddrString a) port = false.
Proof.
  intros [Ha Hc]. unfold IsVPNDNSAddress. rewrite bool_decide_eq_false_2; [done|]. intros E.
  apply (f_equal ParseAddr) in E. rewrite ParseAddr_String in E by done. vm_compute in E. injection E as ->.
  unfold prefix_of in Hc. by destruct (qtype =? TypeA).
Qed.

Lemma fake_addr_As16 qtype a : fake_addr qtype a ->
  is4in6 (As16 a) = (qtype =? TypeA) /\ IPString (As16 a) = AddrString a.
Proof.
  intros Hf. rewrite <- (fake_addr_family _ _ Hf). destruct Hf as [[Hok Hz] H]. unfold IPString.
  destruct a as [v|v z]; cbn [As16 Is4 Unmap].
  - unfold addr_ok in Hok. cbn [addr_val BitLen] in Hok. assert (is4in6 (65535 * 2 ^ 32 + v) = true) as E.
    { unfold is4in6. rewrite Z.shiftr_div_pow2 by lia. apply Z.eqb_eq.
      symmetry. apply (Z.div_unique_pos _ _ _ v); lia. }
    rewrite E. split; [done|]. f_equal. f_equal.
    symmetry. apply (Z.mod_unique_pos _ _ 65535 v); lia.
  - cbn [Zone] in Hz. subst z. assert (is4in6 v = false) as E; [|by rewrite E].
    apply not_true_is_false. intros E%Z.eqb_eq. unfold prefix_contains, prefix_of in H.
    destruct (qtype =? TypeA); cbn [pAddr pBits Is4 addr_val BitLen Bool.eqb] in H.
    { by rewrite andb_false_r in H. }
    apply andb_prop in H as [_ H%Z.eqb_eq].
    rewrite Z.shiftr_lxor in H. apply Z.lxor_eq in H.
    change (128 - 56) with (32 + 40) in H. rewrite <- (Z.shiftr_shiftr v), E in H by lia.
    vm_compute in H. discriminate.
Qed.

(** What the two stores answer together. *)
Lemma lookupFake_live g t s d : stores_ok g ->
  fst (lookupFakeDomainByIP g t s) = Some d <->
  live (store4 g) t !! d = Some s \/ live (store6 g) t !! d = Some s.
Proof.
  intros Hg. pose proof Hg as (H4 & H6 & P4 & P6). unfold lookupFakeDomainByIP.
  pose proof (LookupDomain_spec (store4 g) t s H4) as L4.
  pose proof (LookupDomain_spec (store6 g) t s H6) as L6.
  destruct (LookupDomain (store4 g) t s) as [[d4|] s4], (LookupDomain (store6 g) t s) as [d6 s6]; simpl;
    destruct L4 as (_ & _ & L4 & _), L6 as (_ & _ & L6 & _); [|naive_solver].
  split; [intros [= <-]; left; by apply L4|]. intros [H|H]; [by apply L4|].
  destruct (L4 d4) as [A _]. specialize (A eq_refl). exfalso.
  apply live_entry in A as (e1 & A & <- & _), H as (e2 & H & E & _).
  by eapply (stores_disjoint g _ _ e1 e2).
Qed.

Lemma fakeIPLifetime_bounds dnsCacheTTL ttl : 0 <= ttl < 2 ^ 32 ->
  let t := if ttl =? 0 then defaultFakeTTL else ttl in
  fakeIPLifetime dnsCacheTTL ttl = Z.max (t * second) dnsCacheTTL /\ 0 < t * second.
Proof.
  intros H. cbv zeta. unfold fakeIPLifetime, defaultFakeTTL, second in *. cbv zeta.
  change (10 ^ 9) with 1000000000. change (2 ^ 32) with 4294967296 in H.
  rewrite i64_small by (change (2 ^ 63) with 9223372036854775808; zcase; lia). zcase; lia.
Qed.

(** A binding in either store, with its expiry. *)
Definition bound (g : fakeStores) (d s : string) (x : Z) : Prop :=
  domainToEntry (store4 g) !! d = Some (mkEntry d s x) \/
  domainToEntry (store6 g) !! d = Some (mkEntry d s x).

Lemma lookup_after_alloc g d s x t : stores_ok g ->
  bound g d s x -> fst (lookupFakeDomainByIP g t s) = if t <? x then Some d else None.
Proof.
  intros Hg He. pose proof Hg as (H4 & H6 & _). destruct (Z.ltb_spec t x).
  - apply (lookupFake_live g t s d Hg). rewrite !lookup_live.
    destruct He as [-> | ->]; [left|right]; simpl; by rewrite (proj2 (Z.leb_gt _ _)).
  - destruct (fst (lookupFakeDomainByIP g t s)) as [d'|] eqn:E; [|done]. exfalso.
    apply lookupFake_live in E as [(e & E & Es & Et)%live_entry|(e & E & Es & Et)%live_entry];
      [| |done]; destruct He as [He|He];
      try (by eapply (stores_disjoint g _ _ _ _ Hg); [exact E|exact He|rewrite Es] ||
           by eapply (stores_disjoint g _ _ _ _ Hg); [exact He|exact E|rewrite Es]).
    + assert (d' = d) as -> by (by eapply (ok_same_ip (store4 g)); [|exact E|exact He|]).
      rewrite He in E. injection E as <-. simpl in Et. lia.
    + assert (d' = d) as -> by (by eapply (ok_same_ip (store6 g)); [|exact E|exact He|]).
      rewrite He in E. injection E as <-. simpl in Et. lia.
Qed.

(** A lookup that finds a live binding changes nothing. *)
Lemma lookup_bound g d s x t : stores_ok g -> bound g d s x -> t < x ->
  lookupFakeDomainByIP g t s = (Some d, g).
Proof.
  intros Hg Hb Ht. pose proof Hg as (H4 & H6 & _). unfold lookupFakeDomainByIP, LookupDomain.
  assert (forall st, store_ok st -> domainToEntry st !! d = Some (mkEntry d s x) ->
    ipToEntry st !! s = Some (mkEntry d s x)) as Hi.
  { intros st Hs E. by destruct (ok_domain _ Hs _ _ E) as (_ & _ & _ & ?). }
  destruct Hb as [Hb|Hb].
  - rewrite (Hi _ H4 Hb). simpl. rewrite (proj2 (Z.leb_gt _ _)) by done. by destruct g.
  - destruct (ipToEntry (store4 g) !! s) as [e|] eqn:E.
    { destruct (ok_ip _ H4 _ _ E) as (E1 & E2 & _). destruct (stores_disjoint g _ _ _ _ Hg E2 Hb). done. }
    rewrite (Hi _ H6 Hb). simpl. rewrite (proj2 (Z.leb_gt _ _)) by done. by destruct g.
Qed.

Lemma allocateFakeIP_spec {ord : RangeOrder} g now dnsCacheTTL d qtype ttl :
  stores_ok g -> qtype = TypeA \/ qtype = TypeAAAA -> ToLower d = d -> d <> ""%string ->
  0 <= ttl < 2 ^ 32 ->
  exists r g', allocateFakeIP g now dnsCacheTTL d qtype ttl = Some (r, g') /\ stores_ok g' /\
    match r with
    | Ret s => exists a, fake_addr qtype a /\ s = AddrString a /\
        bound g' d s (now + fakeIPLifetime dnsCacheTTL ttl)
    | Err e => e = "fake ip pool exhausted"%string
    | Panic => False
    end.
Proof.
  intros Hg Hq Hl Hd Ht. pose proof Hg as (H4 & H6 & P4 & P6).
  destruct (fakeIPLifetime_bounds dnsCacheTTL ttl Ht) as [HL Hpos].
  assert (effective (fakeIPLifetime dnsCacheTTL ttl) = fakeIPLifetime dnsCacheTTL ttl) as Heff.
  { unfold effective. rewrite (proj2 (Z.leb_gt _ _)); [done|]. rewrite HL. lia. }
  assert (forall s, store_ok s -> exists r s', Allocate s now d (fakeIPLifetime dnsCacheTTL ttl) = Some (r, s') /\
    match r with
    | Ret ip => exists a, plain a /\ prefix_contains (prefix s) a = true /\ ip = AddrString a /\
        domainToEntry s' !! d = Some (mkEntry d ip (now + fakeIPLifetime dnsCacheTTL ttl))
    | Err e => e = "fake ip pool exhausted"%string
    | Panic => False
    end) as HA.
  { intros s Hs. destruct (Allocate_spec s now d (fakeIPLifetime dnsCacheTTL ttl) Hs) as (r & s' & -> & Hs' & Hp & _ & H);
      [congruence|]. exists r, s'. split; [done|]. rewrite Hl, Heff in H. destruct r as [ip|e|]; [|naive_solver..].
    destruct H as (_ & He & _). destruct (entry_address _ _ _ Hs' He) as (a & ? & ? & ?). rewrite Hp in *.
    exists a. done. }
  assert (exists r g', allocateFakeIP g now dnsCacheTTL d qtype ttl = Some (r, g') /\
    match r with
    | Ret s => exists a, fake_addr qtype a /\ s = AddrString a /\
        bound g' d s (now + fakeIPLifetime dnsCacheTTL ttl)
    | Err e => e = "fake ip pool exhausted"%string
    | Panic => False
    end) as (r & g' & E & H).
  { unfold allocateFakeIP. destruct Hq as [-> | ->]; cbn [Z.eqb TypeA TypeAAAA Pos.eqb].
    - destruct (HA _ H4) as (r & s' & -> & H). do 2 eexists. split; [done|]. destruct r; try done.
      destruct H as (b & ? & ? & ? & ?). rewrite P4 in *. exists b. split_and!; [done..|by left].
    - destruct (HA _ H6) as (r & s' & -> & H). do 2 eexists. split; [done|]. destruct r; try done.
      destruct H as (b & ? & ? & ? & ?). rewrite P6 in *. exists b. split_and!; [done..|by right]. }
  exists r, g'. split; [done|]. split; [by eapply allocateFakeIP_ok|done].
Qed.

(** ** Witnesses *)

Definition w_store : fakeIPStore := mkStore (mkPrefix (Addr4 0x0a000000) 30) (Some (Addr4 0x0a000001)) ∅ ∅.

Lemma w_store_ok : store_ok w_store.
Proof.
  apply (mustNew_ok "10.0.0.0/30"); [done|]. unfold prefix_ok, plain, addr_ok. simpl.
  split_and!; try done; lia.
Qed.

Lemma Allocate_correct_witness :
  exists s', @Allocate sorted_order w_store 7 "A.example" (-1) = Some (Ret "10.0.0.1", s') /\
    fst (LookupDomain s' (7 + 60 * second - 1) "10.0.0.1") = Some "a.example" /\
    fst (LookupDomain s' (7 + 60 * second) "10.0.0.1") = None.
Proof.
  destruct (@Allocate_correct sorted_order w_store 7 "A.example" (-1) w_store_ok)
    as (r & s' & E & _ & H); [discriminate|].
  vm_compute in E. injection E as <- <-. eexists. split; [vm_compute; reflexivity|].
  destruct H as (_ & _ & _ & H). split; [exact (H (7 + 60 * second - 1))|exact (H (7 + 60 * second))].
Defined.

Lemma binding_survives_witness :
  exists s1 s2, @Allocate sorted_order w_store 0 "a.example" 100 = Some (Ret "10.0.0.1", s1) /\
    @run sorted_order s1 [(1, OpAllocate "B.example" 5); (50, OpLookup "10.0.0.2");
                          (60, OpAllocate "c.example" 9)] = Some s2 /\
    fst (LookupDomain s2 99 "10.0.0.1") = Some "a.example".
Proof.
  eexists. destruct (@binding_survives sorted_order w_store 0 "a.example" 100 "10.0.0.1" _
    [(1, OpAllocate "B.example" 5); (50, OpLookup "10.0.0.2"); (60, OpAllocate "c.example" 9)] 99
    w_store_ok eq_refl) as (s2 & E & H).
  - by repeat constructor.
  - repeat constructor; vm_compute; reflexivity.
  - vm_compute. reflexivity.
  - exists s2. split; [reflexivity|]. split; [exact E|exact H].
Defined.

Lemma reachable_bindings_witness :
  exists g, defaultStores = Ret g /\
    exists g', @allocateFakeIP sorted_order g 0 0 "x.com" TypeA 30 = Some (Ret "198.18.0.1", g') /\
    live (store4 g') 5 !! "x.com" = Some "198.18.0.1" /\ isFakeIPAddress g' "198.18.0.1" = true.
Proof.
  eexists. split; [vm_compute; reflexivity|]. eexists. split; [vm_compute; reflexivity|].
  split; [vm_compute; reflexivity|].
  eapply (proj2 (proj2 (proj2 (@reachable_bindings sorted_order 0 _ 5 _))) "x.com").
  left. vm_compute. reflexivity.
  Unshelve.
  eapply (reach_allocate 0 _ 0 "x.com" TypeA 30); [apply reach_init; vm_compute; reflexivity|].
  vm_compute. reflexivity.
Defined.

End FakeIP.
