(* ===== verification/Patterns.v ===== *)
(** * Address patterns (src/internal/utils.go)

    The expansion of the "(a|b)" patterns of the configuration, and the rewriting
    of an address into a target network.  Go's [range] over a string decodes
    UTF-8, and [string(ch)] of an undecodable byte is U+FFFD, so splitByPipe is
    modelled with the decoder. *)

From S2P Require Import Prelude GoStrings NetIP Conn.

(** ** UTF-8 (the language's [range] over a string) *)

Definition in_range (a b c : Z) : bool := (a <=? c) && (c <=? b).
Definition is_cont (c : Z) : bool := in_range 0x80 0xBF c.

(** Length of the encoding at the front of a string whose first byte is not
    ASCII, 0 if it is not a valid one. *)
Definition rune_width (s : bytes) : nat :=
  match s with
  | b0 :: b1 :: rest =>
    if in_range 0xC2 0xDF b0 then (if is_cont b1 then 2%nat else 0%nat)
    else if in_range 0xE0 0xEF b0 then
      let lo := if b0 =? 0xE0 then 0xA0 else 0x80 in
      let hi := if b0 =? 0xED then 0x9F else 0xBF in
      match rest with
      | b2 :: _ => if in_range lo hi b1 && is_cont b2 then 3%nat else 0%nat
      | _ => 0%nat
      end
    else if in_range 0xF0 0xF4 b0 then
      let lo := if b0 =? 0xF0 then 0x90 else 0x80 in
      let hi := if b0 =? 0xF4 then 0x8F else 0xBF in
      match rest with
      | b2 :: b3 :: _ => if in_range lo hi b1 && is_cont b2 && is_cont b3 then 4%nat else 0%nat
      | _ => 0%nat
      end
    else 0%nat
  | _ => 0%nat
  end.

(** [string(ch)] for the rune at the front of [s], and how many bytes it used. *)
Definition next_rune (s : bytes) : bytes * nat :=
  match s with
  | [] => ([], 0%nat)
  | b :: _ =>
    if b <? 0x80 then ([b], 1%nat)
    else match rune_width s with
         | O => ([0xEF; 0xBF; 0xBD], 1%nat)
         | w => (take w s, w)
         end
  end.

Module Patterns.

(** utils.go: the loop of splitByPipe, [curr] the text since the last '|'. *)
Fixpoint split_loop (fuel : nat) (s curr : bytes) : list bytes :=
  match fuel, s with
  | S fuel, _ :: _ =>
    let (ch, w) := next_rune s in
    if bool_decide (ch = [124]) then curr :: split_loop fuel (drop w s) []
    else split_loop fuel (drop w s) (curr ++ ch)
  | _, _ => [curr]
  end.

(** Every round uses at least one byte. *)
Definition splitByPipe (s : bytes) : list bytes :=
  match s with
  | [] => [[]]
  | _ => split_loop (length s) s []
  end.

(** The first '(' of the pattern.  It is ASCII, so no rune that is decoded from
    more than one byte hides it. *)
Fixpoint find_open (s : bytes) : option nat :=
  match s with
  | [] => None
  | c :: s => if c =? 40 then Some 0%nat else S <$> find_open s
  end.

(** The ')' that closes depth [depth], as an offset into [s]. *)
Fixpoint find_close (depth : Z) (s : bytes) : option nat :=
  match s with
  | [] => None
  | c :: s =>
    if c =? 40 then S <$> find_close (depth + 1) s
    else if c =? 41 then
      if depth - 1 =? 0 then Some 0%nat else S <$> find_close (depth - 1) s
    else S <$> find_close depth s
  end.

Definition product (pre : bytes) (parts sufs : list bytes) : list bytes :=
  part ← parts; suf ← sufs; [pre ++ part ++ suf].

Fixpoint expand (fuel : nat) (s : bytes) : option (list bytes) :=
  match fuel with
  | O => None
  | S fuel =>
    match find_open s with
    | None => Some (splitByPipe s)
    | Some l =>
      match find_close 1 (drop (S l) s) with
      | None => Some (splitByPipe s)
      | Some off =>
        let prefix := take l s in
        let inner := take off (drop (S l) s) in
        let suffix := drop (S off) (drop (S l) s) in
        let parts := splitByPipe inner in
        suffixResults ← expand fuel suffix;
        Some (product prefix parts suffixResults)
      end
    end
  end.

(** The recursion is on a strictly shorter suffix. *)
Definition expandPattern (s : string) : option (list string) :=
  let b := bytes_of_string s in
  option_map (map string_of_bytes) (expand (S (length b)) b).

Definition isIPv6 (ip : string) : bool := Contains ip ":".

(** utils.go, transformIP: byte [i] of the new address, from byte [i] of the
    masked network and of the source address. *)
Definition merge_byte (bits i netByte ipByte : Z) : Z :=
  let bitPos := u8 (i * 8) in
  if u8 (bitPos + 8) <=? bits then netByte
  else if bits <=? bitPos then ipByte
  else
    let maskBits := u8 (u8 bits - bitPos) in
    let mask := u8 (Z.shiftl 0xFF (8 - maskBits)) in
    Z.lor (Z.land netByte mask) (Z.land ipByte (Z.lxor mask 0xFF)).

(** [As4]/[As16] as bytes. *)
Definition addr_fields (n : Z) (v : Z) : list Z := (fun i => field 8 n i v) <$> seqZ 0 n.

Definition merge_bytes (n bits net ip : Z) : list Z :=
  (fun i => merge_byte bits i (field 8 n i net) (field 8 n i ip)) <$> seqZ 0 n.

Definition transformIP (ipStr targetNetStr : string) : go string :=
  match ParseAddr ipStr with
  | None => Err "invalid IP"
  | Some ip =>
    match ParsePrefix targetNetStr with
    | None => Err "invalid target network"
    | Some prefix =>
      if negb (Bool.eqb (Is4 ip) (Is4 (pAddr prefix)))
      then Err "IP version mismatch between source IP and target network"
      else
        let networkAddr := Masked prefix in
        let bits := pBits prefix in
        let newIP :=
          if Is4 ip then Addr4 (of_fields 8 (merge_bytes 4 bits (addr_val networkAddr) (addr_val ip)))
          else Addr6 (of_fields 8 (merge_bytes 16 bits (addr_val networkAddr) (addr_val ip))) "" in
        Ret (AddrString newIP)
    end
  end.

(** ** Splitting *)

Definition ascii_free (stops : list Z) (p : bytes) : Prop :=
  Forall (fun c => 0 <= c < 0x80 /\ c ∉ stops) p.

Lemma next_rune_ascii c s : 0 <= c < 0x80 -> next_rune (c :: s) = ([c], 1%nat).
Proof. intros H. unfold next_rune. by rewrite (proj2 (Z.ltb_lt c 0x80)) by lia. Qed.

Lemma split_loop_part p : forall fuel s curr, ascii_free [124] p -> (length p <= fuel)%nat ->
  split_loop fuel (p ++ s) curr = split_loop (fuel - length p) s (curr ++ p).
Proof.
  induction p as [|c p IH]; intros fuel s curr Hp Hf.
  { simpl. by rewrite Nat.sub_0_r, app_nil_r. }
  apply Forall_cons in Hp as [[Hc Hn] Hp]. destruct fuel as [|fuel]; [simpl in Hf; lia|].
  cbn [app split_loop]. rewrite next_rune_ascii by done.
  rewrite bool_decide_eq_false_2 by (intros [= ->]; set_solver).
  rewrite skipn_cons, drop_0. rewrite IH by (done || (simpl in Hf; lia)). simpl. by rewrite <- app_assoc.
Qed.

Lemma split_loop_join l : forall fuel, l <> [] -> Forall (ascii_free [124]) l ->
  (length (join_byte 124 l) <= fuel)%nat -> split_loop fuel (join_byte 124 l) [] = l.
Proof.
  induction l as [|p l IH]; intros fuel Hl H Hf; [done|]. apply Forall_cons in H as [Hp H].
  destruct l as [|q l].
  - cbn [join_byte] in *. pose proof (split_loop_part p fuel [] [] Hp Hf) as E.
    rewrite app_nil_r in E. rewrite E.
    by destruct (fuel - length p)%nat.
  - change (join_byte 124 (p :: q :: l)) with (p ++ 124 :: join_byte 124 (q :: l)) in *.
    rewrite length_app in Hf. cbn [length] in Hf. rewrite split_loop_part by (done || lia).
    destruct (fuel - length p)%nat as [|f] eqn:E; [lia|]. cbn [split_loop].
    rewrite next_rune_ascii by lia. rewrite bool_decide_eq_true_2 by done. rewrite skipn_cons, drop_0. f_equal.
    apply IH; [done|done|lia].
Qed.

Lemma splitByPipe_join l : l <> [] -> Forall (ascii_free [124]) l ->
  splitByPipe (join_byte 124 l) = l.
Proof.
  intros Hl H. unfold splitByPipe. destruct (join_byte 124 l) eqn:E.
  - destruct l as [|p [|q l]]; [done|simpl in E; by subst|]. by destruct p.
  - rewrite <- E. by apply split_loop_join.
Qed.

(** ** Expansion *)

Lemma find_close_bound s : forall d n, find_close d s = Some n -> (n < length s)%nat.
Proof.
  induction s as [|c s IH]; intros d n; simpl; [done|].
  assert (forall d, S <$> find_close d s = Some n -> (n < S (length s))%nat) as H.
  { intros d' Hd. destruct (find_close d' s) eqn:E; [|done]. simplify_eq/=. apply IH in E. lia. }
  destruct (c =? 40); [apply H|]. destruct (c =? 41); [|apply H].
  destruct (d - 1 =? 0); [intros [= <-]; lia|apply H].
Qed.

Lemma expand_total fuel : forall s, (length s < fuel)%nat -> exists l, expand fuel s = Some l.
Proof.
  induction fuel as [|fuel IH]; intros s Hs; [lia|]. cbn [expand].
  destruct (find_open s) as [l|]; [|eauto]. destruct (find_close 1 _) as [off|] eqn:E; [|eauto].
  apply find_close_bound in E. rewrite length_drop in E.
  destruct (IH (drop (S off) (drop (S l) s))) as [r Hr]; [rewrite !length_drop; lia|].
  rewrite Hr. simpl. eauto.
Qed.

(** More fuel changes nothing. *)
Lemma expand_fuel fuel : forall s l fuel', expand fuel s = Some l -> (fuel <= fuel')%nat ->
  expand fuel' s = Some l.
Proof.
  induction fuel as [|fuel IH]; intros s l fuel' H Hf; [done|].
  destruct fuel' as [|fuel']; [lia|]. cbn [expand] in *.
  destruct (find_open s) as [i|]; [|done]. destruct (find_close 1 _) as [off|]; [|done].
  destruct (expand fuel _) as [r|] eqn:E; [|done]. by erewrite IH by (done || lia).
Qed.

(** A pattern as its author means it: groups of alternatives after literal text,
    and alternatives at the end. *)
Definition group : Type := bytes * list bytes.

Fixpoint render (gs : list group) (tail : list bytes) : bytes :=
  match gs with
  | [] => join_byte 124 tail
  | (lit, alts) :: gs => lit ++ [40] ++ join_byte 124 alts ++ [41] ++ render gs tail
  end.

Fixpoint denote (gs : list group) (tail : list bytes) : list bytes :=
  match gs with
  | [] => tail
  | (lit, alts) :: gs => product lit alts (denote gs tail)
  end.

Definition alts_ok (l : list bytes) : Prop := l <> [] /\ Forall (ascii_free [40; 41; 124]) l.
Definition group_ok (g : group) : Prop := 40 ∉ fst g /\ alts_ok (snd g) /\ bytes_ok (fst g).

Lemma find_open_lit lit s : 40 ∉ lit -> find_open (lit ++ 40 :: s) = Some (length lit).
Proof.
  induction lit as [|c lit IH]; intros H; simpl; [done|]. apply not_elem_of_cons in H as [H1 H2].
  destruct (Z.eqb_spec c 40); [done|]. by rewrite IH.
Qed.

Lemma find_open_none s : 40 ∉ s -> find_open s = None.
Proof.
  induction s as [|c s IH]; intros H; simpl; [done|]. apply not_elem_of_cons in H as [H1 H2].
  destruct (Z.eqb_spec c 40); [done|]. by rewrite IH.
Qed.

Lemma find_close_inner p s : 40 ∉ p -> 41 ∉ p -> find_close 1 (p ++ 41 :: s) = Some (length p).
Proof.
  induction p as [|c p IH]; intros H1 H2; simpl; [done|].
  apply not_elem_of_cons in H1 as [? H1]. apply not_elem_of_cons in H2 as [? H2].
  destruct (Z.eqb_spec c 40), (Z.eqb_spec c 41); try done. by rewrite IH.
Qed.

Lemma alts_free c l : c = 40 \/ c = 41 -> alts_ok l -> c ∉ join_byte 124 l.
Proof.
  intros Hc [_ H]. apply join_byte_free; [lia|]. eapply Forall_impl; [done|]. intros p Hp Hin.
  apply (proj1 (Forall_forall _ _) Hp) in Hin as [_ Hn]. destruct Hc as [->| ->]; set_solver.
Qed.

Lemma ascii_free_mono a b p : (forall c, c ∈ b -> c ∈ a) -> ascii_free a p -> ascii_free b p.
Proof. intros H Hp. eapply Forall_impl; [done|]. intros c [? Hc]. split; [done|]. eauto. Qed.

Lemma splitByPipe_alts l : alts_ok l -> splitByPipe (join_byte 124 l) = l.
Proof.
  intros [Hl H]. apply splitByPipe_join; [done|]. eapply Forall_impl; [done|].
  intros p. apply ascii_free_mono. set_solver.
Qed.

Lemma expand_denote gs tail : Forall group_ok gs -> alts_ok tail ->
  expand (S (length gs)) (render gs tail) = Some (denote gs tail).
Proof.
  intros H Ht. induction H as [|[lit alts] gs (Hlit & Halts & _) H IH].
  - cbn. rewrite find_open_none by (apply alts_free; auto). by rewrite splitByPipe_alts.
  - cbn [fst snd length] in *. remember (S (length gs)) as f. cbn [expand render denote].
    change (lit ++ [40] ++ join_byte 124 alts ++ [41] ++ render gs tail)
      with (lit ++ 40 :: join_byte 124 alts ++ 41 :: render gs tail).
    rewrite find_open_lit by done.
    replace (drop (S (length lit)) (lit ++ 40 :: join_byte 124 alts ++ 41 :: render gs tail))
      with (join_byte 124 alts ++ 41 :: render gs tail).
    2:{ rewrite drop_app_ge by lia. by replace (S (length lit) - length lit)%nat with 1%nat by lia. }
    rewrite find_close_inner by (apply alts_free; auto).
    rewrite take_app_length, take_app_length.
    replace (drop (S (length (join_byte 124 alts))) (join_byte 124 alts ++ 41 :: render gs tail))
      with (render gs tail).
    2:{ rewrite drop_app_ge by lia.
        by replace (S (length (join_byte 124 alts)) - length (join_byte 124 alts))%nat with 1%nat by lia. }
    rewrite IH, splitByPipe_alts by done. done.
Qed.

Lemma alts_bytes_ok l : alts_ok l -> bytes_ok (join_byte 124 l).
Proof.
  intros [_ H]. apply join_bytes_ok; [by unfold is_byte|]. eapply Forall_impl; [done|]. intros p Hp.
  eapply Forall_impl; [done|]. intros c [Hc _]. unfold is_byte. lia.
Qed.

Lemma render_ok gs tail : Forall group_ok gs -> alts_ok tail -> bytes_ok (render gs tail).
Proof.
  intros H Ht. induction H as [|[lit alts] gs (_ & Ha & Hl) H IH]; [by apply alts_bytes_ok|].
  cbn [render]. unfold bytes_ok. rewrite !Forall_app. split_and!; try done; try (by repeat constructor).
  by apply alts_bytes_ok.
Qed.

Lemma product_length pre parts sufs :
  length (product pre parts sufs) = (length parts * length sufs)%nat.
Proof.
  unfold product. induction parts as [|p parts IH]; [done|]. cbn [mbind list_bind].
  rewrite length_app, IH. simpl. f_equal. clear. induction sufs; simpl; [done|]. by f_equal.
Qed.

Lemma render_fuel gs tail : (length gs <= length (render gs tail))%nat.
Proof.
  induction gs as [|[lit alts] gs IH]; cbn [render length]; [lia|]. rewrite !length_app. simpl. lia.
Qed.

(** C10: expandPattern returns on every string, and on a pattern made of literal
    text, parenthesised groups of '|'-separated alternatives and '|'-separated
    alternatives at the end it returns exactly the combinations, leftmost group
    slowest, as many as the product of the group sizes. *)
Theorem expandPattern_correct gs tail :
  Forall group_ok gs -> alts_ok tail ->
  expandPattern (string_of_bytes (render gs tail)) = Some (map string_of_bytes (denote gs tail)) /\
  length (denote gs tail) = foldr (fun g n => length (snd g) * n)%nat (length tail) gs /\
  forall s, is_Some (expandPattern s).
Proof.
  intros H Ht. split_and!.
  - unfold expandPattern. rewrite bytes_of_string_of_bytes by by apply render_ok. cbv zeta.
    erewrite expand_fuel; [done|by apply expand_denote|]. pose proof (render_fuel gs tail). lia.
  - clear H Ht. induction gs as [|[lit alts] gs IH]; cbn [denote foldr snd]; [done|]. by rewrite product_length, IH.
  - intros s. unfold expandPattern. destruct (expand_total (S (length (bytes_of_string s))) (bytes_of_string s)) as [l ->]; [lia|].
    by eexists.
Qed.

Lemma expandPattern_correct_witness :
  expandPattern "www(1|2).x(.com|.org)" =
  Some ["www1.x.com"; "www1.x.org"; "www2.x.com"; "www2.x.org"]%string.
Proof.
  refine (proj1 (expandPattern_correct
    [(bytes_of_string "www", bytes_of_string <$> ["1"; "2"]);
     (bytes_of_string ".x", bytes_of_string <$> [".com"; ".org"])] [[]] _ _)).
  - repeat constructor; cbn; try done; try lia;
      rewrite ?not_elem_of_cons; split_and?; try done; try apply not_elem_of_nil.
  - split; [done|]. by repeat constructor.
Defined.

(** ** Rewriting into a network *)

(** The network part of [net] and the host part of [ip], [k] host bits. *)
Definition merged (k net ip : Z) : Z := Z.lor (Z.ldiff net (Z.ones k)) (Z.land ip (Z.ones k)).

Lemma merged_bit k net ip q : 0 <= k -> 0 <= q ->
  Z.testbit (merged k net ip) q = if q <? k then Z.testbit ip q else Z.testbit net q.
Proof.
  intros Hk Hq. unfold merged. rewrite Z.lor_spec, Z.ldiff_spec, Z.land_spec.
  destruct (Z.ltb_spec q k).
  - rewrite Z.ones_spec_low by lia. by rewrite andb_false_r, andb_true_r.
  - rewrite Z.ones_spec_high by lia. by rewrite andb_true_r, andb_false_r, orb_false_r.
Qed.

Lemma field_bit n i v j : 0 <= i < n -> 0 <= j ->
  Z.testbit (field 8 n i v) j = (j <? 8) && Z.testbit v (8 * (n - 1 - i) + j).
Proof.
  intros Hi Hj. unfold field. rewrite Z.land_spec, Z.shiftr_spec by lia.
  destruct (Z.ltb_spec j 8); [rewrite Z.ones_spec_low by lia|rewrite Z.ones_spec_high by lia];
    rewrite ?andb_true_r, ?andb_false_r; simpl; [f_equal; lia|done].
Qed.

Lemma mask_bit m j : 1 <= m <= 7 -> 0 <= j ->
  Z.testbit (u8 (Z.shiftl 0xFF (8 - m))) j = (8 - m <=? j) && (j <? 8).
Proof.
  intros Hm Hj. unfold u8. destruct (Z.ltb_spec j 8).
  - rewrite Z.mod_pow2_bits_low, Z.shiftl_spec by lia. rewrite andb_true_r.
    destruct (Z.leb_spec (8 - m) j); [|by rewrite Z.testbit_neg_r by lia].
    change 0xFF with (Z.ones 8). apply Z.ones_spec_low. lia.
  - rewrite Z.mod_pow2_bits_high by lia. by rewrite andb_false_r.
Qed.

(** One byte of the loop is the byte of the merged number. *)
Lemma merge_byte_field n bits i net ip : 0 <= i < n -> n <= 16 -> 0 <= bits <= 8 * n ->
  merge_byte bits i (field 8 n i net) (field 8 n i ip) = field 8 n i (merged (8 * n - bits) net ip).
Proof.
  intros Hi Hn Hb. unfold merge_byte, u8.
  rewrite (Z.mod_small (i * 8)) by lia. rewrite (Z.mod_small (i * 8 + 8)) by lia.
  apply Z.bits_inj'. intros j Hj. rewrite (field_bit n i (merged _ _ _) j) by lia.
  rewrite merged_bit by lia.
  destruct (Z.leb_spec (i * 8 + 8) bits) as [H1|H1].
  { rewrite field_bit by lia. destruct (Z.ltb_spec j 8); [|done]. simpl.
    by rewrite (proj2 (Z.ltb_ge _ _)) by lia. }
  destruct (Z.leb_spec bits (i * 8)) as [H2|H2].
  { rewrite field_bit by lia. destruct (Z.ltb_spec j 8); [|done]. simpl.
    by rewrite (proj2 (Z.ltb_lt _ _)) by lia. }
  rewrite (Z.mod_small bits) by lia. rewrite (Z.mod_small (bits - i * 8)) by lia.
  fold (u8 (Z.shiftl 255 (8 - (bits - i * 8)))).
  rewrite Z.lor_spec, !Z.land_spec, Z.lxor_spec, !field_bit, mask_bit by lia.
  destruct (Z.ltb_spec j 8); [|done]. change 255 with (Z.ones 8). rewrite Z.ones_spec_low by lia.
  destruct (Z.leb_spec (8 - (bits - i * 8)) j).
  - rewrite (proj2 (Z.ltb_ge _ _)) by lia. simpl. by rewrite !andb_true_r, andb_false_r, orb_false_r.
  - rewrite (proj2 (Z.ltb_lt _ _)) by lia. simpl. by rewrite andb_false_r, andb_true_r.
Qed.

(** A number below [2^(8 n)] is put together from its [n] bytes. *)
Lemma of_fields_bytes (n : nat) : forall v, 0 <= v < 2 ^ (8 * Z.of_nat n) ->
  of_fields 8 ((fun i => field 8 (Z.of_nat n) i v) <$> seqZ 0 (Z.of_nat n)) = v.
Proof.
  induction n as [|n IH]; intros v Hv; [simpl in *; unfold of_fields; simpl; lia|].
  replace (Z.of_nat (S n)) with (Z.of_nat n + 1) in * by lia.
  rewrite seqZ_app by lia.
  replace (seqZ (0 + Z.of_nat n) 1) with [Z.of_nat n] by (unfold seqZ; simpl; f_equal; lia).
  rewrite fmap_app. cbn [fmap list_fmap]. rewrite of_fields_snoc.
  replace ((fun i => field 8 (Z.of_nat n + 1) i v) <$> seqZ 0 (Z.of_nat n))
    with ((fun i => field 8 (Z.of_nat n) i (v / 2 ^ 8)) <$> seqZ 0 (Z.of_nat n)).
  2:{ apply list_fmap_ext. intros j i Hi%list_elem_of_lookup_2%elem_of_seqZ. unfold field.
      rewrite !Z.land_ones, !Z.shiftr_div_pow2 by lia. rewrite Z.div_div by lia.
      rewrite <- Z.pow_add_r by lia. do 3 f_equal. lia. }
  rewrite IH.
  - unfold field. replace (8 * (Z.of_nat n + 1 - 1 - Z.of_nat n)) with 0 by lia.
    rewrite Z.land_ones, Z.shiftr_0_r by lia. pose proof (Z.div_mod v (2 ^ 8) ltac:(lia)). lia.
  - replace (8 * (Z.of_nat n + 1)) with (8 + 8 * Z.of_nat n) in Hv by lia.
    rewrite Z.pow_add_r in Hv by lia. split; [apply Z.div_pos; lia|].
    apply Z.div_lt_upper_bound; lia.
Qed.

Lemma merged_range N k net ip : 0 <= k <= N -> 0 <= net < 2 ^ N -> 0 <= ip < 2 ^ N ->
  0 <= merged k net ip < 2 ^ N.
Proof.
  intros Hk Hn Hi. replace (merged k net ip) with (merged k net ip mod 2 ^ N).
  { apply Z.mod_pos_bound. lia. }
  apply Z.bits_inj'. intros q Hq. destruct (Z.ltb_spec q N).
  - by rewrite Z.mod_pow2_bits_low.
  - rewrite Z.mod_pow2_bits_high, merged_bit by lia. rewrite (proj2 (Z.ltb_ge _ _)) by lia.
    rewrite <- (Z.mod_small net (2 ^ N)) by done. symmetry. apply Z.mod_pow2_bits_high. lia.
Qed.

Lemma merged_masked k net ip : 0 <= k ->
  merged k (Z.shiftl (Z.shiftr net k) k) ip = merged k net ip.
Proof.
  intros Hk. apply Z.bits_inj'. intros q Hq. rewrite !merged_bit by lia.
  destruct (Z.ltb_spec q k); [done|]. rewrite Z.shiftl_spec, Z.shiftr_spec by lia. f_equal. lia.
Qed.

Lemma merge_bytes_merged (n : nat) bits net ip : (n <= 16)%nat -> 0 <= bits <= 8 * Z.of_nat n ->
  0 <= net < 2 ^ (8 * Z.of_nat n) -> 0 <= ip < 2 ^ (8 * Z.of_nat n) ->
  of_fields 8 (merge_bytes (Z.of_nat n) bits net ip) = merged (8 * Z.of_nat n - bits) net ip.
Proof.
  intros Hn Hb Hnet Hip. rewrite <- (of_fields_bytes n (merged _ _ _)) by (apply merged_range; lia).
  unfold merge_bytes. f_equal. apply list_fmap_ext.
  intros j i Hi%list_elem_of_lookup_2%elem_of_seqZ. apply merge_byte_field; lia.
Qed.

Lemma masked_range k N v : 0 <= k -> 0 <= v < 2 ^ N -> 0 <= Z.shiftl (Z.shiftr v k) k < 2 ^ N.
Proof.
  intros Hk Hv. rewrite Z.shiftl_mul_pow2, Z.shiftr_div_pow2 by lia.
  pose proof (Z.mul_div_le v (2 ^ k) ltac:(lia)). pose proof (Z.div_pos v (2 ^ k)). nia.
Qed.

(** The address transformIP prints, in the family of [ip]. *)
Definition merged_addr (p : Prefix) (ip : Addr) : Addr :=
  let v := merged (BitLen ip - pBits p) (addr_val (pAddr p)) (addr_val ip) in
  if Is4 ip then Addr4 v else Addr6 v "".

Lemma transformIP_eq ipStr net ip p :
  ParseAddr ipStr = Some ip -> ParsePrefix net = Some p -> Is4 ip = Is4 (pAddr p) ->
  transformIP ipStr net = Ret (AddrString (merged_addr p ip)).
Proof.
  intros Hi Hp Hf. unfold transformIP. rewrite Hi, Hp, Hf, Bool.eqb_reflx. simpl.
  apply ParseAddr_ok in Hi. apply ParsePrefix_ok in Hp as [[Ha _] Hb].
  unfold merged_addr, Masked, addr_ok in *. do 2 f_equal. rewrite Hf.
  destruct ip as [i|i z], p as [[v|v zv] b]; cbn [Is4 addr_val BitLen pAddr pBits] in *; try done.
  - rewrite (merge_bytes_merged 4), merged_masked by (try apply masked_range; lia). done.
  - rewrite (merge_bytes_merged 16), merged_masked by (try apply masked_range; lia). done.
Qed.

(** transformIP of an address into a network of the same family prints the
    address that agrees with the network on every prefix bit and with the source
    address on every host bit: it lies in the network, is in range and keeps the
    family.  Across families it is refused. *)
Theorem transformIP_correct ipStr net ip p :
  ParseAddr ipStr = Some ip -> ParsePrefix net = Some p ->
  if Bool.eqb (Is4 ip) (Is4 (pAddr p)) then
    exists a, transformIP ipStr net = Ret (AddrString a) /\ plain a /\ Is4 a = Is4 ip /\
      prefix_contains p a = true /\
      forall q, 0 <= q < BitLen ip ->
        Z.testbit (addr_val a) q =
        Z.testbit (addr_val (if q <? BitLen ip - pBits p then ip else pAddr p)) q
  else transformIP ipStr net = Err "IP version mismatch between source IP and target network".
Proof.
  intros Hi Hp. destruct (Bool.eqb (Is4 ip) (Is4 (pAddr p))) eqn:Hf.
  2:{ unfold transformIP. by rewrite Hi, Hp, Hf. }
  apply Bool.eqb_prop in Hf. exists (merged_addr p ip). split; [by apply transformIP_eq|].
  apply ParseAddr_ok in Hi. apply ParsePrefix_ok in Hp as [[Ha _] Hb]. unfold addr_ok in *.
  assert (BitLen (pAddr p) = BitLen ip) as HL by (destruct ip, (pAddr p); done). rewrite HL in *.
  set (k := BitLen ip - pBits p). assert (0 <= k) by lia.
  assert (addr_val (merged_addr p ip) = merged k (addr_val (pAddr p)) (addr_val ip)) as Hv
    by (unfold merged_addr; by destruct ip).
  assert (BitLen (merged_addr p ip) = BitLen ip) as HM by (unfold merged_addr; by destruct ip).
  pose proof (merged_range (BitLen ip) k (addr_val (pAddr p)) (addr_val ip) ltac:(lia) Ha Hi) as Hr.
  split_and!.
  - split; [|unfold merged_addr; by destruct ip]. unfold addr_ok. by rewrite HM, Hv.
  - unfold merged_addr. by destruct ip.
  - unfold prefix_contains. rewrite HM, Hv. fold k. rewrite <- Hf.
    replace (Is4 (merged_addr p ip)) with (Is4 ip) by (unfold merged_addr; by destruct ip).
    rewrite Bool.eqb_reflx, bool_decide_eq_true_2 by (unfold merged_addr; by destruct ip). simpl.
    apply Z.eqb_eq, Z.bits_inj'. intros q Hq.
    rewrite Z.shiftr_spec, Z.lxor_spec, merged_bit, Z.bits_0 by lia.
    rewrite (proj2 (Z.ltb_ge _ _)) by lia. apply xorb_nilpotent.
  - intros q Hq. rewrite Hv, merged_bit by lia. by destruct (q <? k).
Qed.

Lemma transformIP_correct_witness :
  transformIP "1.2.3.4" "10.20.0.0/13" = Ret "10.18.3.4"%string /\
  exists a, transformIP "1.2.3.4" "10.20.0.0/13" = Ret (AddrString a) /\ plain a.
Proof.
  split; [vm_compute; reflexivity|].
  destruct (transformIP_correct "1.2.3.4" "10.20.0.0/13" (Addr4 0x01020304)
    (mkPrefix (Addr4 0x0a140000) 13) eq_refl eq_refl) as (a & E & Hp & _).
  exists a. split; [exact E|exact Hp].
Defined.

End Patterns.
