(* ===== verification/AddrTrie.v ===== *)
(** * The matchers of the routing rules (src/vendor/github.com/moi-si/addrtrie)

    The domain matcher is a trie over the labels of a name, from the right; the
    address matchers are binary tries over address bits.  The theorems refine
    both to what a rule list means: the exact rule of a name, else its longest
    wildcard; the longest matching prefix of an address; later rules replace
    earlier ones. *)

From S2P Require Import Prelude GoStrings NetIP.

(** [x or y]: the first that is present. *)
Definition orElse {A} (x y : option A) : option A := match x with Some _ => x | None => y end.

Module AddrTrie.

(** ** Domain labels *)

(** domain.go: the loops of insertPattern and Find over [pattern[:i+1]].  Each
    label comes with whether a dot precedes it ([j != -1]). *)
Fixpoint label_loop (fuel : nat) (s : string) : list (string * bool) :=
  match fuel with
  | O => []
  | S fuel =>
    match s with
    | EmptyString => []
    | _ =>
      match LastIndexByte s "." with
      | None => [(s, false)]
      | Some j => (sdrop (S j) s, true) :: label_loop fuel (stake j s)
      end
    end
  end.

(** Each round shortens the text. *)
Definition labels (s : string) : list (string * bool) := label_loop (String.length s) s.

Section matcher.
Context {T : Type}.

(** domain.go: [labelNode]; a value with its [has] flag is an option. *)
Inductive labelNode :=
| LNode (children : gmap string labelNode) (exactValue wildcardValue : option T).

Definition children (n : labelNode) : gmap string labelNode := let 'LNode c _ _ := n in c.
Definition exactValue (n : labelNode) : option T := let 'LNode _ e _ := n in e.
Definition wildcardValue (n : labelNode) : option T := let 'LNode _ _ w := n in w.

Definition NewDomainMatcher : labelNode := LNode ∅ None None.

Fixpoint insertLabels (ls : list string) (value : T) (isWildcard isExact : bool) (n : labelNode)
    : labelNode :=
  match ls with
  | [] => LNode (children n) (if isExact then Some value else exactValue n)
                (if isWildcard then Some value else wildcardValue n)
  | l :: ls =>
    let child := default NewDomainMatcher (children n !! l) in
    LNode (<[l := insertLabels ls value isWildcard isExact child]> (children n))
          (exactValue n) (wildcardValue n)
  end.

Definition insertPattern (pattern : string) (value : T) (isWildcard isExact : bool) (m : labelNode)
    : labelNode :=
  insertLabels (labels pattern).*1 value isWildcard isExact m.

(** domain.go, Add; the error leaves the matcher as it was. *)
Definition Add (m : labelNode) (pattern : string) (value : T) : go unit * labelNode :=
  if decide (pattern = "*")%string then
    (Ret tt, LNode (children m) (exactValue m) (Some value))
  else if negb (Contains pattern ".") then (Err ("invalid pattern: " +:+ pattern), m)
  else if HasPrefix pattern "*." then (Ret tt, insertPattern (sdrop 2 pattern) value true false m)
  else if HasPrefix pattern "*" then (Ret tt, insertPattern (sdrop 1 pattern) value true true m)
  else (Ret tt, insertPattern pattern value false true m).

(** The loop of Find: the node reached, whether all labels matched, and the last
    wildcard seen on the way. *)
Fixpoint find_loop (n : labelNode) (candidate : option T) (ls : list (string * bool))
    : labelNode * bool * option T :=
  match ls with
  | [] => (n, true, candidate)
  | (l, dot) :: ls =>
    match children n !! l with
    | None => (n, false, candidate)
    | Some child =>
      find_loop child (if dot then orElse (wildcardValue child) candidate else candidate) ls
    end
  end.

Definition Find (m : labelNode) (domain : string) : option T :=
  let '(n, fullyMatched, candidate) := find_loop m None (labels domain) in
  orElse (if fullyMatched then exactValue n else None) (orElse candidate (wildcardValue m)).

(** ** Bit tries *)

(** ipv4.go: [bitNode]. *)
Inductive bitNode :=
| BNode (child0 child1 : option bitNode) (value : option T).

Definition bvalue (n : bitNode) : option T := let 'BNode _ _ v := n in v.
Definition bchild (n : bitNode) (b : bool) : option bitNode :=
  let 'BNode c0 c1 _ := n in if b then c1 else c0.
Definition NewTrie : bitNode := BNode None None None.

Fixpoint insert_bits (bs : list bool) (value : T) (n : bitNode) : bitNode :=
  match bs with
  | [] => let 'BNode c0 c1 _ := n in BNode c0 c1 (Some value)
  | b :: bs =>
    let c := Some (insert_bits bs value (default NewTrie (bchild n b))) in
    let 'BNode c0 c1 v := n in if b then BNode c0 c v else BNode c c1 v
  end.

(** The loop of Find and the test after it: [matched] is the value so far. *)
Fixpoint find_bits (bs : list bool) (matched : option T) (n : bitNode) : option T :=
  let matched := orElse (bvalue n) matched in
  match bs with
  | [] => matched
  | b :: bs => match bchild n b with None => matched | Some c => find_bits bs matched c end
  end.
End matcher.
Arguments labelNode : clear implicits.
Arguments bitNode : clear implicits.

(** [getBit32], [getBit128] on the number of the address. *)
Definition getBit (w v i : Z) : bool := Z.land (Z.shiftr v (w - 1 - i)) 1 =? 1.
(** The first [n] bits of a [w]-bit address. *)
Definition addr_bits (w v n : Z) : list bool := getBit w v <$> seqZ 0 n.

(** ipv4.go: parseIPv4OrCIDR. *)
Definition parseIPv4OrCIDR (s : string) : go (Z * Z) :=
  match ParsePrefix s with
  | Some prefix =>
    if negb (Is4 (pAddr prefix)) then Err "non-IPv4 mask"
    else if (pBits prefix <? 0) || (32 <? pBits prefix) then Err "non-canonical mask"
    else Ret (addr_val (pAddr prefix), pBits prefix)
  | None =>
    match ParseAddr s with
    | Some addr =>
      let addr := Unmap addr in
      if negb (Is4 addr) then Err "invalid IPv4 address" else Ret (addr_val addr, 32)
    | None => Err "invalid IPv4 address or CIDR"
    end
  end.

(** ipv6.go: parseIPv6OrCIDR. *)
Definition parseIPv6OrCIDR (s : string) : go (Z * Z) :=
  match ParsePrefix s with
  | Some prefix =>
    let addr := Unmap (pAddr prefix) in
    if Is4 addr then Err "non-IPv6 mask"
    else if (pBits prefix <? 0) || (128 <? pBits prefix) then Err "non-canonical mask"
    else Ret (addr_val addr, pBits prefix)
  | None =>
    match ParseAddr s with
    | Some addr =>
      let addr := Unmap addr in
      if Is4 addr then Err "invalid IPv6 address" else Ret (addr_val addr, 128)
    | None => Err "invalid IPv6 address or CIDR"
    end
  end.

Section tries.
Context {T : Type}.

(** [Insert] of the two tries. *)
Definition trie_insert (w : Z) (parse : string -> go (Z * Z)) (t : bitNode T) (prefix : string)
    (value : T) : go unit * bitNode T :=
  if decide (prefix = "*")%string then (Ret tt, let 'BNode c0 c1 _ := t in BNode c0 c1 (Some value))
  else match parse prefix with
       | Ret (ip, bitLen) => (Ret tt, insert_bits (addr_bits w ip bitLen) value t)
       | Err e => (Err e, t)
       | Panic => (Panic, t)
       end.
Definition IPv4Insert := trie_insert 32 parseIPv4OrCIDR.
Definition IPv6Insert := trie_insert 128 parseIPv6OrCIDR.

(** [Find] of the two tries. *)
Definition trie_find (t : bitNode T) (bs : list bool) : option T :=
  orElse (find_bits bs None t) (bvalue t).
Definition IPv4Find (t : bitNode T) (ipStr : string) : option T :=
  addr ← ParseAddr ipStr;
  let addr := Unmap addr in
  if negb (Is4 addr) then None else trie_find t (addr_bits 32 (addr_val addr) 32).
Definition IPv6Find (t : bitNode T) (ipStr : string) : option T :=
  addr ← ParseAddr ipStr;
  let addr := Unmap addr in
  if Is4 addr then None else trie_find t (addr_bits 128 (addr_val addr) 128).
End tries.
(** ** Labels of names *)

Lemma last_dot a b : LastIndexByte b "." = None ->
  LastIndexByte (a +:+ String "." b) "." = Some (String.length a).
Proof. intros H. induction a as [|c a IH]; autorewrite with sapp; simpl; [by rewrite H|]. by rewrite IH. Qed.

Lemma sdrop_app a b : sdrop (String.length a) (a +:+ b) = b.
Proof. induction a as [|c a IH]; autorewrite with sapp; simpl; [by destruct b|done]. Qed.

Lemma stake_app a b : stake (String.length a) (a +:+ b) = a.
Proof. induction a as [|c a IH]; autorewrite with sapp; simpl; [by destruct b|by rewrite IH]. Qed.

Lemma sdrop_S_app a c b : sdrop (S (String.length a)) (a +:+ String c b) = b.
Proof. induction a as [|d a IH]; autorewrite with sapp; simpl; [by destruct b|apply IH]. Qed.

Lemma Join_snoc ls x y : Join (x :: ls ++ [y]) "." = (Join (x :: ls) "." +:+ String "." y)%string.
Proof.
  revert x. induction ls as [|z ls IH]; intros x; [done|].
  change (Join (x :: (z :: ls) ++ [y]) ".") with (x +:+ "." +:+ Join (z :: ls ++ [y]) ".")%string.
  rewrite IH. change (Join (x :: z :: ls) ".") with (x +:+ "." +:+ Join (z :: ls) ".")%string.
  by rewrite !sapp_assoc.
Qed.

Definition dotfree (s : string) : Prop := LastIndexByte s "." = None.

Lemma Join_nonempty x ls : x <> ""%string -> exists c s, Join (x :: ls) "." = String c s.
Proof. destruct x as [|c x]; [done|]. intros _. destruct ls; simpl; autorewrite with sapp; eauto. Qed.

(** The labels of a name, from the right; all but the first of the name have a
    dot before them. *)
Lemma labels_join x ls : forall fuel, x <> ""%string -> dotfree x -> Forall dotfree ls ->
  (length ls < fuel)%nat ->
  label_loop fuel (Join (x :: ls) ".") = ((fun l => (l, true)) <$> rev ls) ++ [(x, false)].
Proof.
  induction ls as [|y ls IH] using rev_ind; intros fuel Hx Hd Hf Hlen.
  - destruct fuel as [|fuel]; [simpl in Hlen; lia|]. cbn [label_loop]. destruct x as [|c x]; [done|].
    change (Join [String c x] ".") with (String c x). by rewrite Hd.
  - rewrite length_app in Hlen. simpl in Hlen. destruct fuel as [|fuel]; [lia|]. rewrite Join_snoc.
    apply Forall_app in Hf as [Hf Hy%(proj1 (Forall_singleton _ _))].
    cbn [label_loop]. destruct (Join_nonempty x ls Hx) as (c & s & E).
    rewrite last_dot, sdrop_S_app, stake_app by done. rewrite IH by (done || lia).
    rewrite rev_app_distr, E. done.
Qed.

(** ** What the domain trie holds *)

Section domain.
Context {T : Type}.
Implicit Types (n : labelNode T).

Fixpoint node_at (ls : list string) n : option (labelNode T) :=
  match ls with
  | [] => Some n
  | l :: ls => child ← children n !! l; node_at ls child
  end.
Definition exact_at (ls : list string) n : option T := n' ← node_at ls n; exactValue n'.
Definition wild_at (ls : list string) n : option T := n' ← node_at ls n; wildcardValue n'.

Lemma new_exact_at ls : exact_at ls (NewDomainMatcher (T := T)) = None.
Proof. by destruct ls. Qed.
Lemma new_wild_at ls : wild_at ls (NewDomainMatcher (T := T)) = None.
Proof. by destruct ls. Qed.

Lemma exact_at_insert ls v w e : forall n ls',
  exact_at ls' (insertLabels ls v w e n) =
  if e && bool_decide (ls' = ls) then Some v else exact_at ls' n.
Proof.
  induction ls as [|l ls IH]; intros n ls'; destruct ls' as [|l' ls'].
  - unfold exact_at. simpl. by destruct e.
  - unfold exact_at. cbn [insertLabels node_at mbind option_bind]. rewrite bool_decide_eq_false_2 by done.
    by rewrite andb_false_r.
  - unfold exact_at. cbn [insertLabels node_at mbind option_bind]. rewrite bool_decide_eq_false_2 by done.
    by rewrite andb_false_r.
  - unfold exact_at in *. cbn [node_at insertLabels children].
    destruct (decide (l = l')) as [->|Hne].
    + rewrite lookup_insert_eq. cbn [mbind option_bind]. rewrite IH.
      replace (bool_decide (l' :: ls' = l' :: ls)) with (bool_decide (ls' = ls))
        by (apply bool_decide_ext; naive_solver).
      destruct (e && _); [done|]. destruct (children n !! l') as [c|]; [done|].
      apply (new_exact_at ls').
    + rewrite lookup_insert_ne by done. rewrite bool_decide_eq_false_2 by naive_solver.
      by rewrite andb_false_r.
Qed.

Lemma wild_at_insert ls v w e : forall n ls',
  wild_at ls' (insertLabels ls v w e n) =
  if w && bool_decide (ls' = ls) then Some v else wild_at ls' n.
Proof.
  induction ls as [|l ls IH]; intros n ls'; destruct ls' as [|l' ls'].
  - unfold wild_at. simpl. by destruct w.
  - unfold wild_at. cbn [insertLabels node_at mbind option_bind]. rewrite bool_decide_eq_false_2 by done.
    by rewrite andb_false_r.
  - unfold wild_at. cbn [insertLabels node_at mbind option_bind]. rewrite bool_decide_eq_false_2 by done.
    by rewrite andb_false_r.
  - unfold wild_at in *. cbn [node_at insertLabels children].
    destruct (decide (l = l')) as [->|Hne].
    + rewrite lookup_insert_eq. cbn [mbind option_bind]. rewrite IH.
      replace (bool_decide (l' :: ls' = l' :: ls)) with (bool_decide (ls' = ls))
        by (apply bool_decide_ext; naive_solver).
      destruct (w && _); [done|]. destruct (children n !! l') as [c|]; [done|].
      apply (new_wild_at ls').
    + rewrite lookup_insert_ne by done. rewrite bool_decide_eq_false_2 by naive_solver.
      by rewrite andb_false_r.
Qed.

(** *** The meaning of a rule list *)

(** The labels, from the right, a pattern gives an exact value to, and those it
    gives a wildcard to. *)
Definition rule_exact (p : string) : option (list string) :=
  if decide (p = "*")%string then None
  else if negb (Contains p ".") then None
  else if HasPrefix p "*." then None
  else if HasPrefix p "*" then Some (labels (sdrop 1 p)).*1
  else Some (labels p).*1.
Definition rule_wild (p : string) : option (list string) :=
  if decide (p = "*")%string then Some []
  else if negb (Contains p ".") then None
  else if HasPrefix p "*." then Some (labels (sdrop 2 p)).*1
  else if HasPrefix p "*" then Some (labels (sdrop 1 p)).*1
  else None.

(** The last rule for [ls]. *)
Definition last_rule (f : string -> option (list string)) (rules : list (string * T))
    (ls : list string) : option T :=
  fold_left (fun acc r => if bool_decide (f (fst r) = Some ls) then Some (snd r) else acc) rules None.

(** The wildcard of the longest suffix that leaves at least one label. *)
Fixpoint longest_wild (W : list string -> option T) (pre : list string) (ls : list (string * bool))
    (cand : option T) : option T :=
  match ls with
  | [] => cand
  | (l, dot) :: ls =>
    longest_wild W (pre ++ [l]) ls (if dot then orElse (W (pre ++ [l])) cand else cand)
  end.

Definition route (rules : list (string * T)) (domain : string) : option T :=
  orElse (last_rule rule_exact rules (labels domain).*1)
    (orElse (longest_wild (last_rule rule_wild rules) [] (labels domain) None)
       (last_rule rule_wild rules [])).

Lemma add_exact m p v ls : exact_at ls (snd (Add m p v)) =
  if bool_decide (rule_exact p = Some ls) then Some v else exact_at ls m.
Proof.
  unfold Add, rule_exact. destruct (decide (p = "*")%string).
  { rewrite bool_decide_eq_false_2 by done. by destruct ls. }
  destruct (negb _); [done|]. destruct (HasPrefix p "*."); cbn [snd].
  { unfold insertPattern. by rewrite exact_at_insert. }
  destruct (HasPrefix p "*"); cbn [snd]; unfold insertPattern; rewrite exact_at_insert; cbn [andb];
    erewrite bool_decide_ext; [done|naive_solver|done|naive_solver].
Qed.

Lemma add_wild m p v ls : wild_at ls (snd (Add m p v)) =
  if bool_decide (rule_wild p = Some ls) then Some v else wild_at ls m.
Proof.
  unfold Add, rule_wild. destruct (decide (p = "*")%string).
  { destruct ls; [done|]. by rewrite bool_decide_eq_false_2. }
  destruct (negb _); [done|]. destruct (HasPrefix p "*."); [|destruct (HasPrefix p "*")]; cbn [snd];
    unfold insertPattern; rewrite wild_at_insert; cbn [andb]; try done;
    erewrite bool_decide_ext; [done|naive_solver|done|naive_solver].
Qed.

Definition build (rules : list (string * T)) : labelNode T :=
  fold_left (fun m r => snd (Add m (fst r) (snd r))) rules NewDomainMatcher.

Lemma build_exact rules ls : exact_at ls (build rules) = last_rule rule_exact rules ls.
Proof.
  unfold build, last_rule. induction rules as [|[p v] rules IH] using rev_ind; [apply new_exact_at|].
  rewrite !fold_left_app. simpl. by rewrite add_exact, IH.
Qed.

Lemma build_wild rules ls : wild_at ls (build rules) = last_rule rule_wild rules ls.
Proof.
  unfold build, last_rule. induction rules as [|[p v] rules IH] using rev_ind; [apply new_wild_at|].
  rewrite !fold_left_app. simpl. by rewrite add_wild, IH.
Qed.

Lemma node_at_app n pre ls : node_at (pre ++ ls) n = (n' ← node_at pre n; node_at ls n').
Proof.
  revert n. induction pre as [|l pre IH]; intros n; [done|]. simpl.
  destruct (children n !! l); simpl; [apply IH|done].
Qed.

(** Past a missing child there is no wildcard. *)
Lemma longest_wild_none m ls : forall pre cand,
  (forall k, wild_at (pre ++ k) m = None) ->
  longest_wild (fun l => wild_at l m) pre ls cand = cand.
Proof.
  induction ls as [|[l dot] ls IH]; intros pre cand H; [done|]. simpl. rewrite IH.
  - rewrite H. by destruct dot.
  - intros k. rewrite <- app_assoc. apply H.
Qed.

Lemma find_loop_spec m ls : forall pre n cand, node_at pre m = Some n ->
  let '(n', full, c) := find_loop n cand ls in
  (if full then exactValue n' else None) = exact_at (pre ++ ls.*1) m /\
  c = longest_wild (fun l => wild_at l m) pre ls cand.
Proof.
  induction ls as [|[l dot] ls IH]; intros pre n cand Hn.
  - simpl. rewrite app_nil_r. unfold exact_at. by rewrite Hn.
  - cbn [find_loop fmap list_fmap fst longest_wild].
    assert (node_at (pre ++ [l]) m = children n !! l) as Hl.
    { rewrite node_at_app, Hn. simpl. by destruct (children n !! l). }
    destruct (children n !! l) as [c|] eqn:E.
    + specialize (IH (pre ++ [l]) c (if dot then orElse (wildcardValue c) cand else cand) Hl).
      destruct (find_loop c _ ls) as [[n' full] c']. rewrite <- app_assoc in IH.
      destruct IH as [IH1 IH2]. split; [done|]. rewrite IH2. unfold wild_at at 3. by rewrite Hl.
    + split.
      * unfold exact_at. rewrite node_at_app, Hn. simpl. by rewrite E.
      * rewrite longest_wild_none.
        { unfold wild_at. rewrite Hl. by destruct dot. }
        intros k. unfold wild_at. rewrite node_at_app, Hl. done.
Qed.

Lemma longest_wild_ext W V ls : (forall l, W l = V l) ->
  forall pre cand, longest_wild W pre ls cand = longest_wild V pre ls cand.
Proof. intros H. induction ls as [|[l dot] ls IH]; intros pre cand; simpl; [done|]. by rewrite IH, H. Qed.

Lemma Find_build rules domain : Find (build rules) domain = route rules domain.
Proof.
  unfold Find, route.
  pose proof (find_loop_spec (build rules) (labels domain) [] (build rules) None eq_refl) as H.
  destruct (find_loop _ _ _) as [[n full] c]. destruct H as [-> ->]. cbn [app].
  rewrite build_exact.
  rewrite (longest_wild_ext (fun l => wild_at l (build rules)) (last_rule rule_wild rules))
    by apply build_wild.
  by rewrite <- (build_wild rules []).
Qed.

(** Nothing is found in an empty matcher. *)
Lemma Find_new domain : Find (NewDomainMatcher (T := T)) domain = None.
Proof.
  change NewDomainMatcher with (build []). rewrite Find_build. unfold route. cbn.
  assert (forall ls pre, longest_wild (last_rule rule_wild (@nil (string * T))) pre ls None = None) as H.
  { induction ls as [|[l dot] ls IH]; intros pre; [done|]. simpl. by destruct dot. }
  by rewrite H.
Qed.

(** C11: For every sequence of Add calls, Find of a name is what the rule list
    means: the value of the last exact rule for its labels, else of the last
    wildcard rule for the longest of its suffixes that leaves at least one label,
    else of the last "*" rule.  The labels of a dotted name are its parts, from the
    right, and only the leftmost part has no dot before it. *)
Theorem DomainMatcher_correct rules domain :
  Find (build rules) domain = route rules domain /\
  forall x ls, domain = Join (x :: ls) "." -> x <> ""%string -> Forall dotfree (x :: ls) ->
    labels domain = ((fun l => (l, true)) <$> rev ls) ++ [(x, false)].
Proof.
  split.
  2:{ intros x ls -> Hx Hd. apply Forall_cons in Hd as [? ?]. apply labels_join; try done.
      clear -Hx. induction ls as [|y ls IH] using rev_ind; [destruct x; simpl; [done|lia]|].
      rewrite Join_snoc, slength_app, length_app. cbn [length String.length]. lia. }
  apply Find_build.
Qed.
End domain.

Lemma DomainMatcher_correct_witness :
  Find (build [("*", 1); ("*.example.com", 2); ("*x.org", 3); ("a.example.com", 4)]) "b.example.com" = Some 2 /\
  labels "a.b.c" = [("c", true); ("b", true); ("a", false)]%string.
Proof.
  split.
  - rewrite (proj1 (DomainMatcher_correct _ _)). vm_compute. reflexivity.
  - rewrite (proj2 (DomainMatcher_correct [("*", 1)] "a.b.c") "a" ["b"; "c"]%string); [done|done|done|].
    repeat constructor.
Defined.

(** ** What a bit trie holds *)

Section bits.
Context {T : Type}.

Fixpoint value_at (bs : list bool) (n : bitNode T) : option T :=
  match bs with
  | [] => bvalue n
  | b :: bs => child ← bchild n b; value_at bs child
  end.

Lemma new_value_at bs : value_at bs (NewTrie (T := T)) = None.
Proof. by destruct bs as [|[]]. Qed.

Lemma value_at_insert bs v : forall n bs',
  value_at bs' (insert_bits bs v n) = if bool_decide (bs' = bs) then Some v else value_at bs' n.
Proof.
  induction bs as [|b bs IH]; intros [c0 c1 w] bs'; destruct bs' as [|b' bs'].
  - done.
  - rewrite bool_decide_eq_false_2 by done. by destruct b'.
  - rewrite bool_decide_eq_false_2 by done. by destruct b.
  - destruct (decide (b = b')) as [->|Hne].
    + replace (value_at (b' :: bs') (insert_bits (b' :: bs) v (BNode c0 c1 w)))
        with (value_at bs' (insert_bits bs v (default NewTrie (bchild (BNode c0 c1 w) b'))))
        by by destruct b'.
      rewrite IH. replace (bool_decide (b' :: bs' = b' :: bs)) with (bool_decide (bs' = bs))
        by (apply bool_decide_ext; naive_solver).
      case_bool_decide; [done|]. cbn [value_at]. destruct (bchild _ b'); [done|]. apply new_value_at.
    + rewrite bool_decide_eq_false_2 by naive_solver. by destruct b, b'.
Qed.

(** The value at the longest prefix of [bs] of at most [k] bits. *)
Fixpoint longest (V : list bool -> option T) (bs : list bool) (k : nat) : option (nat * T) :=
  match V (take k bs) with
  | Some v => Some (k, v)
  | None => match k with O => None | S k => longest V bs k end
  end.

Lemma longest_cons V b bs k :
  longest V (b :: bs) (S k) =
  match longest (fun l => V (b :: l)) bs k with
  | Some (j, v) => Some (S j, v)
  | None => (fun v => (0%nat, v)) <$> V []
  end.
Proof.
  induction k as [|k IH].
  - simpl. rewrite !take_0. destruct (V [b]); [done|]. by destruct (V []).
  - change (longest V (b :: bs) (S (S k))) with
      (match V (b :: take (S k) bs) with Some v => Some (S (S k), v) | None => longest V (b :: bs) (S k) end).
    change (longest (fun l => V (b :: l)) bs (S k)) with
      (match V (b :: take (S k) bs) with Some v => Some (S k, v)
       | None => longest (fun l => V (b :: l)) bs k end).
    destruct (V (b :: take (S k) bs)); [done|]. apply IH.
Qed.

Lemma longest_None V bs k : (forall l, V l = None) -> longest V bs k = None.
Proof. intros H. induction k; simpl; by rewrite H. Qed.

Lemma longest_ext V W bs k : (forall l, V l = W l) -> longest V bs k = longest W bs k.
Proof. intros H. induction k; simpl; rewrite H; [done|]. by rewrite IHk. Qed.

Lemma find_bits_spec bs : forall n matched,
  find_bits bs matched n =
  match longest (fun l => value_at l n) bs (length bs) with Some (_, v) => Some v | None => matched end.
Proof.
  induction bs as [|b bs IH]; intros n matched.
  - simpl. by destruct (bvalue n).
  - cbn [find_bits length]. rewrite longest_cons.
    destruct (bchild n b) as [c|] eqn:E.
    + rewrite IH. rewrite (longest_ext (fun l => value_at (b :: l) n) (fun l => value_at l c)).
      2:{ intros l. cbn [value_at]. by rewrite E. }
      destruct (longest _ bs (length bs)) as [[j v]|]; [done|]. simpl. by destruct (bvalue n).
    + rewrite longest_None; [|intros l; cbn [value_at]; by rewrite E]. simpl. by destruct (bvalue n).
Qed.

Lemma longest_bound V bs k j v : longest V bs k = Some (j, v) -> (j <= k)%nat.
Proof.
  induction k as [|k IH]; simpl.
  - destruct (V _); [|done]. by intros [= <- _].
  - destruct (V _); [by intros [= <- _]|]. intros H%IH. lia.
Qed.

Lemma longest_root V bs k : longest V bs k = None -> V [] = None.
Proof.
  induction k as [|k IH]; simpl.
  - rewrite take_0. by destruct (V []).
  - destruct (V (take (S k) bs)); [done|apply IH].
Qed.

(** A rule for the bits [b0] added to [V]. *)
Definition upd (V : list bool -> option T) (b0 : list bool) (v : T) (l : list bool) : option T :=
  if bool_decide (l = b0) then Some v else V l.

Lemma longest_upd V b0 v bs k : (k <= length bs)%nat ->
  longest (upd V b0 v) bs k =
  if bool_decide (b0 = take (length b0) bs) && (length b0 <=? k)%nat then
    match longest V bs k with
    | Some (j, w) => if (length b0 <? j)%nat then Some (j, w) else Some (length b0, v)
    | None => Some (length b0, v)
    end
  else longest V bs k.
Proof.
  intros Hk. induction k as [|k IH].
  - simpl. unfold upd. rewrite take_0. destruct b0 as [|b b0]; simpl.
    + destruct (V []); done.
    + by rewrite andb_false_r.
  - cbn [longest]. unfold upd at 1. rewrite IH by lia. destruct (decide (take (S k) bs = b0)) as [E|Hne].
    + assert (length b0 = S k) as L by (rewrite <- E, length_take; lia).
      rewrite (bool_decide_eq_true_2 (take (S k) bs = b0)) by done.
      rewrite L, (bool_decide_eq_true_2 (b0 = take (S k) bs)) by done.
      rewrite (proj2 (Nat.leb_le (S k) (S k))) by lia. simpl andb. cbv iota.
      destruct (V (take (S k) bs)); [by rewrite Nat.ltb_irrefl|].
      destruct (longest V bs k) as [[j w]|] eqn:E2; [|done]. apply longest_bound in E2.
      by rewrite (proj2 (Nat.ltb_ge (S k) j)) by lia.
    + rewrite (bool_decide_eq_false_2 (take (S k) bs = b0)) by done.
      case_bool_decide as Hp; simpl; [|by destruct (V _)].
      destruct (Nat.leb_spec (length b0) (S k)) as [H1|H1].
      * assert (length b0 <= k)%nat.
        { destruct (decide (length b0 = S k)) as [L|]; [|lia]. rewrite L in Hp. congruence. }
        rewrite (proj2 (Nat.leb_le (length b0) k)) by lia.
        destruct (V (take (S k) bs)); [|done]. by rewrite (proj2 (Nat.ltb_lt (length b0) (S k))) by lia.
      * rewrite (proj2 (Nat.leb_gt (length b0) k)) by lia. by destruct (V _).
Qed.
End bits.

(** ** Address rules *)

Lemma getBit_testbit w v i : 0 <= i < w -> getBit w v i = Z.testbit v (w - 1 - i).
Proof.
  intros Hi. unfold getBit. rewrite Z.testbit_odd. generalize (Z.shiftr v (w - 1 - i)) as a. intros a.
  change 1 with (Z.ones 1). rewrite Z.land_ones by lia. change (2 ^ 1) with 2. rewrite Zmod_odd.
  by destruct (Z.odd a).
Qed.

Lemma addr_bits_length w v n : length (addr_bits w v n) = Z.to_nat n.
Proof. unfold addr_bits. by rewrite length_fmap, length_seqZ. Qed.

Lemma addr_bits_lookup w v n i : 0 <= i < n -> addr_bits w v n !! Z.to_nat i = Some (getBit w v i).
Proof.
  intros Hi. unfold addr_bits. rewrite list_lookup_fmap, lookup_seqZ_lt by lia. simpl. do 2 f_equal. lia.
Qed.

(** The first [len] bits of two [w]-bit numbers agree. *)
Definition same_prefix (w len x ip : Z) : bool := Z.shiftr x (w - len) =? Z.shiftr ip (w - len).

Lemma addr_bits_prefix w len x ip : 0 <= len <= w -> 0 <= x < 2 ^ w -> 0 <= ip < 2 ^ w ->
  bool_decide (addr_bits w ip len = take (Z.to_nat len) (addr_bits w x w)) = same_prefix w len x ip.
Proof.
  intros Hl Hx Hip. unfold same_prefix. apply eq_bool_prop_intro.
  rewrite bool_decide_spec, Is_true_true, Z.eqb_eq. split.
  - intros E. apply Z.bits_inj'. intros q Hq. rewrite !Z.shiftr_spec by lia.
    destruct (decide (q + (w - len) < w)).
    + set (i := w - 1 - (q + (w - len))). assert (0 <= i < len) as Hi by lia.
      apply (f_equal (fun l => l !! Z.to_nat i)) in E.
      rewrite lookup_take_lt in E by lia. rewrite !addr_bits_lookup in E by lia.
      injection E as E. rewrite !getBit_testbit in E by lia.
      replace (w - 1 - i) with (q + (w - len)) in E by lia. done.
    + rewrite <- (Z.mod_small x (2 ^ w)), <- (Z.mod_small ip (2 ^ w)) by done.
      by rewrite !Z.mod_pow2_bits_high by lia.
  - intros E. apply list_eq. intros j. destruct (decide (j < Z.to_nat len)%nat) as [Hj|Hj].
    + rewrite lookup_take_lt by done. rewrite <- (Nat2Z.id j), !addr_bits_lookup by lia.
      rewrite !getBit_testbit by lia. f_equal.
      replace (w - 1 - Z.of_nat j) with (len - 1 - Z.of_nat j + (w - len)) by lia.
      rewrite <- !Z.shiftr_spec by lia. by rewrite E.
    + rewrite lookup_ge_None_2 by (rewrite addr_bits_length; lia).
      by rewrite lookup_take_ge by lia.
Qed.

Section rules.
Context {T : Type}.

(** What a rule string stands for: address and prefix length. *)
Definition rule_prefix (parse : string -> go (Z * Z)) (s : string) : option (Z * Z) :=
  if decide (s = "*")%string then Some (0, 0)
  else match parse s with Ret r => Some r | _ => None end.

(** The longest rule that contains [x]; of equally long ones the last. *)
Definition best (w : Z) (parse : string -> go (Z * Z)) (rules : list (string * T)) (x : Z)
    : option (Z * T) :=
  fold_left (fun acc r =>
    match rule_prefix parse (fst r) with
    | Some (ip, len) =>
      if same_prefix w len x ip && match acc with Some (l, _) => l <=? len | None => true end
      then Some (len, snd r) else acc
    | None => acc
    end) rules None.

Definition build_trie (w : Z) (parse : string -> go (Z * Z)) (rules : list (string * T)) : bitNode T :=
  fold_left (fun t r => snd (trie_insert w parse t (fst r) (snd r))) rules NewTrie.

Definition parse_ok (w : Z) (parse : string -> go (Z * Z)) : Prop :=
  forall s ip len, parse s = Ret (ip, len) -> 0 <= len <= w /\ 0 <= ip < 2 ^ w.

Lemma parse4_ok : parse_ok 32 parseIPv4OrCIDR.
Proof.
  intros s ip len. unfold parseIPv4OrCIDR. destruct (ParsePrefix s) as [p|] eqn:E.
  - apply ParsePrefix_ok in E as [[Ha _] Hb]. destruct (Is4 (pAddr p)) eqn:H4; [|done]. simpl.
    destruct (_ || _); [done|]. intros [= <- <-]. destruct (pAddr p); [|done]. done.
  - destruct (ParseAddr s) as [a|] eqn:E2; [|done]. apply ParseAddr_ok in E2.
    destruct (Is4 (Unmap a)) eqn:H4; [|done]. simpl. intros [= <- <-]. split; [lia|].
    destruct a as [v|v z]; [done|]. unfold Unmap in *. destruct (is4in6 v); [|done].
    apply Z.mod_pos_bound. done.
Qed.

Lemma Unmap_6 a : Is4 (Unmap a) = false -> Unmap a = a /\ BitLen a = 128.
Proof. destruct a as [v|v z]; [done|]. unfold Unmap. by destruct (is4in6 v). Qed.

Lemma parse6_ok : parse_ok 128 parseIPv6OrCIDR.
Proof.
  intros s ip len. unfold parseIPv6OrCIDR. destruct (ParsePrefix s) as [p|] eqn:E.
  - apply ParsePrefix_ok in E as [[Ha _] Hb]. destruct (Is4 (Unmap (pAddr p))) eqn:H4; [done|].
    apply Unmap_6 in H4 as [-> HL]. unfold addr_ok in Ha. rewrite HL in *.
    destruct (_ || _); [done|]. by intros [= <- <-].
  - destruct (ParseAddr s) as [a|] eqn:E2; [|done]. apply ParseAddr_ok in E2.
    destruct (Is4 (Unmap a)) eqn:H4; [done|]. apply Unmap_6 in H4 as [-> HL].
    unfold addr_ok in E2. rewrite HL in E2. intros [= <- <-]. lia.
Qed.

Lemma insert_value w parse (t : bitNode T) s (v : T) bs :
  value_at bs (snd (trie_insert w parse t s v)) =
  match rule_prefix parse s with
  | Some (ip, len) => upd (fun l => value_at l t) (addr_bits w ip len) v bs
  | None => value_at bs t
  end.
Proof.
  unfold trie_insert, rule_prefix. destruct (decide (s = "*")%string).
  - unfold upd. destruct t, bs as [|b bs]; [done|]. rewrite bool_decide_eq_false_2 by done. done.
  - destruct (parse s) as [[ip len]| |]; cbn [snd]; [|done|done]. apply value_at_insert.
Qed.

(** The trie's longest prefix is the rule list's. *)
Lemma build_longest w parse rules x : 0 <= w -> parse_ok w parse -> 0 <= x < 2 ^ w ->
  longest (fun l => value_at l (build_trie w parse rules)) (addr_bits w x w) (Z.to_nat w) =
  (fun r => (Z.to_nat (fst r), snd r)) <$> best w parse rules x /\
  match best w parse rules x with Some (l, _) => 0 <= l | None => True end.
Proof.
  intros Hw Hok Hx. unfold build_trie, best. induction rules as [|[s v] rules [IH Hl]] using rev_ind.
  { split; [|done]. apply longest_None. intros l. apply new_value_at. }
  rewrite !fold_left_app. cbn [fold_left fst snd].
  rewrite (longest_ext _ _ _ _ (insert_value w parse _ s v)).
  destruct (rule_prefix parse s) as [[ip len]|] eqn:E; [|done].
  assert (0 <= len <= w /\ 0 <= ip < 2 ^ w) as [Hlen Hip].
  { unfold rule_prefix in E. destruct (decide _); [simplify_eq; lia|].
    destruct (parse s) as [[ip' len']| |] eqn:Ep; simplify_eq. by eapply Hok. }
  rewrite longest_upd by by rewrite addr_bits_length.
  rewrite !addr_bits_length, addr_bits_prefix by done.
  rewrite (proj2 (Nat.leb_le _ _)) by lia. rewrite andb_true_r, IH.
  destruct (same_prefix w len x ip); simpl; [|done].
  destruct (fold_left _ rules None) as [[l u]|]; simpl; [|split; [done|lia]].
  destruct (Z.leb_spec l len).
  - rewrite (proj2 (Nat.ltb_ge _ _)) by lia. split; [done|lia].
  - rewrite (proj2 (Nat.ltb_lt _ _)) by lia. done.
Qed.

Lemma trie_find_best w parse rules x : 0 <= w -> parse_ok w parse -> 0 <= x < 2 ^ w ->
  trie_find (build_trie w parse rules) (addr_bits w x w) = snd <$> best w parse rules x.
Proof.
  intros Hw Hok Hx. destruct (build_longest w parse rules x Hw Hok Hx) as [H _].
  unfold trie_find. rewrite find_bits_spec, addr_bits_length, H.
  destruct (best w parse rules x) as [[l v]|]; simpl; [done|].
  exact (longest_root _ _ _ H).
Qed.

Lemma IPFind_build (rules : list (string * T)) ip :
  IPv4Find (build_trie 32 parseIPv4OrCIDR rules) ip =
    match Unmap <$> ParseAddr ip with
    | Some (Addr4 x) => snd <$> best 32 parseIPv4OrCIDR rules x
    | _ => None
    end /\
  IPv6Find (build_trie 128 parseIPv6OrCIDR rules) ip =
    match Unmap <$> ParseAddr ip with
    | Some (Addr6 x _) => snd <$> best 128 parseIPv6OrCIDR rules x
    | _ => None
    end.
Proof.
  unfold IPv4Find, IPv6Find. destruct (ParseAddr ip) as [a|] eqn:E; [|done].
  apply ParseAddr_ok in E. cbn [mbind option_bind fmap option_fmap option_map].
  assert (addr_ok (Unmap a)) as H.
  { destruct a as [v|v z]; [done|]. unfold Unmap. destruct (is4in6 v); [|done].
    apply Z.mod_pos_bound. done. }
  destruct (Unmap a) as [x|x z]; cbn [Is4 negb addr_val]; (split; [|]); try done.
  - apply trie_find_best; [lia|apply parse4_ok|done].
  - apply trie_find_best; [lia|apply parse6_ok|done].
Qed.
(** C12: For every sequence of Insert calls the address matchers are longest-prefix
    matchers: IPv4Trie.Find and IPv6Trie.Find return the value of the longest rule
    that contains the address (of equal ones the last inserted, "*" counting as
    the empty prefix), unparsable rules and addresses of the other family being
    ignored. *)
Theorem IPTrie_correct (rules : list (string * T)) ip :
  IPv4Find (build_trie 32 parseIPv4OrCIDR rules) ip =
    match Unmap <$> ParseAddr ip with
    | Some (Addr4 x) => snd <$> best 32 parseIPv4OrCIDR rules x
    | _ => None
    end /\
  IPv6Find (build_trie 128 parseIPv6OrCIDR rules) ip =
    match Unmap <$> ParseAddr ip with
    | Some (Addr6 x _) => snd <$> best 128 parseIPv6OrCIDR rules x
    | _ => None
    end.
Proof. exact (IPFind_build rules ip). Qed.
End rules.

Lemma IPTrie_correct_witness :
  IPv4Find (build_trie 32 parseIPv4OrCIDR
    [("10.0.0.0/8", 1); ("10.1.0.0/16", 2); ("*", 3); ("example.com", 4)]) "10.1.2.3" = Some 2 /\
  IPv6Find (build_trie 128 parseIPv6OrCIDR [("2001:db8::/32", 1)]) "2001:db8::1" = Some 1.
Proof.
  rewrite (proj1 (IPTrie_correct _ _)), (proj2 (IPTrie_correct _ _)). vm_compute. split; reflexivity.
Defined.

End AddrTrie.
