(* ===== verification/Policy.v ===== *)
(** * Policies (src/internal/policy.go, DNSMode of src/internal/dns.go)

    The policy record, its JSON validation (from the struct the JSON decoder fills),
    its merge and its text.  [unsetInt] is -1 as in the source; durations are
    nanoseconds. *)

From S2P Require Import Prelude GoStrings GoTime.

(** [strings.TrimSpace] on ASCII text. *)
Definition is_space (c : Ascii.ascii) : bool :=
  let b := char_byte c in ((9 <=? b) && (b <=? 13)) || (b =? 32).
Fixpoint TrimLeft (s : string) : string :=
  match s with
  | String c s' => if is_space c then TrimLeft s' else s
  | EmptyString => EmptyString
  end.
Fixpoint TrimRight (s : string) : string :=
  match s with
  | String c s' =>
    match TrimRight s' with
    | EmptyString => if is_space c then EmptyString else String c EmptyString
    | t => String c t
    end
  | EmptyString => EmptyString
  end.
Definition TrimSpace (s : string) : string := TrimRight (TrimLeft s).

Module Policy.

Definition unsetInt : Z := -1.

Inductive Mode := ModeUnknown | ModeRaw | ModeDirect | ModeTLSRF | ModeTTLD | ModeBlock | ModeTLSAlert.
Definition ModeDefault : Mode := ModeTLSRF.
#[global] Instance Mode_eq_dec : EqDecision Mode.
Proof. solve_decision. Defined.

(** Mode.UnmarshalJSON of a decoded JSON string. *)
Definition Mode_UnmarshalJSON (s : string) : go Mode :=
  let s := ToLower (TrimSpace s) in
  if decide (s = "raw")%string then Ret ModeRaw
  else if decide (s = "direct")%string then Ret ModeDirect
  else if decide (s = "tls-rf")%string then Ret ModeTLSRF
  else if decide (s = "ttl-d")%string then Ret ModeTTLD
  else if decide (s = "block")%string then Ret ModeBlock
  else if decide (s = "tls-alert")%string then Ret ModeTLSAlert
  else Err ("invalid mode: " +:+ s).

Definition Mode_String (m : Mode) : string :=
  match m with
  | ModeRaw => "raw"
  | ModeDirect => "direct"
  | ModeTLSRF => "tls-rf"
  | ModeTTLD => "ttl-d"
  | ModeBlock => "block"
  | ModeTLSAlert => "tls-alert"
  | ModeUnknown => "unknown"
  end.

Inductive BoolWithDefault := BoolUnset | BoolFalse | BoolTrue.
#[global] Instance Bool_eq_dec : EqDecision BoolWithDefault.
Proof. solve_decision. Defined.

(** BoolWithDefault.UnmarshalJSON of the raw JSON text. *)
Definition Bool_UnmarshalJSON (s : string) : go BoolWithDefault :=
  if decide (s = "null")%string then Ret BoolUnset
  else if decide (s = "false")%string then Ret BoolFalse
  else if decide (s = "true")%string then Ret BoolTrue
  else Err ("invalid bool: " +:+ s).

Inductive DNSMode :=
| DNSModeUnknown | DNSModePreferIPv4 | DNSModePreferIPv6 | DNSModeIPv4Only | DNSModeIPv6Only.
Definition DNSModeDefault : DNSMode := DNSModePreferIPv4.
#[global] Instance DNSMode_eq_dec : EqDecision DNSMode.
Proof. solve_decision. Defined.

Definition DNSMode_String (m : DNSMode) : string :=
  match m with
  | DNSModePreferIPv4 => "prefer_ipv4"
  | DNSModePreferIPv6 => "prefer_ipv6"
  | DNSModeIPv4Only => "ipv4_only"
  | DNSModeIPv6Only => "ipv6_only"
  | DNSModeUnknown => "unknown"
  end.

Definition DNSMode_UnmarshalJSON (s : string) : go DNSMode :=
  if decide (s = "prefer_ipv4")%string then Ret DNSModePreferIPv4
  else if decide (s = "prefer_ipv6")%string then Ret DNSModePreferIPv6
  else if decide (s = "ipv4_only")%string then Ret DNSModeIPv4Only
  else if decide (s = "ipv6_only")%string then Ret DNSModeIPv6Only
  else Err ("invalid dns_mode: " +:+ s).

(** policy.go: [type Policy]. *)
Record Policy := mkPolicy {
  ReplyFirst : BoolWithDefault;
  pDNSMode : DNSMode;
  ConnectTimeout : Z;
  Host : option string;
  MapTo : option string;
  Port : Z;
  HttpStatus : Z;
  TLS13Only : BoolWithDefault;
  pMode : Mode;
  NumRecords : Z;
  NumSegments : Z;
  OOB : BoolWithDefault;
  OOBEx : BoolWithDefault;
  ModMinorVer : BoolWithDefault;
  SendInterval : Z;
  FakeTTL : Z;
  FakeSleep : Z;
  MaxTTL : Z;
  Attempts : Z;
  SingleTimeout : Z
}.

(** [Policy{}]. *)
Definition zeroPolicy : Policy :=
  mkPolicy BoolUnset DNSModeUnknown 0 None None 0 0 BoolUnset ModeUnknown 0 0
    BoolUnset BoolUnset BoolUnset 0 0 0 0 0 0.

(** The [tmp] struct of UnmarshalJSON after decoding: pointers are options. *)
Record rawPolicy := mkRaw {
  rReplyFirst : BoolWithDefault;
  rConnectTimeout : option string;
  rHost : option string;
  rMapTo : option string;
  rPort : option Z;
  rDNSMode : DNSMode;
  rHttpStatus : option Z;
  rTLS13Only : BoolWithDefault;
  rMode : Mode;
  rNumRecords : option Z;
  rNumSegments : option Z;
  rOOB : BoolWithDefault;
  rOOBEx : BoolWithDefault;
  rModMinorVer : BoolWithDefault;
  rSendInterval : option string;
  rFakeTTL : option Z;
  rFakeSleep : option string;
  rMaxTTL : option Z;
  rAttempts : option Z;
  rSingleTimeout : option string
}.

(** A field given as a duration: parsed, checked by [bad], [dflt] when absent. *)
Definition duration_field (name : string) (f : option string) (dflt : Z) (bad : Z -> bool) (why : string)
    : go Z :=
  match f with
  | None => Ret dflt
  | Some s =>
    match ParseDuration s with
    | None => Err ("parse " +:+ name +:+ " " +:+ s)
    | Some d => if bad d then Err (name +:+ " " +:+ s +:+ why) else Ret d
    end
  end.

(** A field given as an integer. *)
Definition int_field (name : string) (f : option Z) (dflt : Z) (bad : Z -> bool) (why : string) : go Z :=
  match f with
  | None => Ret dflt
  | Some v => if bad v then Err (name +:+ " " +:+ Itoa v +:+ why) else Ret v
  end.

(** Host and MapTo: a pointer to a non-empty string, or nil. *)
Definition text_field (name : string) (f : option string) : go (option string) :=
  match f with
  | Some EmptyString => Err (name +:+ " cannot be an empty string")
  | _ => Ret f
  end.

Definition outside : string := ": outside the valid range".
Definition greater0 : string := ": must be greater than 0".

(** Policy.UnmarshalJSON into [p], after the decoder has filled [tmp]; absent
    num_records, num_segs, attempts, max_ttl and fake_sleep leave the field of [p]. *)
Definition UnmarshalJSON (p : Policy) (tmp : rawPolicy) : go Policy :=
  let! host := text_field "host" (rHost tmp) in
  let! mapTo := text_field "map_to" (rMapTo tmp) in
  let! port := int_field "port" (rPort tmp) unsetInt (fun v => (v <? 0) || (65535 <? v)) outside in
  let! status := int_field "http_status" (rHttpStatus tmp) unsetInt (fun v => v <? 0) outside in
  let! records := int_field "num_records" (rNumRecords tmp) (NumRecords p) (fun v => v <=? 0) greater0 in
  let! segs := int_field "num_segs" (rNumSegments tmp) (NumSegments p)
                 (fun v => (v =? 0) || (v <? -1)) outside in
  let! ttl := int_field "fake_ttl" (rFakeTTL tmp) unsetInt (fun v => (v <? 0) || (255 <? v)) outside in
  let! attempts := int_field "attempts" (rAttempts tmp) (Attempts p) (fun v => v <? 1)
                     ": must be greater than 1" in
  let! maxTTL := int_field "max_ttl" (rMaxTTL tmp) (MaxTTL p) (fun v => (v <=? 1) || (255 <? v)) outside in
  let! connect := duration_field "connect_timeout" (rConnectTimeout tmp) unsetInt (fun d => d <=? 0) greater0 in
  let! interval := duration_field "send_interval" (rSendInterval tmp) unsetInt (fun d => d <? 0) outside in
  let! sleep := duration_field "fake_sleep" (rFakeSleep tmp) (FakeSleep p) (fun d => d <=? 0) greater0 in
  let! single := duration_field "single_timeout" (rSingleTimeout tmp) unsetInt (fun d => d <=? 0) greater0 in
  Ret {| ReplyFirst := rReplyFirst tmp; pDNSMode := rDNSMode tmp; ConnectTimeout := connect;
         Host := host; MapTo := mapTo; Port := port; HttpStatus := status;
         TLS13Only := rTLS13Only tmp; pMode := rMode tmp; NumRecords := records; NumSegments := segs;
         OOB := rOOB tmp; OOBEx := rOOBEx tmp; ModMinorVer := rModMinorVer tmp;
         SendInterval := interval; FakeTTL := ttl; FakeSleep := sleep; MaxTTL := maxTTL;
         Attempts := attempts; SingleTimeout := single |}.

Definition cond {A} (c : bool) (x : A) : list A := if c then [x] else [].

(** Policy.String. *)
Definition Policy_String (p : Policy) : string :=
  let fields :=
    cond (negb (ConnectTimeout p =? 0)) ("timeout=" +:+ DurationString (ConnectTimeout p))%string ++
    cond (negb (Port p =? unsetInt) && negb (Port p =? 0)) (":" +:+ Itoa (Port p))%string ++
    cond (match Host p with None | Some EmptyString => true | _ => false end) (DNSMode_String (pDNSMode p)) ++
    cond (0 <? HttpStatus p) ("http_status=" +:+ Itoa (HttpStatus p))%string ++
    cond (bool_decide (TLS13Only p = BoolTrue)) "tls13_only"%string ++
    [Mode_String (pMode p)] ++
    match pMode p with
    | ModeTLSRF =>
      cond (bool_decide (ModMinorVer p = BoolTrue)) "mod_minor_ver"%string ++
      cond (negb (NumRecords p =? unsetInt) && negb (NumRecords p =? 1)) (Itoa (NumRecords p) +:+ " records")%string ++
      cond (negb (NumSegments p =? unsetInt) && negb (NumSegments p =? 1)) (Itoa (NumSegments p) +:+ " segments")%string ++
      cond (0 <? SendInterval p) ("send_interval=" +:+ DurationString (SendInterval p))%string ++
      cond (bool_decide (OOB p = BoolTrue)) "oob"%string ++
      cond (bool_decide (OOBEx p = BoolTrue)) "oob_ex"%string
    | ModeTTLD =>
      (if (FakeTTL p =? 0) || (FakeTTL p =? unsetInt) then
         ["auto_fake_ttl"%string] ++
         cond (negb (Attempts p =? 0)) ("attempts=" +:+ Itoa (Attempts p))%string ++
         cond (negb (MaxTTL p =? 0)) ("max_ttl=" +:+ Itoa (MaxTTL p))%string ++
         cond (negb (SingleTimeout p =? 0)) ("single_timeout=" +:+ DurationString (SingleTimeout p))%string
       else [("fake_ttl=" +:+ Itoa (FakeTTL p))%string]) ++
      [("fake_sleep=" +:+ DurationString (FakeSleep p))%string]
    | _ => []
    end in
  Join fields ", ".

(** [if merged == unset && p != unset { merged = p }]. *)
Definition take_first {A} `{EqDecision A} (unset merged p : A) : A :=
  if decide (merged = unset) then (if decide (p = unset) then merged else p) else merged.

(** The body of the loop of mergePolicies. *)
Definition merge_step (merged p : Policy) : Policy :=
  {| ReplyFirst := take_first BoolUnset (ReplyFirst merged) (ReplyFirst p);
     ConnectTimeout := take_first unsetInt (ConnectTimeout merged) (ConnectTimeout p);
     Host := take_first None (Host merged) (Host p);
     MapTo := take_first None (MapTo merged) (MapTo p);
     Port := take_first 0 (Port merged) (Port p);
     HttpStatus := take_first unsetInt (HttpStatus merged) (HttpStatus p);
     TLS13Only := take_first BoolUnset (TLS13Only merged) (TLS13Only p);
     pMode := take_first ModeUnknown (pMode merged) (pMode p);
     pDNSMode := take_first DNSModeUnknown (pDNSMode merged) (pDNSMode p);
     NumRecords := take_first 0 (NumRecords merged) (NumRecords p);
     NumSegments := take_first 0 (NumSegments merged) (NumSegments p);
     OOB := take_first BoolUnset (OOB merged) (OOB p);
     OOBEx := take_first BoolUnset (OOBEx merged) (OOBEx p);
     ModMinorVer := take_first BoolUnset (ModMinorVer merged) (ModMinorVer p);
     SendInterval := take_first unsetInt (SendInterval merged) (SendInterval p);
     FakeSleep := take_first 0 (FakeSleep merged) (FakeSleep p);
     FakeTTL := take_first unsetInt (FakeTTL merged) (FakeTTL p);
     MaxTTL := take_first 0 (MaxTTL merged) (MaxTTL p);
     Attempts := take_first 0 (Attempts merged) (Attempts p);
     SingleTimeout := take_first unsetInt (SingleTimeout merged) (SingleTimeout p) |}.

(** The record mergePolicies starts from. *)
Definition merge_start : Policy :=
  {| ReplyFirst := BoolUnset; pDNSMode := DNSModeUnknown; ConnectTimeout := unsetInt;
     Host := None; MapTo := None; Port := 0; HttpStatus := unsetInt; TLS13Only := BoolUnset;
     pMode := ModeUnknown; NumRecords := 0; NumSegments := 0; OOB := BoolUnset; OOBEx := BoolUnset;
     ModMinorVer := BoolUnset; SendInterval := unsetInt; FakeTTL := unsetInt; FakeSleep := 0;
     MaxTTL := 0; Attempts := 0; SingleTimeout := unsetInt |}.

(** policy.go: applyPolicyDefaults, also the end of mergePolicies. *)
Definition applyPolicyDefaults (p : Policy) : Policy :=
  let mode := if decide (pMode p = ModeUnknown) then ModeDefault else pMode p in
  let dns := if decide (pDNSMode p = DNSModeUnknown) then DNSModeDefault else pDNSMode p in
  mkPolicy (ReplyFirst p) dns (ConnectTimeout p) (Host p) (MapTo p) (Port p) (HttpStatus p)
    (TLS13Only p) mode (NumRecords p) (NumSegments p) (OOB p) (OOBEx p) (ModMinorVer p)
    (SendInterval p) (FakeTTL p) (FakeSleep p) (MaxTTL p) (Attempts p) (SingleTimeout p).

Definition mergePolicies (policies : list Policy) : Policy :=
  applyPolicyDefaults (fold_left merge_step policies merge_start).

Definition with_mode (m : Mode) : Policy :=
  mkPolicy BoolUnset DNSModeUnknown 0 None None 0 0 BoolUnset m 0 0
    BoolUnset BoolUnset BoolUnset 0 0 0 0 0 0.
Definition plainFallbackPolicy : Policy := with_mode ModeRaw.
Definition gfwFallbackPolicy : Policy := with_mode ModeTLSRF.

(** ** Validation *)

Definition dur_ok (bad : Z -> bool) (f : option string) : Prop :=
  match f with
  | None => True
  | Some s => exists d, ParseDuration s = Some d /\ bad d = false
  end.
Definition int_ok (bad : Z -> bool) (f : option Z) : Prop :=
  match f with None => True | Some v => bad v = false end.

(** What the configuration may say. *)
Record raw_ok (t : rawPolicy) : Prop := {
  ok_host : rHost t <> Some ""%string;
  ok_mapto : rMapTo t <> Some ""%string;
  ok_port : int_ok (fun v => (v <? 0) || (65535 <? v)) (rPort t);
  ok_status : int_ok (fun v => v <? 0) (rHttpStatus t);
  ok_records : int_ok (fun v => v <=? 0) (rNumRecords t);
  ok_segs : int_ok (fun v => (v =? 0) || (v <? -1)) (rNumSegments t);
  ok_ttl : int_ok (fun v => (v <? 0) || (255 <? v)) (rFakeTTL t);
  ok_attempts : int_ok (fun v => v <? 1) (rAttempts t);
  ok_maxttl : int_ok (fun v => (v <=? 1) || (255 <? v)) (rMaxTTL t);
  ok_connect : dur_ok (fun d => d <=? 0) (rConnectTimeout t);
  ok_interval : dur_ok (fun d => d <? 0) (rSendInterval t);
  ok_sleep : dur_ok (fun d => d <=? 0) (rFakeSleep t);
  ok_single : dur_ok (fun d => d <=? 0) (rSingleTimeout t)
}.

Lemma text_field_spec name f :
  (f <> Some ""%string -> text_field name f = Ret f) /\
  (forall r, text_field name f = Ret r -> r = f /\ f <> Some ""%string) /\ text_field name f <> Panic.
Proof. destruct f as [[|c s]|]; simpl; naive_solver. Qed.

Lemma int_field_spec name f dflt bad why :
  (int_ok bad f -> int_field name f dflt bad why = Ret (default dflt f)) /\
  (forall r, int_field name f dflt bad why = Ret r -> r = default dflt f /\ int_ok bad f) /\
  int_field name f dflt bad why <> Panic.
Proof.
  destruct f as [v|]; simpl; [|naive_solver].
  destruct (bad v) eqn:E; split_and!; try done; intros; simplify_eq; done.
Qed.

Lemma duration_field_spec name f dflt bad why :
  (dur_ok bad f -> duration_field name f dflt bad why = Ret (default dflt (f ≫= ParseDuration))) /\
  (forall r, duration_field name f dflt bad why = Ret r ->
     r = default dflt (f ≫= ParseDuration) /\ dur_ok bad f) /\
  duration_field name f dflt bad why <> Panic.
Proof.
  destruct f as [s|]; [|by split_and!; simpl; intros; simplify_eq].
  unfold duration_field, dur_ok. cbn [mbind option_bind].
  destruct (ParseDuration s) as [d|]; [|split_and!; [by intros (? & ? & _)|done|done]].
  destruct (bad d) eqn:E; split_and!; try done.
  - intros (d' & [= <-] & Hd). congruence.
  - intros r [= <-]. split; [done|]. by exists d.
Qed.

(** One field of the chain of UnmarshalJSON: it is accepted as it is, or refused. *)
Lemma field_step {A B} (m : go A) (v : A) (P : Prop) (k : A -> go B) r :
  (forall x, m = Ret x -> x = v /\ P) -> go_bind m k = Ret r -> P /\ k v = Ret r.
Proof. intros H (x & Hx & Hk)%go_bind_Ret. apply H in Hx as [-> ?]. done. Qed.

Ltac field_in H name :=
  match type of H with
  | go_bind (text_field ?n ?f) _ = _ =>
    eapply (field_step _ f) in H; [|apply text_field_spec]; destruct H as [name H]; cbv beta in H
  | go_bind (int_field ?n ?f ?d ?b ?w) _ = _ =>
    eapply (field_step _ (default d f)) in H; [|apply int_field_spec]; destruct H as [name H]; cbv beta in H
  | go_bind (duration_field ?n ?f ?d ?b ?w) _ = _ =>
    eapply (field_step _ (default d (f ≫= ParseDuration))) in H; [|apply duration_field_spec];
    destruct H as [name H]; cbv beta in H
  end.

(** The policy of an accepted configuration. *)
Definition accepted (p : Policy) (t : rawPolicy) : Policy :=
  {| ReplyFirst := rReplyFirst t; pDNSMode := rDNSMode t;
     ConnectTimeout := default unsetInt (rConnectTimeout t ≫= ParseDuration);
     Host := rHost t; MapTo := rMapTo t; Port := default unsetInt (rPort t);
     HttpStatus := default unsetInt (rHttpStatus t); TLS13Only := rTLS13Only t; pMode := rMode t;
     NumRecords := default (NumRecords p) (rNumRecords t);
     NumSegments := default (NumSegments p) (rNumSegments t);
     OOB := rOOB t; OOBEx := rOOBEx t; ModMinorVer := rModMinorVer t;
     SendInterval := default unsetInt (rSendInterval t ≫= ParseDuration);
     FakeTTL := default unsetInt (rFakeTTL t);
     FakeSleep := default (FakeSleep p) (rFakeSleep t ≫= ParseDuration);
     MaxTTL := default (MaxTTL p) (rMaxTTL t); Attempts := default (Attempts p) (rAttempts t);
     SingleTimeout := default unsetInt (rSingleTimeout t ≫= ParseDuration) |}.

Lemma UnmarshalJSON_Ret p t q : UnmarshalJSON p t = Ret q -> raw_ok t /\ q = accepted p t.
Proof.
  unfold UnmarshalJSON. intros H.
  field_in H H1. field_in H H2. field_in H H3. field_in H H4. field_in H H5. field_in H H6.
  field_in H H7. field_in H H8. field_in H H9. field_in H H10. field_in H H11. field_in H H12.
  field_in H H13. injection H as <-. split; [by constructor|done].
Qed.

Lemma UnmarshalJSON_accepts p t : raw_ok t -> UnmarshalJSON p t = Ret (accepted p t).
Proof.
  intros []. unfold UnmarshalJSON.
  repeat first
    [ rewrite (proj1 (text_field_spec _ _)) by done
    | rewrite (proj1 (int_field_spec _ _ _ _ _)) by done
    | rewrite (proj1 (duration_field_spec _ _ _ _ _)) by done
    | progress cbn [go_bind] ].
  done.
Qed.

Lemma UnmarshalJSON_no_panic p t : UnmarshalJSON p t <> Panic.
Proof.
  unfold UnmarshalJSON.
  repeat (apply go_bind_no_panic;
    [first [apply text_field_spec|apply int_field_spec|apply duration_field_spec]|intros ? _]).
  done.
Qed.

(** The configurations that are accepted, field by field: what is given must be so; what is
    not given may be anything. *)
Definition in_range (t : rawPolicy) : Prop :=
  let given {A} (f : option A) (P : A -> Prop) := forall v, f = Some v -> P v in
  let lasts (f : option string) (P : Z -> Prop) := forall s, f = Some s -> exists d, ParseDuration s = Some d /\ P d in
  given (rHost t) (fun s => s <> ""%string) /\ given (rMapTo t) (fun s => s <> ""%string) /\
  given (rPort t) (fun v => 0 <= v <= 65535) /\ given (rHttpStatus t) (fun v => 0 <= v) /\
  given (rNumRecords t) (fun v => 1 <= v) /\ given (rNumSegments t) (fun v => v = -1 \/ 1 <= v) /\
  given (rFakeTTL t) (fun v => 0 <= v <= 255) /\ given (rAttempts t) (fun v => 1 <= v) /\
  given (rMaxTTL t) (fun v => 2 <= v <= 255) /\
  lasts (rConnectTimeout t) (fun d => 0 < d) /\ lasts (rSendInterval t) (fun d => 0 <= d) /\
  lasts (rFakeSleep t) (fun d => 0 < d) /\ lasts (rSingleTimeout t) (fun d => 0 < d).

Lemma int_ok_given bad f (P : Z -> Prop) : (forall v, bad v = false <-> P v) -> int_ok bad f <-> forall v, f = Some v -> P v.
Proof. intros H. unfold int_ok. destruct f as [v|]; [rewrite H|]; naive_solver. Qed.
Lemma dur_ok_lasts bad f (P : Z -> Prop) : (forall v, bad v = false <-> P v) ->
  dur_ok bad f <-> forall s, f = Some s -> exists d, ParseDuration s = Some d /\ P d.
Proof. intros H. unfold dur_ok. destruct f as [s|]; naive_solver. Qed.

Lemma raw_ok_in_range t : raw_ok t <-> in_range t.
Proof.
  assert (forall f : option string, f <> Some ""%string <-> forall v, f = Some v -> v <> ""%string) as HS by (intros []; naive_solver).
  unfold in_range. cbv zeta. rewrite <- !HS.
  rewrite <- (int_ok_given (fun v => (v <? 0) || (65535 <? v)) (rPort t)) by (intros; lia).
  rewrite <- (int_ok_given (fun v => v <? 0) (rHttpStatus t)) by (intros; lia).
  rewrite <- (int_ok_given (fun v => v <=? 0) (rNumRecords t)) by (intros; lia).
  rewrite <- (int_ok_given (fun v => (v =? 0) || (v <? -1)) (rNumSegments t)) by (intros; lia).
  rewrite <- (int_ok_given (fun v => (v <? 0) || (255 <? v)) (rFakeTTL t)) by (intros; lia).
  rewrite <- (int_ok_given (fun v => v <? 1) (rAttempts t)) by (intros; lia).
  rewrite <- (int_ok_given (fun v => (v <=? 1) || (255 <? v)) (rMaxTTL t)) by (intros; lia).
  rewrite <- (dur_ok_lasts (fun d => d <=? 0) (rConnectTimeout t)) by (intros; lia).
  rewrite <- (dur_ok_lasts (fun d => d <? 0) (rSendInterval t)) by (intros; lia).
  rewrite <- (dur_ok_lasts (fun d => d <=? 0) (rFakeSleep t)) by (intros; lia).
  rewrite <- (dur_ok_lasts (fun d => d <=? 0) (rSingleTimeout t)) by (intros; lia).
  split; [intros []; by split_and!|intros H; split; apply H].
Qed.

(** C13: what Policy.UnmarshalJSON accepts.  A decoded policy is accepted exactly when every
    field it gives is in the range the code checks: host and map_to not empty, port at most
    65535, http_status not negative, num_records positive, num_segs -1 or positive, fake_ttl
    at most 255, attempts at least 1 (1 is accepted, although the message for 0 asks for
    more than 1), max_ttl from 2 to 255, and durations that parse and are positive, or not
    negative for send_interval.  It never panics.  The policy it returns into a zero policy
    holds the given values, and for the others -1 (port, http_status, fake_ttl and the
    times but fake_sleep) or 0. *)
Theorem UnmarshalJSON_correct t :
  (in_range t <-> exists p, UnmarshalJSON zeroPolicy t = Ret p) /\
  UnmarshalJSON zeroPolicy t <> Panic /\
  (rHost t = None -> rMapTo t = None -> rPort t = None -> rHttpStatus t = None -> rNumRecords t = None ->
   rNumSegments t = None -> rFakeTTL t = None -> rAttempts t = Some 0 ->
   UnmarshalJSON zeroPolicy t = Err "attempts 0: must be greater than 1") /\
  forall p, UnmarshalJSON zeroPolicy t = Ret p ->
    Host p = rHost t /\ MapTo p = rMapTo t /\ Port p = default (-1) (rPort t) /\ HttpStatus p = default (-1) (rHttpStatus t) /\
    NumRecords p = default 0 (rNumRecords t) /\ NumSegments p = default 0 (rNumSegments t) /\
    FakeTTL p = default (-1) (rFakeTTL t) /\ Attempts p = default 0 (rAttempts t) /\ MaxTTL p = default 0 (rMaxTTL t) /\
    ConnectTimeout p = default (-1) (rConnectTimeout t ≫= ParseDuration) /\
    SendInterval p = default (-1) (rSendInterval t ≫= ParseDuration) /\
    FakeSleep p = default 0 (rFakeSleep t ≫= ParseDuration) /\
    SingleTimeout p = default (-1) (rSingleTimeout t ≫= ParseDuration) /\
    ReplyFirst p = rReplyFirst t /\ pDNSMode p = rDNSMode t /\ TLS13Only p = rTLS13Only t /\ pMode p = rMode t /\
    OOB p = rOOB t /\ OOBEx p = rOOBEx t /\ ModMinorVer p = rModMinorVer t.
Proof.
  split_and!.
  - rewrite <- raw_ok_in_range. split; [intros H; eexists; by apply UnmarshalJSON_accepts|].
    intros [p H]. by apply UnmarshalJSON_Ret in H as [? _].
  - apply UnmarshalJSON_no_panic.
  - intros E1 E2 E3 E4 E5 E6 E7 E8. unfold UnmarshalJSON. by rewrite E1, E2, E3, E4, E5, E6, E7, E8.
  - intros p [_ ->]%UnmarshalJSON_Ret. by split_and!.
Qed.

Definition w_raw : rawPolicy :=
  mkRaw BoolUnset (Some "1.5s"%string) (Some "self"%string) None None DNSModeUnknown None BoolUnset ModeTTLD
    (Some 2) (Some (-1)) BoolUnset BoolUnset BoolUnset None (Some 7) (Some "100ms"%string) None None None.

Lemma UnmarshalJSON_correct_witness :
  exists p, UnmarshalJSON zeroPolicy w_raw = Ret p /\
    ConnectTimeout p = 1500000000 /\ Port p = -1 /\ NumSegments p = -1 /\ NumRecords p = 2.
Proof.
  destruct (UnmarshalJSON_correct w_raw) as ([H _] & _ & _ & HR). destruct H as [p Hp].
  - unfold in_range. cbv zeta. split_and!; intros v Hv; vm_compute in Hv; try discriminate Hv; injection Hv as <-;
      first [discriminate|lia|eexists; split; [vm_compute; reflexivity|reflexivity]].
  - destruct (HR p Hp) as (_ & _ & E1 & _ & E2 & E3 & _ & _ & _ & E4 & _).
    exists p. rewrite E1, E2, E3, E4. split; [exact Hp|]. repeat split; vm_compute; reflexivity.
Defined.

(** ** Merging *)

(** The first value of a list that is set. *)
Fixpoint first_set {A} `{EqDecision A} (unset : A) (l : list A) : A :=
  match l with
  | [] => unset
  | x :: l => if decide (x = unset) then first_set unset l else x
  end.

Lemma fold_take_first {A} `{EqDecision A} (unset : A) l : forall m,
  fold_left (take_first unset) l m = if decide (m = unset) then first_set unset l else m.
Proof.
  induction l as [|x l IH]; intros m; simpl; [by case_decide|]. rewrite IH. unfold take_first.
  repeat case_decide; congruence.
Qed.

(** A field of the fold is the fold of that field. *)
Lemma fold_field {A} `{EqDecision A} (f : Policy -> A) (unset : A) l :
  (forall m p, f (merge_step m p) = take_first unset (f m) (f p)) ->
  forall m, f m = unset -> f (fold_left merge_step l m) = first_set unset (f <$> l).
Proof.
  intros Hf m Hm.
  assert (forall m, f (fold_left merge_step l m) = fold_left (take_first unset) (f <$> l) (f m)) as H.
  { clear m Hm. induction l as [|p l IH]; intros m; simpl; [done|]. by rewrite IH, Hf. }
  rewrite H, fold_take_first. by rewrite decide_True.
Qed.

(** C14: mergePolicies takes each field from the first policy that sets it, in the
    order of its arguments, with these markers for unset: the zero value for the
    three-valued flags, the modes, port, num_records, num_segs, fake_sleep, max_ttl
    and attempts, nil for host and map_to, -1 for http_status and the remaining
    durations and fake_ttl; a mode or dns_mode nobody sets becomes its default, so
    merged policies never have an unknown mode. *)
Theorem mergePolicies_correct l :
  let m := mergePolicies l in
  (ReplyFirst m = first_set BoolUnset (ReplyFirst <$> l) /\
   TLS13Only m = first_set BoolUnset (TLS13Only <$> l) /\
   OOB m = first_set BoolUnset (OOB <$> l) /\ OOBEx m = first_set BoolUnset (OOBEx <$> l) /\
   ModMinorVer m = first_set BoolUnset (ModMinorVer <$> l)) /\
  (Host m = first_set None (Host <$> l) /\ MapTo m = first_set None (MapTo <$> l)) /\
  (Port m = first_set 0 (Port <$> l) /\ NumRecords m = first_set 0 (NumRecords <$> l) /\
   NumSegments m = first_set 0 (NumSegments <$> l) /\ FakeSleep m = first_set 0 (FakeSleep <$> l) /\
   MaxTTL m = first_set 0 (MaxTTL <$> l) /\ Attempts m = first_set 0 (Attempts <$> l)) /\
  (ConnectTimeout m = first_set unsetInt (ConnectTimeout <$> l) /\
   HttpStatus m = first_set unsetInt (HttpStatus <$> l) /\
   SendInterval m = first_set unsetInt (SendInterval <$> l) /\
   FakeTTL m = first_set unsetInt (FakeTTL <$> l) /\
   SingleTimeout m = first_set unsetInt (SingleTimeout <$> l)) /\
  (pMode m = first_set ModeUnknown ((pMode <$> l) ++ [ModeDefault]) /\ pMode m <> ModeUnknown) /\
  (pDNSMode m = first_set DNSModeUnknown ((pDNSMode <$> l) ++ [DNSModeDefault]) /\
   pDNSMode m <> DNSModeUnknown).
Proof.
  unfold mergePolicies, applyPolicyDefaults.
  cbn [ReplyFirst TLS13Only OOB OOBEx ModMinorVer Host MapTo Port NumRecords NumSegments FakeSleep MaxTTL
       Attempts ConnectTimeout HttpStatus SendInterval FakeTTL SingleTimeout pMode pDNSMode].
  assert (forall {A} `{EqDecision A} (u d : A) (k : list A), d <> u ->
    (if decide (first_set u k = u) then d else first_set u k) = first_set u (k ++ [d]) /\
    (if decide (first_set u k = u) then d else first_set u k) <> u) as Hd.
  { intros A EA u d k Hne. induction k as [|x k IH]; simpl.
    - rewrite decide_True by done. by rewrite decide_False.
    - destruct (decide (x = u)); [apply IH|]. by rewrite decide_False. }
  rewrite (fold_field pMode ModeUnknown), (fold_field pDNSMode DNSModeUnknown) by done.
  split_and!; try (by apply fold_field); by apply Hd.
Qed.

(** What the markers cost.  A policy read from JSON without a port carries -1, but
    mergePolicies takes port as unset only at 0: such a policy hides the port of every
    later policy.  And the fallback policies for domains without a rule are literals
    whose other fields are 0, but the unset marker of connect_timeout, http_status,
    send_interval, fake_ttl and single_timeout is -1: they hide those settings of the
    default policy, which becomes 0. *)
Theorem merge_hides_defaults tmp p d mode :
  UnmarshalJSON zeroPolicy tmp = Ret p -> rPort tmp = None ->
  Port (mergePolicies [p; d]) = unsetInt /\
  let m := mergePolicies [with_mode mode; d] in
  ConnectTimeout m = 0 /\ HttpStatus m = 0 /\ SendInterval m = 0 /\ FakeTTL m = 0 /\ SingleTimeout m = 0.
Proof.
  intros [_ ->]%UnmarshalJSON_Ret Hp. split; [|done].
  unfold mergePolicies, applyPolicyDefaults. simpl. by rewrite Hp.
Qed.

Lemma merge_hides_defaults_witness :
  let d := mkPolicy BoolUnset DNSModeUnknown 5000 None None 8443 204 BoolUnset ModeUnknown 0 0
             BoolUnset BoolUnset BoolUnset 7 3 0 0 0 9 in
  exists p, UnmarshalJSON zeroPolicy w_raw = Ret p /\
  Port (mergePolicies [p; d]) = unsetInt /\
  ConnectTimeout (mergePolicies [plainFallbackPolicy; d]) = 0.
Proof.
  intros d. destruct (merge_hides_defaults w_raw (accepted zeroPolicy w_raw) d ModeRaw) as [H1 H2].
  - vm_compute. reflexivity.
  - reflexivity.
  - exists (accepted zeroPolicy w_raw). split; [vm_compute; reflexivity|]. split; [exact H1|apply H2].
Defined.

(** Mode names read back. *)
Lemma Mode_roundtrip m : m <> ModeUnknown -> Mode_UnmarshalJSON (Mode_String m) = Ret m.
Proof. by destruct m. Qed.
Lemma DNSMode_roundtrip m : m <> DNSModeUnknown -> DNSMode_UnmarshalJSON (DNSMode_String m) = Ret m.
Proof. by destruct m. Qed.

End Policy.
