(* ===== verification/Route.v ===== *)
(** * Routing rules (src/internal/config.go, gfwlist.go, policy.go)

    The tables LoadConfig builds from the rule maps, and the classification of a
    domain by them.  Go ranges over the rule maps in an unspecified order, which is
    a parameter; the order matters only where two rules name the same pattern. *)

From S2P Require Import Prelude GoStrings NetIP FakeIP Patterns AddrTrie Policy.

Module Route.
Import FakeIP Patterns AddrTrie Policy.

(** The patterns of one key: [strings.SplitSeq(patterns, ";")], each expanded. *)
Definition key_patterns (key : string) : list string :=
  elem ← Split key ";"; default [] (expandPattern elem).

Section build.
Context {ord : RangeOrder}.

(** The patterns with their policies, in the order the loops visit them. *)
Definition rule_list (policies : gmap string Policy) : list (string * Policy) :=
  key ← range_keys policies;
  match policies !! key with
  | Some policy => (fun pattern => (pattern, policy)) <$> key_patterns key
  | None => []
  end.

(** config.go: buildDomainMatcher; the errors of Add are dropped. *)
Definition buildDomainMatcher (policies : gmap string Policy) : labelNode Policy :=
  fold_left (fun matcher r => snd (Add matcher (fst r) (snd r))) (rule_list policies) NewDomainMatcher.

(** config.go: buildIPMatchers. *)
Definition buildIPMatchers (policies : gmap string Policy) : bitNode Policy * bitNode Policy :=
  fold_left (fun ts r =>
    let '(ipv4, ipv6) := ts in
    if isIPv6 (fst r) then (ipv4, snd (IPv6Insert ipv6 (fst r) (snd r)))
    else (snd (IPv4Insert ipv4 (fst r) (snd r)), ipv6)) (rule_list policies) (NewTrie, NewTrie).
End build.

(** What LoadConfig leaves in package variables.  The domain matchers are nil before
    the first LoadConfig, and the code checks for that. *)
Record rules := mkRules {
  domainMatcher : option (labelNode Policy);
  ipMatcher : bitNode Policy;
  ipv6Matcher : bitNode Policy;
  gfwDomainMatcher : option (labelNode unit);
  gfwBypassMatcher : option (labelNode unit)
}.

(** config.go: getIPPolicy. *)
Definition getIPPolicy (r : rules) (ip : string) : option Policy :=
  if isIPv6 ip then IPv6Find (ipv6Matcher r) ip else IPv4Find (ipMatcher r) ip.

(** gfwlist.go: isGFWDomain. *)
Definition isGFWDomain (r : rules) (domain : string) : bool :=
  match gfwDomainMatcher r with
  | None => false
  | Some gfw =>
    if decide (domain = "")%string then false
    else
      let domain := ToLower domain in
      let bypass := match gfwBypassMatcher r with
                    | Some b => bool_decide (is_Some (Find b domain))
                    | None => false
                    end in
      if bypass then false else bool_decide (is_Some (Find gfw domain))
  end.

(** policy.go: [type domainRouteClass]. *)
Inductive domainRouteClass := domainRoutePlain | domainRouteRule | domainRouteGFW.
#[global] Instance domainRouteClass_eq_dec : EqDecision domainRouteClass.
Proof. solve_decision. Defined.

(** policy.go: classifyDomainRoute. *)
Definition classifyDomainRoute (r : rules) (domain : string) : domainRouteClass :=
  let domain := ToLower domain in
  if decide (domain = "")%string then domainRoutePlain
  else
    let found := match domainMatcher r with
                 | Some m => bool_decide (is_Some (Find m domain))
                 | None => false
                 end in
    if found then domainRouteRule
    else if isGFWDomain r domain then domainRouteGFW
    else domainRoutePlain.

(** policy.go: shouldUseFakeIP. *)
Definition shouldUseFakeIP (r : rules) (domain : string) : bool :=
  match classifyDomainRoute r domain with
  | domainRouteRule | domainRouteGFW => true
  | domainRoutePlain => false
  end.

(** ** The tables as rule lists *)

Definition family (v6 : bool) (rules : list (string * Policy)) : list (string * Policy) :=
  filter (fun r => isIPv6 (fst r) = v6) rules.

Lemma buildIPMatchers_eq {ord : RangeOrder} policies :
  buildIPMatchers policies =
  (build_trie 32 parseIPv4OrCIDR (family false (rule_list policies)),
   build_trie 128 parseIPv6OrCIDR (family true (rule_list policies))).
Proof.
  unfold buildIPMatchers, build_trie, family. induction (rule_list policies) as [|r l IH] using rev_ind; [done|].
  rewrite fold_left_app, IH, !filter_app, !fold_left_app.
  rewrite !filter_cons, !filter_nil. simpl. destruct (isIPv6 (fst r)) eqn:E.
  - by rewrite decide_False, decide_True.
  - by rewrite decide_True, decide_False.
Qed.

Lemma elem_of_rule_list {ord : RangeOrder} policies pat p :
  (pat, p) ∈ rule_list policies <-> exists k, policies !! k = Some p /\ pat ∈ key_patterns k.
Proof.
  unfold rule_list. rewrite list_elem_of_bind. split.
  - intros (k & H & Hk). destruct (policies !! k) as [q|] eqn:E; [|by apply not_elem_of_nil in H].
    apply list_elem_of_fmap in H as (x & [= <- <-] & Hx). eauto.
  - intros (k & Hk & Hp). exists k. rewrite Hk. split.
    + apply list_elem_of_fmap. eauto.
    + apply range_keys_dom. eauto.
Qed.

(** Two rules with the same target carry the same value. *)
Definition agree (clash : string -> string -> Prop) (l : list (string * Policy)) : Prop :=
  forall r s, r ∈ l -> s ∈ l -> clash (fst r) (fst s) -> snd r = snd s.

Definition domain_clash (p q : string) : Prop :=
  (is_Some (rule_exact p) /\ rule_exact p = rule_exact q) \/
  (is_Some (rule_wild p) /\ rule_wild p = rule_wild q).

Definition net_clash (w : Z) (parse : string -> go (Z * Z)) (p q : string) : Prop :=
  match rule_prefix parse p, rule_prefix parse q with
  | Some (a, len), Some (b, len') => len = len' /\ same_prefix w len a b = true
  | _, _ => False
  end.
Definition ip_clash (p q : string) : Prop :=
  isIPv6 p = isIPv6 q /\ (net_clash 32 parseIPv4OrCIDR p q \/ net_clash 128 parseIPv6OrCIDR p q).

Lemma last_rule_iff f (l : list (string * Policy)) ls v : (forall r s, r ∈ l -> s ∈ l -> f (fst r) = Some ls -> f (fst s) = Some ls ->
    snd r = snd s) ->
  last_rule (T := Policy) f l ls = Some v <-> exists r, r ∈ l /\ f (fst r) = Some ls /\ snd r = v.
Proof.
  unfold last_rule. induction l as [|r l IH] using rev_ind; intros H.
  { split; [done|]. by intros (? & ?%not_elem_of_nil & _). }
  rewrite fold_left_app. simpl. destruct (decide (f (fst r) = Some ls)) as [E|E].
  - rewrite bool_decide_eq_true_2 by done. split.
    + intros [= <-]. exists r. set_solver.
    + intros (s & Hs & Es & <-). f_equal. apply H; set_solver.
  - rewrite bool_decide_eq_false_2 by done. rewrite IH by (intros; apply H; set_solver).
    split; intros (s & Hs & Es & <-); exists s; [set_solver|].
    apply elem_of_app in Hs as [Hs|Hs%list_elem_of_singleton]; [done|]. by subst.
Qed.

Lemma last_rule_same f (l k : list (string * Policy)) : (forall r, r ∈ l <-> r ∈ k) ->
  (forall ls r s, r ∈ l -> s ∈ l -> f (fst r) = Some ls -> f (fst s) = Some ls -> snd r = snd s) ->
  forall ls, last_rule f l ls = last_rule f k ls.
Proof.
  intros Hm H ls. apply option_eq. intros v. rewrite !last_rule_iff; [naive_solver| |apply H].
  intros r s ?%Hm ?%Hm. by apply H.
Qed.

Lemma route_same (l k : list (string * Policy)) d : (forall r, r ∈ l <-> r ∈ k) -> agree domain_clash l -> route l d = route k d.
Proof.
  intros Hm H. unfold route.
  assert (forall ls, last_rule rule_exact l ls = last_rule rule_exact k ls) as ->.
  { apply last_rule_same; [done|]. intros ls r s Hr Hs Er Es. apply H; try done. left. by rewrite Er, Es. }
  assert (forall ls, last_rule rule_wild l ls = last_rule rule_wild k ls) as E.
  { apply last_rule_same; [done|]. intros ls r s Hr Hs Er Es. apply H; try done. right. by rewrite Er, Es. }
  by rewrite E, (longest_wild_ext _ _ _ E).
Qed.


(** A rule of [l] that contains [x], with the length of its prefix. *)
Definition covers (w : Z) (parse : string -> go (Z * Z)) (l : list (string * Policy)) (x len : Z)
    (v : Policy) : Prop :=
  exists s a, (s, v) ∈ l /\ rule_prefix parse s = Some (a, len) /\ same_prefix w len x a = true.

(** [best] picks a rule of maximal length among those that contain the address. *)
Lemma best_covers w parse l x :
  match best w parse l x with
  | Some (len, v) => covers w parse l x len v /\ forall len' v', covers w parse l x len' v' -> len' <= len
  | None => forall len v, ~ covers w parse l x len v
  end.
Proof.
  unfold best. induction l as [|[s v] l IH] using rev_ind.
  { by intros len v (? & ? & ?%not_elem_of_nil & _). }
  assert (forall len v', covers w parse (l ++ [(s, v)]) x len v' <->
    covers w parse l x len v' \/ v' = v /\ exists a, rule_prefix parse s = Some (a, len) /\
      same_prefix w len x a = true) as Hc.
  { intros len v'. unfold covers. split.
    - intros (s' & a & [H|[= -> ->]%list_elem_of_singleton]%elem_of_app & ?); [left|right]; eauto.
    - intros [(s' & a & H & ?)|(-> & a & ?)].
      + exists s', a. split; [set_solver|done].
      + exists s, a. split; [set_solver|done]. }
  rewrite fold_left_app. cbn [fold_left fst snd].
  destruct (rule_prefix parse s) as [[a len]|].
  2:{ destruct (fold_left _ l None) as [[]|]; setoid_rewrite Hc; naive_solver. }
  destruct (same_prefix w len x a) eqn:Ep; cbn [andb];
    destruct (fold_left _ l None) as [[len0 v0]|]; zcase; try setoid_rewrite Hc; clear Hc; try naive_solver lia.
  - destruct IH as [_ IH]. split; [right; split; [done|by exists a]|]. intros len' v' [C%IH|(-> & b & [= <- <-] & _)]; lia.
  - destruct IH as [C0 IH]. split; [by left|]. intros len' v' [C%IH|(-> & b & [= <- <-] & ?)]; [lia|congruence].
  - intros len' v' [C%IH|(-> & b & [= <- <-] & ?)]; congruence.
Qed.

Lemma best_same w parse l k x : (forall r, r ∈ l <-> r ∈ k) -> agree (net_clash w parse) l ->
  snd <$> best w parse l x = snd <$> best w parse k x.
Proof.
  intros Hm Ha. pose proof (best_covers w parse l x) as Hl. pose proof (best_covers w parse k x) as Hk.
  assert (forall len v, covers w parse l x len v <-> covers w parse k x len v) as Hc.
  { intros len v. unfold covers. by setoid_rewrite Hm. }
  destruct (best w parse l x) as [[n v]|], (best w parse k x) as [[m u]|].
  2:{ destruct Hl as [Cl _]. by apply Hc, Hk in Cl. }
  2:{ destruct Hk as [Ck _]. by apply Hc, Hl in Ck. }
  2:{ done. }
  destruct Hl as [Cl Ml], Hk as [Ck Mk]. simpl. f_equal.
  assert (n = m) as -> by (apply Z.le_antisymm; [eapply Mk|eapply Ml]; by apply Hc).
  apply Hc in Ck. destruct Cl as (s & a & Hs & Es & Ps), Ck as (t & b & Ht & Et & Pt).
  apply (Ha (s, v) (t, u) Hs Ht). unfold net_clash. cbn [fst]. rewrite Es, Et. split; [done|].
  unfold same_prefix in *. apply Z.eqb_eq in Ps, Pt. apply Z.eqb_eq. congruence.
Qed.

Lemma agree_impl (P Q : string -> string -> Prop) l k : (forall r, r ∈ k -> r ∈ l) ->
  (forall r s, r ∈ k -> s ∈ k -> Q (fst r) (fst s) -> P (fst r) (fst s)) -> agree P l -> agree Q k.
Proof. intros Hm HQ H r s Hr Hs Hc. apply H; auto. Qed.

Lemma getIPPolicy_build {ord : RangeOrder} policies r ip :
  (ipMatcher r, ipv6Matcher r) = buildIPMatchers policies ->
  getIPPolicy r ip =
  let rules := family (isIPv6 ip) (rule_list policies) in
  match isIPv6 ip, Unmap <$> ParseAddr ip with
  | true, Some (Addr6 x _) => snd <$> best 128 parseIPv6OrCIDR rules x
  | false, Some (Addr4 x) => snd <$> best 32 parseIPv4OrCIDR rules x
  | _, _ => None
  end.
Proof.
  rewrite buildIPMatchers_eq. intros [= E4 E6]. unfold getIPPolicy. rewrite E4, E6. cbv zeta.
  destruct (isIPv6 ip); [rewrite (proj2 (IPFind_build _ _))|rewrite (proj1 (IPFind_build _ _))];
    by destruct (Unmap <$> ParseAddr ip) as [[]|].
Qed.


(** No two keys name the same pattern for different policies. *)
Definition unambiguous (clash : string -> string -> Prop) (policies : gmap string Policy) : Prop :=
  forall k1 k2 p1 p2 s t, policies !! k1 = Some p1 -> policies !! k2 = Some p2 ->
    s ∈ key_patterns k1 -> t ∈ key_patterns k2 -> clash s t -> p1 = p2.

Lemma unambiguous_agree {ord : RangeOrder} clash policies :
  unambiguous clash policies -> agree clash (rule_list policies).
Proof.
  intros H [s p] [t q] (k1 & ? & ?)%elem_of_rule_list (k2 & ? & ?)%elem_of_rule_list. by apply (H k1 k2).
Qed.

Lemma family_same (o1 o2 : RangeOrder) policies b r :
  r ∈ family b (@rule_list o1 policies) <-> r ∈ family b (@rule_list o2 policies).
Proof.
  unfold family. rewrite !list_elem_of_filter. destruct r as [s p]. by rewrite !elem_of_rule_list.
Qed.

Lemma family_agree w parse b l :
  agree ip_clash l -> (net_clash w parse = net_clash 32 parseIPv4OrCIDR \/
    net_clash w parse = net_clash 128 parseIPv6OrCIDR) -> agree (net_clash w parse) (family b l).
Proof.
  intros H E. apply (agree_impl ip_clash _ l); [by intros r [? ?]%list_elem_of_filter| |done].
  intros r s [Er _]%list_elem_of_filter [Es _]%list_elem_of_filter Hc. split; [congruence|].
  destruct E as [<-|<-]; auto.
Qed.

(** The tables do not depend on the order Go ranges over the rule maps, unless
    two keys give one pattern different policies.  In every order Find answers what
    the flattened rule list means; and if no pattern is claimed by two different
    policies, the domain matcher and the address matchers built in any two orders
    answer every query alike. *)
Theorem tables_order_independent (o1 o2 : RangeOrder) policies :
  (forall d, Find (@buildDomainMatcher o1 policies) d = route (@rule_list o1 policies) d) /\
  (unambiguous domain_clash policies ->
   forall d, Find (@buildDomainMatcher o1 policies) d = Find (@buildDomainMatcher o2 policies) d) /\
  (unambiguous ip_clash policies ->
   forall r1 r2 ip, (ipMatcher r1, ipv6Matcher r1) = @buildIPMatchers o1 policies ->
     (ipMatcher r2, ipv6Matcher r2) = @buildIPMatchers o2 policies ->
     getIPPolicy r1 ip = getIPPolicy r2 ip).
Proof.
  split; [intros d; apply Find_build|]. split.
  - intros H d. unfold buildDomainMatcher. etrans; [apply Find_build|]. symmetry. etrans; [apply Find_build|].
    symmetry. apply route_same; [|by apply unambiguous_agree].
    intros [s p]. by rewrite !elem_of_rule_list.
  - intros H r1 r2 ip E1 E2.
    rewrite (getIPPolicy_build _ _ _ E1), (getIPPolicy_build _ _ _ E2). cbv zeta.
    pose proof (@unambiguous_agree o1 _ _ H) as A.
    destruct (isIPv6 ip), (Unmap <$> ParseAddr ip) as [[x|x z]|]; try done;
      (apply best_same; [apply family_same|apply family_agree; auto]).
Qed.

(** *** Witnesses *)

(** The keys from the last to the first. *)
Definition reverse_order : RangeOrder.
Proof.
  refine {| range_keys := fun A m => reverse (map_to_list m).*1 |}.
  - intros A m k. rewrite elem_of_reverse. apply (range_keys_dom (RangeOrder := sorted_order)).
  - intros A m. rewrite reverse_Permutation. apply (range_keys_NoDup (RangeOrder := sorted_order)).
Defined.

Definition w_domains : gmap string Policy :=
  {["*.(a|b).com;x.org" := with_mode ModeBlock; "*" := with_mode ModeRaw]}.
Definition w_nets : gmap string Policy :=
  {["10.0.0.0/(8|9)" := with_mode ModeBlock; "10.0.0.0/10;fd00::/8" := with_mode ModeRaw]}.

#[global] Instance domain_clash_dec : RelDecision domain_clash.
Proof. unfold domain_clash. intros s t. apply _. Defined.
#[global] Instance net_clash_dec w parse : RelDecision (net_clash w parse).
Proof.
  unfold net_clash. intros s t.
  destruct (rule_prefix parse s) as [[]|], (rule_prefix parse t) as [[]|]; apply _.
Defined.
#[global] Instance ip_clash_dec : RelDecision ip_clash.
Proof. unfold ip_clash. intros s t. apply _. Defined.

(** Of two keys only: the patterns of one against the patterns of the other. *)
Definition disjoint_keys (clash : string -> string -> Prop) `{!RelDecision clash} (k1 k2 : string) : bool :=
  forallb (fun s => forallb (fun t => negb (bool_decide (clash s t))) (key_patterns k2)) (key_patterns k1).

Lemma unambiguous_two clash `{!RelDecision clash} k1 k2 p1 p2 : (forall s t, clash s t -> clash t s) ->
  disjoint_keys clash k1 k2 = true -> unambiguous clash {[k1 := p1; k2 := p2]}.
Proof.
  intros Hsym H.
  assert (forall s t, s ∈ key_patterns k1 -> t ∈ key_patterns k2 -> ~ clash s t) as Hn.
  { intros s t Hs Ht. unfold disjoint_keys in H. rewrite forallb_forall in H. apply list_elem_of_In in Hs, Ht.
    specialize (H s Hs). rewrite forallb_forall in H. specialize (H t Ht).
    by apply negb_true_iff, bool_decide_eq_false in H. }
  intros a b p q s t Ha Hb Hs Ht Hc.
  apply lookup_insert_Some in Ha as [[<- <-]|[_ [<- <-]%lookup_singleton_Some]],
    Hb as [[<- <-]|[_ [<- <-]%lookup_singleton_Some]]; try done; naive_solver.
Qed.

Definition w_rules (o : RangeOrder) : rules :=
  mkRules (Some (@buildDomainMatcher o w_domains)) (fst (@buildIPMatchers o w_nets))
    (snd (@buildIPMatchers o w_nets)) None None.

Lemma net_clash_sym w parse s t : net_clash w parse s t -> net_clash w parse t s.
Proof.
  unfold net_clash. destruct (rule_prefix parse s) as [[]|], (rule_prefix parse t) as [[]|]; try done.
  intros [-> H]. split; [done|]. unfold same_prefix in *. by rewrite Z.eqb_sym.
Qed.

Lemma domain_clash_sym s t : domain_clash s t -> domain_clash t s.
Proof. intros [[[x Hx] ?]|[[x Hx] ?]]; [left|right]; (split; [exists x|]; congruence). Qed.

Lemma ip_clash_sym s t : ip_clash s t -> ip_clash t s.
Proof. intros (E & [H|H]); (split; [done|]); [left|right]; by apply net_clash_sym. Qed.

Lemma tables_order_independent_witness :
  @rule_list sorted_order w_domains <> @rule_list reverse_order w_domains /\
  Find (@buildDomainMatcher sorted_order w_domains) "q.a.com" = Some (with_mode ModeBlock) /\
  Find (@buildDomainMatcher reverse_order w_domains) "q.a.com" = Some (with_mode ModeBlock) /\
  getIPPolicy (w_rules sorted_order) "10.1.2.3" = Some (with_mode ModeRaw) /\
  getIPPolicy (w_rules reverse_order) "10.1.2.3" = Some (with_mode ModeRaw).
Proof.
  destruct (tables_order_independent sorted_order reverse_order w_domains) as (_ & HD & _).
  destruct (tables_order_independent sorted_order reverse_order w_nets) as (_ & _ & HI).
  split; [vm_compute; discriminate|]. split; [vm_compute; reflexivity|]. split.
  - rewrite <- HD; [vm_compute; reflexivity|].
    apply (unambiguous_two _); [apply domain_clash_sym|vm_compute; reflexivity].
  - split; [vm_compute; reflexivity|].
    rewrite <- HI with (r1 := w_rules sorted_order);
      [vm_compute; reflexivity| |apply eq_sym, surjective_pairing..].
    apply (unambiguous_two _); [apply ip_clash_sym|vm_compute; reflexivity].
Defined.

End Route.
