(* ===== verification/Gfw.v ===== *)
(** * The built-in list of blocked domains (src/internal/gfwlist.go)

    The embedded text is base64 of filter rules, one per line.  A rule becomes the pattern
    of its host, and the patterns fill the two matchers the routing rules ask.  Text is
    taken as ASCII; the host of a URL is a parameter. *)

From stdpp Require Import sorting.
From S2P Require Import Prelude GoStrings NetIP GoNet FakeIP Patterns AddrTrie Policy Route.

Module Gfw.
Import AddrTrie Route.

(** ** Text *)

(** [strings.TrimLeft], [strings.TrimRight] and [strings.Trim] with a cutset. *)
Fixpoint trim_left (f : Ascii.ascii -> bool) (s : string) : string :=
  match s with
  | String c s' => if f c then trim_left f s' else s
  | EmptyString => EmptyString
  end.
Fixpoint trim_right (f : Ascii.ascii -> bool) (s : string) : string :=
  match s with
  | String c s' =>
    match trim_right f s' with
    | EmptyString => if f c then EmptyString else String c EmptyString
    | t => String c t
    end
  | EmptyString => EmptyString
  end.
Definition trim (f : Ascii.ascii -> bool) (s : string) : string := trim_right f (trim_left f s).
Definition in_set (cutset : list Ascii.ascii) (c : Ascii.ascii) : bool := bool_decide (c ∈ cutset).

(** [strings.Map] that drops white space. *)
Fixpoint drop_spaces (s : string) : string :=
  match s with
  | String c s => if is_space c then drop_spaces s else String c (drop_spaces s)
  | EmptyString => EmptyString
  end.

(** [s[:strings.IndexAny(s, set)]], or [s]. *)
Fixpoint before_any (set : list Ascii.ascii) (s : string) : string :=
  match s with
  | String c s => if in_set set c then EmptyString else String c (before_any set s)
  | EmptyString => EmptyString
  end.

(** [base64.StdEncoding.DecodeString] on text without line breaks; the offset in the error
    is left out. *)
Definition b64val (c : Z) : option Z :=
  if (65 <=? c) && (c <=? 90) then Some (c - 65)
  else if (97 <=? c) && (c <=? 122) then Some (c - 71)
  else if (48 <=? c) && (c <=? 57) then Some (c + 4)
  else if c =? 43 then Some 62
  else if c =? 47 then Some 63
  else None.
Definition quantum (a b c d : Z) : bytes :=
  let v := ((a * 64 + b) * 64 + c) * 64 + d in [v / 65536; v / 256 mod 256; v mod 256].
Fixpoint b64decode (s : bytes) : option bytes :=
  match s with
  | [] => Some []
  | [a; b; 61; 61] => a ← b64val a; b ← b64val b; Some (take 1 (quantum a b 0 0))
  | [a; b; c; 61] => a ← b64val a; b ← b64val b; c ← b64val c; Some (take 2 (quantum a b c 0))
  | a :: b :: c :: d :: s =>
    a ← b64val a; b ← b64val b; c ← b64val c; d ← b64val d; r ← b64decode s; Some (quantum a b c d ++ r)
  | _ => None
  end.
Definition DecodeString (s : string) : go string :=
  match b64decode (bytes_of_string s) with
  | Some b => Ret (string_of_bytes b)
  | None => Err "illegal base64 data"
  end.

(** ** The host pattern [gfwHostRegexp]

    Labels of letters, digits and inner dashes, at most 63 characters each, at least two of
    them, separated by dots.  A label followed by a dot is the whole run up to it, so the
    greedy choice never has to be undone. *)
Definition alnum (c : Ascii.ascii) : bool :=
  let b := char_byte c in ((48 <=? b) && (b <=? 57)) || ((97 <=? b) && (b <=? 122)).
Definition is_dash (c : Ascii.ascii) : bool := Ascii.eqb c "-".

Fixpoint label_run (n : nat) (s : string) : string :=
  match n, s with
  | S n, String c s => if alnum c || is_dash c then String c (label_run n s) else EmptyString
  | _, _ => EmptyString
  end.

(** The longest label at the start of [s], and what follows it. *)
Definition match_label (s : string) : option (string * string) :=
  match s with
  | String c _ =>
    if alnum c then
      let l := trim_right is_dash (label_run 63 s) in Some (l, sdrop (String.length l) s)
    else None
  | EmptyString => None
  end.

(** The labels after the first one, each with its dot. *)
Fixpoint match_groups (fuel : nat) (s : string) : list string :=
  match fuel, s with
  | S fuel, String "." s =>
    match match_label s with
    | Some (l, rest) => l :: match_groups fuel rest
    | None => []
    end
  | _, _ => []
  end.

Definition match_here (s : string) : option (list string) :=
  '(l, rest) ← match_label s;
  match match_groups (String.length rest) rest with
  | [] => None
  | ls => Some (l :: ls)
  end.

(** FindString: the match at the first position that has one, empty if none has. *)
Fixpoint FindString (s : string) : string :=
  match match_here s with
  | Some ls => Join ls "."
  | None => match s with String _ s => FindString s | EmptyString => EmptyString end
  end.

(** ** Rules *)

Section rules.
(** [u.Host] of [url.Parse(rule)], [None] for an error. *)
Context (urlHost : string -> option string).

Definition extractGFWListHost (rule : string) : option string :=
  let rule := TrimSpace rule in
  if decide (rule = "")%string then None
  else
    let rule := before_any ["^"; "$"]%char rule in
    let rule := trim_left (in_set ["|"; "."]%char) rule in
    if decide (rule = "")%string then None
    else
      let rule := if Contains rule "://" then
                    match urlHost rule with
                    | Some EmptyString | None => rule
                    | Some host => host
                    end
                  else rule in
      let rule := trim (in_set ["*"; "."; "/"]%char) rule in
      let rule := match SplitHostPort rule with Ret (host, _) => host | _ => rule end in
      let found := FindString (ToLower rule) in
      if bool_decide (found = "")%string || negb (not_ip found) then None
      else Some (trim (in_set ["."]%char) found).

Definition normalizeGFWListRule (rule : string) : option string :=
  let rule := TrimSpace rule in
  if bool_decide (rule = "")%string || HasPrefix rule "/" || HasPrefix rule "||^" then None
  else host ← extractGFWListHost rule; Some ("*" +:+ host)%string.

(** One line: its pattern, and whether it is an exception. *)
Definition parse_line (line : string) : option (string * bool) :=
  let line := TrimSpace line in
  if bool_decide (line = "")%string || HasPrefix line "!" || HasPrefix line "[" then None
  else
    let bypass := HasPrefix line "@@" in
    pattern ← normalizeGFWListRule (if bypass then sdrop 2 line else line);
    Some (pattern, bypass).

(** [sort.Strings] of the keys. *)
Definition sle (a b : string) : Prop := String.leb a b = true.
#[export] Instance sle_dec a b : Decision (sle a b) := decide (_ = true).
Definition mapKeysSorted (s : gset string) : list string := merge_sort sle (elements s).

Definition line_break : Ascii.ascii := Ascii.ascii_of_nat 10.

Definition patterns_of (bypass : bool) (lines : list string) : gset string :=
  list_to_set (omap (fun line => '(p, b) ← parse_line line; if Bool.eqb b bypass then Some p else None) lines).

Definition parseEmbeddedGFWList (raw : string) : go (list string * list string) :=
  match DecodeString (drop_spaces raw) with
  | Ret decoded =>
    let lines := Split decoded line_break in
    Ret (mapKeysSorted (patterns_of false lines), mapKeysSorted (patterns_of true lines))
  | Err e => Err ("decode embedded gfwlist: " +:+ e)%string
  | Panic => Panic
  end.

(** The loop that fills a matcher. *)
Fixpoint add_all (patterns : list string) (m : labelNode unit) : go (labelNode unit) :=
  match patterns with
  | [] => Ret m
  | p :: patterns =>
    let (r, m) := Add m p tt in
    let! _ := r in add_all patterns m
  end.

Definition loadBuiltinGFWList (raw : string) : go (labelNode unit * labelNode unit) :=
  let! (blocked, bypass) := parseEmbeddedGFWList raw in
  let! gfw := add_all blocked NewDomainMatcher in
  let! byp := add_all bypass NewDomainMatcher in
  Ret (gfw, byp).
End rules.

(** ** Host names *)

Fixpoint all_chars (f : Ascii.ascii -> bool) (s : string) : bool :=
  match s with String c s => f c && all_chars f s | EmptyString => true end.
Fixpoint last_char (s : string) : option Ascii.ascii :=
  match s with
  | EmptyString => None
  | String c EmptyString => Some c
  | String _ s => last_char s
  end.
Definition label_char (c : Ascii.ascii) : bool := alnum c || is_dash c.

(** A label of a host name: letters, digits and inner dashes. *)
Definition host_label (l : string) : Prop :=
  (1 <= String.length l <= 63)%nat /\ all_chars label_char l = true /\
  (exists c l', l = String c l' /\ alnum c = true) /\ (exists c, last_char l = Some c /\ alnum c = true).

Definition hostname (h : string) : Prop :=
  exists l ls, ls <> [] /\ Forall host_label (l :: ls) /\ h = Join (l :: ls) ".".

Lemma last_char_cons c s : last_char (String c s) = match s with EmptyString => Some c | _ => last_char s end.
Proof. by destruct s. Qed.

(** Runs of label characters. *)
Lemma label_run_spec n : forall s, all_chars label_char (label_run n s) = true /\ (String.length (label_run n s) <= n)%nat /\
  exists rest, s = (label_run n s +:+ rest)%string.
Proof.
  induction n as [|n IH]; intros s; [split_and!; [done|done|by exists s]|].
  destruct s as [|c s]; [split_and!; [done|simpl; lia|by exists ""%string]|]. cbn [label_run].
  destruct (alnum c || is_dash c) eqn:E; [|split_and!; [done|simpl; lia|by eexists]].
  destruct (IH s) as (H1 & H2 & rest & H3). split_and!.
  - cbn [all_chars]. unfold label_char at 1. by rewrite E.
  - simpl. lia.
  - exists rest. rewrite sapp_cons. by f_equal.
Qed.

Lemma trim_right_spec f s :
  (exists rest, s = (trim_right f s +:+ rest)%string) /\
  (forall g, all_chars g s = true -> all_chars g (trim_right f s) = true) /\
  (forall c, last_char (trim_right f s) = Some c -> f c = false) /\
  (forall c s', s = String c s' -> f c = false -> exists t, trim_right f s = String c t).
Proof.
  induction s as [|c s ((rest & E) & HA & HL & HH)].
  { split; [by exists ""%string|]. split; [done|]. split; [done|]. by intros c s'. }
  cbn [trim_right]. destruct (trim_right f s) as [|d t] eqn:Et.
  - destruct (f c) eqn:Ef.
    + split; [by exists (String c s)|]. split; [done|]. split; [done|]. intros c' s' [= <- <-]. congruence.
    + split; [by exists s|]. split; [intros g; cbn [all_chars]; intros [-> _]%andb_prop; done|].
      split; [by intros c' [= <-]|]. intros c' s' [= <- <-] _. by eexists.
  - split; [exists rest; rewrite sapp_cons; by f_equal|].
    split; [intros g; cbn [all_chars]; intros [-> Hg]%andb_prop; exact (HA g Hg)|].
    split; [intros c'; rewrite last_char_cons; apply HL|]. intros c' s' [= <- <-] _. by eexists.
Qed.

Lemma all_chars_last f s c : all_chars f s = true -> last_char s = Some c -> f c = true.
Proof.
  induction s as [|d s IH]; [done|]. cbn [all_chars]. intros [Hd Hs]%andb_prop. rewrite last_char_cons.
  destruct s; [by intros [= ->]|]. by apply IH.
Qed.

Lemma last_char_some c s : is_Some (last_char (String c s)).
Proof. revert c. induction s as [|d s IH]; intros c; [by eexists|]. rewrite last_char_cons. apply IH. Qed.

Lemma length_prefix a b c : a = (b +:+ c)%string -> (String.length b <= String.length a)%nat.
Proof. intros ->. rewrite slength_app. lia. Qed.

(** What the label matcher finds is a label of a host name. *)
Lemma match_label_sound s l rest : match_label s = Some (l, rest) -> host_label l /\ s = (l +:+ rest)%string.
Proof.
  unfold match_label. destruct s as [|c s]; [done|]. destruct (alnum c) eqn:Ec; [|done].
  set (r := label_run 63 (String c s)). destruct (label_run_spec 63 (String c s)) as (Ha & Hl & rr & Er). fold r in Ha, Hl, Er.
  destruct (trim_right_spec is_dash r) as ((t & Et) & HA & HL & HH). cbv zeta. intros [= <- <-].
  assert (is_dash c = false) as Hd.
  { unfold alnum in Ec. unfold is_dash. destruct (Ascii.eqb_spec c "-"); [by subst|done]. }
  destruct (HH c (label_run 62 s)) as [t' Et']; [unfold r; cbn [label_run]; by rewrite Ec|done|].
  set (l := trim_right is_dash r) in *. split.
  - split; [pose proof (length_prefix _ _ _ Et); rewrite Et' in *; cbn [String.length] in *; lia|].
    split; [by apply HA|]. split; [by exists c, t'|].
    destruct (last_char_some c t') as [d Hld]. rewrite <- Et' in Hld. exists d. split; [done|].
    pose proof (all_chars_last _ _ _ (HA _ Ha) Hld) as Hdc. unfold label_char in Hdc. rewrite (HL d Hld), orb_false_r in Hdc. done.
  - rewrite Er, Et, sapp_assoc. by rewrite sdrop_length_app.
Qed.

(** Labels, each behind its dot. *)
Fixpoint dotted (ls : list string) : string :=
  match ls with [] => "" | l :: ls => "." +:+ l +:+ dotted ls end%string.

Lemma Join_dotted l ls : Join (l :: ls) "." = (l +:+ dotted ls)%string.
Proof.
  revert l. induction ls as [|x ls IH]; intros l; [by rewrite sapp_nil_r|].
  change (Join (l :: x :: ls) ".") with (l +:+ "." +:+ Join (x :: ls) ".")%string. by rewrite IH.
Qed.

Lemma match_groups_sound fuel : forall s,
  Forall host_label (match_groups fuel s) /\ exists rest, s = (dotted (match_groups fuel s) +:+ rest)%string.
Proof.
  induction fuel as [|fuel IH]; intros s; [split; [constructor|by exists s]|].
  destruct s as [|c s]; [split; [constructor|by exists ""%string]|]. cbn [match_groups].
  destruct (decide (c = "."%char)) as [->|Hc].
  2:{ assert (match_groups (S fuel) (String c s) = []) as E.
      { cbn [match_groups]. destruct c as [[] [] [] [] [] [] [] []]; try done; congruence. }
      cbn [match_groups] in E. rewrite E. split; [constructor|by exists (String c s)]. }
  cbv iota. destruct (match_label s) as [[l rest]|] eqn:El; [|split; [constructor|by exists (String "." s)]].
  apply match_label_sound in El as [Hl ->]. destruct (IH rest) as (Hf & r & E). split; [by constructor|].
  exists r. cbn [dotted]. rewrite !sapp_assoc. rewrite E at 1. done.
Qed.

Lemma match_here_sound s ls : match_here s = Some ls ->
  exists post, hostname (Join ls ".") /\ s = (Join ls "." +:+ post)%string.
Proof.
  unfold match_here. destruct (match_label s) as [[l rest]|] eqn:El; [|done]. cbn [mbind option_bind].
  apply match_label_sound in El as [Hl ->]. destruct (match_groups_sound (String.length rest) rest) as (Hf & r & E).
  destruct (match_groups _ rest) as [|x xs] eqn:Eg; [done|]. intros [= <-]. exists r. split.
  - exists l, (x :: xs). split; [done|]. split; [by constructor|done].
  - rewrite Join_dotted, sapp_assoc. by rewrite E at 1.
Qed.

Lemma hostname_nonempty h : hostname h -> h <> ""%string.
Proof.
  intros (l & ls & _ & Hf & ->). rewrite Join_dotted. apply Forall_cons in Hf as [(_ & _ & (c & l' & -> & _) & _) _]. done.
Qed.

(** FindString finds a host name if there is one, and nothing else. *)
Lemma FindString_sound s : FindString s <> ""%string ->
  exists pre post, hostname (FindString s) /\ s = (pre +:+ FindString s +:+ post)%string.
Proof.
  induction s as [|c s IH]; cbn [FindString].
  - change (match_here "") with (@None (list string)). done.
  - destruct (match_here (String c s)) as [ls|] eqn:E.
    + intros _. destruct (match_here_sound _ _ E) as (post & Hh & Es). exists ""%string, post. by split.
    + intros Hne. destruct (IH Hne) as (pre & post & Hh & Es). exists (String c pre), post. split; [done|].
      rewrite sapp_cons. by f_equal.
Qed.

Lemma label_run_exact l : forall n c rest, all_chars label_char l = true -> (String.length l <= n)%nat ->
  label_char c = false -> label_run n (l +:+ String c rest) = l.
Proof.
  induction l as [|d l IH]; intros n c rest Ha Hn Hc.
  - rewrite sapp_nil. destruct n; [done|]. cbn [label_run]. unfold label_char in Hc. by rewrite Hc.
  - cbn [all_chars] in Ha. apply andb_prop in Ha as [Hd Ha]. destruct n as [|n]; [simpl in Hn; lia|]. rewrite sapp_cons. cbn [label_run].
    unfold label_char in Hd. rewrite Hd. f_equal. apply IH; [done|simpl in Hn; lia|done].
Qed.

Lemma trim_right_id f s c : last_char s = Some c -> f c = false -> trim_right f s = s.
Proof.
  induction s as [|d s IH]; [done|]. rewrite last_char_cons. destruct s as [|e s].
  - intros [= ->] Hf. cbn. by rewrite Hf.
  - intros Hl Hf. cbn [trim_right]. cbn [trim_right] in IH. rewrite IH by done. done.
Qed.

Lemma alnum_not_dash c : alnum c = true -> is_dash c = false.
Proof. unfold is_dash. destruct (Ascii.eqb_spec c "-"); [by subst|done]. Qed.

Lemma match_label_dot l rest : host_label l -> match_label (l +:+ String "." rest) = Some (l, String "." rest).
Proof.
  intros ([_ Hn] & Ha & (c & l' & El & Hc) & (d & Hd & Hda)). unfold match_label.
  pose proof (label_run_exact l 63 "." rest Ha Hn eq_refl) as HR. rewrite El in *. rewrite sapp_cons in *. rewrite Hc.
  rewrite HR, (trim_right_id _ _ d) by (done || by apply alnum_not_dash). rewrite <- sapp_cons. by rewrite sdrop_length_app.
Qed.

Lemma match_here_complete l x ls post : host_label l -> host_label x ->
  match_here (Join (l :: x :: ls) "." +:+ post) <> None.
Proof.
  intros Hl Hx. rewrite Join_dotted. cbn [dotted]. rewrite !sapp_assoc.
  change ("." +:+ x +:+ dotted ls +:+ post)%string with (String "." (x +:+ dotted ls +:+ post)).
  unfold match_here. rewrite match_label_dot by done. cbn [mbind option_bind].
  destruct Hx as (_ & _ & (c & x' & -> & Hc) & _). cbn [String.length match_groups]. rewrite !sapp_cons. cbn [match_label].
  rewrite Hc. done.
Qed.

Lemma FindString_complete pre h post : hostname h -> FindString (pre +:+ h +:+ post) <> ""%string.
Proof.
  intros Hh. induction pre as [|c pre IH].
  - rewrite sapp_nil. destruct Hh as (l & ls & Hne & Hf & ->). destruct ls as [|x ls]; [done|].
    apply Forall_cons in Hf as [Hl Hf]. apply Forall_cons in Hf as [Hx _].
    pose proof (match_here_complete l x ls post Hl Hx) as HM.
    destruct (match_here (Join (l :: x :: ls) "." +:+ post)) as [ms|] eqn:E; [|done].
    destruct (match_here_sound _ _ E) as (p & Hh & _). apply hostname_nonempty in Hh.
    destruct (Join (l :: x :: ls) "." +:+ post)%string; cbn [FindString]; by rewrite E.
  - rewrite sapp_cons. cbn [FindString]. destruct (match_here _) as [ms|] eqn:E; [|done].
    destruct (match_here_sound _ _ E) as (p & Hh' & _). by apply hostname_nonempty.
Qed.

(** ** Patterns *)

Lemma last_char_app a b : b <> ""%string -> last_char (a +:+ b) = last_char b.
Proof.
  intros Hb. induction a as [|c a IH]; [done|]. rewrite sapp_cons, last_char_cons. rewrite <- IH.
  destruct a; [rewrite sapp_nil; by destruct b|done].
Qed.

Lemma hostname_last h : hostname h -> exists c, last_char h = Some c /\ alnum c = true.
Proof.
  intros (l & ls & _ & Hf & ->). revert l Hf. induction ls as [|x ls IH]; intros l Hf; apply Forall_cons in Hf as [Hl Hf].
  - by destruct Hl as (_ & _ & _ & H).
  - change (Join (l :: x :: ls) ".") with (l +:+ "." +:+ Join (x :: ls) ".")%string. destruct (IH x Hf) as (c & Hc & Ha).
    exists c. split; [|done]. rewrite last_char_app by done.
    change ("." +:+ Join (x :: ls) ".")%string with (String "." (Join (x :: ls) ".")).
    rewrite last_char_cons. destruct (Join (x :: ls) "."); [by simpl in Hc|done].
Qed.

Lemma hostname_head h : hostname h -> exists c t, h = String c t /\ alnum c = true.
Proof.
  intros (l & ls & _ & Hf & ->). apply Forall_cons in Hf as [(_ & _ & (c & t & -> & Hc) & _) _].
  rewrite Join_dotted, sapp_cons. by eexists _, _.
Qed.

Lemma alnum_not_dot c : alnum c = true -> in_set ["."%char] c = false.
Proof. intros H. unfold in_set. apply bool_decide_eq_false_2. intros ->%list_elem_of_singleton. done. Qed.

Lemma hostname_trim h : hostname h -> trim (in_set ["."%char]) h = h.
Proof.
  intros Hh. destruct (hostname_head h Hh) as (c & t & E & Hc). destruct (hostname_last h Hh) as (d & Hd & Hda). unfold trim.
  assert (trim_left (in_set ["."%char]) h = h) as ->.
  { rewrite E. cbn [trim_left]. by rewrite (alnum_not_dot c Hc). }
  apply (trim_right_id _ _ d); [done|]. by apply alnum_not_dot.
Qed.

Lemma Contains_app a c b : Contains (a +:+ String c b) (String c "") = true.
Proof. rewrite Contains_IndexByte. apply bool_decide_eq_true_2.
  induction a as [|d a IH]; [rewrite sapp_nil; cbn [IndexByte]; rewrite Ascii.eqb_refl; by eexists|].
  rewrite sapp_cons. cbn [IndexByte]. destruct (Ascii.eqb c d); [by eexists|]. destruct IH as [n ->]. by eexists.
Qed.

(** What the list's patterns look like. *)
Definition pattern_ok (p : string) : Prop := exists h, p = ("*" +:+ h)%string /\ hostname h /\ not_ip h = true.

Section rule_lemmas.
Context (urlHost : string -> option string).

Lemma extract_ok rule h : extractGFWListHost urlHost rule = Some h -> hostname h /\ not_ip h = true.
Proof.
  unfold extractGFWListHost. cbv zeta. case_decide; [done|]. case_decide; [done|].
  match goal with |- context [FindString ?x] => set (f := FindString x) end.
  destruct (_ || _) eqn:E; [done|]. apply orb_false_elim in E as [E1%bool_decide_eq_false_1 E2%negb_false_iff].
  intros [= <-]. destruct (FindString_sound _ E1) as (_ & _ & Hh & _). fold f in Hh. by rewrite hostname_trim.
Qed.

Lemma normalize_ok rule p : normalizeGFWListRule urlHost rule = Some p -> pattern_ok p.
Proof.
  unfold normalizeGFWListRule. cbv zeta. destruct (_ || _); [done|].
  destruct (extractGFWListHost _ _) as [h|] eqn:E; [|done]. intros [= <-]. exists h. split; [done|]. by eapply extract_ok.
Qed.

Lemma parse_line_ok line p b : parse_line urlHost line = Some (p, b) -> pattern_ok p.
Proof.
  unfold parse_line. cbv zeta. destruct (_ || _); [done|].
  destruct (normalizeGFWListRule _ _) as [q|] eqn:E; [|done]. intros [= <- <-]. by eapply normalize_ok.
Qed.

Lemma elem_mapKeysSorted (X : gset string) p : p ∈ mapKeysSorted X <-> p ∈ X.
Proof. unfold mapKeysSorted. rewrite merge_sort_Permutation. apply elem_of_elements. Qed.

(** The lists hold the patterns of the lines of their kind, sorted and without repetition. *)
Lemma mapKeysSorted_spec b lines : let l := mapKeysSorted (patterns_of urlHost b lines) in
  Sorted sle l /\ NoDup l /\ (forall p, p ∈ l <-> exists line, line ∈ lines /\ parse_line urlHost line = Some (p, b)) /\
  Forall pattern_ok l.
Proof.
  cbv zeta. assert (forall p, p ∈ mapKeysSorted (patterns_of urlHost b lines) <->
    exists line, line ∈ lines /\ parse_line urlHost line = Some (p, b)) as HE.
  { intros p. rewrite elem_mapKeysSorted. unfold patterns_of. rewrite elem_of_list_to_set, list_elem_of_omap.
    split; intros (line & Hl & E); exists line; split; try done.
    - destruct (parse_line urlHost line) as [[q b']|]; [|done]. cbn in E. destruct (Bool.eqb b' b) eqn:Eb; [|done].
      apply eqb_prop in Eb. by simplify_eq.
    - rewrite E. cbn. by rewrite eqb_reflx. }
  split_and!; [| |exact HE|].
  - apply Sorted_merge_sort. intros a c. apply String.leb_total.
  - unfold mapKeysSorted. rewrite merge_sort_Permutation. apply NoDup_elements.
  - apply Forall_forall. intros p Hp. apply HE in Hp as (line & _ & E). by eapply parse_line_ok.
Qed.
End rule_lemmas.

(** ** Matching *)

Lemma pattern_rules p h : p = ("*" +:+ h)%string -> hostname h ->
  p <> "*"%string /\ Contains p "." = true /\ HasPrefix p "*." = false /\ HasPrefix p "*" = true /\ sdrop 1 p = h.
Proof.
  intros -> Hh. destruct (hostname_head h Hh) as (c & t & E & Hc).
  destruct Hh as (l & ls & Hne & Hf & Ej). destruct ls as [|x ls]; [done|].
  split_and!; [by rewrite E| | |exact (HasPrefix_one "*" h "*")|by destruct h].
  - rewrite Ej, Join_dotted. cbn [dotted]. change ("*" +:+ l +:+ "." +:+ x +:+ dotted ls)%string with
      (String "*" l +:+ String "." (x +:+ dotted ls))%string. apply Contains_app.
  - rewrite E. destruct (decide (c = "."%char)) as [->|Hn]; [done|].
    destruct c as [[] [] [] [] [] [] [] []]; try done; congruence.
Qed.

Lemma labels_hostname h : hostname h -> (labels h).*1 <> [].
Proof.
  intros (c & t & -> & _)%hostname_head. unfold labels. cbn [String.length label_loop].
  by destruct (LastIndexByte (String c t) ".").
Qed.

Definition rules_of (ps : list string) : list (string * unit) := (fun p => (p, tt)) <$> ps.

Lemma add_all_build ps : Forall pattern_ok ps -> forall pre,
  add_all ps (build (rules_of pre)) = Ret (build (rules_of (pre ++ ps))).
Proof.
  induction 1 as [|p ps (h & Ep & Hh & _) _ IH]; intros pre; cbn [add_all]; [by rewrite app_nil_r|].
  destruct (pattern_rules p h Ep Hh) as (H1 & H2 & H3 & H4 & H5).
  assert (Add (build (rules_of pre)) p tt = (Ret tt, build (rules_of (pre ++ [p])))) as ->.
  { rewrite (surjective_pairing (Add _ _ _)). f_equal.
    - unfold Add. rewrite decide_False by done. by rewrite H2, H3, H4.
    - unfold rules_of, build. by rewrite fmap_app, fold_left_app. }
  cbn [go_bind]. rewrite IH. by rewrite <- app_assoc.
Qed.

Lemma last_rule_some f (ps : list string) ls :
  is_Some (last_rule f (rules_of ps) ls) <-> exists p, p ∈ ps /\ f p = Some ls.
Proof.
  unfold last_rule, rules_of. induction ps as [|p ps IH] using rev_ind.
  { cbn. split; [by intros []|]. intros (p & Hp & _). by apply not_elem_of_nil in Hp. }
  rewrite fmap_app, fold_left_app. cbn [fmap list_fmap fold_left fst snd]. case_bool_decide as Hp.
  - split; [|by eexists]. intros _. exists p. split; [|done]. apply elem_of_app. right. by left.
  - rewrite IH. split; intros (q & Hq & E); exists q; (split; [|done]); [apply elem_of_app; by left|].
    apply elem_of_app in Hq as [Hq|Hq]; [done|]. apply list_elem_of_singleton in Hq as ->. done.
Qed.

Lemma longest_wild_some (W : list string -> option unit) ls : forall pre cand,
  is_Some (longest_wild W pre ls cand) <->
  is_Some cand \/ exists a l b, ls = a ++ (l, true) :: b /\ is_Some (W (pre ++ a.*1 ++ [l])).
Proof.
  induction ls as [|[l dot] ls IH]; intros pre cand; cbn [longest_wild].
  { split; [by left|]. intros [|(a & l & b & E & _)]; [done|by destruct a]. }
  rewrite IH. split.
  - intros [H|(a & x & b & -> & H)].
    + destruct dot; [|by left]. destruct (W (pre ++ [l])) eqn:EW; cbn [orElse] in H; [|by left].
      right. exists [], l, ls. split; [done|]. cbn. by rewrite EW.
    + right. exists ((l, dot) :: a), x, b. split; [done|]. cbn. by rewrite <- app_assoc in H.
  - intros [H|(a & x & b & E & H)].
    + left. destruct dot; [|done]. by destruct (W (pre ++ [l])).
    + destruct a as [|[y d] a]; cbn in E; simplify_eq.
      * left. cbn in H. destruct H as [u Hu]. by rewrite Hu.
      * right. exists a, x, b. split; [done|]. by rewrite <- app_assoc.
Qed.

(** Only the leftmost label of a name has no dot before it. *)
Lemma label_loop_dots fuel : forall s a l dot b, label_loop fuel s = a ++ (l, dot) :: b -> b <> [] -> dot = true.
Proof.
  induction fuel as [|fuel IH]; intros s a l dot b E Hb; [by destruct a|]. cbn [label_loop] in E.
  destruct s as [|c s]; [by destruct a|]. destruct (LastIndexByte _ _) as [j|].
  - destruct a as [|x a]; cbn in E; simplify_eq; [done|]. by eapply IH.
  - destruct a as [|x [|]]; cbn in E; simplify_eq.
Qed.

(** The name is the host or below it. *)
Definition under (h domain : string) : Prop := (labels h).*1 `prefix_of` (labels domain).*1.

Lemma rule_pattern p h : p = ("*" +:+ h)%string -> hostname h ->
  rule_exact p = Some (labels h).*1 /\ rule_wild p = Some (labels h).*1.
Proof.
  intros Ep Hh. destruct (pattern_rules p h Ep Hh) as (H1 & H2 & H3 & H4 & H5). unfold rule_exact, rule_wild.
  rewrite !decide_False by done. by rewrite H2, H3, H4, H5.
Qed.

Lemma Find_patterns ps domain : Forall pattern_ok ps ->
  is_Some (Find (build (rules_of ps)) domain) <-> exists h, ("*" +:+ h)%string ∈ ps /\ under h domain.
Proof.
  intros Hok. rewrite Find_build. unfold route.
  assert (forall A (x y : option A), is_Some (orElse x y) <-> is_Some x \/ is_Some y) as HO.
  { intros A [x|] y; cbn; [split; [by left|by eexists]|]. split; [by right|intros [[]|]; done]. }
  rewrite !HO, !last_rule_some, longest_wild_some. rewrite Forall_forall in Hok. split.
  - intros [(p & Hp & E)|[[[]|(a & l & b & El & (p & Hp & E)%last_rule_some)]|(p & Hp & E)]]; [| done| |];
      destruct (Hok p Hp) as (h & Eh & Hh & _); destruct (rule_pattern p h Eh Hh) as [E1 E2]; exists h; rewrite <- Eh; (split; [done|]).
    + rewrite E1 in E. injection E as E. unfold under. by rewrite E.
    + rewrite E2 in E. injection E as E. unfold under. rewrite E, El, fmap_app, fmap_cons. cbn. exists (b.*1). by rewrite <- app_assoc.
    + rewrite E2 in E. injection E as E. by apply labels_hostname in Hh.
  - intros (h & Hp & [k Hk]). destruct (Hok _ Hp) as (h' & Eh & Hh & _).
    assert (h' = h) as -> by (cbn in Eh; by simplify_eq). destruct (rule_pattern _ h eq_refl Hh) as [E1 E2].
    destruct k as [|x k]; [left; rewrite app_nil_r in Hk; exists ("*" +:+ h)%string; by rewrite E1, Hk|].
    right. left. right. pose proof (labels_hostname h Hh) as Hne.
    destruct (exists_last Hne) as (a' & l & Ea). rewrite Ea, <- app_assoc in Hk. cbn in Hk.
    apply fmap_app_inv in Hk as (a & b & -> & Hb & El). destruct b as [|[l' dot] b]; [done|]. cbn in Hb. injection Hb as <- Hb.
    assert (dot = true) as ->. { unfold labels in El. eapply label_loop_dots; [exact El|]. by destruct b. }
    exists a, l, b. split; [done|]. apply last_rule_some. exists ("*" +:+ h)%string. split; [done|]. by rewrite E2, Ea.
Qed.

(** ** What a line says

    A description of the lines that names no function of the parser: a line, a rule and a
    host are cut out of the text around them. *)

Definition first_not (f : Ascii.ascii -> bool) (s : string) : Prop := forall c t, s = String c t -> f c = false.
Definition last_not (f : Ascii.ascii -> bool) (s : string) : Prop := forall c, last_char s = Some c -> f c = false.

(** [m] is [s] without the characters of [f] at its ends, or in front of it. *)
Definition stripped (f : Ascii.ascii -> bool) (s m : string) : Prop :=
  exists a z, s = (a +:+ m +:+ z)%string /\ all_chars f a = true /\ all_chars f z = true /\ first_not f m /\ last_not f m.
Definition behind (f : Ascii.ascii -> bool) (s m : string) : Prop :=
  exists a, s = (a +:+ m)%string /\ all_chars f a = true /\ first_not f m.
(** [m] is [s] up to the first character of [f]. *)
Definition up_to (f : Ascii.ascii -> bool) (s m : string) : Prop :=
  exists t, s = (m +:+ t)%string /\ all_chars (fun c => negb (f c)) m = true /\
    (t = ""%string \/ exists c t', t = String c t' /\ f c = true).
Definition one_of (l : list Ascii.ascii) (c : Ascii.ascii) : bool := existsb (Ascii.eqb c) l.

(** The first host name in a text, as long as it goes. *)
Definition first_host (s h : string) : Prop :=
  exists pre post, s = (pre +:+ h +:+ post)%string /\ hostname h /\
    (forall pre' h' post', s = (pre' +:+ h' +:+ post')%string -> hostname h' -> (String.length pre <= String.length pre')%nat) /\
    (forall h' post', s = (pre +:+ h' +:+ post')%string -> hostname h' -> (String.length h' <= String.length h)%nat).

(** The part of a rule that holds its host: of a URL the host if there is one, without
    wildcards, dots and slashes at its ends and without a port. *)
Definition host_part (urlHost : string -> option string) (core text : string) : Prop :=
  exists whole bare,
    ((exists a z, core = (a +:+ "://" +:+ z)%string) /\ urlHost core = Some whole /\ whole <> ""%string \/
     (~ (exists a z, core = (a +:+ "://" +:+ z)%string) \/ default ""%string (urlHost core) = ""%string) /\ whole = core) /\
    stripped (one_of ["*"; "."; "/"]%char) whole bare /\
    text = match SplitHostPort bare with Ret (host, _) => host | _ => bare end.

(** [line] has the pattern [p]; [exception] if it starts with "@@".  Blank lines, comments
    ("!" and "["), regular expressions ("/") and rules of separators ("||^") say nothing; of
    a rule counts what is before the first "^" or "$" and behind the leading "|" and ".". *)
Definition line_says (urlHost : string -> option string) (line p : string) (exception : bool) : Prop :=
  exists body rule cut core text h,
    stripped is_space line body /\ body <> ""%string /\
    (forall t, body <> String "!" t) /\ (forall t, body <> String "[" t) /\
    (if exception then exists r, body = ("@@" +:+ r)%string /\ stripped is_space r rule
     else (forall r, body <> ("@@" +:+ r)%string) /\ rule = body) /\
    rule <> ""%string /\ (forall t, rule <> String "/" t) /\ (forall t, rule <> ("||^" +:+ t)%string) /\
    up_to (one_of ["^"; "$"]%char) rule cut /\ behind (one_of ["|"; "."]%char) cut core /\ core <> ""%string /\
    host_part urlHost core text /\ first_host (ToLower text) h /\ not_ip h = true /\ p = ("*" +:+ h)%string.

(** *** The functions compute it *)

Lemma all_chars_app f a b : all_chars f (a +:+ b) = all_chars f a && all_chars f b.
Proof. induction a as [|c a IH]; [done|]. rewrite sapp_cons. cbn [all_chars]. by rewrite IH, andb_assoc. Qed.

Lemma trim_left_app f a s : all_chars f a = true -> first_not f s -> trim_left f (a +:+ s) = s.
Proof.
  intros Ha Hs. induction a as [|c a IH].
  - rewrite sapp_nil. destruct s as [|c s]; [done|]. cbn. by rewrite (Hs c s).
  - cbn [all_chars] in Ha. apply andb_prop in Ha as [Hc Ha]. rewrite sapp_cons. cbn. rewrite Hc. by apply IH.
Qed.
Lemma trim_left_behind f s : behind f s (trim_left f s).
Proof.
  induction s as [|c s (a & E & Ha & Hf)]; cbn; [by exists ""%string; split_and!|]. destruct (f c) eqn:Ec.
  - exists (String c a). rewrite sapp_cons. split; [by f_equal|]. cbn [all_chars]. by rewrite Ec, Ha.
  - exists ""%string. split_and!; [done..|]. by intros ? ? [= <- <-].
Qed.
Lemma trim_right_app f m z : all_chars f z = true -> last_not f m -> trim_right f (m +:+ z) = m.
Proof.
  intros Hz. induction m as [|c m IH]; intros Hm.
  - rewrite sapp_nil. induction z as [|c z IHz]; [done|]. cbn [all_chars] in Hz. apply andb_prop in Hz as [Hc Hz]. cbn. by rewrite IHz, Hc.
  - rewrite sapp_cons. cbn [trim_right]. assert (last_not f m) as Hm'.
    { intros d Hd. apply Hm. rewrite last_char_cons. by destruct m. }
    rewrite IH by done. destruct m as [|d m]; [|done]. by rewrite (Hm c eq_refl).
Qed.
Lemma trim_right_end f s : exists z, s = (trim_right f s +:+ z)%string /\ all_chars f z = true.
Proof.
  induction s as [|c s (z & E & Hz)]; [by exists ""%string|]. cbn [trim_right]. destruct (trim_right f s) as [|d t].
  - destruct (f c) eqn:Ec.
    + exists (String c s). split; [done|]. cbn [all_chars]. rewrite Ec, E. by rewrite sapp_nil.
    + exists s. split; [done|]. rewrite E. by rewrite sapp_nil.
  - exists z. split; [|done]. rewrite sapp_cons. by f_equal.
Qed.

Lemma stripped_trim f s m : stripped f s m <-> trim f s = m.
Proof.
  split.
  - intros (a & z & -> & Ha & Hz & H1 & H2). unfold trim. destruct m as [|c m].
    + rewrite sapp_nil. rewrite <- (sapp_nil_r (a +:+ z)), trim_left_app; [done| |by intros ? ?].
      by rewrite all_chars_app, Ha, Hz.
    + rewrite trim_left_app; [by apply trim_right_app|done|]. intros d t [= <- _]. by apply (H1 c m).
  - intros <-. unfold trim. destruct (trim_left_behind f s) as (a & E & Ha & Hf). set (x := trim_left f s) in *.
    destruct (trim_right_end f x) as (z & Ez & Hz). destruct (trim_right_spec f x) as (_ & _ & HL & HH).
    exists a, z. rewrite <- Ez. split_and!; try done. intros c t Et. rewrite Et in Ez. rewrite sapp_cons in Ez.
    by apply (Hf c (t +:+ z)%string).
Qed.
Lemma behind_trim_left f s m : behind f s m <-> trim_left f s = m.
Proof. split; [|intros <-; apply trim_left_behind]. intros (a & -> & Ha & Hm). by apply trim_left_app. Qed.

Lemma TrimSpace_trim s : TrimSpace s = trim is_space s.
Proof.
  unfold TrimSpace, trim. assert (forall x, TrimLeft x = trim_left is_space x) as ->.
  { intros x. induction x as [|c x IH]; [done|]. cbn. by rewrite IH. }
  generalize (trim_left is_space s). intros x. induction x as [|c x IH]; [done|]. cbn. rewrite IH. done.
Qed.

Lemma in_set_one_of l c : in_set l c = one_of l c.
Proof.
  unfold in_set, one_of. case_bool_decide as H.
  - symmetry. apply existsb_exists. exists c. split; [by apply list_elem_of_In|]. apply Ascii.eqb_refl.
  - symmetry. apply not_true_iff_false. intros (d & Hd & ->%Ascii.eqb_eq)%existsb_exists. by apply H, list_elem_of_In.
Qed.
Lemma trim_ext f g s : (forall c, f c = g c) -> trim f s = trim g s /\ trim_left f s = trim_left g s.
Proof.
  intros E. assert (trim_left f s = trim_left g s) as El by (induction s as [|c s IH]; cbn; rewrite ?E, ?IH; done).
  split; [|done]. unfold trim. rewrite El. generalize (trim_left g s). intros x. induction x as [|c x IH]; cbn; by rewrite ?E, ?IH.
Qed.

Lemma up_to_before l s m : up_to (one_of l) s m <-> before_any l s = m.
Proof.
  split.
  - intros (t & -> & Hm & Ht). induction m as [|c m IH]; cbn [all_chars] in *.
    + rewrite sapp_nil. destruct Ht as [-> | (c & t' & -> & Hc)]; [done|]. cbn. by rewrite in_set_one_of, Hc.
    + apply andb_prop in Hm as [Hc Hm]. rewrite sapp_cons. cbn. rewrite in_set_one_of, (proj1 (negb_true_iff _) Hc). by rewrite IH.
  - intros <-. induction s as [|c s (t & E & Hm & Ht)]; cbn.
    { exists ""%string. split_and!; auto. }
    rewrite in_set_one_of. destruct (one_of l c) eqn:Ec.
    + exists (String c s). split_and!; [done..|]. right. eauto.
    + exists t. rewrite sapp_cons. split; [by f_equal|]. cbn [all_chars]. by rewrite Ec, Hm.
Qed.

Lemma HasPrefix_spec s q : HasPrefix s q = true <-> exists t, s = (q +:+ t)%string.
Proof.
  revert s. induction q as [|c q IH]; intros s; cbn [HasPrefix].
  - split; [by exists s|by destruct s].
  - destruct s as [|d s]; [split; [done|by intros [t ?]]|]. cbn [HasPrefix]. rewrite andb_true_iff, IH, Ascii.eqb_eq. split.
    + intros [-> [t ->]]. by exists t.
    + intros [t E]. rewrite sapp_cons in E. injection E as -> ->. split; [done|by exists t].
Qed.
Lemma no_prefix s q : HasPrefix s q = false <-> forall t, s <> (q +:+ t)%string.
Proof.
  split.
  - intros H t E. assert (HasPrefix s q = true) by (apply HasPrefix_spec; by exists t). congruence.
  - intros H. apply not_true_iff_false. rewrite HasPrefix_spec. intros [t E]. by apply (H t).
Qed.
Lemma Contains_spec s q : Contains s q = true <-> exists a z, s = (a +:+ q +:+ z)%string.
Proof.
  induction s as [|c s IH].
  - cbn [Contains]. rewrite orb_false_r, HasPrefix_spec. split; [intros [t E]; by exists ""%string, t|]. intros ([|] & z & E); [by exists z|done].
  - cbn [Contains]. rewrite orb_true_iff, HasPrefix_spec, IH. split.
    + intros [[t E]|(a & z & ->)]; [by exists ""%string, t|]. exists (String c a), z. by rewrite sapp_cons.
    + intros ([|d a] & z & E); [left; by exists z|]. rewrite sapp_cons in E. injection E as _ ->. right. eauto.
Qed.

(** *** The first host name *)

Lemma sapp_inj a : forall b c d, (a +:+ b = c +:+ d)%string -> String.length a = String.length c -> a = c /\ b = d.
Proof.
  induction a as [|x a IH]; intros b [|y c] d E Hl; try done. rewrite !sapp_cons in E. injection E as -> E.
  destruct (IH b c d E) as [-> ->]; [by injection Hl|done].
Qed.

Lemma trim_right_keep f l x : l <> ""%string -> last_not f l -> exists y, trim_right f (l +:+ x) = (l +:+ y)%string.
Proof.
  induction l as [|c l IH]; intros Hne Hl; [done|]. rewrite sapp_cons. cbn [trim_right]. destruct l as [|d l].
  - rewrite sapp_nil. destruct (trim_right f x) as [|e t]; [|by eexists]. exists ""%string. by rewrite (Hl c eq_refl).
  - destruct IH as [y ->]; [done| |].
    { intros e He. apply Hl. by rewrite last_char_cons. }
    exists y. by rewrite !sapp_cons.
Qed.

Lemma label_run_app l : forall n rest, all_chars label_char l = true -> (String.length l <= n)%nat ->
  label_run n (l +:+ rest) = (l +:+ label_run (n - String.length l) rest)%string.
Proof.
  induction l as [|c l IH]; intros n rest Ha Hn; [by rewrite !sapp_nil, Nat.sub_0_r|].
  cbn [all_chars] in Ha. apply andb_prop in Ha as [Hc Ha]. destruct n as [|n]; [simpl in Hn; lia|]. rewrite !sapp_cons. cbn [label_run].
  unfold label_char in Hc. rewrite Hc. cbn [String.length Nat.sub]. f_equal. apply IH; [done|simpl in Hn; lia].
Qed.

(** A label may only get longer. *)
Lemma match_label_longest l rest : host_label l ->
  exists y rest', match_label (l +:+ rest) = Some ((l +:+ y)%string, rest').
Proof.
  intros ([Hn1 Hn] & Ha & (c & l' & El & Hc) & (d & Hd & Hda)). unfold match_label.
  pose proof (label_run_app l 63 rest Ha Hn) as HR.
  destruct (trim_right_keep is_dash l (label_run (63 - String.length l) rest)) as [y Hy].
  { by rewrite El. }
  { intros e He. rewrite Hd in He. injection He as <-. by apply alnum_not_dash. }
  rewrite <- HR in Hy. rewrite El in Hy at 1 |- *. rewrite sapp_cons in Hy |- *. rewrite Hc, Hy, El. by eexists _, _.
Qed.

Lemma groups_longest fuel : forall ls post, Forall host_label ls -> (String.length (dotted ls +:+ post) <= fuel)%nat ->
  (String.length (dotted ls) <= String.length (dotted (match_groups fuel (dotted ls +:+ post))))%nat.
Proof.
  induction fuel as [|fuel IH]; intros [|x ls] post Hf Hl; [simpl; lia|simpl in Hl; lia|simpl; lia|].
  apply Forall_cons in Hf as [Hx Hf]. cbn [dotted] in *. rewrite !sapp_assoc in *.
  change ("." +:+ ?r)%string with (String "." r) in *. cbn [match_groups]. cbn [String.length] in Hl.
  destruct ls as [|z ls].
  - cbn [dotted] in *. rewrite !sapp_nil, sapp_nil_r in *. destruct (match_label_longest x post Hx) as (y & rest & ->).
    cbn [dotted]. change ("." +:+ ?r)%string with (String "." r). cbn [String.length]. rewrite !slength_app. lia.
  - assert (exists t, (dotted (z :: ls) +:+ post = String "." t)%string) as [t Et] by (by eexists).
    rewrite Et, match_label_dot, <- Et by done. specialize (IH (z :: ls) post Hf).
    remember (z :: ls) as zs. cbn [dotted]. change ("." +:+ ?r)%string with (String "." r).
    cbn [String.length]. rewrite !slength_app in *. lia.
Qed.

Lemma match_here_longest h post : hostname h -> exists ms, match_here (h +:+ post) = Some ms /\
  (String.length h <= String.length (Join ms "."))%nat.
Proof.
  intros (l & ls & Hne & Hf & ->). destruct ls as [|x ls]; [done|]. pose proof Hf as [Hl Hf']%Forall_cons.
  rewrite Join_dotted. rewrite sapp_assoc. unfold match_here.
  assert (exists t, (dotted (x :: ls) +:+ post = String "." t)%string) as [t Et] by (by eexists).
  rewrite Et, match_label_dot, <- Et by done. cbn [mbind option_bind].
  pose proof (groups_longest _ (x :: ls) post Hf' (le_n _)) as Hg.
  destruct (match_groups _ _) as [|m ms] eqn:Em; [cbn [dotted] in Hg; change ("." +:+ ?r)%string with (String "." r) in Hg; simpl in Hg; lia|].
  exists (l :: m :: ms). split; [done|]. rewrite Join_dotted, !slength_app. lia.
Qed.

Lemma FindString_first s : FindString s <> ""%string -> first_host s (FindString s).
Proof.
  induction s as [|c s IH]; cbn [FindString]; [done|].
  destruct (match_here (String c s)) as [ls|] eqn:E.
  - intros _. destruct (match_here_sound _ _ E) as (post & Hh & Es). exists ""%string, post. split_and!; try done.
    + intros. simpl. lia.
    + intros h' post' E' Hh'. rewrite sapp_nil in E'. destruct (match_here_longest h' post' Hh') as (ms & Em & Hm).
      rewrite <- E', E in Em. by injection Em as <-.
  - intros Hne. destruct (IH Hne) as (pre & post & Es & Hh & H1 & H2). exists (String c pre), post. rewrite !sapp_cons.
    split_and!; try done; [by f_equal| |].
    + intros [|d pre'] h' post' E' Hh'.
      * destruct (match_here_longest h' post' Hh') as (ms & Em & _). rewrite sapp_nil in E'. rewrite E', Em in E. done.
      * rewrite sapp_cons in E'. injection E' as _ E'. cbn [String.length]. apply le_n_S. by eapply H1.
    + intros h' post' E' Hh'. rewrite sapp_cons in E'. injection E' as E'. by eapply H2.
Qed.

Lemma first_host_unique s h1 h2 : first_host s h1 -> first_host s h2 -> h1 = h2.
Proof.
  intros (p1 & q1 & E1 & Hh1 & Hl1 & Hm1) (p2 & q2 & E2 & Hh2 & Hl2 & Hm2).
  pose proof (Hl1 _ _ _ E2 Hh2). pose proof (Hl2 _ _ _ E1 Hh1). pose proof E2 as E3. rewrite E1 in E3.
  apply sapp_inj in E3 as [-> E3]; [|lia]. pose proof (Hm1 _ _ E2 Hh2). pose proof (Hm2 _ _ E1 Hh1).
  apply sapp_inj in E3 as [-> _]; [done|lia].
Qed.

Lemma FindString_spec s h : first_host s h <-> FindString s = h /\ h <> ""%string.
Proof.
  split.
  - intros Hf. pose proof Hf as (p & q & E & Hh & _). assert (FindString s <> ""%string) as Hne by (rewrite E; by apply FindString_complete).
    split; [|by apply hostname_nonempty]. eapply first_host_unique; [by apply FindString_first|done].
  - intros [<- Hne]. by apply FindString_first.
Qed.

(** *** Lines *)

Section lines.
Context (urlHost : string -> option string).

Lemma host_part_spec core text : host_part urlHost core text <->
  text = (let rule := if Contains core "://" then
                        match urlHost core with Some EmptyString | None => core | Some host => host end
                      else core in
          let rule := trim (in_set ["*"; "."; "/"]%char) rule in
          match SplitHostPort rule with Ret (host, _) => host | _ => rule end).
Proof.
  cbv zeta. assert (forall s, trim (in_set ["*"; "."; "/"]%char) s = trim (one_of ["*"; "."; "/"]%char) s) as Ht
    by (intros s; apply trim_ext; intros; apply in_set_one_of).
  rewrite Ht. pose proof (Contains_spec core "://") as HC.
  transitivity (exists whole,
    (Contains core "://" = true /\ urlHost core = Some whole /\ whole <> ""%string \/
     (Contains core "://" <> true \/ default ""%string (urlHost core) = ""%string) /\ whole = core) /\
    text = let bare := trim (one_of ["*"; "."; "/"]%char) whole in match SplitHostPort bare with Ret (host, _) => host | _ => bare end).
  { split.
    - intros (whole & bare & H & <-%stripped_trim & ->). exists whole. by rewrite HC.
    - intros (whole & H & ->). rewrite HC in H. eexists whole, _. split; [exact H|]. split; [by apply stripped_trim|done]. }
  cbv zeta. destruct (Contains core "://"); [destruct (urlHost core) as [[|c host]|]|]; cbn [default]; split.
  1, 5, 7: by intros (whole & [(? & ? & ?)|(_ & ->)] & ->); simplify_eq.
  1, 4, 5: intros ->; exists core; (split; [right; auto|done]).
  - intros (whole & [(_ & [= <-] & _)|([?|?] & ->)] & ->); done.
  - intros ->. eexists. split; [left; split_and!; done|done].
Qed.

Lemma extract_spec rule h : TrimSpace rule = rule -> rule <> ""%string ->
  extractGFWListHost urlHost rule = Some h <->
  exists cut core text, up_to (one_of ["^"; "$"]%char) rule cut /\ behind (one_of ["|"; "."]%char) cut core /\ core <> ""%string /\
    host_part urlHost core text /\ first_host (ToLower text) h /\ not_ip h = true.
Proof.
  intros Hr Hne. unfold extractGFWListHost. cbv zeta. rewrite Hr, decide_False by done.
  set (cut := before_any _ rule). set (core := trim_left _ cut).
  assert (behind (one_of ["|"; "."]%char) cut core) as Hb.
  { apply behind_trim_left. symmetry. apply trim_ext. intros. apply in_set_one_of. }
  set (text := match SplitHostPort _ with Ret (host, _) => host | _ => _ end).
  assert (forall t, host_part urlHost core t <-> t = text) as Hp by (intros t; apply host_part_spec). split.
  - destruct (decide (core = ""%string)); [done|]. destruct (_ || _) eqn:Eo; [done|].
    apply orb_false_elim in Eo as [E1%bool_decide_eq_false_1 E2%negb_false_iff].
    pose proof (FindString_first _ E1) as Hf. pose proof Hf as (_ & _ & _ & Hh & _). rewrite hostname_trim by done. intros [= <-].
    exists cut, core, text. split_and!; try done; [by apply up_to_before|by apply Hp].
  - intros (cut' & core' & text' & H1 & H2 & H3 & H4 & H5 & H6). apply up_to_before in H1. fold cut in H1. subst cut'.
    assert (core' = core) as -> by (apply behind_trim_left in H2, Hb; congruence). apply Hp in H4. subst text'.
    rewrite decide_False by done. apply FindString_spec in H5 as [Ef Hh]. pose proof Ef as Hf. rewrite Ef.
    rewrite bool_decide_eq_false_2, H6 by done. cbn. f_equal. apply hostname_trim.
    assert (FindString (ToLower text) <> ""%string) as Hn by congruence. destruct (FindString_sound _ Hn) as (_ & _ & Hho & _). congruence.
Qed.

Lemma trim_idem f s : trim f (trim f s) = trim f s.
Proof.
  destruct (proj2 (stripped_trim f s _) eq_refl) as (a & z & _ & _ & _ & H1 & H2). apply stripped_trim.
  exists ""%string, ""%string. split_and!; try done. by rewrite sapp_nil, sapp_nil_r.
Qed.

Lemma normalize_spec rule p : TrimSpace rule = rule ->
  normalizeGFWListRule urlHost rule = Some p <->
  rule <> ""%string /\ (forall t, rule <> String "/" t) /\ (forall t, rule <> ("||^" +:+ t)%string) /\
  exists h, extractGFWListHost urlHost rule = Some h /\ p = ("*" +:+ h)%string.
Proof.
  intros Hr. unfold normalizeGFWListRule. cbv zeta. rewrite Hr. pose proof (no_prefix rule "/") as H1. pose proof (no_prefix rule "||^") as H2. split.
  - destruct (_ || _) eqn:E; [done|]. apply orb_false_elim in E as [[E1%bool_decide_eq_false_1 E2]%orb_false_elim E3].
    destruct (extractGFWListHost urlHost rule) as [h|]; [|done]. intros [= <-]. split_and!; [done|by apply H1|by apply H2|]. by exists h.
  - intros (E1 & E2 & E3 & h & -> & ->). rewrite (proj2 H1 E2), (proj2 H2 E3), bool_decide_eq_false_2 by done. done.
Qed.

Lemma TrimSpace_twice r : TrimSpace (TrimSpace r) = TrimSpace r.
Proof. rewrite !TrimSpace_trim. apply trim_idem. Qed.

Lemma rule_spec r p : normalizeGFWListRule urlHost r = Some p <->
  exists rule cut core text h, stripped is_space r rule /\
    rule <> ""%string /\ (forall t, rule <> String "/" t) /\ (forall t, rule <> ("||^" +:+ t)%string) /\
    up_to (one_of ["^"; "$"]%char) rule cut /\ behind (one_of ["|"; "."]%char) cut core /\ core <> ""%string /\
    host_part urlHost core text /\ first_host (ToLower text) h /\ not_ip h = true /\ p = ("*" +:+ h)%string.
Proof.
  assert (normalizeGFWListRule urlHost r = normalizeGFWListRule urlHost (TrimSpace r)) as ->
    by (unfold normalizeGFWListRule; by rewrite TrimSpace_twice).
  rewrite normalize_spec by apply TrimSpace_twice. split.
  - intros (H1 & H2 & H3 & h & (cut & core & text & H)%extract_spec & ->); [|apply TrimSpace_twice|done].
    exists (TrimSpace r), cut, core, text, h. destruct H as (? & ? & ? & ? & ? & ?). split_and!; try done.
    apply stripped_trim. by rewrite TrimSpace_trim.
  - intros (rule & cut & core & text & h & Hr & H1 & H2 & H3 & H). apply stripped_trim in Hr. rewrite <- TrimSpace_trim in Hr. subst rule.
    split_and!; try done. exists h. destruct H as (? & ? & ? & ? & ? & ? & ->). split; [|done].
    apply extract_spec; [apply TrimSpace_twice|done|]. exists cut, core, text. by split_and!.
Qed.

(** The parser finds exactly what a line says. *)
Lemma parse_line_says line p b : parse_line urlHost line = Some (p, b) <-> line_says urlHost line p b.
Proof.
  unfold parse_line. cbv zeta. assert (stripped is_space line (TrimSpace line)) as Hs by (apply stripped_trim; by rewrite TrimSpace_trim).
  pose proof (no_prefix (TrimSpace line) "!") as HB. pose proof (no_prefix (TrimSpace line) "[") as HK. pose proof (no_prefix (TrimSpace line) "@@") as HA. split.
  - destruct (_ || _) eqn:E; [done|]. apply orb_false_elim in E as [[E1%bool_decide_eq_false_1 E2]%orb_false_elim E3].
    destruct (normalizeGFWListRule _ _) as [q|] eqn:En; [|done]. intros [= -> <-].
    apply rule_spec in En as (rule & cut & core & text & h & Hr & H). exists (TrimSpace line), rule, cut, core, text, h.
    split; [done|]. split; [done|]. split; [by apply HB|]. split; [by apply HK|]. split; [|done].
    destruct (HasPrefix (TrimSpace line) "@@") eqn:Ea.
    + apply HasPrefix_spec in Ea as [t Et]. rewrite Et in Hr |- *. exists t. by split.
    + split; [by apply HA|]. apply stripped_trim in Hr. rewrite <- TrimSpace_trim, TrimSpace_twice in Hr. done.
  - intros (body & rule & cut & core & text & h & Hb & H1 & H2 & H3 & H4 & H).
    apply stripped_trim in Hb. rewrite <- TrimSpace_trim in Hb. subst body.
    rewrite (proj2 HB H2), (proj2 HK H3), bool_decide_eq_false_2 by done. cbn [orb].
    assert (HasPrefix (TrimSpace line) "@@" = b /\ stripped is_space (if b then sdrop 2 (TrimSpace line) else TrimSpace line) rule) as [-> Hr].
    { destruct b.
      - destruct H4 as (r & Er & Hr). rewrite Er. split; [|done]. apply HasPrefix_spec. by exists r.
      - destruct H4 as [H4 ->]. split; [by apply HA|]. apply stripped_trim. by rewrite <- TrimSpace_trim, TrimSpace_twice. }
    rewrite (proj2 (rule_spec _ p)); [done|]. by exists rule, cut, core, text, h.
Qed.
End lines.

(** The lists hold what the lines of their kind say. *)
Lemma mapKeysSorted_says urlHost b lines : let l := mapKeysSorted (patterns_of urlHost b lines) in
  Sorted sle l /\ NoDup l /\ (forall p, p ∈ l <-> exists line, line ∈ lines /\ line_says urlHost line p b) /\ Forall pattern_ok l.
Proof.
  cbv zeta. destruct (mapKeysSorted_spec urlHost b lines) as (H1 & H2 & H3 & H4). split_and!; try done. intros p. rewrite H3.
  split; intros (line & Hl & H); exists line; (split; [done|]); by apply parse_line_says.
Qed.

(** C29: the built-in list blocks what its lines say.  Whenever the text decodes, the load
    succeeds; both lists are sorted without repetition and hold exactly the patterns their
    lines say: blank lines, comments, regular expressions and rules of separators say
    nothing; a line that starts with "@@" is an exception and every other one blocks; of the
    rule counts what is before the first "^" or "$" and behind leading "|" and ".", of a URL
    its host, without wildcards, slashes and a port; the pattern is "*" before the first
    host name in that text, in lower case, of at least two well-formed labels, and a line
    without one, or whose host name is an IP address, says nothing.  A domain is then
    blocked exactly when it is, or lies below, the host of a blocking line in any letter
    case, and no exception line's host covers it. *)
Theorem gfw_list_correct urlHost raw text :
  DecodeString (drop_spaces raw) = Ret text ->
  let lines := Split text line_break in
  exists blocked bypass gfw byp,
    parseEmbeddedGFWList urlHost raw = Ret (blocked, bypass) /\ loadBuiltinGFWList urlHost raw = Ret (gfw, byp) /\
    Sorted sle blocked /\ NoDup blocked /\ Sorted sle bypass /\ NoDup bypass /\
    (forall p, p ∈ blocked <-> exists line, line ∈ lines /\ line_says urlHost line p false) /\
    (forall p, p ∈ bypass <-> exists line, line ∈ lines /\ line_says urlHost line p true) /\
    (forall r d, gfwDomainMatcher r = Some gfw -> gfwBypassMatcher r = Some byp -> d <> ""%string ->
       isGFWDomain r d = true <->
       (exists line h, line ∈ lines /\ line_says urlHost line ("*" +:+ h) false /\ under h (ToLower d)) /\
       ~ (exists line h, line ∈ lines /\ line_says urlHost line ("*" +:+ h) true /\ under h (ToLower d))).
Proof.
  intros Hd. cbv zeta. set (lines := Split text line_break).
  assert (parseEmbeddedGFWList urlHost raw = Ret (mapKeysSorted (patterns_of urlHost false lines), mapKeysSorted (patterns_of urlHost true lines))) as EP
    by (unfold parseEmbeddedGFWList; by rewrite Hd).
  destruct (mapKeysSorted_says urlHost false lines) as (S1 & N1 & M1 & O1).
  destruct (mapKeysSorted_says urlHost true lines) as (S2 & N2 & M2 & O2).
  set (blocked := mapKeysSorted (patterns_of urlHost false lines)) in *. set (bypass := mapKeysSorted (patterns_of urlHost true lines)) in *.
  exists blocked, bypass, (build (rules_of blocked)), (build (rules_of bypass)). split; [done|]. split.
  { unfold loadBuiltinGFWList. rewrite EP. cbn [go_bind].
    change (NewDomainMatcher (T := unit)) with (build (rules_of [])). by rewrite !add_all_build. }
  split_and!; try done. intros r d Eg Eb Hne. unfold isGFWDomain. rewrite Eg, Eb, decide_False by done. cbv zeta.
  pose proof (Find_patterns blocked (ToLower d) O1) as F1. pose proof (Find_patterns bypass (ToLower d) O2) as F2.
  assert (forall (l : list string) b, (forall p, p ∈ l <-> exists line, line ∈ lines /\ line_says urlHost line p b) ->
    (exists h, ("*" +:+ h)%string ∈ l /\ under h (ToLower d)) <->
    exists line h, line ∈ lines /\ line_says urlHost line ("*" +:+ h) b /\ under h (ToLower d)) as HL by (clear; naive_solver).
  rewrite <- (HL blocked false M1), <- (HL bypass true M2), <- F1, <- F2. repeat case_bool_decide; naive_solver.
Qed.

(** Lines: a rule with a path, an exception behind a bar, a comment, a regular expression
    and a rule with another name behind a separator. *)
Definition w_raw : string :=
  "fHxleGFtcGxlLmNvbS9wYXRoCkBAfG9rLmV4YW1wbGUuY29tCiEgbm90ZS5vcmcKL2V4cHIubmV0LwouR29vZC5PcmdeJHRoaXJkLmNvbQo=".

Lemma gfw_list_correct_witness :
  exists blocked bypass gfw byp,
    parseEmbeddedGFWList (fun _ => None) w_raw = Ret (blocked, bypass) /\
    blocked = ["*example.com"; "*good.org"]%string /\ bypass = ["*ok.example.com"%string] /\
    isGFWDomain (mkRules None NewTrie NewTrie (Some gfw) (Some byp)) "WWW.example.com" = true.
Proof.
  destruct (gfw_list_correct (fun _ => None) w_raw _ eq_refl) as (blocked & bypass & gfw & byp & EP & EL & _ & _ & _ & _ & M1 & M2 & HI).
  exists blocked, bypass, gfw, byp. split; [exact EP|]. vm_compute in EP. injection EP as <- <-.
  split; [reflexivity|]. split; [reflexivity|]. apply HI; [reflexivity|reflexivity|discriminate|]. split.
  - destruct (proj1 (M1 "*example.com"%string)) as (line & Hl & Hs); [by left|].
    exists line, "example.com"%string. split; [exact Hl|]. split; [exact Hs|]. vm_compute. eexists. reflexivity.
  - intros (line & h & Hl & Hs & [k Hk]). pose proof (proj2 (M2 ("*" +:+ h)%string) (ex_intro _ line (conj Hl Hs))) as Hin.
    apply list_elem_of_singleton in Hin. assert (h = "ok.example.com"%string) as -> by (cbn in Hin; by injection Hin).
    vm_compute in Hk. discriminate.
Defined.

End Gfw.
