(* ===== verification/IPPool.v ===== *)
(** * IP pools (src/internal/ip_pool.go)

    A pool of candidate addresses, ranked by measured loss and latency, from which
    [Get] deals addresses by weighted round robin.  What the network answers is a
    parameter: the addresses a name resolves to, and the outcome of each dial.
    Losses and weights are float64 (SpecFloat, see GoTime); [sort.SliceStable] is
    the stable insertion sort, the order any stable sort gives. *)

From S2P Require Import Prelude GoStrings GoTime NetIP Patterns.
From Stdlib Require Import SpecFloat Sorting.Sorted.

Module IPPool.

Definition defaultTimeout : Z := Second.
Definition defaultUpdateInterval : Z := 30 * Minute.
Definition defaultMaxConcurrency : Z := 100.
Definition defaultTopIPCount : Z := 3.
Definition defaultAttempts : Z := 4.
Definition maxIPPoolSize : Z := 1000.

(** ip_pool.go: [type IPPool], without the channels and the logger. *)
Record IPPool := mkPool {
  ips : list string;
  pport : Z;
  topIPCount : Z;
  attempts : Z;
  timeout : Z;
  updateInterval : Z;
  concurrency : Z;
  bestIndexes : list Z;
  bestWeights : list Z;
  totalWeight : Z;
  curValidIPs : Z;
  counter : Z
}.

(** The decoded [tmp] of UnmarshalJSON. *)
Record rawPool := mkRawPool {
  tIPs : list string; tPort : Z; tTopIPCount : Z; tMaxConcurrency : Z;
  tTimeout : string; tUpdateInterval : string; tAttempts : Z
}.

Section parse.
(** [net.LookupIP]: [None] on error, else the addresses. *)
Context (LookupIP : string -> option (list Addr)).

(** The addresses of a prefix from its first one on, until it ends or the pool is
    full.  [None] when the pool overflows. *)
Fixpoint expand_prefix (fuel : nat) (prefix : Prefix) (addr : Addr) (acc : list string)
    : option (list string) :=
  match fuel with
  | O => None
  | S fuel =>
    if negb (prefix_contains prefix addr) then Some acc
    else if maxIPPoolSize <=? zlen acc then None
    else
      let acc := acc ++ [AddrString addr] in
      match Next addr with
      | Some next => if prefix_contains prefix next then expand_prefix fuel prefix next acc else Some acc
      | None => Some acc
      end
  end.

(** The addresses of a resolved name. *)
Fixpoint add_resolved (addrs : list Addr) (acc : list string) : option (list string) :=
  match addrs with
  | [] => Some acc
  | a :: addrs => if maxIPPoolSize <=? zlen acc then None else add_resolved addrs (acc ++ [AddrString a])
  end.

(** The body of the inner loop of parseIPList. *)
Definition add_source (acc : list string) (s : string) : go (list string) :=
  if maxIPPoolSize <=? zlen acc
  then Err ("IP pool exceeds maximum size (" +:+ Itoa maxIPPoolSize +:+ ") during parsing")
  else match ParseAddr s with
  | Some _ => Ret (acc ++ [s])
  | None =>
    match ParsePrefix s with
    | Some prefix =>
      match expand_prefix (S (S (Z.to_nat maxIPPoolSize))) prefix (pAddr prefix) acc with
      | Some acc => Ret acc
      | None => Err ("CIDR " +:+ s +:+ " exceeds max pool size (" +:+ Itoa maxIPPoolSize +:+ ")")
      end
    | None =>
      match LookupIP s with
      | None => Err ("DNS lookup failed for " +:+ s)
      | Some addrs =>
        match add_resolved addrs acc with
        | Some acc => Ret acc
        | None => Err ("DNS resolution for " +:+ s +:+ " exceeds max pool size")
        end
      end
    end
  end.

Fixpoint add_sources (l : list string) (acc : list string) : go (list string) :=
  match l with
  | [] => Ret acc
  | s :: l => let! acc := add_source acc s in add_sources l acc
  end.

(** expandPattern never runs out of its fuel (Patterns.expandPattern_correct). *)
Definition expanded (pattern : string) : list string := default [] (Patterns.expandPattern pattern).

Definition parseIPList (sources : list string) : go (list string) :=
  add_sources (sources ≫= expanded) [].

Definition opt_duration (name s : string) (dflt : Z) : go Z :=
  if decide (s = "")%string then Ret dflt
  else match ParseDuration s with
       | Some d => if d <=? 0 then Err ("invalid " +:+ name +:+ ": " +:+ s) else Ret d
       | None => Err ("invalid " +:+ name +:+ ": " +:+ s)
       end.

(** IPPool.UnmarshalJSON. *)
Definition UnmarshalJSON (tmp : rawPool) : go IPPool :=
  let! ips := parseIPList (tIPs tmp) in
  if zlen ips =? 0 then Err "no valid IPs after parsing"
  else if maxIPPoolSize <? zlen ips then
    Err ("IP pool exceeds maximum size (" +:+ Itoa maxIPPoolSize +:+ "): " +:+ Itoa (zlen ips))
  else if zlen ips <? tTopIPCount tmp then
    Err ("IP count (" +:+ Itoa (zlen ips) +:+ ") less than top_ip_count (" +:+ Itoa (tTopIPCount tmp) +:+ ")")
  else if (tPort tmp <=? 0) || (65535 <? tPort tmp) then Err ("invalid port: " +:+ Itoa (tPort tmp))
  else
    let! concurrency :=
      (if tMaxConcurrency tmp =? 0 then Ret defaultMaxConcurrency
       else if tMaxConcurrency tmp <? 1 then Err ("invalid max_concurrency: " +:+ Itoa (tMaxConcurrency tmp))
       else Ret (tMaxConcurrency tmp)) in
    let! topCount :=
      (if tTopIPCount tmp =? 0 then Ret defaultTopIPCount
       else if (tTopIPCount tmp <=? 0) || (255 <? tTopIPCount tmp) || (zlen ips <? tTopIPCount tmp)
       then Err ("invalid top_ip_count: " +:+ Itoa (tTopIPCount tmp))
       else Ret (tTopIPCount tmp)) in
    let! attempts :=
      (if tAttempts tmp =? 0 then Ret defaultAttempts
       else if (tAttempts tmp <=? 0) || (255 <? tAttempts tmp)
       then Err ("invalid attempts: " +:+ Itoa (tAttempts tmp))
       else Ret (tAttempts tmp)) in
    let! timeout := opt_duration "timeout" (tTimeout tmp) defaultTimeout in
    let! updateInterval := opt_duration "update_interval" (tUpdateInterval tmp) defaultUpdateInterval in
    Ret {| ips := ips; pport := u16 (tPort tmp); topIPCount := u8 topCount; attempts := u8 attempts;
           timeout := timeout; updateInterval := updateInterval; concurrency := concurrency;
           bestIndexes := replicate (Z.to_nat topCount) 0; bestWeights := replicate (Z.to_nat topCount) 0;
           totalWeight := 0; curValidIPs := 0; counter := 0 |}.
End parse.

(** ** Measuring and ranking *)

(** ip_pool.go: [type ipResult]. *)
Record ipResult := mkResult { ipIndex : Z; latency : Z; loss : f64 }.

Definition MaxInt64 : Z := 2 ^ 63 - 1.
Definition f_one : f64 := f_of_Z 1.

(** testIP: one outcome per attempt, the latency of a dial that succeeded. *)
Definition testIP (attempts : Z) (outcomes : list (option Z)) : Z * f64 :=
  let oks := omap id outcomes in
  let successCount := zlen oks in
  let totalLatency := fold_left (fun a d => i64 (a + d)) oks 0 in
  let lossRate := f_sub f_one (f_div (f_of_Z successCount) (f_of_Z attempts)) in
  if successCount =? 0 then (MaxInt64, lossRate)
  else (Z.quot totalLatency successCount, lossRate).

(** The [less] of updateBest. *)
Definition less (a b : ipResult) : bool :=
  if negb (f_eqb (loss a) (loss b)) then f_lt (loss a) (loss b) else latency a <? latency b.

(** [sort.SliceStable]: insert from the left, after the elements not greater. *)
Fixpoint insert_sorted (x : ipResult) (l : list ipResult) : list ipResult :=
  match l with
  | [] => [x]
  | y :: l => if less x y then x :: y :: l else y :: insert_sorted x l
  end.
Definition sort_results (l : list ipResult) : list ipResult := fold_left (fun a x => insert_sorted x a) l [].

(** The weight of a result before it is cut to [minWeight, maxWeight]; 1e-5 is the
    nearest float64. *)
Definition f_1e_5 : f64 := S754_finite false 5902958103587057 (-69).
Definition raw_weight (r : ipResult) : f64 :=
  let latencyMs := f_div (f_of_Z (latency r)) (f_of_Z Millisecond) in
  f_div (f_of_Z 10000) (f_add (f_mul latencyMs (f_add f_one (loss r))) f_1e_5).

Definition clamp_weight (w : f64) : Z :=
  if f_lt w (f_of_Z 1) then 1
  else if f_lt (f_of_Z 10000) w then 10000
  else f_trunc w.
Definition weight (r : ipResult) : Z := clamp_weight (raw_weight r).

(** [copy(dst, src)] at the front of a longer slice. *)
Definition overwrite {A} (src dst : list A) : list A := src ++ drop (length src) dst.

(** IPPool.updateBest. *)
Definition updateBest (p : IPPool) (results : list ipResult) : IPPool :=
  match results with
  | [] => p
  | _ =>
    let top := take (Z.to_nat (topIPCount p)) (sort_results results) in
    let ws := weight <$> top in
    {| ips := ips p; pport := pport p; topIPCount := topIPCount p; attempts := attempts p;
       timeout := timeout p; updateInterval := updateInterval p; concurrency := concurrency p;
       bestIndexes := overwrite (ipIndex <$> top) (bestIndexes p);
       bestWeights := ws ++ replicate (Z.to_nat (topIPCount p) - length ws) 0;
       totalWeight := foldr Z.add 0 ws; curValidIPs := zlen top; counter := counter p |}
  end.

(** scan: every address is tested, the results arrive in some order [arrive], and
    those with loss below 1 are ranked. *)
Definition scan (outcomes : Z -> list (option Z)) (arrive : list Z) (p : IPPool) : IPPool :=
  let result i := let (lat, l) := testIP (attempts p) (outcomes i) in mkResult i lat l in
  updateBest p (filter (fun r => f_lt (loss r) f_one = true) (result <$> arrive)).

(** IPPool.Init, after the first scan. *)
Definition Init (outcomes : Z -> list (option Z)) (arrive : list Z) (p : IPPool) : go IPPool :=
  let p := scan outcomes arrive p in
  if 0 <? curValidIPs p then Ret p else Err "no valid IP found after initial scan".

(** ** Dealing *)

(** The loop of Get: the first index whose cumulated weight exceeds [target]. *)
Fixpoint pick (target acc : Z) (indexes weights : list Z) : option Z :=
  match indexes, weights with
  | i :: indexes, w :: weights =>
    let acc := acc + w in
    if target <? acc then Some i else pick target acc indexes weights
  | _, _ => None
  end.

Definition with_counter (p : IPPool) (c : Z) : IPPool :=
  mkPool (ips p) (pport p) (topIPCount p) (attempts p) (timeout p) (updateInterval p) (concurrency p)
    (bestIndexes p) (bestWeights p) (totalWeight p) (curValidIPs p) c.

(** IPPool.Get; "" when nothing is valid.  Integer division by zero panics. *)
Definition Get (p : IPPool) : go string * IPPool :=
  if curValidIPs p =? 0 then (Ret ""%string, p)
  else
    let r :=
      let! indexes := slice_to (bestIndexes p) (curValidIPs p) in
      let! weights := slice_to (bestWeights p) (curValidIPs p) in
      let current := counter p in
      if u32 (totalWeight p) =? 0 then Panic
      else
        let target := current mod u32 (totalWeight p) in
        match pick target 0 indexes weights with
        | Some i => idx (ips p) i
        | None => let! i := idx indexes 0 in idx (ips p) i
        end in
    (r, with_counter p (u32 (counter p + 1))).

(** getFromIPPool over the configured pools. *)
Definition getFromIPPool (pools : gmap string IPPool) (tag : string) : go string * gmap string IPPool :=
  if decide (pools = ∅) then (Err "no ip pools", pools)
  else match pools !! tag with
  | None => (Err ("ip pool " +:+ tag +:+ " does not exist"), pools)
  | Some p =>
    let (r, p') := Get p in
    let r := match r with
             | Ret EmptyString => Err ("cannot get ip from " +:+ tag)
             | r => r
             end in
    (r, <[tag := p']> pools)
  end.

(** ** Invariant *)

Definition best_idx (p : IPPool) : list Z := take (Z.to_nat (curValidIPs p)) (bestIndexes p).
Definition best_wts (p : IPPool) : list Z := take (Z.to_nat (curValidIPs p)) (bestWeights p).
Definition zsum (l : list Z) : Z := foldr Z.add 0 l.

Record pool_ok (p : IPPool) : Prop := {
  po_top : 0 <= topIPCount p <= 255;
  po_valid : 0 <= curValidIPs p <= topIPCount p;
  po_idx_len : zlen (bestIndexes p) = topIPCount p;
  po_wts_len : zlen (bestWeights p) = topIPCount p;
  po_wts : Forall (fun w => 1 <= w <= 10000) (best_wts p);
  po_total : totalWeight p = zsum (best_wts p);
  po_idx : Forall (fun i => 0 <= i < zlen (ips p)) (best_idx p);
  po_counter : 0 <= counter p < 2 ^ 32;
  po_size : zlen (ips p) <= maxIPPoolSize
}.

Lemma zsum_bounds l : Forall (fun w => 1 <= w <= 10000) l -> zlen l <= zsum l <= 10000 * zlen l.
Proof.
  unfold zsum. induction 1 as [|w l Hw H IH]; [done|]. rewrite zlen_cons. simpl. lia.
Qed.

Lemma pool_lengths p : pool_ok p ->
  zlen (best_idx p) = curValidIPs p /\ zlen (best_wts p) = curValidIPs p.
Proof.
  intros []. unfold best_idx, best_wts, zlen in *. rewrite !length_take. lia.
Qed.

Lemma pool_total_bounds p : pool_ok p -> curValidIPs p <> 0 -> 1 <= totalWeight p < 2 ^ 32.
Proof.
  intros Hp Hv. destruct (pool_lengths p Hp) as [_ HL].
  pose proof (zsum_bounds _ (po_wts p Hp)). rewrite (po_total p Hp).
  pose proof (po_top p Hp). pose proof (po_valid p Hp). lia.
Qed.

(** ** Parsing *)


Lemma expand_prefix_bound p : forall f a acc acc', expand_prefix f p a acc = Some acc' ->
  zlen acc <= maxIPPoolSize -> zlen acc' <= maxIPPoolSize.
Proof.
  induction f as [|f IH]; intros a acc acc'; [done|]. cbn [expand_prefix].
  destruct (negb _); [by intros [= <-]|]. destruct (Z.leb_spec maxIPPoolSize (zlen acc)); [done|].
  assert (zlen (acc ++ [AddrString a]) <= maxIPPoolSize) by (rewrite zlen_app; change (zlen [_]) with 1; lia).
  destruct (Next a) as [b|]; [destruct (prefix_contains p b); [eauto|]|]; by intros [= <-].
Qed.

Lemma expand_prefix_S f p a acc : expand_prefix (S f) p a acc =
  if negb (prefix_contains p a) then Some acc
  else if maxIPPoolSize <=? zlen acc then None
  else match Next a with
       | Some next => if prefix_contains p next then expand_prefix f p next (acc ++ [AddrString a])
                      else Some (acc ++ [AddrString a])
       | None => Some (acc ++ [AddrString a])
       end.
Proof. done. Qed.

(** The fuel of [expand_prefix] is enough: the pool overflows first. *)
Lemma expand_prefix_fuel p : forall f a acc, zlen acc <= maxIPPoolSize ->
  maxIPPoolSize + 1 <= Z.of_nat f + zlen acc ->
  expand_prefix f p a acc = expand_prefix (S f) p a acc.
Proof.
  induction f as [|f IH]; intros a acc Hacc Hf; [unfold maxIPPoolSize in *; lia|].
  rewrite (expand_prefix_S (S f)), (expand_prefix_S f). destruct (negb _); [done|]. destruct (Z.leb_spec maxIPPoolSize (zlen acc)); [done|].
  destruct (Next a) as [b|]; [|done]. destruct (prefix_contains p b); [|done].
  apply IH; rewrite zlen_app; change (zlen [AddrString a]) with 1; lia.
Qed.

Definition is_addr (s : string) : Prop := is_Some (ParseAddr s).

Lemma plain_next a b : plain a -> Next a = Some b -> plain b.
Proof.
  unfold plain, addr_ok, Next. destruct a as [v|v z]; cbn [addr_val BitLen Zone]; intros [Hv Hz];
    zcase; intros [= <-]; cbn [addr_val BitLen Zone]; split; try done; lia.
Qed.

Lemma expand_prefix_addrs p : forall f a acc acc', plain a -> Forall is_addr acc ->
  expand_prefix f p a acc = Some acc' -> Forall is_addr acc'.
Proof.
  induction f as [|f IH]; intros a acc acc' Ha Hacc; [done|]. cbn [expand_prefix].
  destruct (negb _); [by intros [= <-]|]. destruct (maxIPPoolSize <=? zlen acc); [done|].
  assert (Forall is_addr (acc ++ [AddrString a])).
  { apply Forall_app_2; [done|]. apply Forall_singleton. unfold is_addr. rewrite ParseAddr_String; eauto. }
  destruct (Next a) as [b|] eqn:E; [|by intros [= <-]].
  destruct (prefix_contains p b); [|by intros [= <-]].
  apply IH; [by eapply plain_next|done].
Qed.

Lemma add_resolved_spec addrs : forall acc acc', Forall plain addrs -> Forall is_addr acc ->
  zlen acc <= maxIPPoolSize -> add_resolved addrs acc = Some acc' ->
  Forall is_addr acc' /\ zlen acc' <= maxIPPoolSize.
Proof.
  induction addrs as [|a addrs IH]; intros acc acc' Hp Hacc Hn; simpl; [by intros [= <-]|].
  apply Forall_cons in Hp as [Ha Hp]. destruct (Z.leb_spec maxIPPoolSize (zlen acc)); [done|].
  apply IH; [done| |rewrite zlen_app; change (zlen [AddrString a]) with 1; lia].
  apply Forall_app_2; [done|]. apply Forall_singleton. unfold is_addr. rewrite ParseAddr_String; eauto.
Qed.

Section parse_facts.
Context (LookupIP : string -> option (list Addr)).
Context (LookupIP_plain : forall s l, LookupIP s = Some l -> Forall plain l).

Lemma add_source_spec acc s acc' : Forall is_addr acc -> add_source LookupIP acc s = Ret acc' ->
  Forall is_addr acc' /\ zlen acc' <= maxIPPoolSize.
Proof.
  intros Hacc. unfold add_source. destruct (Z.leb_spec maxIPPoolSize (zlen acc)); [done|].
  destruct (ParseAddr s) as [a|] eqn:Ea.
  { intros [= <-]. split; [|rewrite zlen_app; change (zlen [s]) with 1; lia].
    apply Forall_app_2; [done|]. apply Forall_singleton. unfold is_addr. rewrite Ea. eauto. }
  destruct (ParsePrefix s) as [p|] eqn:Ep.
  - destruct (expand_prefix _ p (pAddr p) acc) as [r|] eqn:E; [|done]. intros [= <-].
    apply ParsePrefix_ok in Ep as [Hp _]. split; [by eapply expand_prefix_addrs|].
    eapply expand_prefix_bound; [done|lia].
  - destruct (LookupIP s) as [l|] eqn:El; [|done].
    destruct (add_resolved l acc) as [r|] eqn:E; [|done]. intros [= <-].
    eapply add_resolved_spec; [by eapply LookupIP_plain|done|lia|done].
Qed.

Lemma add_sources_spec l : forall acc acc', Forall is_addr acc -> zlen acc <= maxIPPoolSize ->
  add_sources LookupIP l acc = Ret acc' -> Forall is_addr acc' /\ zlen acc' <= maxIPPoolSize.
Proof.
  induction l as [|s l IH]; intros acc acc' Hacc Hn; cbn [add_sources]; [by intros [= <-]|].
  destruct (add_source LookupIP acc s) as [r| |] eqn:E; simpl; [|done..].
  apply add_source_spec in E as [? ?]; [|done]. by apply IH.
Qed.

(** A pool accepted by UnmarshalJSON has between 1 and 1000 entries, each a text
    that parses as an address, and starts in a state that satisfies the pool
    invariant, with nothing valid until the first scan; so in particular a CIDR or
    a resolved name never overfills it. *)
Theorem pool_UnmarshalJSON_ok tmp p :
  UnmarshalJSON LookupIP tmp = Ret p ->
  pool_ok p /\ 1 <= zlen (ips p) <= maxIPPoolSize /\ Forall is_addr (ips p) /\
  1 <= topIPCount p /\ 1 <= attempts p <= 255 /\ 1 <= pport p <= 65535 /\
  0 < timeout p /\ 0 < updateInterval p /\ 1 <= concurrency p /\ fst (Get p) = Ret ""%string.
Proof.
  unfold UnmarshalJSON, parseIPList. intros (l & El & H)%go_bind_Ret.
  apply add_sources_spec in El as [Ha Hn]; [|constructor|done].
  pose proof (zlen_nonneg l). destruct (Z.eqb_spec (zlen l) 0); [done|].
  destruct (maxIPPoolSize <? zlen l); [done|].
  destruct (Z.ltb_spec (zlen l) (tTopIPCount tmp)) as [|Htop]; [done|].
  destruct ((tPort tmp <=? 0) || (65535 <? tPort tmp)) eqn:Hp; [done|].
  apply go_bind_Ret in H as (c & Hc & H). apply go_bind_Ret in H as (t & Ht & H).
  apply go_bind_Ret in H as (a & Hat & H). apply go_bind_Ret in H as (tm & Htm & H).
  apply go_bind_Ret in H as (ui & Hui & H). injection H as <-.
  assert (1 <= c).
  { unfold defaultMaxConcurrency in *. destruct (tMaxConcurrency tmp =? 0); [simplify_eq; lia|].
    destruct (Z.ltb_spec (tMaxConcurrency tmp) 1); simplify_eq. lia. }
  assert (1 <= t <= 255).
  { unfold defaultTopIPCount in *. destruct (tTopIPCount tmp =? 0); [simplify_eq; lia|].
    destruct ((tTopIPCount tmp <=? 0) || (255 <? tTopIPCount tmp)) eqn:E; simpl in Ht; [done|].
    injection Ht as <-. lia. }
  assert (1 <= a <= 255).
  { unfold defaultAttempts in *. destruct (tAttempts tmp =? 0); [simplify_eq; lia|].
    destruct ((tAttempts tmp <=? 0) || (255 <? tAttempts tmp)) eqn:E; simplify_eq. lia. }
  assert (forall n s d x, 0 < d -> opt_duration n s d = Ret x -> 0 < x) as Hdur.
  { intros nm s d x Hd. unfold opt_duration. destruct (decide _); [by intros [= <-]|].
    destruct (ParseDuration s); [|done]. destruct (Z.leb_spec z 0); [done|]. by intros [= <-]. }
  apply Hdur in Htm, Hui; [|done..].
  cbn [ips topIPCount attempts pport timeout updateInterval concurrency].
  assert (u8 t = t /\ u8 a = a /\ u16 (tPort tmp) = tPort tmp) as (-> & -> & ->).
  { unfold u8, u16. rewrite !Z.mod_small by lia. done. }
  split_and!; try done; try lia.
  constructor; unfold best_wts, best_idx, zlen;
    cbn [ips topIPCount curValidIPs bestIndexes bestWeights totalWeight counter];
    rewrite ?length_replicate; try lia; try (change (Z.to_nat 0) with 0%nat; rewrite take_0); try done.
Qed.
End parse_facts.

Lemma pool_UnmarshalJSON_ok_witness :
  exists p, UnmarshalJSON (fun _ => None)
    (mkRawPool ["10.0.0.0/30"; "1.1.1.(1|2)"] 443 2 0 "500ms" "" 0) = Ret p /\ zlen (ips p) = 6 /\ pool_ok p.
Proof.
  eexists. split; [vm_compute; reflexivity|]. split; [vm_compute; reflexivity|].
  eapply (pool_UnmarshalJSON_ok (fun _ => None));
    [intros ?? [=]|instantiate (1 := mkRawPool ["10.0.0.0/30"; "1.1.1.(1|2)"] 443 2 0 "500ms" "" 0)].
  vm_compute. reflexivity.
Defined.

(** ** Weights *)

(** A canonical float64 that is a number. *)
Definition is_number (x : f64) : Prop :=
  match x with S754_nan => False | _ => valid_binary prec emax x = true end.

Lemma digits2_bounds m : 2 ^ (Z.pos (digits2_pos m) - 1) <= Z.pos m < 2 ^ Z.pos (digits2_pos m).
Proof.
  induction m as [m IH|m IH|]; [| |done]; cbn [digits2_pos];
    rewrite Pos2Z.inj_succ; replace (Z.succ (Z.pos (digits2_pos m)) - 1)
      with (Z.succ (Z.pos (digits2_pos m) - 1)) by lia;
    rewrite !Z.pow_succ_r by lia; lia.
Qed.

(** A canonical mantissa whose exponent is not the smallest one has 53 bits. *)
Lemma canonical_mantissa_bounds m e : canonical_mantissa prec emax m e = true -> -1074 < e ->
  2 ^ 52 <= Z.pos m < 2 ^ 53.
Proof.
  unfold canonical_mantissa, fexp, SpecFloat.emin, prec, emax. intros H%Z.eqb_eq He.
  assert (Z.pos (digits2_pos m) = 53) as D by lia.
  pose proof (digits2_bounds m) as B. by rewrite D in B.
Qed.

Lemma compare_cont_Eq a b : Pos.compare_cont Eq a b = Z.compare (Z.pos a) (Z.pos b).
Proof. done. Qed.

Lemma one_float : f_of_Z 1 = S754_finite false 4503599627370496 (-52).
Proof. vm_compute. reflexivity. Qed.
Lemma max_float : f_of_Z 10000 = S754_finite false 5497558138880000 (-39).
Proof. vm_compute. reflexivity. Qed.

Lemma trunc_range m e lo hi : e < 0 -> lo * 2 ^ (- e) <= Z.pos m < hi * 2 ^ (- e) ->
  lo <= f_trunc (S754_finite false m e) <= hi - 1.
Proof.
  intros He Hm. unfold f_trunc. rewrite (proj2 (Z.leb_gt 0 e)) by lia. split.
  - apply Z.div_le_lower_bound; lia.
  - pose proof (Z.div_lt_upper_bound (Z.pos m) (2 ^ (- e)) hi). lia.
Qed.

Lemma clamp_weight_range x : is_number x -> 1 <= clamp_weight x <= 10000.
Proof.
  intros H. unfold clamp_weight. rewrite one_float, max_float. unfold f_lt, SFltb.
  destruct x as [s|[]| |[] m e]; try done.
  cbn [SFcompare]. simpl in H. unfold bounded in H. apply andb_prop in H as [Hc _].
  destruct (Z.compare_spec e (-52)) as [->|Hl|Hg].
  - apply canonical_mantissa_bounds in Hc; [|lia]. rewrite compare_cont_Eq.
    pose proof (trunc_range m (-52) 1 2 ltac:(lia) ltac:(lia)).
    destruct (Z.compare_spec (Z.pos m) 4503599627370496); try lia;
      change (-39 ?= -52) with Gt; cbv iota; lia.
  - done.
  - apply canonical_mantissa_bounds in Hc; [|lia].
    destruct (Z.compare_spec (-39) e) as [<-|Hlt|Hgt]; [| lia |].
    + rewrite compare_cont_Eq. destruct (Z.compare_spec 5497558138880000 (Z.pos m)) as [E|E|E]; try lia;
        pose proof (trunc_range m (-39) 1 10001 ltac:(lia) ltac:(lia)); lia.
    + assert (2 ^ 40 <= 2 ^ (- e) <= 2 ^ 51) by (split; apply Z.pow_le_mono_r; lia).
      pose proof (trunc_range m e 1 10001 ltac:(lia) ltac:(lia)). lia.
Qed.

(** ** Ranking *)

(** A loss rate: zero or a positive canonical number. *)
Definition loss_ok (x : f64) : Prop :=
  match x with
  | S754_zero _ => True
  | S754_finite false m e => -1074 <= e
  | _ => False
  end.

(** Loss rates are ordered as the pairs of exponent and mantissa. *)
Definition loss_key (x : f64) : Z * Z :=
  match x with S754_finite _ m e => (e, Z.pos m) | _ => (-2000, 0) end.

Lemma loss_compare x y : loss_ok x -> loss_ok y ->
  let (e1, m1) := loss_key x in let (e2, m2) := loss_key y in
  (f_lt x y = true <-> e1 < e2 \/ (e1 = e2 /\ m1 < m2)) /\
  (f_eqb x y = true <-> e1 = e2 /\ m1 = m2).
Proof.
  unfold f_lt, f_eqb, SFltb, SFeqb.
  destruct x as [s| | |[] m e], y as [s'| | |[] m' e']; simpl; intros Hx Hy; try done.
  - split; lia.
  - split; [split; [lia|done]|split; [done|lia]].
  - split; [split; [done|lia]|split; [done|lia]].
  - rewrite compare_cont_Eq. destruct (Z.compare_spec e e') as [->|H|H]; [|split; split; lia || done..].
    destruct (Z.compare_spec (Z.pos m) (Z.pos m')); split; split; intros; try done; lia.
Qed.

Definition rank (r : ipResult) : Z * Z * Z := (loss_key (loss r), latency r).
Definition rank_lt (a b : ipResult) : Prop :=
  let '(e1, m1, l1) := rank a in let '(e2, m2, l2) := rank b in
  e1 < e2 \/ (e1 = e2 /\ (m1 < m2 \/ (m1 = m2 /\ l1 < l2))).

Lemma less_rank a b : loss_ok (loss a) -> loss_ok (loss b) -> less a b = true <-> rank_lt a b.
Proof.
  intros Ha Hb. unfold less, rank_lt, rank. pose proof (loss_compare _ _ Ha Hb) as H.
  destruct (loss_key (loss a)) as [e1 m1], (loss_key (loss b)) as [e2 m2]. destruct H as [H1 H2].
  destruct (f_eqb (loss a) (loss b)) eqn:E; simpl.
  - assert (e1 = e2 /\ m1 = m2) as [-> ->] by by apply H2. rewrite Z.ltb_lt. lia.
  - assert (~ (e1 = e2 /\ m1 = m2)) by (intros ?%H2; congruence). rewrite H1. lia.
Qed.

Lemma not_less_trans a b c : loss_ok (loss a) -> loss_ok (loss b) -> loss_ok (loss c) ->
  less b a = false -> less c b = false -> less c a = false.
Proof.
  intros Ha Hb Hc. rewrite <- !not_true_iff_false, !less_rank by done. unfold rank_lt, rank.
  destruct (loss_key (loss a)), (loss_key (loss b)), (loss_key (loss c)). lia.
Qed.

Lemma less_asym a b : loss_ok (loss a) -> loss_ok (loss b) -> less a b = true -> less b a = false.
Proof.
  intros Ha Hb. rewrite <- not_true_iff_false, !less_rank by done. unfold rank_lt, rank.
  destruct (loss_key (loss a)), (loss_key (loss b)). lia.
Qed.

(** Sorted: no element is better than one before it. *)
Definition ranked : list ipResult -> Prop := StronglySorted (fun a b => less b a = false).
Abbreviation losses_ok := (Forall (fun r => loss_ok (loss r))).

Lemma insert_perm x l : insert_sorted x l ≡ₚ x :: l.
Proof. induction l as [|y l IH]; simpl; [done|]. destruct (less x y); [done|]. rewrite IH. constructor. Qed.

Lemma insert_ranked x l : loss_ok (loss x) -> losses_ok l -> ranked l -> ranked (insert_sorted x l).
Proof.
  intros Hx Hl Hs. induction Hs as [|y l Hs IH Hy]; simpl; [by repeat constructor|].
  apply Forall_cons in Hl as [Hy' Hl]. destruct (less x y) eqn:E.
  - constructor; [by constructor|]. constructor; [by apply less_asym|].
    rewrite Forall_forall in Hy, Hl |- *. intros z Hz.
    eapply not_less_trans; [done|exact Hy'|by apply Hl|by apply less_asym|by apply Hy].
  - constructor; [by apply IH|]. rewrite insert_perm. by constructor.
Qed.

Lemma sort_perm_ranked l : losses_ok l -> sort_results l ≡ₚ l /\ ranked (sort_results l).
Proof.
  unfold sort_results. intros Hl.
  assert (forall acc, losses_ok acc -> ranked acc ->
    fold_left (fun a x => insert_sorted x a) l acc ≡ₚ l ++ acc /\
    ranked (fold_left (fun a x => insert_sorted x a) l acc)) as H.
  { induction Hl as [|x l Hx Hl IH]; intros acc Ha Hs; [done|]. simpl.
    destruct (IH (insert_sorted x acc)) as [H1 H2].
    - rewrite insert_perm. by constructor.
    - by apply insert_ranked.
    - split; [|done]. rewrite H1, insert_perm. by rewrite Permutation_middle. }
  destruct (H [] ltac:(constructor) ltac:(constructor)) as [H1 H2]. by rewrite app_nil_r in H1.
Qed.

Lemma ranked_split k d : ranked (k ++ d) -> forall x y, x ∈ k -> y ∈ d -> less y x = false.
Proof.
  induction k as [|z k IH]; intros Hs x y Hx Hy; [set_solver|].
  simpl in Hs. apply StronglySorted_inv in Hs as [Hs Hz]. apply elem_of_cons in Hx as [->|Hx].
  - rewrite Forall_forall in Hz. apply Hz. set_solver.
  - by eapply IH.
Qed.

Definition result_ok (p : IPPool) (r : ipResult) : Prop :=
  0 <= ipIndex r < zlen (ips p) /\ loss_ok (loss r) /\ is_number (raw_weight r).

Lemma take_overwrite {A} (src dst : list A) : take (length src) (overwrite src dst) = src.
Proof. unfold overwrite. apply take_app_length. Qed.

(** C15: updateBest keeps the pool invariant and keeps the best: of the measured
    results it retains as many as top_ip_count allows, no dropped result ranks
    before a kept one (less loss first, then less latency), and each kept address
    gets a weight between 1 and 10000, so the total weight Get divides by is
    positive. *)
Theorem updateBest_correct p results :
  pool_ok p -> results <> [] -> Forall (result_ok p) results -> 1 <= topIPCount p ->
  let p' := updateBest p results in
  pool_ok p' /\ 1 <= totalWeight p' /\
  exists kept dropped, kept ++ dropped ≡ₚ results /\
    length kept = Nat.min (Z.to_nat (topIPCount p)) (length results) /\
    best_idx p' = ipIndex <$> kept /\ best_wts p' = weight <$> kept /\
    Forall (fun w => 1 <= w <= 10000) (weight <$> kept) /\
    forall k d, k ∈ kept -> d ∈ dropped -> less d k = false.
Proof.
  intros Hp Hne Hr Htop. destruct results as [|r0 rs]; [done|]. cbv zeta. unfold updateBest.
  set (results := r0 :: rs) in *. set (n := Z.to_nat (topIPCount p)).
  destruct (sort_perm_ranked results) as [Hperm Hsort].
  { eapply Forall_impl; [done|]. by intros r (_ & ? & _). }
  set (s := sort_results results) in *. set (top := take n s).
  assert (length top = Nat.min n (length results)) as Hlen.
  { unfold top. by rewrite length_take, Hperm. }
  assert (Forall (result_ok p) top) as Htop_ok by (apply Forall_take; by rewrite Hperm).
  assert (length top <= n)%nat as Hle by lia.
  assert (Forall (fun w => 1 <= w <= 10000) (weight <$> top)) as Hw.
  { apply Forall_fmap. eapply Forall_impl; [done|]. intros r (_ & _ & ?). by apply clamp_weight_range. }
  assert (zlen (bestIndexes p) = topIPCount p) as HL by apply Hp.
  match goal with |- pool_ok ?q /\ _ => set (p' := q) end.
  assert (best_idx p' = ipIndex <$> top) as Hbi.
  { unfold best_idx, p'. cbn [curValidIPs bestIndexes]. unfold zlen. rewrite Nat2Z.id.
    rewrite <- (length_fmap ipIndex top). apply take_overwrite. }
  assert (best_wts p' = weight <$> top) as Hbw.
  { unfold best_wts, p'. cbn [curValidIPs bestWeights]. unfold zlen. rewrite Nat2Z.id.
    rewrite <- (length_fmap weight top). apply take_app_length. }
  split.
  { destruct Hp. constructor; rewrite ?Hbi, ?Hbw;
      cbn [p' topIPCount curValidIPs ips totalWeight counter bestIndexes bestWeights]; try done.
    - unfold zlen. lia.
    - unfold overwrite, zlen in *. rewrite length_app, length_drop, length_fmap. lia.
    - unfold zlen. rewrite length_app, length_replicate, length_fmap. lia.
    - apply Forall_fmap. eapply Forall_impl; [exact Htop_ok|]. by intros r (? & _). }
  split.
  { unfold p'. cbn [totalWeight]. fold (zsum (weight <$> top)). pose proof (zsum_bounds _ Hw) as B.
    unfold zlen in B. rewrite length_fmap in B. simpl length in Hlen. lia. }
  exists top, (drop n s). split_and!; try done.
  - unfold top. rewrite take_drop. done.
  - intros k d Hk Hd. eapply ranked_split; [|exact Hk|exact Hd]. unfold top. by rewrite take_drop.
Qed.

Definition w_pool : IPPool := mkPool ["a"; "b"; "c"] 443 2 4 1 1 1 [0; 0] [0; 0] 0 0 0.
Definition w_results : list ipResult :=
  [mkResult 0 5000000000 (f_of_Z 0); mkResult 1 20000000 (f_of_Z 0); mkResult 2 1000 (f_div (f_of_Z 1) (f_of_Z 4))].

Lemma w_pool_ok : pool_ok w_pool.
Proof. constructor; simpl; unfold zlen, maxIPPoolSize; simpl; try done; try lia; constructor. Qed.

Lemma w_results_ok : Forall (result_ok w_pool) w_results.
Proof.
  assert (forall r, bool_decide (0 <= ipIndex r < zlen (ips w_pool)) = true ->
    loss_ok (loss r) -> is_number (raw_weight r) -> result_ok w_pool r) as H.
  { intros r Hr ? ?. apply bool_decide_eq_true in Hr. done. }
  apply Forall_cons_2; [|apply Forall_cons_2; [|apply Forall_cons_2; [|apply Forall_nil_2]]];
    apply H; vm_compute; first [reflexivity|exact I|discriminate].
Qed.

Lemma updateBest_correct_witness :
  let p' := updateBest w_pool w_results in
  pool_ok p' /\ bestIndexes p' = [1; 0] /\ bestWeights p' = [499; 1] /\ totalWeight p' = 500.
Proof.
  split.
  - apply (updateBest_correct w_pool w_results w_pool_ok); [discriminate| |vm_compute; discriminate].
    apply w_results_ok.
  - vm_compute. repeat split; reflexivity.
Defined.

(** ** Round robin *)

(** Every index as often as its weight, in order. *)
Definition by_weight {A} (ws : list Z) (xs : list A) : list A :=
  mjoin (zip_with (fun w x => replicate (Z.to_nat w) x) ws xs).

Lemma pick_sequence ixs : forall ws acc, length ixs = length ws -> Forall (fun w => 0 <= w) ws ->
  (fun t => pick t acc ixs ws) <$> seqZ acc (zsum ws) = Some <$> by_weight ws ixs.
Proof.
  induction ixs as [|i ixs IH]; intros [|w ws] acc Hl Hw; try done.
  apply Forall_cons in Hw as [Hw Hws]. unfold by_weight. cbn [zip_with]. rewrite mjoin_cons, fmap_app.
  assert (0 <= zsum ws) by (clear -Hws; unfold zsum; induction Hws; simpl; lia).
  change (zsum (w :: ws)) with (w + zsum ws). rewrite seqZ_app, fmap_app by lia. f_equal.
  - rewrite fmap_replicate. apply (list_eq_same_length _ _ (Z.to_nat w)).
    + by rewrite length_replicate.
    + by rewrite length_fmap, length_seqZ.
    + intros j x y Hj. rewrite list_lookup_fmap, lookup_seqZ_lt, lookup_replicate_2 by lia.
      intros [= <-] [= <-]. cbn [pick]. by rewrite (proj2 (Z.ltb_lt _ _)) by lia.
  - assert (length ixs = length ws) as Hl' by (simpl in Hl; lia).
    pose proof (IH ws (acc + w) Hl' Hws) as E. unfold by_weight in E. rewrite <- E. apply list_fmap_ext.
    intros j t [Ht _]%lookup_seqZ. subst t. cbn [pick]. by rewrite (proj2 (Z.ltb_ge _ _)) by lia.
Qed.

(** A full turn of consecutive counters hits every residue once. *)
Lemma residues_perm c n : 0 < n -> (fun k => k mod n) <$> seqZ c n ≡ₚ seqZ 0 n.
Proof.
  intros Hn. apply NoDup_Permutation.
  - apply NoDup_fmap_2_strong; [|apply NoDup_seqZ].
    intros x y Hx%elem_of_seqZ Hy%elem_of_seqZ E.
    apply mod_cong_small in E; lia.
  - apply NoDup_seqZ.
  - intros x. rewrite list_elem_of_fmap. setoid_rewrite elem_of_seqZ. split.
    + intros (k & -> & Hk). pose proof (Z.mod_pos_bound k n). lia.
    + intros Hx. exists (c + (x - c) mod n). pose proof (Z.mod_pos_bound (x - c) n). split; [|lia].
      rewrite Z.add_mod_idemp_r by lia. replace (c + (x - c)) with x by lia. by rewrite Z.mod_small by lia.
Qed.

(** The addresses of [n] consecutive Get calls. *)
Fixpoint deals (n : nat) (p : IPPool) : list (go string) :=
  match n with
  | O => []
  | S n => let (r, p') := Get p in r :: deals n p'
  end.

Definition dealt (p : IPPool) (c : Z) : go string :=
  match pick (c mod totalWeight p) 0 (best_idx p) (best_wts p) with
  | Some i => idx (ips p) i
  | None => let! i := idx (best_idx p) 0 in idx (ips p) i
  end.

Lemma with_counter_ok p c : pool_ok p -> 0 <= c < 2 ^ 32 -> pool_ok (with_counter p c).
Proof. intros [] Hc. by constructor. Qed.

Lemma Get_eq p : pool_ok p -> curValidIPs p <> 0 ->
  Get p = (dealt p (counter p), with_counter p (u32 (counter p + 1))).
Proof.
  intros Hp Hv. unfold Get. rewrite (proj2 (Z.eqb_neq _ _)) by done. f_equal.
  pose proof (pool_total_bounds p Hp Hv). pose proof (po_valid p Hp).
  unfold slice_to. rewrite !slice_in_range by (rewrite ?(po_idx_len p Hp), ?(po_wts_len p Hp); lia).
  cbn [go_bind]. rewrite Z.sub_0_r. change (Z.to_nat 0) with 0%nat. rewrite !drop_0.
  fold (best_idx p). fold (best_wts p). unfold u32. rewrite (Z.mod_small (totalWeight p)) by lia.
  by rewrite (proj2 (Z.eqb_neq _ _)) by lia.
Qed.

Lemma deals_eq n : forall p, pool_ok p -> curValidIPs p <> 0 -> counter p + Z.of_nat n <= 2 ^ 32 ->
  deals n p = dealt p <$> seqZ (counter p) (Z.of_nat n).
Proof.
  induction n as [|n IH]; intros p Hp Hv Hc; [done|]. cbn [deals]. rewrite Get_eq by done.
  rewrite seqZ_cons by lia. cbn [fmap list_fmap]. f_equal.
  pose proof (po_counter p Hp) as Hc0. destruct n as [|n]; [done|].
  assert (u32 (counter p + 1) = counter p + 1) as Hu by (unfold u32; rewrite Z.mod_small; lia).
  rewrite IH.
  - cbn [counter with_counter]. rewrite Hu. f_equal. f_equal; lia.
  - apply with_counter_ok; [done|]. rewrite Hu. lia.
  - done.
  - cbn [counter with_counter]. rewrite Hu. lia.
Qed.

(** C16: Get is a fair weighted round robin: in any run of as many calls as the total
    weight (that does not cross the wrap of the 32-bit counter) each best address is
    returned exactly as many times as its weight, and no call panics or returns "". *)
Theorem Get_fair p :
  pool_ok p -> curValidIPs p <> 0 -> counter p + totalWeight p <= 2 ^ 32 ->
  Forall (fun s => s <> ""%string) (ips p) ->
  deals (Z.to_nat (totalWeight p)) p ≡ₚ by_weight (best_wts p) (idx (ips p) <$> best_idx p) /\
  Forall (fun r => exists s, r = Ret s /\ s ∈ ips p /\ s <> ""%string) (deals (Z.to_nat (totalWeight p)) p).
Proof.
  intros Hp Hv Hc Hne. pose proof (pool_total_bounds p Hp Hv) as Ht.
  assert (deals (Z.to_nat (totalWeight p)) p ≡ₚ by_weight (best_wts p) (idx (ips p) <$> best_idx p)) as Hperm.
  { rewrite deals_eq by (done || lia). rewrite Z2Nat.id by lia.
    assert (dealt p <$> seqZ (counter p) (totalWeight p) =
      (fun t => match pick t 0 (best_idx p) (best_wts p) with
                | Some i => idx (ips p) i
                | None => let! i := idx (best_idx p) 0 in idx (ips p) i
                end) <$> ((fun k => k mod totalWeight p) <$> seqZ (counter p) (totalWeight p))) as ->.
    { rewrite <- list_fmap_compose. done. }
    rewrite (residues_perm (counter p) (totalWeight p)) by lia.
    pose proof (pick_sequence (best_idx p) (best_wts p) 0) as P.
    destruct (pool_lengths p Hp) as [L1 L2]. rewrite <- (po_total p Hp) in P.
    rewrite (list_fmap_compose (fun t => pick t 0 (best_idx p) (best_wts p))
      (fun o => match o with Some i => idx (ips p) i
                | None => let! i := idx (best_idx p) 0 in idx (ips p) i end)).
    rewrite P.
    - apply reflexive_eq. unfold by_weight. rewrite <- list_fmap_compose.
      generalize (best_wts p) as ws, (best_idx p) as ixs. clear.
      intros ws ixs. revert ws. unfold compose. induction ixs as [|i ixs IH]; intros [|w ws]; try done.
      cbn [zip_with fmap list_fmap]. rewrite !mjoin_cons, fmap_app. f_equal; [|apply IH].
      by rewrite fmap_replicate.
    - unfold zlen in *. lia.
    - eapply Forall_impl; [apply (po_wts p Hp)|]. simpl. lia. }
  split; [done|]. rewrite Hperm. unfold by_weight.
  pose proof (po_idx p Hp) as Hi. revert Hi. generalize (best_wts p) as ws. generalize (best_idx p) as ixs.
  intros ixs ws Hi. revert ws. induction Hi as [|i ixs Hi H IH]; intros [|w ws]; try constructor.
  cbn [zip_with fmap list_fmap]. rewrite mjoin_cons. apply Forall_app_2; [|apply IH].
  apply Forall_replicate. destruct (idx_in_range (ips p) i Hi) as (s & -> & Hs). exists s.
  split; [done|]. apply list_elem_of_lookup_2 in Hs. split; [done|].
  rewrite Forall_forall in Hne. by apply Hne.
Qed.

Lemma Get_fair_witness :
  let p := mkPool ["a"; "b"] 443 2 4 1 1 1 [1; 0] [2; 1] 3 2 7 in
  deals 3 p = [Ret "b"; Ret "a"; Ret "b"]%string /\
  deals 3 p ≡ₚ [Ret "b"; Ret "b"; Ret "a"]%string.
Proof.
  intros p. split; [vm_compute; reflexivity|].
  refine (proj1 (Get_fair p _ _ _ _)); [|discriminate|vm_compute; discriminate|by repeat constructor].
  constructor; simpl; unfold zlen, maxIPPoolSize; simpl; try done; try lia; repeat constructor; done.
Defined.

End IPPool.
