(* ===== verification/Core.v ===== *)
(** * The shared state of the proxy core

    The package variables of src/internal that requests read and change (fake-IP
    stores, IP pools, DNS caches, recorded answers), the configuration LoadConfig
    leaves behind, and a state-and-error monad over them.  Each operation runs with
    one reading of the clock and one view of the network, which are parameters.

    The LRU cache is a vendored third-party package: an interface with the laws the
    code relies on, and a plain map as an instance. *)

From S2P Require Import Prelude GoStrings NetIP FakeIP Policy Route IPPool.

(** ** The cache interface *)

(** go-freelru: [Get] may miss what was added (eviction, expiry) but returns only
    what was last added for the key and not yet expired. *)
Class LRU := {
  lru : Type;
  lru_empty : lru;
  lru_get : lru -> Z -> string -> option string * lru;
  lru_add : lru -> Z -> string -> string -> Z -> lru;
  lru_get_empty : forall t k, fst (lru_get lru_empty t k) = None;
  lru_get_add : forall c t k v life t' w, fst (lru_get (lru_add c t k v life) t' k) = Some w -> w = v;
  lru_get_add_ne : forall c t k v life t' k' w, k <> k' ->
    fst (lru_get (lru_add c t k v life) t' k') = Some w -> fst (lru_get c t' k') = Some w;
  lru_get_get : forall c t k t' k' w,
    fst (lru_get (snd (lru_get c t k)) t' k') = Some w -> fst (lru_get c t' k') = Some w
}.

(** A cache that never evicts. *)
Definition map_lru : LRU.
Proof.
  refine {| lru := gmap string (string * Z); lru_empty := ∅;
            lru_get := fun c t k =>
              (match c !! k with Some (v, e) => if t <? e then Some v else None | None => None end, c);
            lru_add := fun c t k v life => <[k := (v, t + life)]> c |}.
  - intros t k. simpl. by rewrite lookup_empty.
  - intros c t k v life t' w. simpl. rewrite lookup_insert_eq. destruct (_ <? _); naive_solver.
  - intros c t k v life t' k' w Hk. simpl. by rewrite lookup_insert_ne.
  - done.
Defined.

(** ** DNS messages (miekg/dns), as far as the core looks at them

    The identifier and the flag bits of a message are only copied along and are left out. *)

Record RRHdr := mkHdr { rName : string; Rrtype : Z; rClass : Z; rTtl : Z }.

(** An address field: the 16-byte number of a [net.IP], [None] for nil. *)
Inductive RR :=
| RR_A (h : RRHdr) (ip : option Z)
| RR_AAAA (h : RRHdr) (ip : option Z)
| RR_CNAME (h : RRHdr) (target : string)
| RR_HTTPS (h : RRHdr)
| RR_SVCB (h : RRHdr)
| RR_Other (h : RRHdr).

(** [rr.Header()], which is never nil. *)
Definition Header (r : RR) : RRHdr :=
  match r with
  | RR_A h _ | RR_AAAA h _ | RR_CNAME h _ | RR_HTTPS h | RR_SVCB h | RR_Other h => h
  end.

Record Question := mkQuestion { qName : string; Qtype : Z; Qclass : Z }.
Record Msg := mkMsg {
  Rcode : Z; msgQuestion : list Question; Answer : list RR; Ns : list RR; Extra : list RR
}.

Definition RcodeSuccess : Z := 0.
Definition ClassINET : Z := 1.
Definition TypeHTTPS : Z := 65.

(** The name tables of miekg/dns. *)
Class DNSNames := { RcodeToString : Z -> string; TypeToString : Z -> string }.

(** [net.IP.String]. *)
Definition ip_string (ip : option Z) : string :=
  match ip with Some z => IPString z | None => "<nil>" end.

(** ** State *)

Import FakeIP Policy IPPool.

(** dns.go: [type recordedDNSResult]. *)
Record recordedDNSResult := mkRecorded {
  r_ipv4 : string; r_ipv4Expire : Z; r_ipv6 : string; r_ipv6Expire : Z
}.

Section core.
Context {L : LRU}.

Record core := mkCore {
  fakes : fakeStores;
  pools : gmap string IPPool;
  dnsCache : option lru;
  ipDomainCache : option lru;
  recordedDNSIPs : gmap string recordedDNSResult
}.

Definition set_fakes (c : core) (g : fakeStores) : core :=
  mkCore g (pools c) (dnsCache c) (ipDomainCache c) (recordedDNSIPs c).
Definition set_pools (c : core) (p : gmap string IPPool) : core :=
  mkCore (fakes c) p (dnsCache c) (ipDomainCache c) (recordedDNSIPs c).
Definition set_dnsCache (c : core) (l : option lru) : core :=
  mkCore (fakes c) (pools c) l (ipDomainCache c) (recordedDNSIPs c).
Definition set_ipDomainCache (c : core) (l : option lru) : core :=
  mkCore (fakes c) (pools c) (dnsCache c) l (recordedDNSIPs c).
Definition set_recorded (c : core) (r : gmap string recordedDNSResult) : core :=
  mkCore (fakes c) (pools c) (dnsCache c) (ipDomainCache c) r.

(** ** The monad *)

Definition M (A : Type) : Type := core -> go A * core.

Definition ret {A} (a : A) : M A := fun c => (Ret a, c).
Definition fail {A} (e : string) : M A := fun c => (Err e, c).
Definition bind {A B} (m : M A) (k : A -> M B) : M B := fun c =>
  match m c with
  | (Ret a, c) => k a c
  | (Err e, c) => (Err e, c)
  | (Panic, c) => (Panic, c)
  end.
Definition lift {A} (m : go A) : M A := fun c => (m, c).
Definition gets {A} (f : core -> A) : M A := fun c => (Ret (f c), c).
Definition modify (f : core -> core) : M unit := fun c => (Ret tt, f c).

(** [x, err := m]: the error becomes a value. *)
Definition attempt {A} (m : M A) : M (A + string) := fun c =>
  match m c with
  | (Ret a, c) => (Ret (inl a), c)
  | (Err e, c) => (Ret (inr e), c)
  | (Panic, c) => (Panic, c)
  end.
(** [if err != nil { return f(err) }]. *)
Definition mapErr {A} (f : string -> string) (m : M A) : M A := fun c =>
  match m c with
  | (Err e, c) => (Err (f e), c)
  | r => r
  end.
End core.

Declare Scope core_scope.
Delimit Scope core_scope with core.
Notation "x <- m ; k" := (bind m (fun x => k))
  (at level 100, m at level 90, k at level 200, right associativity) : core_scope.
Notation "m ;; k" := (bind m (fun _ => k))
  (at level 100, k at level 200, right associativity) : core_scope.
#[global] Open Scope core_scope.

(** ** Configuration and surroundings *)

(** The values of package variables only LoadConfig sets. *)
Record config := mkConfig {
  defaultPolicy : Policy;
  routes : Route.rules;
  dnsCacheTTL : Z
}.

(** The clock and the network during one operation: the upstream DNS exchange and
    the system resolver used for bootstrap. *)
Record world := mkWorld {
  now : Z;
  dnsExchange : Msg -> go Msg;
  bootstrapLookupIP : string -> go (list (option Z))
}.

Lemma bind_Ret {L : LRU} {A B} (m : M A) (k : A -> M B) c b c' :
  bind m k c = (Ret b, c') <-> exists a c1, m c = (Ret a, c1) /\ k a c1 = (Ret b, c').
Proof. unfold bind. destruct (m c) as [[a|e|] c1]; naive_solver. Qed.

Lemma bind_step {L : LRU} {A B} (m : M A) (k : A -> M B) c a c1 :
  m c = (Ret a, c1) -> bind m k c = k a c1.
Proof. unfold bind. by intros ->. Qed.
