(* ===== verification/Dns.v ===== *)
(** * DNS (src/internal/dns.go, resolver.go)

    Resolution with its caches, the recorded answers, and the hijacked DNS queries
    the VPN answers with fake addresses.  The upstream exchange is a parameter of
    the world.  Log lines are not modelled.  singleflight merges concurrent calls
    with equal keys and is the plain call for one caller. *)

From S2P Require Import Prelude GoStrings Conn NetIP FakeIP AddrTrie Policy Route Core.

Module Dns.
Import FakeIP AddrTrie Policy Route.

Fixpoint pickFirstARecord (answer : list RR) : option Z :=
  match answer with
  | [] => None
  | RR_A _ ip :: _ => ip
  | _ :: answer => pickFirstARecord answer
  end.

Fixpoint pickFirstAAAARecord (answer : list RR) : option Z :=
  match answer with
  | [] => None
  | RR_AAAA _ ip :: _ => ip
  | _ :: answer => pickFirstAAAARecord answer
  end.

(** [msg.SetQuestion(name, qtype)] of a new message. *)
Definition SetQuestion (name : string) (qtype : Z) : Msg :=
  mkMsg 0 [mkQuestion name qtype ClassINET] [] [] [].
Definition emptyMsg : Msg := mkMsg 0 [] [] [] [].

Definition ttlOrDefault (ttl : Z) : Z := if ttl =? 0 then 300 else ttl.

(** [time.Time{}] in nanoseconds of the Unix clock. *)
Definition zeroTime : Z := -62135596800 * second.

(** buildFakeAnswerRR; [net.IP.To4] is non-nil for IPv4-mapped values only. *)
Definition buildFakeAnswerRR (header : RRHdr) (fakeIP : string) : go RR :=
  let ttl := if rTtl header =? 0 then defaultFakeTTL else rTtl header in
  if Rrtype header =? TypeA then
    match ParseIP fakeIP with
    | Some ip =>
      if is4in6 ip then Ret (RR_A (mkHdr (rName header) TypeA (rClass header) ttl) (Some ip))
      else Err "invalid fake ipv4 address"
    | None => Err "invalid fake ipv4 address"
    end
  else if Rrtype header =? TypeAAAA then
    match ParseIP fakeIP with
    | Some ip =>
      if is4in6 ip then Err "invalid fake ipv6 address"
      else Ret (RR_AAAA (mkHdr (rName header) TypeAAAA (rClass header) ttl) (Some ip))
    | None => Err "invalid fake ipv6 address"
    end
  else Err "unsupported fake answer type".

Definition buildQuestionFakeAnswerRR (question : Question) (fakeIP : string) (ttl : Z) : go RR :=
  buildFakeAnswerRR (mkHdr (qName question) (Qtype question) (Qclass question) ttl) fakeIP.

(** The closure [consider] of fallbackFakeTTL. *)
Definition consider (minTTL : Z) (rrs : list RR) : Z :=
  fold_left (fun minTTL rr =>
    let ttl := rTtl (Header rr) in
    if ttl =? 0 then minTTL
    else if (minTTL =? 0) || (ttl <? minTTL) then ttl else minTTL) rrs minTTL.

Definition fallbackFakeTTL (resp : Msg) : Z :=
  let minTTL := consider (consider (consider 0 (Answer resp)) (Ns resp)) (Extra resp) in
  if minTTL =? 0 then defaultFakeTTL else minTTL.

Definition stringOrDefault (value : option string) : string :=
  match value with None | Some EmptyString => "-" | Some s => s end.

Definition boolToText (value : bool) : string := if value then "true" else "false".

Section names.
Context {names : DNSNames}.

Definition type_name (t : Z) : string :=
  let name := TypeToString t in
  if decide (name = "")%string then ("TYPE" +:+ Itoa t)%string else name.

Definition summarize_part (rr : RR) : string :=
  match rr with
  | RR_A _ ip => "A=" +:+ ip_string ip
  | RR_AAAA _ ip => "AAAA=" +:+ ip_string ip
  | RR_CNAME _ target => "CNAME=" +:+ target
  | RR_HTTPS _ => "HTTPS"
  | RR_SVCB _ => "SVCB"
  | RR_Other h => type_name (Rrtype h)
  end.

Definition summarizeDNSAnswerSet (answer : list RR) : string :=
  if zlen answer =? 0 then "none"
  else
    let limit := if 4 <? zlen answer then 4 else zlen answer in
    let result := Join (summarize_part <$> take (Z.to_nat limit) answer) "," in
    if limit <? zlen answer then (result +:+ ",+" +:+ Itoa (zlen answer - limit))%string else result.
End names.

Section operations.
Context {L : LRU} {ord : RangeOrder} {names : DNSNames} (cfg : config) (w : world).

Definition rememberDomainIPMapping (domain ip : string) : M unit := fun c =>
  if decide (domain = "" \/ ip = "")%string then (Ret tt, c)
  else match ipDomainCache c with
       | None => (Ret tt, c)
       | Some cache => (Ret tt, set_ipDomainCache c (Some (lru_add cache (now w) ip domain (dnsCacheTTL cfg))))
       end.

(** [dnsCache.AddWithLifetime], [dnsCache.Get] of a cache that may be nil. *)
Definition cache_add (domain ip : string) : M unit := fun c =>
  match dnsCache c with
  | None => (Ret tt, c)
  | Some cache => (Ret tt, set_dnsCache c (Some (lru_add cache (now w) domain ip (dnsCacheTTL cfg))))
  end.
Definition cache_get (domain : string) : M (option string) := fun c =>
  match dnsCache c with
  | None => (Ret None, c)
  | Some cache => let (r, cache) := lru_get cache (now w) domain in (Ret r, set_dnsCache c (Some cache))
  end.

(** One exchange whose answer must have a good rcode. *)
Definition exchange_ok (wrapErr : string -> string) (msg : Msg) : M (list RR) :=
  resp <- mapErr wrapErr (lift (dnsExchange w msg)) ;
  if Rcode resp =? RcodeSuccess then ret (Answer resp)
  else fail ("bad rcode: " +:+ RcodeToString (Rcode resp)).

(** The record of the first answer, or of a second question of the other family;
    [fmt.Errorf("%w; %w", err, err2)] prints the nil [err]. *)
Definition first_or (ip : option Z) (pick : list RR -> option Z) (msg : Msg) : M (option Z) :=
  match ip with
  | Some _ => ret ip
  | None =>
    answer <- exchange_ok (fun err2 => "dns exchange: %!w(<nil>); " +:+ err2) msg ;
    match pick answer with
    | None => fail "record not found"
    | Some ip => ret (Some ip)
    end
  end.

Definition doDNSResolve (domain : string) (dnsMode : DNSMode) : M string :=
  let name := (domain +:+ ".")%string in
  let msg := match dnsMode with
             | DNSModePreferIPv4 | DNSModeIPv4Only => SetQuestion name TypeA
             | DNSModePreferIPv6 | DNSModeIPv6Only => SetQuestion name TypeAAAA
             | DNSModeUnknown => emptyMsg
             end in
  answer <- exchange_ok (wrap "dns exchange") msg ;
  ip <- (match dnsMode with
         | DNSModeIPv4Only =>
           match pickFirstARecord answer with None => fail "A record not found" | ip => ret ip end
         | DNSModeIPv6Only =>
           match pickFirstAAAARecord answer with None => fail "AAAA record not found" | ip => ret ip end
         | DNSModePreferIPv4 =>
           first_or (pickFirstARecord answer) pickFirstAAAARecord (SetQuestion name TypeAAAA)
         | DNSModePreferIPv6 =>
           first_or (pickFirstAAAARecord answer) pickFirstARecord (SetQuestion name TypeA)
         | DNSModeUnknown => ret None
         end) ;
  let ipStr := ip_string ip in
  cache_add domain ipStr ;;
  rememberDomainIPMapping domain ipStr ;;
  ret ipStr.

(** The address and whether it came from the cache. *)
Definition dnsResolve (domain : string) (dnsMode : DNSMode) : M (string * bool) :=
  hit <- cache_get domain ;
  match hit with
  | Some ip => ret (ip, true)
  | None => ip <- doDNSResolve domain dnsMode ; ret (ip, false)
  end.

(** The loop of rememberRecordedDNSAnswers. *)
Fixpoint record_answers (domain : string) (answers : list RR) (entry : recordedDNSResult)
    : M recordedDNSResult :=
  match answers with
  | [] => ret entry
  | RR_A h ip :: answers =>
    let expire := now w + i64 (ttlOrDefault (rTtl h) * second) in
    let entry := mkRecorded (ip_string ip) expire (r_ipv6 entry) (r_ipv6Expire entry) in
    rememberDomainIPMapping domain (r_ipv4 entry) ;; record_answers domain answers entry
  | RR_AAAA h ip :: answers =>
    let expire := now w + i64 (ttlOrDefault (rTtl h) * second) in
    let entry := mkRecorded (r_ipv4 entry) (r_ipv4Expire entry) (ip_string ip) expire in
    rememberDomainIPMapping domain (r_ipv6 entry) ;; record_answers domain answers entry
  | _ :: answers => record_answers domain answers entry
  end.

Definition noRecord : recordedDNSResult := mkRecorded "" zeroTime "" zeroTime.

Definition rememberRecordedDNSAnswers (domain : string) (answers : list RR) : M unit :=
  if decide (domain = "" \/ answers = [])%string then ret tt
  else
    let domain := ToLower domain in
    recorded <- gets recordedDNSIPs ;
    entry <- record_answers domain answers (default noRecord (recorded !! domain)) ;
    if decide (r_ipv4 entry = "" /\ r_ipv6 entry = "")%string then ret tt
    else modify (fun c => set_recorded c (<[domain := entry]> (recordedDNSIPs c))).

Definition lookupRecordedDNSIP (domain : string) (dnsMode : DNSMode) : M (option string) := fun c =>
  if decide (domain = "")%string then (Ret None, c)
  else
    let domain := ToLower domain in
    match recordedDNSIPs c !! domain with
    | None => (Ret None, c)
    | Some entry =>
      let ipv4Valid := negb (bool_decide (r_ipv4 entry = "")%string) && (now w <? r_ipv4Expire entry) in
      let ipv6Valid := negb (bool_decide (r_ipv6 entry = "")%string) && (now w <? r_ipv6Expire entry) in
      let entry := mkRecorded
        (if ipv4Valid then r_ipv4 entry else "") (if ipv4Valid then r_ipv4Expire entry else zeroTime)
        (if ipv6Valid then r_ipv6 entry else "") (if ipv6Valid then r_ipv6Expire entry else zeroTime) in
      if decide (r_ipv4 entry = "" /\ r_ipv6 entry = "")%string
      then (Ret None, set_recorded c (delete domain (recordedDNSIPs c)))
      else
        let v4 := if ipv4Valid then Some (r_ipv4 entry) else None in
        let v6 := if ipv6Valid then Some (r_ipv6 entry) else None in
        let r := match dnsMode with
                 | DNSModeIPv4Only => v4
                 | DNSModeIPv6Only => v6
                 | DNSModePreferIPv6 => match v6 with Some _ => v6 | None => v4 end
                 | _ => match v4 with Some _ => v4 | None => v6 end
                 end in
        (Ret r, set_recorded c (<[domain := entry]> (recordedDNSIPs c)))
    end.

Definition lookupDomainByIP (ip : string) : M (option string) := fun c =>
  let (d, g) := lookupFakeDomainByIP (fakes c) (now w) ip in
  let c := set_fakes c g in
  match d with
  | Some domain => (Ret (Some domain), c)
  | None =>
    if decide (ip = "")%string then (Ret None, c)
    else match ipDomainCache c with
         | None => (Ret None, c)
         | Some cache =>
           let (r, cache) := lru_get cache (now w) ip in (Ret r, set_ipDomainCache c (Some cache))
         end
  end.

(** fake_ip.go: allocateFakeIP on the package's stores. *)
Definition allocate (domain : string) (qtype ttl : Z) : M string := fun c =>
  match allocateFakeIP (fakes c) (now w) (dnsCacheTTL cfg) domain qtype ttl with
  | Some (r, g) => (r, set_fakes c g)
  | None => (Panic, c)
  end.

(** The loop of buildFakeAddressResponse: the reply's answers so far, the names
    already replaced, the fake address once allocated, [replaced]. *)
Fixpoint fake_loop (domain : string) (qtype : Z) (answer : list RR) (acc : list RR)
    (replacedNames : gset string) (fakeIP : string) (replaced : bool) : M (list RR * bool) :=
  match answer with
  | [] => ret (acc, replaced)
  | rr :: answer =>
    let header := Header rr in
    if negb (Rrtype header =? qtype)
    then fake_loop domain qtype answer (acc ++ [rr]) replacedNames fakeIP replaced
    else
      fakeIP <- (if decide (fakeIP = "")%string
                 then mapErr (wrap "allocate fake ip") (allocate domain qtype (rTtl header))
                 else ret fakeIP) ;
      if decide (rName header ∈ replacedNames)
      then fake_loop domain qtype answer acc replacedNames fakeIP true
      else
        fakeRR <- lift (buildFakeAnswerRR header fakeIP) ;
        fake_loop domain qtype answer (acc ++ [fakeRR]) ({[rName header]} ∪ replacedNames) fakeIP true
  end.

Definition with_answer (m : Msg) (answer : list RR) : Msg :=
  mkMsg (Rcode m) (msgQuestion m) answer (Ns m) (Extra m).

Definition buildFakeAddressResponse (req : Msg) (domain : string) (qtype : Z) : M Msg :=
  upstreamResp <- mapErr (wrap "upstream dns exchange") (lift (dnsExchange w req)) ;
  if negb (Rcode upstreamResp =? RcodeSuccess) then ret upstreamResp
  else
    rememberRecordedDNSAnswers domain (Answer upstreamResp) ;;
    if negb (shouldUseFakeIP (routes cfg) domain) then ret upstreamResp
    else
      r <- fake_loop domain qtype (Answer upstreamResp) [] ∅ "" false ;
      if snd r then ret (with_answer upstreamResp (fst r))
      else match msgQuestion req with
           | [] => ret upstreamResp
           | question :: _ =>
             let ttl := fallbackFakeTTL upstreamResp in
             fakeIP <- mapErr (wrap "allocate fallback fake ip") (allocate domain qtype ttl) ;
             fakeRR <- lift (buildQuestionFakeAnswerRR question fakeIP ttl) ;
             ret (with_answer upstreamResp [fakeRR])
           end.

Definition handleDNSQuery (req : Msg) : M Msg :=
  match msgQuestion req with
  | [question] =>
    if negb (Qclass question =? ClassINET) then lift (dnsExchange w req)
    else
      let domain := ToLower (TrimSuffix1 (qName question) ".") in
      if Qtype question =? TypeHTTPS then lift (dnsExchange w req)
      else if Qtype question =? TypeA then buildFakeAddressResponse req domain TypeA
      else if Qtype question =? TypeAAAA then buildFakeAddressResponse req domain TypeAAAA
      else lift (dnsExchange w req)
  | _ => lift (dnsExchange w req)
  end.

(** HandleDNSQueryPacket, with the wire codec of miekg/dns as a parameter. *)
Definition HandleDNSQueryPacket (Unpack : bytes -> go Msg) (Pack : Msg -> go bytes) (payload : bytes)
    : M bytes :=
  req <- mapErr (wrap "unpack hijacked dns request") (lift (Unpack payload)) ;
  resp <- handleDNSQuery req ;
  mapErr (wrap "pack hijacked dns response") (lift (Pack resp)).

(** resolver.go: coreResolver. *)
Definition Resolve (domain : string) (dnsMode : DNSMode) : M (string * bool) :=
  r <- dnsResolve domain dnsMode ;
  rememberDomainIPMapping domain (fst r) ;;
  ret r.
Definition Remember (domain ip : string) : M unit := rememberDomainIPMapping domain ip.
Definition LookupDomain (ip : string) : M (option string) := lookupDomainByIP ip.
End operations.

(** ** Fake replies *)

(** The record that stands for a fake address in a reply. *)
Definition fake_rr (h : RRHdr) (a : Addr) : RR :=
  let h := mkHdr (rName h) (Rrtype h) (rClass h) (if rTtl h =? 0 then defaultFakeTTL else rTtl h) in
  if Rrtype h =? TypeA then RR_A h (Some (As16 a)) else RR_AAAA h (Some (As16 a)).

Definition of_type (qtype : Z) (rr : RR) : Prop := Rrtype (Header rr) = qtype.
#[global] Instance of_type_dec qtype rr : Decision (of_type qtype rr) := decide (_ = _).

(** The answers with those of [qtype] replaced, the first of each name only. *)
Fixpoint faked (qtype : Z) (a : Addr) (seen : gset string) (l : list RR) : list RR :=
  match l with
  | [] => []
  | rr :: l =>
    if decide (of_type qtype rr) then
      if decide (rName (Header rr) ∈ seen) then faked qtype a seen l
      else fake_rr (Header rr) a :: faked qtype a ({[rName (Header rr)]} ∪ seen) l
    else rr :: faked qtype a seen l
  end.

Lemma fake_rr_header h a : Header (fake_rr h a) =
  mkHdr (rName h) (Rrtype h) (rClass h) (if rTtl h =? 0 then defaultFakeTTL else rTtl h).
Proof. unfold fake_rr. simpl. by destruct (Rrtype h =? TypeA). Qed.

Lemma faked_others qtype a l : forall seen,
  filter (fun rr => ~ of_type qtype rr) (faked qtype a seen l) = filter (fun rr => ~ of_type qtype rr) l.
Proof.
  induction l as [|rr l IH]; intros seen; [done|]. cbn [faked]. rewrite filter_cons.
  destruct (decide (of_type qtype rr)) as [Ht|Ht].
  - rewrite (decide_False (P := ~ _)) by naive_solver. destruct (decide _); [apply IH|].
    rewrite filter_cons, decide_False; [apply IH|]. unfold of_type. rewrite fake_rr_header. naive_solver.
  - rewrite filter_cons, !(decide_True (P := ~ _)) by done. by rewrite IH.
Qed.

Lemma faked_typed qtype a l : forall seen,
  exists hs, filter (of_type qtype) (faked qtype a seen l) = (fun h => fake_rr h a) <$> hs /\
    (forall h, h ∈ hs -> exists rr, rr ∈ l /\ of_type qtype rr /\ h = Header rr) /\
    NoDup (rName <$> hs) /\
    (forall n, n ∈ rName <$> hs <-> n ∉ seen /\ exists rr, rr ∈ l /\ of_type qtype rr /\ rName (Header rr) = n).
Proof.
  induction l as [|rr l IH]; intros seen.
  { exists []. split; [done|]. split; [set_solver|]. split; [constructor|]. set_solver. }
  cbn [faked]. destruct (decide (of_type qtype rr)) as [Ht|Ht]; [destruct (decide _) as [Hs|Hs]|].
  - destruct (IH seen) as (hs & E & H1 & H2 & H3). exists hs. split; [done|]. split; [set_solver|].
    split; [done|]. intros n. rewrite H3. split; [set_solver|].
    intros (? & rr' & [-> |?]%elem_of_cons & ? & <-); [done|set_solver].
  - destruct (IH ({[rName (Header rr)]} ∪ seen)) as (hs & E & H1 & H2 & H3). exists (Header rr :: hs).
    rewrite filter_cons, decide_True by (unfold of_type; by rewrite fake_rr_header). rewrite E.
    split; [done|]. split; [set_solver|]. split.
    { cbn [fmap list_fmap]. constructor; [|done]. rewrite H3. set_solver. }
    intros n. cbn [fmap list_fmap]. rewrite elem_of_cons, H3. split; [set_solver|].
    intros (Hn & rr' & [-> |?]%elem_of_cons & ? & <-); [by left|].
    destruct (decide (rName (Header rr') = rName (Header rr))); [by left|right; set_solver].
  - destruct (IH seen) as (hs & E & H1 & H2 & H3). exists hs.
    rewrite filter_cons, decide_False by done. split; [done|]. split; [set_solver|].
    split; [done|]. intros n. rewrite H3. split; [set_solver|].
    intros (? & rr' & [-> |?]%elem_of_cons & ? & <-); [done|set_solver].
Qed.

Lemma buildFakeAnswerRR_fake h a qtype : fake_addr qtype a -> Rrtype h = qtype ->
  qtype = TypeA \/ qtype = TypeAAAA -> buildFakeAnswerRR h (AddrString a) = Ret (fake_rr h a).
Proof.
  intros Hf Ht Hq. destruct (fake_addr_As16 _ _ Hf) as [E _]. pose proof (proj1 Hf) as Hp.
  unfold buildFakeAnswerRR, fake_rr. rewrite ParseIP_String by done. cbv zeta.
  rewrite Ht, E. by destruct Hq as [-> | ->].
Qed.

Lemma AddrString_nonempty a : plain a -> AddrString a <> ""%string.
Proof. intros Ha E. pose proof (ParseAddr_String a Ha) as H. by rewrite E in H. Qed.


Section replies.
Context {L : LRU} {ord : RangeOrder} {names : DNSNames} (cfg : config) (w : world).

(** With an address in hand the loop rewrites the rest of the answers. *)
Lemma fake_loop_faked d qtype a l : fake_addr qtype a -> qtype = TypeA \/ qtype = TypeAAAA ->
  forall acc seen replaced c,
  fake_loop cfg w d qtype l acc seen (AddrString a) replaced c =
  (Ret (acc ++ faked qtype a seen l, replaced || bool_decide (Exists (of_type qtype) l)), c).
Proof.
  intros Hf Hq. pose proof (AddrString_nonempty a (proj1 Hf)) as Hne.
  induction l as [|rr l IH]; intros acc seen replaced c; cbn [fake_loop faked].
  { by rewrite app_nil_r, orb_false_r. }
  destruct (decide (of_type qtype rr)) as [Ht|Ht]; unfold of_type in Ht.
  - rewrite (proj2 (Z.eqb_eq _ _) Ht). cbn [negb]. rewrite decide_False by done.
    unfold bind at 1. cbn [ret].
    rewrite (bool_decide_eq_true_2 (Exists (of_type qtype) (rr :: l))) by (by constructor 1).
    rewrite orb_true_r. destruct (decide _).
    + rewrite IH. by rewrite orb_true_l.
    + rewrite (buildFakeAnswerRR_fake _ _ qtype) by done. unfold bind, lift.
      rewrite IH. by rewrite orb_true_l, <- app_assoc.
  - rewrite (proj2 (Z.eqb_neq _ _) Ht). cbn [negb]. rewrite IH, <- app_assoc.
    do 3 f_equal. f_equal. apply bool_decide_ext. rewrite Exists_cons. naive_solver.
Qed.

(** The whole loop: nothing to replace, an exhausted pool, or one address. *)
Lemma fake_loop_spec d qtype l : qtype = TypeA \/ qtype = TypeAAAA -> ToLower d = d -> d <> ""%string ->
  forall acc c, stores_ok (fakes c) -> Forall (fun rr => 0 <= rTtl (Header rr) < 2 ^ 32) l ->
  match list_find (of_type qtype) l with
  | None => fake_loop cfg w d qtype l acc ∅ "" false c = (Ret (acc ++ l, false), c)
  | Some (_, rr) =>
    exists g, stores_ok g /\
    (fake_loop cfg w d qtype l acc ∅ "" false c =
       (Err (wrap "allocate fake ip" "fake ip pool exhausted"), set_fakes c g) \/
     exists a, fake_addr qtype a /\ bound g d (AddrString a) (now w + fakeIPLifetime (dnsCacheTTL cfg) (rTtl (Header rr))) /\
       fake_loop cfg w d qtype l acc ∅ "" false c = (Ret (acc ++ faked qtype a ∅ l, true), set_fakes c g))
  end.
Proof.
  intros Hq Hl Hd. induction l as [|rr l IH]; intros acc c Hg Ht.
  { cbn. by rewrite app_nil_r. }
  apply Forall_cons in Ht as [Ht Hts]. cbn [list_find fake_loop faked].
  destruct (decide (of_type qtype rr)) as [Hty|Hty].
  - rewrite (proj2 (Z.eqb_eq _ _) Hty). cbn [negb]. rewrite decide_True by done.
    destruct (allocateFakeIP_spec (fakes c) (now w) (dnsCacheTTL cfg) d qtype (rTtl (Header rr)) Hg Hq Hl Hd Ht)
      as (r & g & E & Hg' & H).
    assert (allocate cfg w d qtype (rTtl (Header rr)) c = (r, set_fakes c g)) as EA
      by (unfold allocate; by rewrite E).
    exists g. split; [done|]. unfold bind, mapErr. rewrite EA. destruct r as [s|e|]; [|by left; subst|done].
    right. destruct H as (a & Hf & -> & Hb). exists a. split; [done|]. split; [done|].
    rewrite !decide_False by set_solver.
    rewrite (buildFakeAnswerRR_fake _ _ qtype) by done. unfold lift.
    rewrite fake_loop_faked by done. by rewrite orb_true_l, <- app_assoc.
  - rewrite (proj2 (Z.eqb_neq _ _) Hty). cbn [negb]. specialize (IH (acc ++ [rr]) c Hg Hts).
    destruct (list_find (of_type qtype) l) as [[i rr']|]; cbn [fmap option_fmap option_map].
    + cbn [prod_map fst snd]. setoid_rewrite <- app_assoc in IH. exact IH.
    + by rewrite <- app_assoc in IH.
Qed.

Lemma rememberDomainIPMapping_fakes d ip c : exists c',
  rememberDomainIPMapping cfg w d ip c = (Ret tt, c') /\ fakes c' = fakes c /\
  recordedDNSIPs c' = recordedDNSIPs c /\ dnsCache c' = dnsCache c /\ pools c' = pools c.
Proof.
  unfold rememberDomainIPMapping. destruct (decide _); [by exists c|].
  destruct (ipDomainCache c); by eexists.
Qed.

Lemma record_answers_fakes d l : forall e c, exists e' c',
  record_answers cfg w d l e c = (Ret e', c') /\ fakes c' = fakes c /\
  recordedDNSIPs c' = recordedDNSIPs c /\ dnsCache c' = dnsCache c /\ pools c' = pools c.
Proof.
  induction l as [|rr l IH]; intros e c; [by exists e, c|].
  destruct rr as [h ip|h ip| | | |]; cbn [record_answers]; try apply IH;
    (match goal with |- context [rememberDomainIPMapping cfg w d ?s] =>
       destruct (rememberDomainIPMapping_fakes d s c) as (c1 & E & <- & <- & <- & <-) end;
     rewrite (bind_step _ _ _ _ _ E); apply IH).
Qed.

Lemma remember_fakes d l c : exists c', rememberRecordedDNSAnswers cfg w d l c = (Ret tt, c') /\
  fakes c' = fakes c /\ dnsCache c' = dnsCache c /\ pools c' = pools c.
Proof.
  unfold rememberRecordedDNSAnswers. destruct (decide _); [by exists c|].
  unfold bind at 1, gets. destruct (record_answers_fakes (ToLower d) l
    (default noRecord (recordedDNSIPs c !! ToLower d)) c) as (e & c1 & E & H1 & H2 & H3 & H4).
  rewrite (bind_step _ _ _ _ _ E). destruct (decide _); by eexists.
Qed.

Definition ttl_ok (rr : RR) : Prop := 0 <= rTtl (Header rr) < 2 ^ 32.

Lemma consider_range l : forall m, 0 <= m < 2 ^ 32 -> Forall ttl_ok l -> 0 <= consider m l < 2 ^ 32.
Proof.
  unfold consider. induction l as [|rr l IH]; intros m Hm Hl; [done|]. apply Forall_cons in Hl as [Hr Hl].
  simpl. apply IH; [|done]. unfold ttl_ok in Hr. destruct (_ =? 0); [done|]. by destruct (_ || _).
Qed.

Lemma fallbackFakeTTL_range resp : Forall ttl_ok (Answer resp) -> Forall ttl_ok (Ns resp) ->
  Forall ttl_ok (Extra resp) -> 0 <= fallbackFakeTTL resp < 2 ^ 32.
Proof.
  intros H1 H2 H3. unfold fallbackFakeTTL.
  assert (0 <= 0 < 2 ^ 32) as H0 by done.
  pose proof (consider_range _ _ (consider_range _ _ (consider_range _ _ H0 H1) H2) H3).
  cbv zeta. by destruct (_ =? 0).
Qed.

(** The TTL the binding is made for. *)
Definition binding_ttl (qtype : Z) (resp : Msg) : Z :=
  match list_find (of_type qtype) (Answer resp) with
  | Some (_, rr) => rTtl (Header rr)
  | None => fallbackFakeTTL resp
  end.

(** What the reply to a matched query is, for the address [a]. *)
Record replies_with (qtype : Z) (a : Addr) (name : string) (resp reply : Msg) : Prop := {
  rw_header : Rcode reply = Rcode resp /\ msgQuestion reply = msgQuestion resp /\
    Ns reply = Ns resp /\ Extra reply = Extra resp;
  rw_some : Exists (of_type qtype) (Answer resp) ->
    filter (fun rr => ~ of_type qtype rr) (Answer reply) =
      filter (fun rr => ~ of_type qtype rr) (Answer resp) /\
    exists hs, filter (of_type qtype) (Answer reply) = (fun h => fake_rr h a) <$> hs /\
      NoDup (rName <$> hs) /\
      (forall h, h ∈ hs -> exists rr, rr ∈ Answer resp /\ of_type qtype rr /\ h = Header rr) /\
      (forall rr, rr ∈ Answer resp -> of_type qtype rr -> rName (Header rr) ∈ rName <$> hs);
  rw_none : ~ Exists (of_type qtype) (Answer resp) ->
    Answer reply = [fake_rr (mkHdr name qtype ClassINET (fallbackFakeTTL resp)) a]
}.

Lemma replies_faked qtype a name resp : Exists (of_type qtype) (Answer resp) ->
  replies_with qtype a name resp (with_answer resp (faked qtype a ∅ (Answer resp))).
Proof.
  intros H. split; [done| |done]. intros _. split; [apply faked_others|]. simpl.
  destruct (faked_typed qtype a (Answer resp) ∅) as (hs & E & H1 & H2 & H3).
  exists hs. split_and!; try done. intros rr Hr Ht. apply H3. set_solver.
Qed.

(** The outcome of a hijacked A or AAAA query for a matched domain. *)
Lemma buildFake_spec req q resp d c : stores_ok (fakes c) -> msgQuestion req = [q] -> Qclass q = ClassINET ->
  Qtype q = TypeA \/ Qtype q = TypeAAAA -> ToLower d = d -> d <> ""%string ->
  shouldUseFakeIP (routes cfg) d = true -> dnsExchange w req = Ret resp -> Rcode resp = RcodeSuccess ->
  Forall ttl_ok (Answer resp) -> Forall ttl_ok (Ns resp) -> Forall ttl_ok (Extra resp) ->
  exists r c', buildFakeAddressResponse cfg w req d (Qtype q) c = (r, c') /\ stores_ok (fakes c') /\
    match r with
    | Ret reply => exists a, fake_addr (Qtype q) a /\ replies_with (Qtype q) a (qName q) resp reply /\
        bound (fakes c') d (AddrString a)
          (now w + fakeIPLifetime (dnsCacheTTL cfg) (binding_ttl (Qtype q) resp))
    | Err e => exists msg, e = wrap msg "fake ip pool exhausted"
    | Panic => False
    end.
Proof.
  intros Hg Hq Hc Ht Hl Hd Hm Hx Hr T1 T2 T3. unfold buildFakeAddressResponse.
  erewrite bind_step by (unfold mapErr, lift; rewrite Hx; reflexivity). rewrite Hr, Z.eqb_refl. cbn [negb].
  destruct (remember_fakes d (Answer resp) c) as (c1 & E & Hf & _).
  rewrite (bind_step _ _ _ _ _ E), Hm. cbn [negb]. rewrite <- Hf in Hg.
  pose proof (fake_loop_spec d (Qtype q) (Answer resp) Ht Hl Hd [] c1 Hg T1) as H. unfold binding_ttl.
  destruct (list_find (of_type (Qtype q)) (Answer resp)) as [[i rr]|] eqn:EF.
  - destruct H as (g & Hg' & [H|(a & Ha & Hb & H)]); unfold bind at 1; rewrite H; cbn [fst snd app].
    + do 2 eexists. split; [done|]. split; [done|]. by eexists.
    + do 2 eexists. split; [done|]. split; [done|]. exists a. split; [done|]. split; [|done].
      apply replies_faked. apply list_find_Some in EF as (Hi & Hty & _). apply Exists_exists. exists rr.
      split; [by eapply list_elem_of_lookup_2|done].
  - rewrite (bind_step _ _ _ _ _ H). cbn [fst snd]. rewrite Hq.
    pose proof (fallbackFakeTTL_range resp T1 T2 T3) as HT.
    destruct (allocateFakeIP_spec (fakes c1) (now w) (dnsCacheTTL cfg) d (Qtype q) (fallbackFakeTTL resp)
      Hg Ht Hl Hd HT) as (r & g & EA & Hg' & HA).
    unfold bind at 1, mapErr, allocate. rewrite EA. destruct r as [s|e|]; [| |done].
    + destruct HA as (a & Ha & -> & Hb). unfold bind, lift, buildQuestionFakeAnswerRR. rewrite Hc.
      rewrite (buildFakeAnswerRR_fake _ a (Qtype q)) by done.
      do 2 eexists. split; [done|]. split; [done|]. exists a. split; [done|]. split; [|done].
      apply list_find_None in EF. split; [done| |done]. intros (x & Hin & Hty)%Exists_exists.
      rewrite Forall_forall in EF. by apply EF in Hin.
    + do 2 eexists. split; [done|]. split; [done|]. subst e. by eexists.
Qed.
Lemma shouldUse_nonempty r d : shouldUseFakeIP r d = true -> d <> ""%string.
Proof. by intros H ->. Qed.

(** The address a record carries. *)
Definition rr_addr (rr : RR) : option Z :=
  match rr with RR_A _ ip | RR_AAAA _ ip => ip | _ => None end.

(** A reply shows no other address of the asked type. *)
Lemma replies_addr qtype a name resp reply rr : replies_with qtype a name resp reply ->
  rr ∈ Answer reply -> of_type qtype rr -> rr_addr rr = Some (As16 a).
Proof.
  intros [_ HS HN] Hin Ht. assert (exists h, rr = fake_rr h a) as [h ->].
  { destruct (decide (Exists (of_type qtype) (Answer resp))) as [E|E].
    - destruct (HS E) as (_ & hs & Hf & _).
      assert (rr ∈ filter (of_type qtype) (Answer reply)) as H by by apply list_elem_of_filter.
      rewrite Hf in H. apply list_elem_of_fmap in H as (h & -> & _). by exists h.
    - rewrite (HN E) in Hin. apply list_elem_of_singleton in Hin as ->. by eexists. }
  unfold fake_rr. cbv zeta. by destruct (_ =? TypeA).
Qed.

(** C17: The answer to a hijacked A or AAAA query for a domain a rule matches.  It
    never panics and fails only when the fake range is exhausted.  Otherwise the
    reply keeps the upstream header, authority and additional sections and every
    answer of another type in order, and each answer of the asked type carries one
    fake address: exactly one per owner name of such an upstream answer, with that
    name; if upstream had none, one record for the question stands alone.  The
    text the client sees of the address leads back to the domain until exactly the
    lifetime of the first replaced record (or of the fallback) has passed, which is
    not before that record's TTL. *)
Theorem fake_reply_correct req q resp c :
  stores_ok (fakes c) -> msgQuestion req = [q] -> Qclass q = ClassINET ->
  Qtype q = TypeA \/ Qtype q = TypeAAAA ->
  let d := ToLower (TrimSuffix1 (qName q) ".") in
  shouldUseFakeIP (routes cfg) d = true ->
  dnsExchange w req = Ret resp -> Rcode resp = RcodeSuccess ->
  Forall ttl_ok (Answer resp) -> Forall ttl_ok (Ns resp) -> Forall ttl_ok (Extra resp) ->
  exists r c', handleDNSQuery cfg w req c = (r, c') /\ stores_ok (fakes c') /\
    match r with
    | Ret reply => exists a, fake_addr (Qtype q) a /\ replies_with (Qtype q) a (qName q) resp reply /\
        let lifetime := fakeIPLifetime (dnsCacheTTL cfg) (binding_ttl (Qtype q) resp) in
        (forall t, fst (lookupFakeDomainByIP (fakes c') t (ip_string (Some (As16 a)))) =
           if t <? now w + lifetime then Some d else None) /\
        binding_ttl (Qtype q) resp * second <= lifetime
    | Err e => exists msg, e = wrap msg "fake ip pool exhausted"
    | Panic => False
    end.
Proof.
  intros Hg Hq Hc Ht d Hm Hx Hr T1 T2 T3.
  destruct (buildFake_spec req q resp d c) as (r & c' & E & Hg' & H);
    try done; [apply ToLower_idem|by eapply shouldUse_nonempty|].
  exists r, c'. split.
  { unfold handleDNSQuery. rewrite Hq, Hc, Z.eqb_refl. cbn [negb]. fold d.
    destruct Ht as [Ht|Ht]; rewrite Ht in *; exact E. }
  split; [done|]. destruct r as [reply| |]; [|done..]. destruct H as (a & Ha & HR & Hb).
  exists a. split; [done|]. split; [done|]. cbv zeta. split.
  - intros t. simpl. rewrite (proj2 (fake_addr_As16 _ _ Ha)). by apply lookup_after_alloc.
  - assert (0 <= binding_ttl (Qtype q) resp < 2 ^ 32) as HT.
    { unfold binding_ttl. destruct (list_find _ _) as [[i rr]|] eqn:E2; [|by apply fallbackFakeTTL_range].
      apply list_find_Some in E2 as (Hi & _). by eapply (Forall_lookup_1 _ _ _ _ T1). }
    destruct (fakeIPLifetime_bounds (dnsCacheTTL cfg) _ HT) as [-> _]. zcase; unfold second, defaultFakeTTL; lia.
Qed.

(** Everything else passes through: a query that is not one IN question of type
    A or AAAA, and one for a domain no rule and no GFW entry matches, gets exactly
    what upstream answers (up to the wrapping of an upstream error), and no fake
    address is allocated. *)
Theorem passthrough_correct req c :
  (forall q, msgQuestion req = [q] -> Qclass q = ClassINET -> Qtype q = TypeA \/ Qtype q = TypeAAAA ->
     shouldUseFakeIP (routes cfg) (ToLower (TrimSuffix1 (qName q) ".")) = false) ->
  exists c', fakes c' = fakes c /\
    (handleDNSQuery cfg w req c = (dnsExchange w req, c') \/
     exists e, dnsExchange w req = Err e /\ handleDNSQuery cfg w req c = (Err (wrap "upstream dns exchange" e), c')).
Proof.
  intros H. unfold handleDNSQuery. destruct (msgQuestion req) as [|q [|]] eqn:Hq; [by exists c; auto| |by exists c; auto].
  specialize (H q eq_refl). destruct (Z.eqb_spec (Qclass q) ClassINET) as [Hc|]; [|by exists c; auto].
  cbn [negb]. destruct (Z.eqb_spec (Qtype q) TypeHTTPS); [by exists c; auto|].
  assert (forall t, Qtype q = t -> t = TypeA \/ t = TypeAAAA -> exists c', fakes c' = fakes c /\
    (buildFakeAddressResponse cfg w req (ToLower (TrimSuffix1 (qName q) ".")) t c = (dnsExchange w req, c') \/
     exists e, dnsExchange w req = Err e /\
       buildFakeAddressResponse cfg w req (ToLower (TrimSuffix1 (qName q) ".")) t c =
       (Err (wrap "upstream dns exchange" e), c'))) as HB.
  { intros t Ht Hor. specialize (H Hc ltac:(by rewrite Ht)). unfold buildFakeAddressResponse.
    unfold bind at 1 3, mapErr, lift. destruct (dnsExchange w req) as [resp|e|]; [|by exists c; eauto..].
    destruct (Rcode resp =? RcodeSuccess); cbn [negb]; [|by exists c; auto].
    destruct (remember_fakes (ToLower (TrimSuffix1 (qName q) ".")) (Answer resp) c) as (c1 & E & Hf & _).
    exists c1. split; [done|]. left. rewrite (bind_step _ _ _ _ _ E), H. done. }
  destruct (Z.eqb_spec (Qtype q) TypeA); [by apply HB; auto|].
  destruct (Z.eqb_spec (Qtype q) TypeAAAA); [by apply HB; auto|by exists c; auto].
Qed.
(** ** Recorded answers *)

Definition ip_ok (rr : RR) : Prop :=
  match rr with RR_A _ (Some ip) | RR_AAAA _ (Some ip) => 0 <= ip < 2 ^ 128 | _ => True end.

Lemma ip_string_nonempty ip : match ip with Some z => 0 <= z < 2 ^ 128 | None => True end ->
  ip_string ip <> ""%string.
Proof.
  destruct ip as [z|]; [|done]. intros Hz. apply AddrString_nonempty. unfold Unmap.
  destruct (is4in6 z); split; try done. unfold addr_ok. cbn [addr_val BitLen]. apply Z.mod_pos_bound. done.
Qed.

(** The last A (AAAA) answer, as address text and expiry at [t0]. *)
Fixpoint last_of (v6 : bool) (t0 : Z) (l : list RR) (prev : string * Z) : string * Z :=
  match l with
  | [] => prev
  | RR_A h ip :: l =>
    last_of v6 t0 l (if v6 then prev else (ip_string ip, t0 + ttlOrDefault (rTtl h) * second))
  | RR_AAAA h ip :: l =>
    last_of v6 t0 l (if v6 then (ip_string ip, t0 + ttlOrDefault (rTtl h) * second) else prev)
  | _ :: l => last_of v6 t0 l prev
  end.

Definition unexpired_at (t : Z) (r : string * Z) : option string :=
  if negb (bool_decide (fst r = "")%string) && (t <? snd r) then Some (fst r) else None.

(** Which of the two addresses a mode takes. *)
Definition by_mode (m : DNSMode) (v4 v6 : option string) : option string :=
  match m with
  | DNSModeIPv4Only => v4
  | DNSModeIPv6Only => v6
  | DNSModePreferIPv6 => match v6 with Some _ => v6 | None => v4 end
  | _ => match v4 with Some _ => v4 | None => v6 end
  end.

Lemma ttl_i64 ttl : 0 <= ttl < 2 ^ 32 -> i64 (ttlOrDefault ttl * second) = ttlOrDefault ttl * second.
Proof.
  intros H. apply i64_small. unfold ttlOrDefault, second. change (10 ^ 9) with 1000000000.
  change (2 ^ 32) with 4294967296 in H. change (2 ^ 63) with 9223372036854775808. zcase; lia.
Qed.

Lemma record_answers_last d l : forall e c, Forall ttl_ok l -> exists c',
  record_answers cfg w d l e c =
    (let '(s4, x4) := last_of false (now w) l (r_ipv4 e, r_ipv4Expire e) in
     let '(s6, x6) := last_of true (now w) l (r_ipv6 e, r_ipv6Expire e) in
     Ret (mkRecorded s4 x4 s6 x6), c') /\
  recordedDNSIPs c' = recordedDNSIPs c.
Proof.
  induction l as [|rr l IH]; intros e c Ht.
  { exists c. split; [|done]. by destruct e. }
  apply Forall_cons in Ht as [Ht Hts]. unfold ttl_ok in Ht.
  destruct rr as [h ip|h ip| | | |]; cbn [record_answers last_of Header] in *; try by apply IH.
  - rewrite ttl_i64 by done. cbn [r_ipv4].
    destruct (rememberDomainIPMapping_fakes d (ip_string ip) c) as (c1 & E & _ & <- & _).
    rewrite (bind_step _ _ _ _ _ E). exact (IH (mkRecorded _ _ (r_ipv6 e) (r_ipv6Expire e)) c1 Hts).
  - rewrite ttl_i64 by done. cbn [r_ipv6].
    destruct (rememberDomainIPMapping_fakes d (ip_string ip) c) as (c1 & E & _ & <- & _).
    rewrite (bind_step _ _ _ _ _ E). exact (IH (mkRecorded (r_ipv4 e) (r_ipv4Expire e) _ _) c1 Hts).
Qed.

Lemma lookupRecorded_spec t d mode c : d <> ""%string -> exists c',
  lookupRecordedDNSIP t d mode c =
  (Ret (e ← recordedDNSIPs c !! ToLower d;
        by_mode mode (unexpired_at (now t) (r_ipv4 e, r_ipv4Expire e))
                     (unexpired_at (now t) (r_ipv6 e, r_ipv6Expire e))), c') /\ fakes c' = fakes c.
Proof.
  intros Hd. unfold lookupRecordedDNSIP. rewrite decide_False by done.
  destruct (recordedDNSIPs c !! ToLower d) as [e|]; [|by exists c]. unfold unexpired_at.
  cbv zeta. cbn [fst snd r_ipv4 r_ipv6 mbind option_bind].
  assert (forall s b, negb (bool_decide (s = ""%string)) && b = true -> s <> ""%string) as Hne.
  { intros s b [H _]%andb_prop. by apply negb_true_iff, bool_decide_eq_false in H. }
  destruct (negb (bool_decide (r_ipv4 e = ""%string)) && _) eqn:E4;
    destruct (negb (bool_decide (r_ipv6 e = ""%string)) && _) eqn:E6;
    try apply Hne in E4; try apply Hne in E6;
    first [rewrite decide_True by done|rewrite decide_False by naive_solver];
    eexists; (split; [reflexivity|done]) || (split; [by destruct mode|done]).
Qed.
Lemma last_of_empty b t l : forall p, Forall ip_ok l -> fst (last_of b t l p) = ""%string -> fst p = ""%string.
Proof.
  induction l as [|rr l IH]; intros p Ho H; [done|]. apply Forall_cons in Ho as [Hr Ho].
  destruct rr as [h ip|h ip| | | |]; cbn [last_of] in H; try (by apply IH); apply IH in H; try done;
    destruct b; try done; simpl in H; destruct ip; by apply ip_string_nonempty in H.
Qed.

(** Recorded answers come back.  After the answers of a reply are remembered for
    a domain, a lookup of that name in any letter case, at any later time, gives by
    the DNS mode the text of the last A or AAAA answer of a family (of an earlier
    reply where this one had none), exactly while its own TTL (300 s for a zero TTL)
    has not passed: the *_only modes never give the other family, the prefer_*
    modes fall back to it. *)
Theorem recorded_roundtrip d d' answers c mode (later : world) :
  d <> ""%string -> ToLower d' = ToLower d -> Forall ttl_ok answers -> Forall ip_ok answers ->
  let prev := default noRecord (recordedDNSIPs c !! ToLower d) in
  exists c1, rememberRecordedDNSAnswers cfg w d answers c = (Ret tt, c1) /\
    fst (lookupRecordedDNSIP later d' mode c1) =
      Ret (by_mode mode
        (unexpired_at (now later) (last_of false (now w) answers (r_ipv4 prev, r_ipv4Expire prev)))
        (unexpired_at (now later) (last_of true (now w) answers (r_ipv6 prev, r_ipv6Expire prev)))).
Proof.
  intros Hd Hl Ht Ho prev. assert (d' <> ""%string) as Hd'.
  { intros ->. by apply Hd, ToLower_empty. }
  unfold rememberRecordedDNSAnswers. destruct (decide _) as [[?|Ha]|Hn]; [done| |].
  - subst answers. exists c. split; [done|]. destruct (lookupRecorded_spec later d' mode c Hd') as (c' & -> & _).
    simpl. f_equal. rewrite Hl. unfold prev. destruct (recordedDNSIPs c !! ToLower d); [done|by destruct mode].
  - unfold bind at 1, gets. fold prev.
    destruct (record_answers_last (ToLower d) answers prev c Ht) as (c1 & E & HR).
    destruct (last_of false _ _ _) as [s4 x4] eqn:E4, (last_of true _ _ _) as [s6 x6] eqn:E6.
    rewrite (bind_step _ _ _ _ _ E). cbn [r_ipv4 r_ipv6]. destruct (decide _) as [[-> ->]|Hs].
    + exists c1. split; [done|]. destruct (lookupRecorded_spec later d' mode c1 Hd') as (c' & -> & _).
      simpl. f_equal. rewrite Hl, HR.
      pose proof (last_of_empty false _ _ _ Ho (f_equal fst E4)) as P4.
      pose proof (last_of_empty true _ _ _ Ho (f_equal fst E6)) as P6. unfold prev in P4, P6. simpl in P4, P6.
      destruct (recordedDNSIPs c !! ToLower d) as [e|]; [|by destruct mode]. simpl in *.
      rewrite P4, P6. by destruct mode.
    + eexists. split; [done|].
      match goal with |- fst (lookupRecordedDNSIP _ _ _ ?c2) = _ =>
        destruct (lookupRecorded_spec later d' mode c2 Hd') as (c' & -> & _) end.
      simpl. by rewrite Hl, lookup_insert_eq.
Qed.
(** ** Resolution and its cache *)

Lemma rememberDomainIPMapping_frame d ip c c' r : rememberDomainIPMapping cfg w d ip c = (r, c') ->
  r = Ret tt /\ dnsCache c' = dnsCache c.
Proof.
  intros E. destruct (rememberDomainIPMapping_fakes d ip c) as (c2 & E2 & _ & _ & <- & _).
  rewrite E in E2. by simplify_eq.
Qed.

(** What doDNSResolve leaves in the cache. *)
Lemma doDNSResolve_cache d mode c s c' : doDNSResolve cfg w d mode c = (Ret s, c') ->
  dnsCache c' = (fun cache => lru_add cache (now w) d s (dnsCacheTTL cfg)) <$> dnsCache c.
Proof.
  intros H. unfold doDNSResolve in H. cbv zeta in H.
  assert (forall f m a c0 c1, exchange_ok w f m c0 = (Ret a, c1) -> c1 = c0) as HX.
  { unfold exchange_ok, bind, mapErr, lift, ret, fail. intros f m a c0 c1.
    destruct (dnsExchange w m) as [resp| |]; [|done..]. destruct (_ =? _); naive_solver. }
  apply bind_Ret in H as (ans & c1 & ->%HX & H).
  apply bind_Ret in H as (ip & c2 & Hip & H). apply bind_Ret in H as ([] & c3 & Hadd & H).
  apply bind_Ret in H as ([] & c4 & Hrem & [= <- <-]).
  apply rememberDomainIPMapping_frame in Hrem as [_ ->].
  assert (c2 = c) as ->.
  { unfold first_or, ret, fail in Hip.
    destruct mode; repeat case_match; simplify_eq; try done;
      apply bind_Ret in Hip as (x & ? & ->%HX & Hm);
      destruct (pickFirstARecord x), (pickFirstAAAARecord x); congruence. }
  unfold cache_add in Hadd. destruct (dnsCache c) eqn:Ec; simplify_eq; [done|by rewrite Ec].
Qed.

(** On a miss the *_only modes take the first record of their family. *)
Lemma doDNSResolve_only d (v6 : bool) c s c' :
  doDNSResolve cfg w d (if v6 then DNSModeIPv6Only else DNSModeIPv4Only) c = (Ret s, c') ->
  exists resp ip,
    dnsExchange w (SetQuestion (d +:+ ".") (if v6 then TypeAAAA else TypeA)) = Ret resp /\
    Rcode resp = RcodeSuccess /\
    (if v6 then pickFirstAAAARecord else pickFirstARecord) (Answer resp) = Some ip /\ s = IPString ip.
Proof.
  intros H. unfold doDNSResolve in H. apply bind_Ret in H as (ans & c1 & HX & H).
  apply bind_Ret in H as (ip & c2 & Hip & H). apply bind_Ret in H as ([] & c3 & _ & H).
  apply bind_Ret in H as ([] & c4 & _ & [= <- <-]).
  unfold exchange_ok, bind, mapErr, lift, ret, fail in HX.
  destruct v6; (destruct (dnsExchange w _) as [resp| |] eqn:ER; [|done..]);
    (destruct (Z.eqb_spec (Rcode resp) RcodeSuccess); [|done]); injection HX as <- <-;
    unfold ret, fail in Hip; exists resp.
  - destruct (pickFirstAAAARecord (Answer resp)) as [z|]; [|done]. injection Hip as <- <-. eauto.
  - destruct (pickFirstARecord (Answer resp)) as [z|]; [|done]. injection Hip as <- <-. eauto.
Qed.
Lemma dnsResolve_miss d mode c s c' : dnsResolve cfg w d mode c = (Ret (s, false), c') ->
  exists c0, (dnsCache c = None -> c0 = c) /\
    (forall cache, dnsCache c = Some cache -> c0 = set_dnsCache c (Some (snd (lru_get cache (now w) d)))) /\
    doDNSResolve cfg w d mode c0 = (Ret s, c').
Proof.
  intros H. apply bind_Ret in H as (hit & c0 & Hget & H). exists c0. unfold cache_get in Hget.
  destruct hit; [done|]. apply bind_Ret in H as (s' & c1 & H & [= <- <-]).
  destruct (dnsCache c) as [cache|]; [destruct (lru_get cache (now w) d) as [o cache'] eqn:E|];
    simplify_eq; split_and!; try done; by intros ? [= <-]; rewrite E.
Qed.

(** The DNS cache and the modes.  When an answer is not from the cache, the
    *_only modes give the first record of their own family of a successful reply to
    a question of that family.  An answer from the cache is the one last resolved
    for that domain, whatever mode it was resolved for: a second resolution of a
    domain through the cache gives the first one's address in every mode, so
    ipv6_only can give an IPv4 address. *)
Theorem resolve_modes d mode c s c1 : dnsResolve cfg w d mode c = (Ret (s, false), c1) ->
  (forall v6 : bool, mode = (if v6 then DNSModeIPv6Only else DNSModeIPv4Only) -> exists resp ip,
     dnsExchange w (SetQuestion (d +:+ ".") (if v6 then TypeAAAA else TypeA)) = Ret resp /\
     Rcode resp = RcodeSuccess /\
     (if v6 then pickFirstAAAARecord else pickFirstARecord) (Answer resp) = Some ip /\ s = IPString ip) /\
  (forall later mode2 s2 c2, dnsResolve cfg later d mode2 c1 = (Ret (s2, true), c2) -> s2 = s).
Proof.
  intros H. apply dnsResolve_miss in H as (c0 & HN & HS & H). split.
  - intros v6 ->. by eapply doDNSResolve_only.
  - intros later mode2 s2 c2 H2. apply doDNSResolve_cache in H.
    apply bind_Ret in H2 as (hit & c3 & Hget & H2). destruct hit as [ip|].
    2:{ apply bind_Ret in H2 as (? & ? & _ & [=]). }
    injection H2 as <- <-. unfold cache_get in Hget. destruct (dnsCache c1) as [cache|]; [|done].
    destruct (dnsCache c0) as [cache0|]; [|done]. injection H as ->.
    pose proof (lru_get_add cache0 (now w) d s (dnsCacheTTL cfg) (now later) ip) as Hl.
    destruct (lru_get _ _ _) as [o cache']. simplify_eq. by apply Hl.
Qed.
End replies.


(** ** Witnesses *)

Definition w_names : DNSNames := {| RcodeToString := fun _ => "SERVFAIL"; TypeToString := fun _ => "" |}.
Definition w_rules : rules :=
  mkRules (Some (buildDomainMatcher (ord := sorted_order) {["*example.com" := with_mode ModeTLSRF]}))
    NewTrie NewTrie None None.
Definition w_cfg : config := mkConfig zeroPolicy w_rules (600 * second).
Definition w_hdr (name : string) (t ttl : Z) : RRHdr := mkHdr name t ClassINET ttl.
Definition w_resp : Msg :=
  mkMsg 0 [] [RR_CNAME (w_hdr "WWW.example.com." 5 120) "edge.example.net.";
    RR_A (w_hdr "edge.example.net." TypeA 45) (Some (As16 (Addr4 0xcb00710a)));
    RR_A (w_hdr "edge.example.net." TypeA 30) (Some (As16 (Addr4 0xcb00710b)))]
    [RR_Other (w_hdr "example.com." 2 300)] [].
Definition w_world (t : Z) : world := mkWorld t (fun _ => Ret w_resp) (fun _ => Err "no").
Definition w_query (t : Z) : Msg := mkMsg 0 [mkQuestion "WWW.example.com." t ClassINET] [] [] [].
Definition w_stores : fakeStores :=
  match defaultStores with Ret g => g | _ => mkStores w_store w_store end.
Definition w_core : core (L := map_lru) :=
  mkCore w_stores ∅ (Some (lru_empty (LRU := map_lru))) (Some (lru_empty (LRU := map_lru))) ∅.

Lemma w_stores_ok : stores_ok w_stores.
Proof. apply default_stores_ok. reflexivity. Qed.

Definition w_handle (q : Msg) := handleDNSQuery (L := map_lru) (ord := sorted_order) w_cfg (w_world 0) q w_core.

Lemma fake_reply_correct_witness :
  exists reply c' a, w_handle (w_query TypeA) = (Ret reply, c') /\
    summarizeDNSAnswerSet (names := w_names) (Answer reply) = "CNAME=edge.example.net.,A=198.18.0.1"%string /\
    fst (lookupFakeDomainByIP (fakes c') (599 * second) (ip_string (Some (As16 a)))) = Some "www.example.com"%string /\
    fst (lookupFakeDomainByIP (fakes c') (600 * second) (ip_string (Some (As16 a)))) = None.
Proof.
  destruct (fake_reply_correct (L := map_lru) (ord := sorted_order) w_cfg (w_world 0)
    (w_query TypeA) (mkQuestion "WWW.example.com." TypeA ClassINET) w_resp w_core w_stores_ok
    eq_refl eq_refl (or_introl eq_refl)) as (r & c' & E & _ & H).
  - vm_compute. reflexivity.
  - reflexivity.
  - reflexivity.
  - repeat constructor; vm_compute; (congruence || reflexivity).
  - repeat constructor; vm_compute; (congruence || reflexivity).
  - constructor.
  - fold (w_handle (w_query TypeA)) in E.
    destruct r as [reply|e|]; [|exfalso; apply (f_equal fst) in E; vm_compute in E; discriminate|destruct H].
    destruct H as (a & _ & _ & H & _). exists reply, c', a. split; [exact E|]. split.
    { apply (f_equal fst) in E. vm_compute in E. injection E as <-. vm_compute. reflexivity. }
    split; rewrite H; vm_compute; reflexivity.
Defined.

Lemma passthrough_correct_witness :
  exists c', fakes c' = w_stores /\ w_handle (w_query 16) = (Ret w_resp, c').
Proof.
  destruct (passthrough_correct (L := map_lru) (ord := sorted_order) w_cfg (w_world 0) (w_query 16) w_core)
    as (c' & Hf & [H|(e & H & _)]).
  - intros q [= <-] _ [H|H]; discriminate.
  - exists c'. split; [exact Hf|exact H].
  - discriminate.
Defined.

Lemma recorded_roundtrip_witness :
  exists c1, rememberRecordedDNSAnswers (L := map_lru) w_cfg (w_world 0) "Example.com" (Answer w_resp) w_core = (Ret tt, c1) /\
    fst (lookupRecordedDNSIP (w_world (29 * second)) "example.COM" DNSModePreferIPv6 c1) = Ret (Some "203.0.113.11"%string).
Proof.
  destruct (recorded_roundtrip (L := map_lru) w_cfg (w_world 0) "Example.com" "example.COM" (Answer w_resp)
    w_core DNSModePreferIPv6 (w_world (29 * second))) as (c1 & E & H).
  - discriminate.
  - reflexivity.
  - repeat constructor; vm_compute; (congruence || reflexivity).
  - repeat constructor; vm_compute; (congruence || reflexivity).
  - exists c1. split; [exact E|]. rewrite H. vm_compute. reflexivity.
Defined.

Definition w_only4 : world :=
  mkWorld 0 (fun m => Ret (mkMsg 0 (msgQuestion m) (Answer w_resp) [] [])) (fun _ => Err "no").

Lemma resolve_modes_witness :
  exists s c1 c2, dnsResolve (L := map_lru) (names := w_names) w_cfg w_only4 "example.com" DNSModeIPv4Only w_core = (Ret (s, false), c1) /\
    dnsResolve (L := map_lru) (names := w_names) w_cfg w_only4 "example.com" DNSModeIPv6Only c1 = (Ret (s, true), c2) /\
    s = IPString (As16 (Addr4 0xcb00710a)).
Proof.
  set (r1 := dnsResolve (L := map_lru) (names := w_names) w_cfg w_only4 "example.com" DNSModeIPv4Only w_core).
  set (r2 := dnsResolve (L := map_lru) (names := w_names) w_cfg w_only4 "example.com" DNSModeIPv6Only (snd r1)).
  assert (r1 = (Ret ("203.0.113.10"%string, false), snd r1)) as E1
    by (rewrite (surjective_pairing r1) at 1; f_equal; vm_compute; reflexivity).
  assert (exists s2, r2 = (Ret (s2, true), snd r2)) as [s2 E2].
  { eexists. rewrite (surjective_pairing r2) at 1. f_equal. }
  destruct (resolve_modes (L := map_lru) (names := w_names) w_cfg w_only4 "example.com" DNSModeIPv4Only w_core _ _ E1) as [H1 H2].
  destruct (H1 false eq_refl) as (resp & ip & ER & _ & EP & ES).
  exists "203.0.113.10"%string, (snd r1), (snd r2). split; [exact E1|]. split.
  - rewrite <- (H2 _ _ _ _ E2). exact E2.
  - rewrite ES. injection ER as <-. vm_compute in EP. by injection EP as <-.
Defined.
End Dns.
