(* ===== verification/Plan.v ===== *)
(** * Dial plans (src/internal/dial_plan.go, policy.go, utils.go, config.go)

    From the host a client asks for to the host to dial and the policy to apply:
    the fake address is turned back into its domain, the rules give a policy, the
    name is resolved and the address redirected.  [logger] says whether the logger
    is non-nil: logging through a nil one panics. *)

From S2P Require Import Prelude GoStrings Conn NetIP FakeIP Patterns AddrTrie Policy Route IPPool Core Dns.

Module Plan.
Import FakeIP Patterns AddrTrie Policy Route IPPool Dns.

Definition tagPrefix : string := "$".

(** dial_plan.go: [type DomainTargetMode]. *)
Inductive DomainTargetMode := ResolveDomainTarget | PreserveDomainTarget.
#[global] Instance DomainTargetMode_eq_dec : EqDecision DomainTargetMode.
Proof. solve_decision. Defined.

Record RequestContext := mkRequest {
  Source : string; rqHost : string; rqPort : Z; rqMode : DomainTargetMode
}.

Record DialPlan := mkPlan {
  plSource : string;
  OriginHost : string;
  OriginPort : Z;
  RecoveredDomain : string;
  MatchedDomain : bool;
  MatchedIP : bool;
  TargetHost : string;
  TargetPort : Z;
  plPolicy : Policy;
  Blocked : bool
}.

Definition TargetAddress (p : DialPlan) : string :=
  if TargetPort p <=? 0 then TargetHost p else JoinHostPort (TargetHost p) (Itoa (TargetPort p)).
Definition OriginAddress (p : DialPlan) : string :=
  if OriginPort p <=? 0 then OriginHost p else JoinHostPort (OriginHost p) (Itoa (OriginPort p)).

(** The named results of genPolicyWithOptions. *)
Record policyResult := mkResult {
  dstHost : string; rPolicy : Policy; failed : bool; blocked : bool;
  matchedDomain : bool; matchedIP : bool
}.

(** config.go: pickBootstrapIP. *)
Fixpoint pick_bootstrap (first : string) (addrs : list (option Z)) : string :=
  match addrs with
  | [] => first
  | None :: addrs => pick_bootstrap first addrs
  | Some ip :: addrs =>
    let first := if decide (first = "")%string then IPString ip else first in
    if is4in6 ip then IPString ip else pick_bootstrap first addrs
  end.
Definition pickBootstrapIP (addrs : list (option Z)) : string := pick_bootstrap "" addrs.

Section operations.
Context {L : LRU} {ord : RangeOrder} {names : DNSNames} (cfg : config) (w : world).

(** A call of a logger method. *)
Definition log (logger : bool) : M unit := if logger then ret tt else lift Panic.

(** ip_pool.go: getFromIPPool on the package's pools. *)
Definition from_pool (tag : string) : M string := fun c =>
  let (r, p) := getFromIPPool (pools c) tag in (r, set_pools c p).

(** config.go: resolveBootstrapHost. *)
Definition resolveBootstrapHost (host : string) : M string :=
  if bool_decide (host = "")%string || negb (not_ip host) then ret host
  else
    hit <- cache_get w host ;
    match hit with
    | Some ip => ret ip
    | None =>
      addrs <- mapErr (wrap ("bootstrap resolve " +:+ host)) (lift (bootstrapLookupIP w host)) ;
      let ip := pickBootstrapIP addrs in
      if decide (ip = "")%string then fail ("bootstrap resolve " +:+ host +:+ ": no address found")
      else
        cache_add cfg w host ip ;;
        rememberDomainIPMapping cfg w host ip ;;
        ret ip
    end.

(** utils.go: ipRedirect. *)
Definition ipRedirect (logger : bool) (ip : string) : M (string * option Policy) :=
  match getIPPolicy (routes cfg) ip with
  | None => ret (ip, None)
  | Some policy =>
    match MapTo policy with
    | None | Some EmptyString => ret (ip, Some policy)
    | Some target =>
      mapTo <- (if HasPrefix target tagPrefix then from_pool (sdrop 1 target)
                else if bool_decide (is_Some (LastIndexByte target "/")) then lift (transformIP ip target)
                else if not_ip target then resolveBootstrapHost target
                else ret target) ;
      if logger && negb (bool_decide (ip = mapTo)) then ret (mapTo, Some policy)
      else ret (mapTo, getIPPolicy (routes cfg) mapTo)
    end
  end.

(** The branch of genPolicyWithOptions for an address. *)
Definition policy_of_ip (logger : bool) (originHost : string) : M policyResult :=
  r <- attempt (ipRedirect logger originHost) ;
  match r with
  | inr _ => log logger ;; ret (mkResult "" zeroPolicy true false false false)
  | inl (dst, ipPolicy) =>
    let p := match ipPolicy with
             | None => mergePolicies [plainFallbackPolicy; defaultPolicy cfg]
             | Some ipp => mergePolicies [ipp; defaultPolicy cfg]
             end in
    let matched := bool_decide (is_Some ipPolicy) in
    if decide (pMode p = ModeBlock) then ret (mkResult "" zeroPolicy false true false matched)
    else ret (mkResult dst p false false false matched)
  end.

(** The rule of a domain: its own policy, and whether the domain is matched. *)
Definition domain_policy (originHost : string) : option Policy * bool :=
  match classifyDomainRoute (routes cfg) originHost with
  | domainRouteRule =>
    let found := match domainMatcher (routes cfg) with Some m => Find m originHost | None => None end in
    (found, bool_decide (is_Some found))
  | domainRouteGFW => (None, true)
  | domainRoutePlain => (None, false)
  end.

(** [*p.Host]: the host it names and whether it switches redirection off. *)
Definition host_target (originHost hostValue : string) : string * bool :=
  if bool_decide (hostValue = "" \/ hostValue = "self")%string then (originHost, false)
  else if decide (hostValue = "^")%string then (originHost, true)
  else if HasPrefix hostValue "^" then (sdrop 1 hostValue, true)
  else (hostValue, false).

(** Resolving the target name: recorded answers first. *)
Definition resolve_target (logger : bool) (dst : string) (mode : DNSMode) : M (string + string) :=
  recorded <- lookupRecordedDNSIP w dst mode ;
  match recorded with
  | Some ip => log logger ;; ret (inl ip)
  | None =>
    r <- attempt (Resolve cfg w dst mode) ;
    match r with
    | inr e => log logger ;; ret (inr e)
    | inl (ip, _) => log logger ;; ret (inl ip)
    end
  end.

(** The end of genPolicyWithOptions: the policy of the final address. *)
Definition policy_of_target (logger : bool) (dst : string) (domainPolicy : option Policy) (p : Policy)
    (matched : bool) : M policyResult :=
  r <- attempt (ipRedirect logger dst) ;
  match r with
  | inr _ => log logger ;; ret (mkResult "" zeroPolicy true false matched false)
  | inl (dst, None) => ret (mkResult dst p false false matched false)
  | inl (dst, Some ipPolicy) =>
    let p := match domainPolicy with
             | Some dp => mergePolicies [dp; ipPolicy; defaultPolicy cfg]
             | None => mergePolicies [ipPolicy; defaultPolicy cfg]
             end in
    if decide (pMode p = ModeBlock) then ret (mkResult "" zeroPolicy false true matched true)
    else ret (mkResult dst p false false matched true)
  end.

(** policy.go: genPolicyWithOptions. *)
Definition genPolicyWithOptions (logger : bool) (originHost : string) (resolveDomain : bool)
    : M policyResult :=
  if negb (not_ip originHost) then policy_of_ip logger originHost
  else
    let routeClass := classifyDomainRoute (routes cfg) originHost in
    let '(domainPolicy, matched) := domain_policy originHost in
    if bool_decide (pMode <$> domainPolicy = Some ModeBlock)
    then ret (mkResult "" zeroPolicy false true matched false)
    else
      let p := match domainPolicy with
               | Some dp => mergePolicies [dp; defaultPolicy cfg]
               | None =>
                 if decide (routeClass = domainRouteGFW)
                 then mergePolicies [gfwFallbackPolicy; defaultPolicy cfg]
                 else mergePolicies [plainFallbackPolicy; defaultPolicy cfg]
               end in
      let '(dst, skipIPRedirect) := match Host p with
                                    | Some hostValue => host_target originHost hostValue
                                    | None => (originHost, false)
                                    end in
      match Host p with Some _ => log logger | None => ret tt end ;;
      pooled <- (if HasPrefix dst tagPrefix then
                   r <- attempt (from_pool (sdrop 1 dst)) ;
                   log logger ;; ret r
                 else ret (inl dst)) ;
      match pooled with
      | inr _ => ret (mkResult "" zeroPolicy true false matched false)
      | inl dst =>
        resolved <- (if negb skipIPRedirect && resolveDomain && not_ip dst
                     then resolve_target logger dst (pDNSMode p) else ret (inl dst)) ;
        match resolved with
        | inr _ => ret (mkResult "" zeroPolicy true false matched false)
        | inl dst =>
          if skipIPRedirect || not_ip dst then ret (mkResult dst p false false matched false)
          else policy_of_target logger dst domainPolicy p matched
        end
      end.

(** policy.go: genPolicy. *)
Definition genPolicy (logger : bool) (originHost : string) : M policyResult :=
  genPolicyWithOptions logger originHost true.

(** The recovery step of PlanRequest; an empty domain counts as none. *)
Definition recover (host : string) : M string :=
  if not_ip host then ret ""
  else d <- LookupDomain w host ; ret (default "" d).

Definition PlanRequest (req : RequestContext) (logger : bool) : M DialPlan :=
  if decide (rqHost req = "")%string then fail "request host is empty"
  else
    recoveredDomain <- recover (rqHost req) ;
    let planningHost := if decide (recoveredDomain = "")%string then rqHost req else recoveredDomain in
    let resolveDomain := negb (bool_decide (rqMode req = PreserveDomainTarget)) in
    r <- genPolicyWithOptions logger planningHost resolveDomain ;
    if failed r then fail "failed to resolve dial plan"
    else
      let targetPort := if 0 <? Port (rPolicy r) then Port (rPolicy r) else rqPort req in
      ret (mkPlan (Source req) (rqHost req) (rqPort req) recoveredDomain (matchedDomain r) (matchedIP r)
             (dstHost r) targetPort (rPolicy r) (blocked r)).

Definition PlanAddress (originHost : string) (logger : bool) : M DialPlan :=
  PlanRequest (mkRequest "" originHost 0 ResolveDomainTarget) logger.
End operations.

(** ** Fake addresses are transparent *)

(** A plan seen from the fake address [host] of [d]. *)
Definition via (host d : string) (p : DialPlan) : DialPlan :=
  mkPlan (plSource p) host (OriginPort p) d (MatchedDomain p) (MatchedIP p) (TargetHost p)
    (TargetPort p) (plPolicy p) (Blocked p).

Definition map_result {A B} (f : A -> B) (r : go A) : go B := go_bind r (fun a => Ret (f a)).

Section transparency.
Context {L : LRU} {ord : RangeOrder} {names : DNSNames} (cfg : config).

Lemma plan_bound (w : world) c d a x src port mode logger :
  stores_ok (fakes c) -> plain a -> bound (fakes c) d (AddrString a) x -> now w < x ->
  d <> ""%string -> not_ip d = true ->
  PlanRequest cfg w (mkRequest src (AddrString a) port mode) logger c =
  let (r, c') := PlanRequest cfg w (mkRequest src d port mode) logger c in
  (map_result (via (AddrString a) d) r, c').
Proof.
  intros Hg Ha Hb Hx Hd Hn. unfold PlanRequest. cbn [rqHost rqMode rqPort Source].
  rewrite (decide_False (P := AddrString a = _)) by by apply AddrString_nonempty.
  rewrite (decide_False (P := d = _)) by done.
  assert (not_ip (AddrString a) = false) as Hi by (unfold not_ip; by rewrite ParseIP_String).
  assert (recover w (AddrString a) c = (Ret d, c)) as E1.
  { unfold recover. rewrite Hi. unfold bind, LookupDomain, lookupDomainByIP.
    rewrite (lookup_bound _ _ _ _ _ Hg Hb Hx). by destruct c. }
  assert (recover w d c = (Ret ""%string, c)) as E2 by (unfold recover; by rewrite Hn).
  rewrite (bind_step _ _ _ _ _ E1), (bind_step _ _ _ _ _ E2).
  rewrite (decide_False (P := d = _)) by done. rewrite (decide_True (P := (""%string = _))) by done.
  unfold bind. destruct (genPolicyWithOptions cfg w logger d _ c) as [[r| |] c']; [|done..].
  by destruct (failed r).
Qed.

(** The hypotheses on a hijacked query that is answered with fake addresses. *)
Record hijacked (w : world) req q resp c : Prop := {
  hj_stores : stores_ok (fakes c);
  hj_question : msgQuestion req = [q];
  hj_class : Qclass q = ClassINET;
  hj_type : Qtype q = TypeA \/ Qtype q = TypeAAAA;
  hj_match : shouldUseFakeIP (routes cfg) (ToLower (TrimSuffix1 (qName q) ".")) = true;
  hj_upstream : dnsExchange w req = Ret resp /\ Rcode resp = RcodeSuccess;
  hj_ttls : Forall ttl_ok (Answer resp) /\ Forall ttl_ok (Ns resp) /\ Forall ttl_ok (Extra resp)
}.

(** An address the reply shows is a fake one, bound to the domain. *)
Lemma reply_address_bound w req q resp c reply c1 rr ip :
  hijacked w req q resp c -> handleDNSQuery cfg w req c = (Ret reply, c1) -> rr ∈ Answer reply -> of_type (Qtype q) rr -> rr_addr rr = Some ip ->
  let d := ToLower (TrimSuffix1 (qName q) ".") in
  stores_ok (fakes c1) /\ d <> ""%string /\
  exists a, fake_addr (Qtype q) a /\ ip_string (Some ip) = AddrString a /\
    bound (fakes c1) d (AddrString a) (now w + fakeIPLifetime (dnsCacheTTL cfg) (binding_ttl (Qtype q) resp)).
Proof.
  intros [Hg Hq Hc Ht Hm [Hx Hr] (T1 & T2 & T3)] H Hin Hty Hip d. fold d in Hm.
  destruct (buildFake_spec cfg w req q resp d c) as (r & c' & E & Hg' & HR); try done;
    [apply ToLower_idem|by eapply shouldUse_nonempty|].
  assert (r = Ret reply /\ c' = c1) as [-> ->].
  { unfold handleDNSQuery in H. rewrite Hq, Hc, Z.eqb_refl in H. cbn [negb] in H. fold d in H.
    destruct Ht as [Ht|Ht]; rewrite Ht in H, E;
      change (TypeA =? TypeHTTPS) with false in H; change (TypeAAAA =? TypeHTTPS) with false in H;
      change (TypeA =? TypeA) with true in H; change (TypeAAAA =? TypeA) with false in H;
      change (TypeAAAA =? TypeAAAA) with true in H; cbv iota in H; rewrite E in H; by simplify_eq. }
  split; [done|]. split; [by eapply shouldUse_nonempty|].
  destruct HR as (a & Ha & HR & Hb). pose proof (replies_addr _ _ _ _ _ _ HR Hin Hty) as E2.
  rewrite Hip in E2. injection E2 as ->. exists a. split; [done|]. split; [|done].
  simpl. apply (proj2 (fake_addr_As16 _ _ Ha)).
Qed.

(** C18: Fake addresses are transparent.  After a hijacked query for a matched domain
    was answered, take any record of the asked type in the reply and the address
    text it carries.  Until the lifetime of the binding has passed, a request for
    that address gets the plan, the error and the changes of state a request for
    the domain itself would get, with the address as its origin and the domain
    as recovered. *)
Theorem fake_ip_transparent (w later : world) req q resp c reply c1 rr ip src port mode logger :
  stores_ok (fakes c) -> msgQuestion req = [q] -> Qclass q = ClassINET ->
  Qtype q = TypeA \/ Qtype q = TypeAAAA ->
  let d := ToLower (TrimSuffix1 (qName q) ".") in
  shouldUseFakeIP (routes cfg) d = true -> not_ip d = true ->
  dnsExchange w req = Ret resp -> Rcode resp = RcodeSuccess ->
  Forall ttl_ok (Answer resp) -> Forall ttl_ok (Ns resp) -> Forall ttl_ok (Extra resp) ->
  handleDNSQuery cfg w req c = (Ret reply, c1) ->
  rr ∈ Answer reply -> of_type (Qtype q) rr -> rr_addr rr = Some ip ->
  now later < now w + fakeIPLifetime (dnsCacheTTL cfg) (binding_ttl (Qtype q) resp) ->
  PlanRequest cfg later (mkRequest src (ip_string (Some ip)) port mode) logger c1 =
  let (r, c') := PlanRequest cfg later (mkRequest src d port mode) logger c1 in
  (map_result (via (ip_string (Some ip)) d) r, c').
Proof.
  intros Hg Hq Hc Ht d Hm Hn Hx Hr T1 T2 T3 H Hin Hty Hip Hlt.
  destruct (reply_address_bound w req q resp c reply c1 rr ip) as (Hg' & Hd & a & Ha & -> & Hb); [by constructor|done..|].
  eapply plan_bound; [done|apply Ha|done|done|done|done].
Qed.
End transparency.


(** ** Domain rules *)

Section domain_rules.
Context {L : LRU} {ord : RangeOrder} {names : DNSNames} (cfg : config) (w : world).

Lemma classify_rule m d rp : domainMatcher (routes cfg) = Some m -> d <> ""%string ->
  Find m (ToLower d) = Some rp -> classifyDomainRoute (routes cfg) d = domainRouteRule.
Proof.
  intros Hm Hd Hf. unfold classifyDomainRoute. rewrite decide_False by by rewrite ToLower_empty.
  rewrite Hm, Hf. done.
Qed.

(** A domain whose policy names no other host and whose name is kept as the target. *)
Lemma plain_target logger h p dp b c : not_ip h = true -> HasPrefix h tagPrefix = false ->
  domain_policy cfg h = (dp, b) -> pMode <$> dp <> Some ModeBlock ->
  p = match dp with
      | Some dp => mergePolicies [dp; defaultPolicy cfg]
      | None =>
        if decide (classifyDomainRoute (routes cfg) h = domainRouteGFW)
        then mergePolicies [gfwFallbackPolicy; defaultPolicy cfg]
        else mergePolicies [plainFallbackPolicy; defaultPolicy cfg]
      end -> Host p = None ->
  genPolicyWithOptions cfg w logger h false c = (Ret (mkResult h p false false b false), c).
Proof.
  intros Hn Ht Hdp Hb Hp Hh. unfold genPolicyWithOptions. rewrite Hn, Hdp. cbn [negb].
  rewrite bool_decide_eq_false_2 by done. cbv zeta. rewrite <- Hp, Hh.
  unfold bind, ret. rewrite Ht. cbn [negb andb]. by rewrite Hn.
Qed.

(** Which rule a domain gets.  A rule found for the name as the client spelt it
    decides: a block rule blocks at once, without resolving anything, and any other
    rule is merged over the default policy (stated for rules without a host and
    requests that keep the name as target).  But the rule table is consulted in
    lower case only to classify the name: when the rule matches the lower-case name
    and not the client's spelling, the request is not blocked and not marked as
    matched, and gets the plain fallback policy, whatever the rule says. *)
Theorem domain_rule_plan m h logger c :
  domainMatcher (routes cfg) = Some m -> not_ip h = true -> h <> ""%string ->
  HasPrefix h tagPrefix = false ->
  (forall rp resolve, Find m (ToLower h) = Some rp -> Find m h = Some rp -> pMode rp = ModeBlock ->
     genPolicyWithOptions cfg w logger h resolve c = (Ret (mkResult "" zeroPolicy false true true false), c)) /\
  (forall rp, Find m (ToLower h) = Some rp -> Find m h = Some rp -> pMode rp <> ModeBlock ->
     let p := mergePolicies [rp; defaultPolicy cfg] in Host p = None ->
     genPolicyWithOptions cfg w logger h false c = (Ret (mkResult h p false false true false), c)) /\
  (forall rp, Find m (ToLower h) = Some rp -> Find m h = None ->
     let p := mergePolicies [plainFallbackPolicy; defaultPolicy cfg] in Host p = None ->
     genPolicyWithOptions cfg w logger h false c = (Ret (mkResult h p false false false false), c)).
Proof.
  intros Hm Hn Hd Ht. split; [|split].
  - intros rp resolve Hl Hf Hb. unfold genPolicyWithOptions, domain_policy.
    rewrite Hn, (classify_rule m h rp) by done. rewrite Hm, Hf. cbn [negb]. simpl. by rewrite Hb.
  - intros rp Hl Hf Hb p Hp. eapply (plain_target logger h p (Some rp)); try done.
    + unfold domain_policy. rewrite (classify_rule m h rp) by done. by rewrite Hm, Hf.
    + simpl. congruence.
  - intros rp Hl Hf p Hp. eapply (plain_target logger h p None); try done.
    + unfold domain_policy. rewrite (classify_rule m h rp) by done. by rewrite Hm, Hf.
    + rewrite (classify_rule m h rp) by done. done.
Qed.
End domain_rules.

(** ** Blocked plans carry the zero policy *)

Section blocked.
Context {L : LRU} {ord : RangeOrder} {names : DNSNames} (cfg : config) (w : world).

Definition blocked_zero (r : policyResult) : Prop := blocked r = true -> rPolicy r = zeroPolicy /\ dstHost r = ""%string.

Lemma log_Ret logger c u c' : log (L := L) logger c = (Ret u, c') -> c' = c.
Proof. unfold log, ret, lift. destruct logger; naive_solver. Qed.

Lemma genPolicy_blocked logger h b c r c' :
  genPolicyWithOptions cfg w logger h b c = (Ret r, c') -> blocked_zero r.
Proof.
  intros H Hb. unfold genPolicyWithOptions in H. destruct (negb (not_ip h)).
  - unfold policy_of_ip in H. apply bind_Ret in H as ([[dst ipp]|e] & c1 & _ & H).
    + case_decide; unfold ret in H; by simplify_eq.
    + apply bind_Ret in H as (? & ? & _ & H). unfold ret in H. by simplify_eq.
  - cbv zeta in H. destruct (domain_policy cfg h) as [dp m]. case_bool_decide; [unfold ret in H; by simplify_eq|].
    destruct (match Host _ with Some hv => _ | None => _ end) as [dst skip].
    apply bind_Ret in H as (u & c1 & _ & H). apply bind_Ret in H as ([d1|e] & c2 & _ & H);
      [|unfold ret in H; by simplify_eq].
    apply bind_Ret in H as ([d2|e] & c3 & _ & H); [|unfold ret in H; by simplify_eq].
    destruct (skip || not_ip d2); [unfold ret in H; by simplify_eq|].
    unfold policy_of_target in H. apply bind_Ret in H as ([[d3 [ipp|]]|e] & c4 & _ & H).
    + case_decide; unfold ret in H; by simplify_eq.
    + unfold ret in H. by simplify_eq.
    + apply bind_Ret in H as (? & ? & _ & H). unfold ret in H. by simplify_eq.
Qed.

Lemma plan_blocked req logger c p c' : PlanRequest cfg w req logger c = (Ret p, c') ->
  Blocked p = true -> plPolicy p = zeroPolicy /\ TargetHost p = ""%string /\ TargetPort p = rqPort req.
Proof.
  intros H Hb. unfold PlanRequest in H. case_decide; [done|].
  apply bind_Ret in H as (d & c1 & _ & H). apply bind_Ret in H as (r & c2 & Hg & H).
  destruct (failed r); [done|]. unfold ret in H. simplify_eq. simpl in *.
  destruct (genPolicy_blocked _ _ _ _ _ _ Hg Hb) as [Hz Hh]. by rewrite Hz.
Qed.
End blocked.

(** ** Witnesses *)

Definition w_result : go Msg * core (L := map_lru) := w_handle (w_query TypeA).
Definition w_reply : Msg := match fst w_result with Ret m => m | _ => emptyMsg end.
Definition w_rr : RR := fake_rr (w_hdr "edge.example.net." TypeA 45) (Addr4 0xc6120001).

Lemma w_result_eq : w_result = (Ret w_reply, snd w_result).
Proof. rewrite (surjective_pairing w_result) at 1. f_equal. Qed.

Lemma fake_ip_transparent_witness :
  let plan h := PlanRequest (L := map_lru) (names := w_names) w_cfg (w_world (599 * second))
    (mkRequest "mobile_tun" h 443 PreserveDomainTarget) true (snd w_result) in
  map_result TargetAddress (fst (plan "198.18.0.1"%string)) = Ret "www.example.com:443"%string /\
  fst (plan "198.18.0.1"%string) =
    map_result (via "198.18.0.1" "www.example.com") (fst (plan "www.example.com"%string)).
Proof.
  cbv zeta. split; [vm_compute; reflexivity|].
  assert (forall r c, PlanRequest (L := map_lru) (names := w_names) w_cfg (w_world (599 * second))
    (mkRequest "mobile_tun" "www.example.com" 443 PreserveDomainTarget) true (snd w_result) = (r, c) ->
    fst (PlanRequest (L := map_lru) (names := w_names) w_cfg (w_world (599 * second))
      (mkRequest "mobile_tun" (ip_string (Some (As16 (Addr4 0xc6120001)))) 443 PreserveDomainTarget) true (snd w_result)) =
    map_result (via (ip_string (Some (As16 (Addr4 0xc6120001)))) "www.example.com") r) as H.
  { intros r c Hr.
    rewrite (fake_ip_transparent (L := map_lru) (ord := sorted_order) (names := w_names) w_cfg (w_world 0) (w_world (599 * second))
      (w_query TypeA) (mkQuestion "WWW.example.com." TypeA ClassINET) w_resp w_core w_reply (snd w_result)
      w_rr (As16 (Addr4 0xc6120001)) "mobile_tun" 443 PreserveDomainTarget true w_stores_ok eq_refl eq_refl
      (or_introl eq_refl)).
    - change (ToLower (TrimSuffix1 (qName (mkQuestion "WWW.example.com." TypeA ClassINET)) ".")) with "www.example.com"%string.
      rewrite Hr. reflexivity.
    - vm_compute. reflexivity.
    - vm_compute. reflexivity.
    - reflexivity.
    - reflexivity.
    - repeat constructor; vm_compute; (congruence || reflexivity).
    - repeat constructor; vm_compute; (congruence || reflexivity).
    - constructor.
    - exact w_result_eq.
    - apply list_elem_of_lookup. exists 1%nat. vm_compute. reflexivity.
    - reflexivity.
    - reflexivity.
    - vm_compute. reflexivity. }
  exact (H _ _ (surjective_pairing _)).
Defined.

Definition w_block : labelNode Policy := build [("*ads.example"%string, with_mode ModeBlock); ("ok.example"%string, with_mode ModeDirect)].
Definition w_block_cfg : config := mkConfig (with_mode ModeTLSRF) (mkRules (Some w_block) NewTrie NewTrie None None) 0.

Lemma domain_rule_plan_witness :
  let gen h := genPolicyWithOptions (L := map_lru) (names := w_names) w_block_cfg (w_world 0) true h false w_core in
  gen "x.ads.example"%string = (Ret (mkResult "" zeroPolicy false true true false), w_core) /\
  gen "ok.example"%string = (Ret (mkResult "ok.example" (mergePolicies [with_mode ModeDirect; with_mode ModeTLSRF]) false false true false), w_core) /\
  gen "X.Ads.Example"%string = (Ret (mkResult "X.Ads.Example" (mergePolicies [plainFallbackPolicy; with_mode ModeTLSRF]) false false false false), w_core).
Proof.
  pose proof (fun h => domain_rule_plan (L := map_lru) (names := w_names) w_block_cfg (w_world 0) w_block h true w_core eq_refl) as H.
  cbv zeta. split; [|split].
  - destruct (H "x.ads.example"%string) as (H1 & _); [reflexivity|discriminate|reflexivity|].
    apply (H1 (with_mode ModeBlock)); vm_compute; reflexivity.
  - destruct (H "ok.example"%string) as (_ & H2 & _); [reflexivity|discriminate|reflexivity|].
    apply (H2 (with_mode ModeDirect)); [vm_compute; reflexivity|vm_compute; reflexivity|discriminate|vm_compute; reflexivity].
  - destruct (H "X.Ads.Example"%string) as (_ & _ & H3); [reflexivity|discriminate|reflexivity|].
    apply (H3 (with_mode ModeBlock)); vm_compute; reflexivity.
Defined.

End Plan.
