(* ===== verification/Socks5.v ===== *)
(** * The SOCKS5 server (src/internal/socks5.go)

    The UDP address codec, the replies, and socks5Handler as a program over the
    bytes of the client, the trace of what is sent to it and the core's state.
    Dialing the target and name resolution are parameters. *)

From S2P Require Import Prelude GoStrings GoState Conn NetIP GoNet FakeIP Patterns Policy Route IPPool Core Dns Plan.

Module Socks5.
Import FakeIP Patterns Policy Plan.

Definition socks5RepSuccess : Z := 0x00.
Definition socks5RepServerFailure : Z := 0x01.
Definition socks5RepConnNotAllowed : Z := 0x02.
Definition socks5RepCmdNotSupported : Z := 0x07.
Definition socks5RepAtypNotSupported : Z := 0x08.
Definition socks5CmdConnect : Z := 0x01.
Definition socks5CmdUDPAssociate : Z := 0x03.

(** ** Addresses on the wire *)

(** The big-endian bytes of a 4-byte and a 16-byte address. *)
Definition bytes4 (v : Z) : bytes := octets v.
Definition bytes16 (v : Z) : bytes := addr_fields 16 v.

(** [net.IP(b).String()] for 4 and for 16 bytes. *)
Definition ip4_text (b : bytes) : string := AddrString (Addr4 (of_fields 8 b)).
Definition ip16_text (b : bytes) : string := IPString (of_fields 8 b).

(** The reply sendReplyWithAddr builds; the address of a UDP or TCP endpoint, its IP
    [None] when it has no valid form. *)
Definition reply_bytes (rep : Z) (addr : option (option Z * Z)) : bytes :=
  let zero := [0x01; 0x00; 0x00; 0x00; 0x00; 0x00; 0x00] in
  [0x05; rep; 0x00] ++
  match addr with
  | None => zero
  | Some (Some ip, port) =>
    if is4in6 ip then 0x01 :: bytes4 (ip mod 2 ^ 32) ++ put16 port
    else 0x04 :: bytes16 ip ++ put16 port
  | Some (None, _) => zero
  end.

(** encodeSocksUDPAddr of the text of the address. *)
Definition encodeSocksUDPAddr (addr : string) : go bytes :=
  let! (host, portStr) := SplitHostPort addr in
  match Atoi portStr with
  | None => Err ("strconv.Atoi: parsing " +:+ portStr)
  | Some port =>
    let! buf := match ParseIP host with
                | Some ip =>
                  Ret (if is4in6 ip then 0x01 :: bytes4 (ip mod 2 ^ 32) else 0x04 :: bytes16 ip)
                | None =>
                  if 255 <? zlen (bytes_of_string host) then Err ("host too long: " +:+ host)
                  else Ret (0x03 :: u8 (zlen (bytes_of_string host)) :: bytes_of_string host)
                end in
    Ret (buf ++ put16 port)
  end.

(** The address part of decodeSocksUDPPacket: the host and where the port starts. *)
Definition decode_host (packet : bytes) : go (string * Z) :=
  let offset := 3 in
  let! atyp := idx packet offset in
  if atyp =? 0x01 then
    if zlen packet <? offset + 1 + 4 + 2 then Err "udp ipv4 packet too short"
    else let! b := slice packet (offset + 1) (offset + 5) in Ret (ip4_text b, offset + 5)
  else if atyp =? 0x04 then
    if zlen packet <? offset + 1 + 16 + 2 then Err "udp ipv6 packet too short"
    else let! b := slice packet (offset + 1) (offset + 17) in Ret (ip16_text b, offset + 17)
  else if atyp =? 0x03 then
    if zlen packet <? offset + 2 then Err "udp domain packet too short"
    else
      let! hostLen := idx packet (offset + 1) in
      if zlen packet <? offset + 2 + hostLen + 2 then Err "udp domain packet too short"
      else
        let! b := slice packet (offset + 2) (offset + 2 + hostLen) in
        Ret (string_of_bytes b, offset + (2 + hostLen))
  else Err ("unsupported udp atyp: " +:+ Itoa atyp).

(** decodeSocksUDPPacket; [resolve] is [net.ResolveUDPAddr]. *)
Definition decodeSocksUDPPacket {A} (resolve : string -> go A) (packet : bytes) : go (A * bytes) :=
  if zlen packet <? 4 then Err "udp packet too short"
  else
    let! frag := idx packet 2 in
    if negb (frag =? 0x00) then Err "fragmented udp packets are not supported"
    else
      let! (host, offset) := decode_host packet in
      let! port := be16_at packet offset in
      let offset := offset + 2 in
      let! addr := resolve (JoinHostPort host (Itoa port)) in
      let! payload := slice_from packet offset in
      Ret (addr, payload).

(** ** The UDP relay *)

(** One datagram the relay sends: payload and destination. *)
Inductive datagram (A : Type) :=
| ToTarget (payload : bytes) (target : A)
| ToClient (packet : bytes) (client : string).
Arguments ToTarget {A}.
Arguments ToClient {A}.

(** One round of the loop of handleUDPAssociate: a datagram [b] from [addr] arrived. *)
Definition relay_step {A} (resolve : string -> go A) (clientAddr : option string) (addr : string) (b : bytes)
    : option string * list (datagram A) :=
  if match clientAddr with None => true | Some c => bool_decide (addr = c) end then
    (Some addr, match decodeSocksUDPPacket resolve b with
                | Ret (target, payload) => [ToTarget payload target]
                | _ => []
                end)
  else
    (clientAddr, match encodeSocksUDPAddr addr, clientAddr with
                 | Ret addrBytes, Some client => [ToClient ([0x00; 0x00; 0x00] ++ addrBytes ++ b) client]
                 | _, _ => []
                 end).

Fixpoint relay {A} (resolve : string -> go A) (clientAddr : option string) (arrivals : list (string * bytes))
    : list (datagram A) :=
  match arrivals with
  | [] => []
  | (addr, b) :: arrivals =>
    let (clientAddr, out) := relay_step resolve clientAddr addr b in
    out ++ relay resolve clientAddr arrivals
  end.

(** ** Sessions *)

Section session.
Context {L : LRU} {ord : RangeOrder} {names : DNSNames} {env : Env} (cfg : config) (w : world).
(** [net.DialTimeout("tcp", target, timeout)]: the error, if any. *)
Context (dialTCP : string -> Z -> option string).
(** [net.ListenPacket]: the local address, or an error. *)
Context (listenUDP : option string).
Context (localAddr : option Z * Z).

(** What is left of the client's bytes, what was sent to it, the core's state. *)
Record session := mkSession { input : bytes; cli : list event; kernel : core }.

Definition S : Type -> Type := St session.

(** readN: [io.ReadFull] of a stream that ends after [input]. *)
Definition readN (n : Z) : S bytes := fun s =>
  if n <=? zlen (input s) then
    (Ret (take (Z.to_nat n) (input s)), mkSession (drop (Z.to_nat n) (input s)) (cli s) (kernel s))
  else
    (Err (if zlen (input s) =? 0 then "EOF" else "unexpected EOF"), mkSession [] (cli s) (kernel s)).

(** A read of one byte at an index of a slice just read. *)
Definition at_ (b : bytes) (i : Z) : S Z := fun s => (idx b i, s).

Definition on_cli {A} (m : net A) : S A := fun s =>
  let (r, tr) := m (cli s) in (r, mkSession (input s) tr (kernel s)).
(** A send whose error is only logged. *)
Definition on_cli_ {A} (m : net A) : S unit := fun s =>
  let (r, tr) := m (cli s) in
  (match r with Panic => Panic | _ => Ret tt end, mkSession (input s) tr (kernel s)).

Definition sendReplyWithAddr (rep : Z) (addr : option (option Z * Z)) : S unit :=
  on_cli_ (write (fun e => e) (reply_bytes rep addr)).
Definition sendReply (rep : Z) : S unit := sendReplyWithAddr rep None.

(** The host and whether the error is the one about the address type. *)
Definition readSocksAddr (atyp : Z) : S (string + string) :=
  if atyp =? 0x01 then b <~ readN 4 ; stret (inl (ip4_text b))
  else if atyp =? 0x04 then b <~ readN 16 ; stret (inl (ip16_text b))
  else if atyp =? 0x03 then
    lenByte <~ readN 1 ;
    n <~ at_ lenByte 0 ;
    b <~ readN n ; stret (inl (string_of_bytes b))
  else stret (inr ("invalid address type: " +:+ Itoa atyp)%string).

(** How the handler ends. *)
Inductive outcome :=
| Done                                                     (* the client connection is closed here *)
| Relaying                                                 (* a UDP association, until the client closes *)
| Tunnel (p : Policy) (replyFirst : bool) (target originHost : string).  (* handleTunnel takes over *)

Definition lift_plan {A} (m : M A) : S (A + string) := fun s =>
  let (r, k) := m (kernel s) in
  (match r with Ret a => Ret (inl a) | Err e => Ret (inr e) | Panic => Panic end,
   mkSession (input s) (cli s) k).

Definition handleUDPAssociate : S outcome :=
  match listenUDP with
  | Some _ => sendReply socks5RepServerFailure ~; stret Done
  | None => sendReplyWithAddr socks5RepSuccess (Some localAddr) ~; stret Relaying
  end.

(** From the destination port on. *)
Definition connect (atyp : Z) (originHost : string) (dstPort : Z) : S outcome :=
  r <~ lift_plan (PlanRequest cfg w (mkRequest "socks5" originHost dstPort ResolveDomainTarget) true) ;
  match r with
  | inr _ => sendReply socks5RepServerFailure ~; stret Done
  | inl plan =>
    let policy := plPolicy plan in
    if Blocked plan then
      (if bool_decide (atyp = 0x03 /\ ReplyFirst policy = BoolTrue)
       then sendReply socks5RepSuccess else sendReply socks5RepConnNotAllowed) ~; stret Done
    else if decide (pMode policy = ModeBlock) then sendReply socks5RepConnNotAllowed ~; stret Done
    else
      let target := TargetAddress plan in
      let replyFirst := bool_decide (ReplyFirst policy = BoolTrue) in
      if negb replyFirst && bool_decide (is_Some (dialTCP target (ConnectTimeout policy)))
      then sendReply socks5RepServerFailure ~; stret Done
      else sendReply socks5RepSuccess ~; stret (Tunnel policy replyFirst target originHost)
  end.

(** The body of socks5Handler; an early return after a log line is an error. *)
Definition handler_body : S outcome :=
  header <~ readN 2 ;
  ver <~ at_ header 0 ;
  if negb (ver =? 0x05) then stfail "Expected socks version 5"
  else
    nMethods <~ at_ header 1 ;
    methods <~ readN nMethods ;
    let authMethod := if bool_decide (0x00 ∈ methods) then 0x00 else 0xFF in
    on_cli (write (fun e => e) [0x05; authMethod]) ~;
    if authMethod =? 0xFF then stfail "`no auth` method not found"
    else
      header <~ readN 4 ;
      ver <~ at_ header 0 ;
      if negb (ver =? 0x05) then stfail "Expected socks version 5"
      else
        cmd <~ at_ header 1 ;
        if negb (cmd =? socks5CmdConnect) && negb (cmd =? socks5CmdUDPAssociate)
        then sendReply socks5RepCmdNotSupported ~; stfail "Expected cmd CONNECT/UDP ASSOCIATE"
        else
          atyp <~ at_ header 3 ;
          host <~ readSocksAddr atyp ;
          match host with
          | inr e => sendReply socks5RepAtypNotSupported ~; stfail e
          | inl originHost =>
            if cmd =? socks5CmdUDPAssociate then readN 2 ~; handleUDPAssociate
            else
              portBytes <~ readN 2 ;
              p0 <~ at_ portBytes 0 ;
              p1 <~ at_ portBytes 1 ;
              connect atyp originHost (be16 p0 p1)
          end.

(** socks5Handler with its deferred close. *)
Definition socks5Handler (s : session) : go outcome * session :=
  match handler_body s with
  | (Ret (Tunnel p b t h), s) => (Ret (Tunnel p b t h), s)
  | (Ret Relaying, s) => (Ret Relaying, s)
  | (Ret Done, s) | (Err _, s) =>
    let (_, tr) := perform (fun e => e) EvClose (cli s) in (Ret Done, mkSession (input s) tr (kernel s))
  | (Panic, s) => (Panic, s)
  end.
End session.

(** ** The codec *)

(** A host the relay can meet: the text of an address, or a name. *)
Definition udp_host (host : string) : Prop :=
  (exists a, plain a /\ Unmap a = a /\ host = AddrString a) \/
  (ParseIP host = None /\ clean host /\ zlen (bytes_of_string host) <= 255).

(** The wire form of a host: type byte, then the address or length and name. *)
Definition enc_host (host : string) : bytes :=
  match ParseIP host with
  | Some ip => if is4in6 ip then 0x01 :: bytes4 (ip mod 2 ^ 32) else 0x04 :: bytes16 ip
  | None => 0x03 :: zlen (bytes_of_string host) :: bytes_of_string host
  end.

Lemma udp_host_clean host : udp_host host -> clean host.
Proof. intros [(a & Ha & _ & ->)|(_ & H & _)]; [by apply AddrString_clean|done]. Qed.

Lemma encode_host host port : udp_host host -> 0 <= port < 65536 ->
  encodeSocksUDPAddr (JoinHostPort host (Itoa port)) = Ret (enc_host host ++ put16 port).
Proof.
  intros Hh Hp. destruct (Itoa_clean port) as [C1 C2]; [lia|]. unfold encodeSocksUDPAddr.
  rewrite SplitHostPort_Join by (try done; by apply udp_host_clean). cbn [go_bind].
  rewrite Atoi_Itoa by (change (2 ^ 63) with 9223372036854775808; lia). unfold enc_host.
  destruct (ParseIP host) as [ip|] eqn:E; [done|].
  destruct Hh as [(a & Ha & _ & ->)|(_ & _ & Hl)]; [by rewrite ParseIP_String in E|].
  rewrite (proj2 (Z.ltb_ge _ _)) by done. cbn [go_bind]. unfold u8.
  rewrite Z.mod_small by (pose proof (zlen_nonneg (bytes_of_string host)); lia). done.
Qed.

Lemma zlen_bytes16 v : zlen (bytes16 v) = 16.
Proof. done. Qed.
Lemma zlen_bytes4 v : zlen (bytes4 v) = 4.
Proof. done. Qed.

Lemma of_fields_bytes16 v : 0 <= v < 2 ^ 128 -> of_fields 8 (bytes16 v) = v.
Proof. intros Hv. exact (of_fields_bytes 16 v Hv). Qed.

Lemma ip4_text_mapped v : 0 <= v < 2 ^ 32 -> ip4_text (bytes4 v) = AddrString (Addr4 v).
Proof. intros Hv. unfold ip4_text, bytes4. by rewrite of_fields_octets. Qed.

Ltac zl := rewrite ?zlen_app, ?zlen_cons, ?zlen_nil, ?zlen_bytes4, ?zlen_bytes16, ?length_put16; lia.

(** Reading back the host of a packet. *)
Lemma decode_host_enc host port payload : udp_host host ->
  decode_host ([0; 0; 0] ++ enc_host host ++ put16 port ++ payload) =
  Ret (host, 3 + zlen (enc_host host)).
Proof.
  intros Hh. unfold decode_host, enc_host. pose proof (zlen_nonneg payload) as Hpl.
  destruct Hh as [(a & Ha & Hu & ->)|(Hn & _ & Hl)].
  - rewrite ParseIP_String by done. destruct (is4in6 (As16 a)) eqn:E4.
    + assert (exists v, a = Addr4 v /\ 0 <= v < 2 ^ 32) as (v & -> & Hv).
      { destruct a as [v|v z]; [exists v; split; [done|apply Ha]|]. unfold Unmap in Hu. simpl in E4. by rewrite E4 in Hu. }
      assert (As16 (Addr4 v) mod 2 ^ 32 = v) as ->.
      { unfold As16. symmetry. apply (Z.mod_unique_pos _ _ 65535 v); lia. }
      rewrite (idx_app _ [0; 0; 0] (bytes4 v ++ put16 port ++ payload) 1) by done. cbn [go_bind Z.eqb Pos.eqb].
      rewrite (proj2 (Z.ltb_ge _ _)) by zl.
      rewrite (slice_app _ [0; 0; 0; 1] (bytes4 v) (put16 port ++ payload)) by done. cbn [go_bind].
      rewrite ip4_text_mapped by done. done.
    + assert (exists v, a = Addr6 v "" /\ 0 <= v < 2 ^ 128) as (v & -> & Hv).
      { destruct a as [v|v z].
        - destruct Ha as [Hv _]. unfold addr_ok in Hv. cbn [addr_val BitLen] in Hv. unfold is4in6, As16 in E4.
          rewrite Z.shiftr_div_pow2 in E4 by lia.
          rewrite <- (Z.div_unique_pos (65535 * 2 ^ 32 + v) (2 ^ 32) 65535 v) in E4 by lia. done.
        - destruct Ha as [Hv Hz]. cbn [Zone] in Hz. subst z. by exists v. }
      cbn [As16] in *.
      rewrite (idx_app _ [0; 0; 0] (bytes16 v ++ put16 port ++ payload) 4) by done. cbn [go_bind Z.eqb Pos.eqb].
      rewrite (proj2 (Z.ltb_ge _ _)) by zl.
      rewrite (slice_app _ [0; 0; 0; 4] (bytes16 v) (put16 port ++ payload)) by done. cbn [go_bind].
      unfold ip16_text, IPString. rewrite of_fields_bytes16 by done. by rewrite Hu.
  - rewrite Hn. set (b := bytes_of_string host) in *. pose proof (zlen_nonneg b) as Hb.
    rewrite (idx_app _ [0; 0; 0] (zlen b :: b ++ put16 port ++ payload) 3) by done. cbn [go_bind Z.eqb Pos.eqb].
    rewrite (proj2 (Z.ltb_ge _ _)) by zl.
    rewrite (idx_app _ [0; 0; 0; 3] (b ++ put16 port ++ payload) (zlen b)) by done. cbn [go_bind].
    rewrite (proj2 (Z.ltb_ge _ _)) by zl.
    rewrite (slice_app _ [0; 0; 0; 3; zlen b] b (put16 port ++ payload)) by (done || zl). cbn [go_bind].
    unfold b at 1. rewrite string_of_bytes_of_string. do 2 f_equal. rewrite !zlen_cons. lia.
Qed.


Lemma decode_host_total packet : bytes_ok packet -> 4 <= zlen packet ->
  match decode_host packet with
  | Ret (_, o) => 0 <= o /\ o + 2 <= zlen packet
  | Err _ => True
  | Panic => False
  end.
Proof.
  intros Ho Hl. unfold decode_host. destruct (idx_in_range packet 3) as (atyp & -> & _); [lia|]. cbn [go_bind].
  destruct (atyp =? 1); [|destruct (atyp =? 4); [|destruct (atyp =? 3); [|done]]].
  - destruct (Z.ltb_spec (zlen packet) (3 + 1 + 4 + 2)); [done|]. rewrite slice_in_range by lia. cbn [go_bind]. lia.
  - destruct (Z.ltb_spec (zlen packet) (3 + 1 + 16 + 2)); [done|]. rewrite slice_in_range by lia. cbn [go_bind]. lia.
  - destruct (Z.ltb_spec (zlen packet) (3 + 2)); [done|].
    destruct (idx_in_range packet (3 + 1)) as (n & -> & Hn); [lia|]. cbn [go_bind].
    pose proof (Forall_lookup_1 _ _ _ _ Ho Hn) as Hb. unfold is_byte in Hb.
    destruct (Z.ltb_spec (zlen packet) (3 + 2 + n + 2)); [done|]. rewrite slice_in_range by lia. cbn [go_bind]. lia.
Qed.

Lemma decode_packet_enc {A} (resolve : string -> go A) host port payload : udp_host host -> 0 <= port < 65536 ->
  let addr := JoinHostPort host (Itoa port) in
  decodeSocksUDPPacket resolve ([0x00; 0x00; 0x00] ++ enc_host host ++ put16 port ++ payload) =
  go_bind (resolve addr) (fun a => Ret (a, payload)).
Proof.
  intros Hh Hp addr. unfold decodeSocksUDPPacket.
  assert (2 <= zlen (enc_host host)) as Hl.
  { unfold enc_host. destruct (ParseIP host); [destruct (is4in6 z); zl|].
    pose proof (zlen_nonneg (bytes_of_string host)). zl. }
  pose proof (zlen_nonneg payload).
  rewrite (proj2 (Z.ltb_ge _ _)) by zl.
  rewrite (idx_app _ [0; 0] (enc_host host ++ put16 port ++ payload) 0) by done. cbn [go_bind Z.eqb negb].
  rewrite decode_host_enc by done. cbn [go_bind].
  rewrite (be16_at_app _ ([0; 0; 0] ++ enc_host host) payload port) by (done || zl).
  cbn [go_bind]. rewrite u16_small by done. fold addr. destruct (resolve addr); [|done..]. cbn [go_bind].
  unfold slice_from. rewrite (slice_app _ ([0; 0; 0] ++ enc_host host ++ put16 port) payload []); [done| |zl..].
  rewrite app_nil_r. by rewrite <- !app_assoc.
Qed.

(** The UDP codec.  The header the relay puts before a datagram from an endpoint
    (an address of either family, or a name of at most 255 bytes, with a 16-bit
    port) decodes to the text of that endpoint, which is what is resolved, and to
    the payload.  And decoding never panics: every packet of bytes is accepted or
    rejected with an error. *)
Theorem udp_codec {A} (resolve : string -> go A) :
  (forall host port payload, udp_host host -> 0 <= port < 65536 ->
     let addr := JoinHostPort host (Itoa port) in
     exists buf, encodeSocksUDPAddr addr = Ret buf /\
       decodeSocksUDPPacket resolve ([0x00; 0x00; 0x00] ++ buf ++ payload) =
       go_bind (resolve addr) (fun a => Ret (a, payload))) /\
  (forall packet, bytes_ok packet -> (forall s, resolve s <> Panic) ->
     decodeSocksUDPPacket resolve packet <> Panic).
Proof.
  split.
  - intros host port payload Hh Hp addr. eexists. split; [by apply encode_host|].
    rewrite <- (app_assoc (enc_host host)). by apply decode_packet_enc.
  - intros packet Ho Hr. unfold decodeSocksUDPPacket. destruct (Z.ltb_spec (zlen packet) 4); [done|].
    destruct (idx_in_range packet 2) as (frag & -> & _); [lia|]. cbn [go_bind].
    destruct (negb (frag =? 0)); [done|]. pose proof (decode_host_total packet Ho ltac:(lia)) as Hd.
    destruct (decode_host packet) as [[host o]| |]; [|done..]. cbn [go_bind].
    destruct (be16_at_in_range packet o Ho) as (port & -> & _); [lia..|]. cbn [go_bind].
    destruct (resolve _) eqn:E; cbn [go_bind]; [|done|by apply Hr in E].
    unfold slice_from. rewrite slice_in_range by lia. done.
Qed.

Lemma udp_codec_witness :
  decodeSocksUDPPacket Ret ([0; 0; 0] ++ [4; 0x20; 0x01; 0x0d; 0xb8; 0; 0; 0; 0; 0; 0; 0; 0; 0; 0; 0; 1; 0; 53] ++ [7; 8]) =
  Ret ("[2001:db8::1]:53"%string, [7; 8]) /\
  decodeSocksUDPPacket (A := string) Ret [0; 0; 0; 3; 200; 1] <> Panic.
Proof.
  destruct (udp_codec (A := string) Ret) as [H1 H2]. split.
  - destruct (H1 "2001:db8::1"%string 53 [7; 8]) as (buf & E & H).
    + left. exists (Addr6 0x20010db8000000000000000000000001 "").
      split; [split; [vm_compute; split; [discriminate|reflexivity]|reflexivity]|]. split; vm_compute; reflexivity.
    + lia.
    + vm_compute in E. injection E as <-. exact H.
  - apply H2; [repeat constructor; discriminate|discriminate].
Defined.


(** ** CONNECT sessions *)

(** The type byte, the address bytes and the host of a request. *)
Inductive socks_addr : Z -> bytes -> string -> Prop :=
| addr_v4 b : zlen b = 4 -> socks_addr 0x01 b (ip4_text b)
| addr_v6 b : zlen b = 16 -> socks_addr 0x04 b (ip16_text b)
| addr_name b : zlen b <= 255 -> socks_addr 0x03 (zlen b :: b) (string_of_bytes b).

Definition connect_request (methods : bytes) (rsv atyp : Z) (addr : bytes) (port : Z) : bytes :=
  [0x05; zlen methods] ++ methods ++ [0x05; socks5CmdConnect; rsv; atyp] ++ addr ++ put16 port.

Section sessions.
Context {L : LRU} {ord : RangeOrder} {names : DNSNames} (cfg : config) (w : world).
Context (dialTCP : string -> Z -> option string) (listenUDP : option string) (localAddr : option Z * Z).

Notation handler := (socks5Handler (env := reliable) cfg w dialTCP listenUDP localAddr).

Lemma readN_app n a b tr k : zlen a = n ->
  readN n (mkSession (a ++ b) tr k) = (Ret a, mkSession b tr k).
Proof.
  intros <-. unfold readN. cbn [input cli kernel].
  rewrite (proj2 (Z.leb_le _ _)) by (rewrite zlen_app; pose proof (zlen_nonneg b); lia).
  unfold zlen. by rewrite Nat2Z.id, take_app_length, drop_app_length.
Qed.

Lemma readSocksAddr_enc atyp addr host rest tr k : socks_addr atyp addr host ->
  readSocksAddr atyp (mkSession (addr ++ rest) tr k) = (Ret (inl host), mkSession rest tr k).
Proof.
  intros [b Hb|b Hb|b Hb]; unfold readSocksAddr; cbn [Z.eqb Pos.eqb]; unfold stbind.
  - by rewrite readN_app.
  - by rewrite readN_app.
  - change ((zlen b :: b) ++ rest) with ([zlen b] ++ (b ++ rest)). rewrite readN_app by done.
    unfold at_. rewrite (idx_app _ [] [] (zlen b)) by done. by rewrite readN_app.
Qed.

Lemma sendReply_run rep s : sendReply (env := reliable) rep s =
  (Ret tt, mkSession (input s) (cli s ++ [EvWrite (reply_bytes rep None)]) (kernel s)).
Proof. done. Qed.

(** What connect does with a plan, and the reply the client gets. *)
Definition verdict (plan : DialPlan) : outcome * Z :=
  let policy := plPolicy plan in
  if Blocked plan then (Done, socks5RepConnNotAllowed)
  else if decide (pMode policy = ModeBlock) then (Done, socks5RepConnNotAllowed)
  else
    let replyFirst := bool_decide (ReplyFirst policy = BoolTrue) in
    if negb replyFirst && bool_decide (is_Some (dialTCP (TargetAddress plan) (ConnectTimeout policy)))
    then (Done, socks5RepServerFailure)
    else (Tunnel policy replyFirst (TargetAddress plan) (OriginHost plan), socks5RepSuccess).

Lemma plan_origin req logger c p c' : PlanRequest cfg w req logger c = (Ret p, c') -> OriginHost p = rqHost req.
Proof.
  intros H. unfold PlanRequest in H. case_decide; [done|].
  apply bind_Ret in H as (d & c1 & _ & H). apply bind_Ret in H as (r & c2 & _ & H).
  destruct (failed r); [done|]. unfold ret in H. by simplify_eq.
Qed.

Lemma connect_run atyp host port rest tr k :
  connect (env := reliable) cfg w dialTCP atyp host port (mkSession rest tr k) =
  let (r, k') := PlanRequest cfg w (mkRequest "socks5" host port ResolveDomainTarget) true k in
  match r with
  | Ret plan => let (o, rep) := verdict plan in
      (Ret o, mkSession rest (tr ++ [EvWrite (reply_bytes rep None)]) k')
  | Err _ => (Ret Done, mkSession rest (tr ++ [EvWrite (reply_bytes socks5RepServerFailure None)]) k')
  | Panic => (Panic, mkSession rest tr k')
  end.
Proof.
  unfold connect, stbind at 1, lift_plan. cbn [kernel input cli].
  destruct (PlanRequest _ _ _ _ k) as [[plan|e|] k'] eqn:E; [|done..]. cbn [kernel input cli]. unfold verdict. cbv zeta.
  destruct (Blocked plan) eqn:Eb.
  { rewrite (proj1 (plan_blocked _ _ _ _ _ _ _ E Eb)). rewrite bool_decide_eq_false_2 by (intros [_ ?]; done). done. }
  destruct (decide _); [done|]. rewrite (plan_origin _ _ _ _ _ E). by destruct (_ && _).
Qed.

Lemma connect_session methods rsv atyp addr host port rest k :
  0x00 ∈ methods -> zlen methods <= 255 -> socks_addr atyp addr host -> 0 <= port < 65536 ->
  handler (mkSession (connect_request methods rsv atyp addr port ++ rest) [] k) =
  let (r, k') := PlanRequest cfg w (mkRequest "socks5" host port ResolveDomainTarget) true k in
  let said rep := [EvWrite [0x05; 0x00]; EvWrite (reply_bytes rep None)] in
  match r with
  | Ret plan =>
    match verdict plan with
    | (Done, rep) => (Ret Done, mkSession rest (said rep ++ [EvClose]) k')
    | (o, rep) => (Ret o, mkSession rest (said rep) k')
    end
  | Err _ => (Ret Done, mkSession rest (said socks5RepServerFailure ++ [EvClose]) k')
  | Panic => (Panic, mkSession rest [EvWrite [0x05; 0x00]] k')
  end.
Proof.
  intros Hm Hl Ha Hp. unfold socks5Handler.
  assert (handler_body (env := reliable) cfg w dialTCP listenUDP localAddr
    (mkSession (connect_request methods rsv atyp addr port ++ rest) [] k) =
    connect (env := reliable) cfg w dialTCP atyp host port (mkSession rest [EvWrite [0x05; 0x00]] k)) as ->.
  { unfold handler_body, connect_request. rewrite <- !app_assoc. unfold stbind at 1. rewrite readN_app by done.
    unfold stbind at 1, at_. rewrite (idx_app _ [] [zlen methods] 5) by done. cbn [Z.eqb Pos.eqb negb].
    unfold stbind at 1. rewrite (idx_app _ [5] [] (zlen methods)) by done.
    unfold stbind at 1. rewrite readN_app by done. cbv zeta. rewrite bool_decide_eq_true_2 by done.
    unfold stbind at 1, on_cli at 1, write, perform. cbn [env_fail reliable cli input kernel Z.eqb].
    unfold stbind at 1. rewrite (readN_app 4 [5; socks5CmdConnect; rsv; atyp]) by done.
    unfold stbind at 1. rewrite (idx_app _ [] [socks5CmdConnect; rsv; atyp] 5) by done. cbn [Z.eqb Pos.eqb negb].
    unfold stbind at 1. rewrite (idx_app _ [5] [rsv; atyp] socks5CmdConnect) by done. cbn [Z.eqb Pos.eqb negb andb socks5CmdConnect].
    unfold stbind at 1. rewrite (idx_app _ [5; 1; rsv] [] atyp) by done.
    unfold stbind at 1. rewrite (readSocksAddr_enc _ _ _ _ _ _ Ha). cbn [socks5CmdUDPAssociate Z.eqb Pos.eqb].
    unfold stbind at 1. rewrite readN_app by done. unfold put16.
    unfold stbind at 1. rewrite (idx_app _ [] [u16 port mod 256] (u16 port / 256)) by done.
    unfold stbind at 1. rewrite (idx_app _ [u16 port / 256] [] (u16 port mod 256)) by done.
    rewrite (put16_be16 port) by done. by rewrite u16_small. }
  rewrite connect_run. destruct (PlanRequest _ _ _ _ k) as [[plan|e|] k']; [|done..].
  cbv zeta. by destruct (verdict plan) as [[] rep].
Qed.

(** C21: A CONNECT session.  For every well-formed request that offers the no-auth
    method, the client is told method 0, the destination is planned as it stands in
    the request, and then exactly one reply follows: success, with the tunnel taking
    over the bytes after the request, exactly when the plan is made, is not blocked
    and the target can be dialled (or the policy replies first); 2 when it is
    blocked by the plan or by the merged mode; 1 when planning or dialling fails.
    In every other case than success the connection is closed at once. *)
Theorem socks5_connect methods rsv atyp addr host port rest k :
  0x00 ∈ methods -> zlen methods <= 255 -> socks_addr atyp addr host -> 0 <= port < 65536 ->
  handler (mkSession (connect_request methods rsv atyp addr port ++ rest) [] k) =
  let (r, k') := PlanRequest cfg w (mkRequest "socks5" host port ResolveDomainTarget) true k in
  let said rep := [EvWrite [0x05; 0x00]; EvWrite (reply_bytes rep None)] in
  match r with
  | Ret plan =>
    match verdict plan with
    | (Done, rep) => (Ret Done, mkSession rest (said rep ++ [EvClose]) k')
    | (o, rep) => (Ret o, mkSession rest (said rep) k')
    end
  | Err _ => (Ret Done, mkSession rest (said socks5RepServerFailure ++ [EvClose]) k')
  | Panic => (Panic, mkSession rest [EvWrite [0x05; 0x00]] k')
  end.
Proof. apply connect_session. Qed.
End sessions.

(** ** Witnesses *)

Definition w_run (host : string) : go outcome * session (L := map_lru) :=
  socks5Handler (L := map_lru) (env := reliable) (names := Dns.w_names) w_block_cfg (Dns.w_world 0)
    (fun _ _ => None) None (None, 0)
    (mkSession (connect_request [2; 0] 0 3 (zlen (bytes_of_string host) :: bytes_of_string host) 443 ++ [1; 2; 3]) [] Dns.w_core).

Lemma socks5_connect_witness :
  (fst (w_run "x.ads.example"), cli (snd (w_run "x.ads.example"))) =
    (Ret Done, [EvWrite [5; 0]; EvWrite (reply_bytes socks5RepConnNotAllowed None); EvClose]) /\
  (match fst (w_run "ok.example") with Ret (Tunnel _ b t h) => Some (b, t, h) | _ => None end,
   input (snd (w_run "ok.example")), cli (snd (w_run "ok.example"))) =
    (Some (false, "203.0.113.10:443"%string, "ok.example"%string), [1; 2; 3],
     [EvWrite [5; 0]; EvWrite (reply_bytes socks5RepSuccess None)]).
Proof.
  unfold w_run. split.
  - rewrite (socks5_connect w_block_cfg (Dns.w_world 0) (fun _ _ => None) None (None, 0)
      [2; 0] 0 3 _ "x.ads.example" 443 [1; 2; 3]).
    + vm_compute. reflexivity.
    + set_solver.
    + vm_compute. discriminate.
    + apply (addr_name (bytes_of_string "x.ads.example")). vm_compute. discriminate.
    + lia.
  - rewrite (socks5_connect w_block_cfg (Dns.w_world 0) (fun _ _ => None) None (None, 0)
      [2; 0] 0 3 _ "ok.example" 443 [1; 2; 3]).
    + vm_compute. reflexivity.
    + set_solver.
    + vm_compute. discriminate.
    + apply (addr_name (bytes_of_string "ok.example")). vm_compute. discriminate.
    + lia.
Defined.
End Socks5.
