(* ===== verification/Servers.v ===== *)
(** * Starting the servers (src/internal/socks5.go SOCKS5Accept, http.go HTTPAccept)

    Each server takes its address from the command line or the configuration, listens, and
    serves until its stop channel is closed.  The listener is what its Accept calls return,
    each with whether the stop channel was closed by then. *)

From S2P Require Import Prelude GoStrings.

Module Servers.

(** [if *addr == "" { listenAddr = serverAddr } else { listenAddr = *addr }] *)
Definition listenAddr (addr serverAddr : string) : string := if decide (addr = "")%string then serverAddr else addr.

(** How a server ends or goes on: it is not started, listening fails, it is stopped, or the
    calls of Accept known so far are used up and it still serves. *)
Inductive outcome := NotStarted | ListenFailed (e : string) | Stopped | Serving.

(** The address shown in the log; an empty one is refused before. *)
Definition shown (a : string) : string :=
  match a with String ":" _ => ("0.0.0.0" +:+ a)%string | _ => a end.

(** The loop of SOCKS5Accept: the connections handed to socks5Handler with their numbers,
    and how many errors were logged. *)
Fixpoint accept_loop {C} (connID : Z) (calls : list ((C + string) * bool)) : list (C * Z) * Z * outcome :=
  match calls with
  | [] => ([], 0, Serving)
  | (inr e, true) :: _ => ([], 0, Stopped)
  | (inr e, false) :: calls =>
    let '(hs, n, o) := accept_loop connID calls in (hs, n + 1, o)
  | (inl conn, _) :: calls =>
    let connID := u32 (connID + 1) in
    let connID := if 0xFFFFF <? connID then 0 else connID in
    let '(hs, n, o) := accept_loop connID calls in ((conn, connID) :: hs, n, o)
  end.

Definition SOCKS5Accept {C} (addr serverAddr : string) (Listen : string -> option string)
    (calls : list ((C + string) * bool)) : list (C * Z) * Z * outcome :=
  let a := listenAddr addr serverAddr in
  if decide (a = "" \/ a = "none")%string then ([], 0, NotStarted)
  else match Listen a with
       | Some e => ([], 0, ListenFailed e)
       | None => accept_loop 0 calls
       end.

(** ListenAndServe's error, and whether the stop channel was closed when it returned. *)
Definition HTTPAccept (addr serverAddr : string) (ListenAndServe : string -> option string * bool) : outcome :=
  let a := listenAddr addr serverAddr in
  if decide (a = "" \/ a = "none")%string then NotStarted
  else match ListenAndServe a with
       | (Some _, true) => Stopped
       | (Some e, false) => ListenFailed e
       | (None, _) => Stopped
       end.

(** ** What the loop does *)

Definition conns {C} (calls : list ((C + string) * bool)) : list C :=
  omap (fun x => match x.1 with inl c => Some c | inr _ => None end) calls.
(** The calls before the first failure after the stop channel was closed. *)
Fixpoint until_stop {C} (calls : list ((C + string) * bool)) : list ((C + string) * bool) :=
  match calls with
  | [] => []
  | (inr e, true) :: _ => []
  | x :: calls => x :: until_stop calls
  end.

(** The number after [id]. *)
Definition next_id (id : Z) : Z := (id + 1) mod 0x100000.

Lemma accept_loop_spec {C} (calls : list ((C + string) * bool)) : forall id, 0 <= id < 0x100000 ->
  let '(hs, n, o) := accept_loop id calls in
  hs.*1 = conns (until_stop calls) /\
  (forall i c k, hs !! i = Some (c, k) -> k = (id + 1 + Z.of_nat i) mod 0x100000) /\
  n = zlen (until_stop calls) - zlen hs /\
  (o = Serving /\ until_stop calls = calls \/ o = Stopped /\ until_stop calls <> calls).
Proof.
  induction calls as [|[[c|e] stop] calls IH]; intros id Hid; cbn [accept_loop until_stop].
  - split_and!; try done. by left.
  - set (id' := if 0xFFFFF <? u32 (id + 1) then 0 else u32 (id + 1)).
    assert (id' = next_id id /\ 0 <= id' < 0x100000) as [Eid Hid'].
    { unfold id', next_id, u32. rewrite (Z.mod_small (id + 1) (2 ^ 32)) by lia.
      destruct (Z.ltb_spec 0xFFFFF (id + 1)).
      - assert (id + 1 = 0x100000) as -> by lia. by vm_compute.
      - rewrite Z.mod_small; lia. }
    specialize (IH id' Hid'). destruct (accept_loop id' calls) as [[hs n] o]. destruct IH as (E1 & E2 & E3 & E4). split_and!.
    + cbn. by rewrite E1.
    + intros [|i] c' k Hk; cbn in Hk; [injection Hk as <- <-; rewrite Eid; unfold next_id; f_equal; lia|].
      rewrite (E2 i c' k Hk), Eid. unfold next_id. rewrite <- Z.add_assoc, Zplus_mod_idemp_l. f_equal. lia.
    + rewrite !zlen_cons. lia.
    + destruct E4 as [[-> ->]|[-> Hn]]; [by left|right]. split; [done|]. by intros [= ?].
  - destruct stop; [split_and!; try done; by right|]. specialize (IH id Hid). destruct (accept_loop id calls) as [[hs n] o].
    destruct IH as (E1 & E2 & E3 & E4). split_and!.
    + done.
    + done.
    + rewrite zlen_cons. lia.
    + destruct E4 as [[-> ->]|[-> Hn]]; [by left|right]. split; [done|]. by intros [= ?].
Qed.

(** The SOCKS5 server hands every connection accepted before it is stopped to one handler,
    in order; the numbers run through 0 .. 0xFFFFF, so a million connections in a row have
    different ones.  An error of Accept while it is not stopped is only logged: if Accept
    keeps failing the loop logs without end and without a pause. *)
Theorem socks5_accept {C} addr serverAddr Listen (calls : list ((C + string) * bool)) :
  listenAddr addr serverAddr <> ""%string -> listenAddr addr serverAddr <> "none"%string ->
  Listen (listenAddr addr serverAddr) = None ->
  exists hs n o, SOCKS5Accept addr serverAddr Listen calls = (hs, n, o) /\ hs.*1 = conns (until_stop calls) /\
    (forall i j c d k, hs !! i = Some (c, k) -> hs !! j = Some (d, k) -> Z.abs (Z.of_nat i - Z.of_nat j) < 0x100000 -> i = j) /\
    n = zlen (until_stop calls) - zlen hs /\ (o = Stopped <-> until_stop calls <> calls).
Proof.
  intros H1 H2 HL. unfold SOCKS5Accept. cbv zeta. rewrite decide_False by tauto. rewrite HL.
  pose proof (accept_loop_spec calls 0 ltac:(lia)) as HS. destruct (accept_loop 0 calls) as [[hs n] o].
  destruct HS as (E1 & E2 & E3 & E4). exists hs, n, o. split_and!; try done.
  - intros i j c d k Hi Hj Ha. pose proof (E2 i c k Hi) as Ei. pose proof (E2 j d k Hj) as Ej. rewrite Ei in Ej.
    pose proof (Z.div_mod (0 + 1 + Z.of_nat i) 0x100000 ltac:(lia)). pose proof (Z.div_mod (0 + 1 + Z.of_nat j) 0x100000 ltac:(lia)). nia.
  - destruct E4 as [[-> ?]|[-> ?]]; [|done]. by split.
Qed.

Lemma socks5_accept_witness :
  let calls := [(inl 7, false); (inr "too many open files", false); (inl 8, false); (inr "closed", true)]%string in
  exists hs, SOCKS5Accept "" ":1080" (fun _ => None) calls = (hs, 1, Stopped) /\ hs = [(7, 1); (8, 2)] /\ hs.*1 = conns (until_stop calls).
Proof.
  cbv zeta. eexists. split; [reflexivity|]. split; [reflexivity|].
  destruct (socks5_accept (C := Z) "" ":1080" (fun _ => None)
    [(inl 7, false); (inr "too many open files"%string, false); (inl 8, false); (inr "closed"%string, true)]) as (hs & n & o & E & H & _); [done..|].
  injection E as <- _ _. exact H.
Defined.

End Servers.
