(* ===== verification/ClientHello.v ===== *)
(** * TLS ClientHello inspection (src/internal/utils.go)

    [parseClientHello] walks a TLS record holding a ClientHello and reports where
    the server name sits and whether a key_share extension is present;
    [findLastDot] picks the cut point used by the fragmentation and desync modes.
    Indexing is modelled with its panics ([Prelude.idx]). *)

From S2P Require Import Prelude GoStrings.

Module ClientHello.

(** The named results of [parseClientHello]. *)
Record hello := mkHello {
  prtVer : option bytes;
  sniPos : Z;
  sniLen : Z;
  hasKeyShare : bool;
  herr : option string;
}.

Definition extTypeSNI : Z := 0x0000.
Definition extTypeKeyShare : Z := 0x0033.

(** One server_name extension body, from the length check to the assignment of
    [sniPos] and [sniLen]: the error message, or the position and length. *)
Definition parseSNI (data : bytes) (extDataStart extDataEnd extLen : Z) :
    go (string + Z * Z) :=
  if extLen <? 2 then Ret (inl "malformed SNI extension (too short for list length)") else
  let! listLen := be16_at data extDataStart in
  if negb (listLen + 2 =? extLen) then Ret (inl "SNI list length field mismatch") else
  let cursor := extDataStart + 2 in
  if extDataEnd <? cursor + 3 then Ret (inl "SNI entry too short") else
  let! nameType := idx data cursor in
  if negb (nameType =? 0) then Ret (inl "unsupported SNI name type") else
  let! nameLen := be16_at data (cursor + 1) in
  let nameStart := cursor + 3 in
  let nameEnd := nameStart + nameLen in
  if extDataEnd <? nameEnd then Ret (inl "SNI name length exceeds extension") else
  Ret (inr (nameStart, nameLen)).

(** The extension loop; [None] is the loop running out of fuel. *)
Fixpoint parseExtensions (fuel : nat) (data : bytes) (pv : option bytes)
    (extensionsEnd offset pos len : Z) (ks : bool) : option (go hello) :=
  match fuel with
  | O => None
  | S fuel =>
    if negb (offset + 4 <=? extensionsEnd)
    then Some (Ret (mkHello pv pos len ks None))
    else match be16_at data offset, be16_at data (offset + 2) with
    | Ret extType, Ret extLen =>
      let extDataStart := offset + 4 in
      let extDataEnd := extDataStart + extLen in
      if extensionsEnd <? extDataEnd
      then Some (Ret (mkHello pv pos len false
                        (Some "extension length exceeds extensions block"%string)))
      else
        let ks := (extType =? extTypeKeyShare) || ks in
        if (extType =? extTypeKeyShare) && negb (pos =? -1)
        then Some (Ret (mkHello pv pos len ks None))
        else if (pos =? -1) && (extType =? extTypeSNI)
        then match parseSNI data extDataStart extDataEnd extLen with
             | Ret (inl e) => Some (Ret (mkHello pv pos len ks (Some e)))
             | Ret (inr (p, l)) =>
               if ks then Some (Ret (mkHello pv p l ks None))
               else parseExtensions fuel data pv extensionsEnd extDataEnd p l ks
             | Err e => Some (Err e)
             | Panic => Some Panic
             end
        else parseExtensions fuel data pv extensionsEnd extDataEnd pos len ks
    | Err e, _ | _, Err e => Some (Err e)
    | _, _ => Some Panic
    end
  end.

(** The loop advances by at least four bytes per round, so the length of the
    data bounds the rounds ([parseExtensions_total]). *)
Definition runExtensions (data : bytes) (pv : option bytes) (extensionsEnd offset : Z) :
    go hello :=
  match parseExtensions (S (length data)) data pv extensionsEnd offset (-1) 0 false with
  | Some r => r
  | None => Panic
  end.

Definition parseClientHello (data : bytes) : go hello :=
  let fail pv e := Ret (mkHello pv (-1) 0 false (Some e)) in
  let! recordLen := be16_at data 3 in
  if zlen data <? 5 + recordLen then fail None "record length exceeds data size"%string else
  let offset := 5 in
  if recordLen <? 4 then fail None "handshake message too short"%string else
  let! ty := idx data offset in
  if negb (ty =? 0x01)
  then fail None ("not a ClientHello handshake (type=" +:+ Itoa ty +:+ ")")%string else
  let! b1 := idx data (offset + 1) in
  let! b2 := idx data (offset + 2) in
  let! b3 := idx data (offset + 3) in
  let handshakeLen := Z.lor (Z.lor (Z.shiftl b1 16) (Z.shiftl b2 8)) b3 in
  if recordLen <? handshakeLen + 4
  then fail None "handshake length exceeds record length"%string else
  let offset := offset + 4 in
  if handshakeLen <? 2 + 32 + 1
  then fail None "ClientHello too short for mandatory fields"%string else
  let! pv := slice data offset (offset + 2) in
  let pv := Some pv in
  let offset := offset + 2 + 32 in
  if zlen data <=? offset then fail pv "unexpected end after Random"%string else
  let! sessionIDLen := idx data offset in
  let offset := offset + 1 in
  if zlen data <? offset + sessionIDLen
  then fail pv "session_id length exceeds data"%string else
  let offset := offset + sessionIDLen in
  if zlen data <? offset + 2 then fail pv "cannot read cipher_suites length"%string else
  let! csLen := be16_at data offset in
  let offset := offset + 2 in
  if zlen data <? offset + csLen then fail pv "cipher_suites exceed data"%string else
  let offset := offset + csLen in
  if zlen data <=? offset
  then fail pv "cannot read compression_methods length"%string else
  let! compMethodsLen := idx data offset in
  let offset := offset + 1 in
  if zlen data <? offset + compMethodsLen
  then fail pv "compression_methods exceed data"%string else
  let offset := offset + compMethodsLen in
  if zlen data <? offset + 2 then Ret (mkHello pv (-1) 0 false None) else
  let! extTotalLen := be16_at data offset in
  let offset := offset + 2 in
  if zlen data <? offset + extTotalLen
  then fail pv "extensions length exceeds data"%string else
  runExtensions data pv (offset + extTotalLen) offset.

(** [for i := sniPos + sniLen; i >= sniPos; i-- { if data[i] == '.' ... }], with
    the number of remaining iterations as the structural argument. *)
Fixpoint findLastDot_loop (n : nat) (data : bytes) (i : Z) : go (option Z) :=
  match n with
  | O => Ret None
  | S n =>
    let! b := idx data i in
    if b =? 46 then Ret (Some i) else findLastDot_loop n data (i - 1)
  end.

Definition findLastDot (data : bytes) (sniPos sniLen : Z) : go (Z * bool) :=
  let! r := findLastDot_loop (Z.to_nat (sniLen + 1)) data (sniPos + sniLen) in
  match r with
  | Some i => Ret (i, true)
  | None => Ret (Z.quot sniLen 2 + sniPos, false)
  end.

(** ** Properties *)

(** A server name reported at [pos] with length [len] inside the data. *)
Definition sni_in (data : bytes) (pos len : Z) : Prop :=
  (pos = -1 /\ len = 0) \/ (0 < pos /\ 0 <= len /\ pos + len <= zlen data).

Lemma parseSNI_spec data s e l :
  bytes_ok data -> 0 <= s -> e = s + l -> 0 <= l -> e <= zlen data ->
  exists r, parseSNI data s e l = Ret r /\
    match r with
    | inl _ => True
    | inr (p, n) => p = s + 5 /\ 0 <= n /\ p + n <= e
    end.
Proof.
  intros Hok Hs -> Hl Hlen. unfold parseSNI.
  destruct (Z.ltb_spec l 2); [by give|].
  destruct (be16_at_in_range data s) as (v & -> & Hv); [done|lia..|]. simpl.
  destruct (Z.eqb_spec (v + 2) l); simpl; [|by give].
  destruct (Z.ltb_spec (s + l) (s + 2 + 3)); [by give|].
  destruct (idx_in_range data (s + 2)) as (nt & -> & _); [lia|]. simpl.
  destruct (Z.eqb_spec nt 0); simpl; [|by give].
  destruct (be16_at_in_range data (s + 2 + 1)) as (nl & -> & Hnl); [done|lia..|]. simpl.
  destruct (Z.ltb_spec (s + l) (s + 2 + 3 + nl)); [by give|].
  eexists; split; [done|]. simpl. lia.
Qed.

(** Enough fuel: the loop terminates, does not panic, and what it reports lies
    inside the data. *)
Lemma parseExtensions_total fuel data pv e o p l ks :
  bytes_ok data -> 0 <= o -> e <= zlen data -> sni_in data p l ->
  (Z.to_nat (e - o) < fuel)%nat ->
  exists h, parseExtensions fuel data pv e o p l ks = Some (Ret h) /\
    sni_in data (sniPos h) (sniLen h) /\ prtVer h = pv.
Proof.
  intros Hok. revert o p l ks. induction fuel as [|fuel IH]; intros o p l ks Ho He Hin Hf; [lia|].
  cbn [parseExtensions].
  destruct (Z.leb_spec (o + 4) e) as [Ho4|]; simpl; [|by give].
  destruct (be16_at_in_range data o) as (ty & -> & Hty); [done|lia..|].
  destruct (be16_at_in_range data (o + 2)) as (el & -> & Hel); [done|lia..|].
  destruct (Z.ltb_spec e (o + 4 + el)) as [|Hle]; [by give|].
  set (ks' := (ty =? extTypeKeyShare) || ks).
  destruct ((ty =? extTypeKeyShare) && negb (p =? -1)); [by give|].
  destruct ((p =? -1) && (ty =? extTypeSNI)).
  - destruct (parseSNI_spec data (o + 4) (o + 4 + el) el) as (r & -> & Hr); [done|lia..|].
    destruct r as [msg|[p' l']]; [by give|]. destruct Hr as (-> & Hn & Hp).
    assert (sni_in data (o + 4 + 5) l') by (right; lia).
    destruct ks'; [by give|]. apply IH; auto; lia.
  - apply IH; auto; lia.
Qed.

Lemma runExtensions_total data pv e o :
  bytes_ok data -> 0 <= o -> e <= zlen data ->
  exists h, runExtensions data pv e o = Ret h /\
    sni_in data (sniPos h) (sniLen h) /\ prtVer h = pv.
Proof.
  intros Hok Ho He. unfold runExtensions.
  destruct (parseExtensions_total (S (length data)) data pv e o (-1) 0 false)
    as (h & -> & H); [done..|by left|unfold zlen in He; lia|by give].
Qed.

Ltac rd Hok :=
  match goal with
  | |- context [go_bind (idx ?d ?i)] =>
    let b := fresh "b" in
    destruct (idx_in_range d i) as (b & -> & ?%(Forall_lookup_1 _ _ _ _ Hok));
    [lia|]; unfold is_byte in *; simpl
  | |- context [go_bind (be16_at ?d ?i)] =>
    let v := fresh "v" in
    destruct (be16_at_in_range d i) as (v & -> & ?); [exact Hok|lia..|]; simpl
  end.

(** Take the non-failing branch of a leading guard. *)
Ltac br Hfail :=
  match goal with
  | |- exists h, (if ?c then _ else _) = _ /\ _ => destruct c eqn:?; [apply Hfail|]
  end.

Lemma parseClientHello_total data :
  bytes_ok data -> 5 <= zlen data ->
  exists h, parseClientHello data = Ret h /\
    sni_in data (sniPos h) (sniLen h) /\
    (herr h = None -> exists v1 v2, prtVer h = Some [v1; v2]).
Proof.
  intros Hok Hlen. unfold parseClientHello. unfold is_byte in *.
  assert (forall pv e, exists h, Ret (mkHello pv (-1) 0 false (Some e)) = Ret h /\
    sni_in data (sniPos h) (sniLen h) /\
    (herr h = None -> exists v1 v2, prtVer h = Some [v1; v2])) as Hfail.
  { intros pv e. eexists; split; [done|]. split; [by left|done]. }
  unfold is_byte in *. rd Hok. do 2 br Hfail. rd Hok.
  destruct (Z.eqb_spec b 1); simpl; [|apply Hfail].
  do 3 rd Hok. set (hl := Z.lor _ b2). do 2 br Hfail.
  match goal with |- context [slice data ?i ?j] =>
    destruct (slice data i j) as [pv| |] eqn:Epv; [|by rewrite slice_in_range in Epv by lia..]
  end.
  assert (exists v1 v2, pv = [v1; v2]) as (v1 & v2 & ->).
  { apply length_slice in Epv. destruct pv as [|? [|? [|? r]]]; len; [eauto|].
    pose proof (zlen_nonneg r). lia. }
  simpl. br Hfail. rd Hok. do 2 br Hfail. rd Hok. do 2 br Hfail. rd Hok. br Hfail.
  case_match. { eexists; split; [done|]. split; [by left|eauto]. }
  rd Hok. br Hfail.
  edestruct (runExtensions_total data) as (h & -> & Hin & Hp); [done|..|
    exists h; split; [done|]; split; [done|]; rewrite Hp; eauto]; lia.
Qed.

Lemma parseClientHello_short data : zlen data < 5 -> parseClientHello data = Panic.
Proof.
  intros H. unfold parseClientHello, be16_at.
  destruct (idx data 3) as [a|e|] eqn:E; [|by unfold idx in E; repeat case_match|done].
  simpl. by rewrite (idx_out_of_range data (3 + 1)) by lia.
Qed.

(** ** The cut point *)

Lemma findLastDot_loop_spec n data i :
  Z.of_nat n <= i + 1 -> i < zlen data ->
  exists r, findLastDot_loop n data i = Ret r /\
    match r with
    | Some k => i - Z.of_nat n < k <= i /\ idx data k = Ret 46 /\
                forall j, k < j <= i -> idx data j <> Ret 46
    | None => forall j, i - Z.of_nat n < j <= i -> idx data j <> Ret 46
    end.
Proof.
  revert i. induction n as [|n IH]; intros i Hn Hi; cbn [findLastDot_loop].
  { eexists; split; [done|]. simpl. lia. }
  destruct (idx_in_range data i) as (b & E & _); [lia|]. rewrite E. simpl.
  destruct (Z.eqb_spec b 46) as [->|Hb].
  { eexists; split; [done|]. simpl. split_and!; [lia..|done|intros; lia]. }
  assert (forall j, j = i -> idx data j <> Ret 46) as Hne by (intros j ->; rewrite E; congruence).
  destruct (IH (i - 1)) as (r & -> & Hr); [lia..|].
  eexists; split; [done|]. destruct r as [k|].
  - destruct Hr as (H1 & H2 & H3). split_and!; [lia..|done|].
    intros j Hj. destruct (decide (j = i)); [by apply Hne|apply H3; lia].
  - intros j Hj. destruct (decide (j = i)); [by apply Hne|apply Hr; lia].
Qed.

Lemma findLastDot_panic data pos len :
  0 <= len -> zlen data <= pos + len -> findLastDot data pos len = Panic.
Proof.
  intros H1 H2. unfold findLastDot.
  destruct (Z.to_nat (len + 1)) as [|n] eqn:E; [lia|]. simpl.
  by rewrite idx_out_of_range by lia.
Qed.

Lemma findLastDot_total data pos len :
  0 <= pos -> 0 <= len -> pos + len < zlen data ->
  exists c f, findLastDot data pos len = Ret (c, f) /\ pos <= c <= pos + len /\
    (if f then idx data c = Ret 46 /\ forall j, c < j <= pos + len -> idx data j <> Ret 46
     else c = pos + len / 2 /\ forall j, pos <= j <= pos + len -> idx data j <> Ret 46).
Proof.
  intros H1 H2 H3. unfold findLastDot.
  destruct (findLastDot_loop_spec (Z.to_nat (len + 1)) data (pos + len))
    as ([k|] & -> & Hr); [lia..| |]; simpl.
  - destruct Hr as (Hk & Ha & Hb). exists k, true. split_and!; [done|lia..|done|].
    intros j Hj. by apply Hb.
  - exists (Z.quot len 2 + pos), false.
    rewrite Z.quot_div_nonneg by lia. pose proof (Z.div_pos len 2).
    pose proof (Z.div_le_upper_bound len 2 len). split_and!; [done|lia..|].
    intros j Hj. apply Hr. lia.
Qed.

(** ** A ClientHello as RFC 8446 lays it out, and what the parser finds in it *)

Record extension := mkExt { etype : Z; ebody : bytes }.

Definition enc_ext (e : extension) : bytes :=
  put16 (etype e) ++ put16 (zlen (ebody e)) ++ ebody e.

Definition enc_exts (es : list extension) : bytes := mjoin (enc_ext <$> es).

(** server_name with one host_name entry. *)
Definition sni_ext (name : bytes) : extension :=
  mkExt extTypeSNI (put16 (3 + zlen name) ++ [0] ++ put16 (zlen name) ++ name).

Record hello_spec := mkSpec {
  rec_minor : Z;
  ver : Z * Z;
  random : bytes;
  session_id : bytes;
  ciphers : bytes;
  compression : bytes;
  exts : list extension;
}.

Definition enc_body (s : hello_spec) : bytes :=
  [fst (ver s); snd (ver s)] ++ random s ++ [zlen (session_id s)] ++ session_id s ++
  put16 (zlen (ciphers s)) ++ ciphers s ++
  [zlen (compression s)] ++ compression s ++
  put16 (zlen (enc_exts (exts s))) ++ enc_exts (exts s).

Definition enc_record (s : hello_spec) : bytes :=
  [0x16; 0x03; rec_minor s] ++ put16 (4 + zlen (enc_body s)) ++
  [0x01; 0] ++ put16 (zlen (enc_body s)) ++ enc_body s.

(** Extensions whose length fits its field, and whose server_name, if it is one,
    has the layout of [sni_ext]. *)
Definition wf_ext (e : extension) : Prop :=
  0 <= etype e < 65536 /\ zlen (ebody e) < 65536 /\
  (etype e = extTypeSNI -> exists name, e = sni_ext name).

Definition wf_spec (s : hello_spec) : Prop :=
  zlen (random s) = 32 /\ 4 + zlen (enc_body s) < 65536 /\ Forall wf_ext (exts s).

Definition is_sni (e : extension) : bool := etype e =? extTypeSNI.
Definition is_key_share (e : extension) : bool := etype e =? extTypeKeyShare.

(** The server name among [es], with its offset from the first extension. *)
Fixpoint first_name (es : list extension) : option (Z * bytes) :=
  match es with
  | [] => None
  | e :: es =>
    if is_sni e then Some (9, drop 5 (ebody e))
    else '(o, n) ← first_name es; Some (zlen (enc_ext e) + o, n)
  end.

Lemma zlen_enc_ext e : zlen (enc_ext e) = 4 + zlen (ebody e).
Proof. unfold enc_ext. len. Qed.

Lemma enc_exts_cons e es : enc_exts (e :: es) = enc_ext e ++ enc_exts es.
Proof. done. Qed.

Lemma parseSNI_enc data pre name post :
  data = pre ++ ebody (sni_ext name) ++ post -> 3 + zlen name < 65536 ->
  parseSNI data (zlen pre) (zlen pre + zlen (ebody (sni_ext name)))
    (zlen (ebody (sni_ext name))) = Ret (inr (zlen pre + 5, zlen name)).
Proof.
  intros -> Hn. pose proof (zlen_nonneg name). unfold parseSNI. cbn [sni_ext ebody].
  set (body := put16 (3 + zlen name) ++ [0] ++ put16 (zlen name) ++ name).
  assert (zlen body = 5 + zlen name) as Hb by (unfold body; len).
  rewrite Hb. destruct (Z.ltb_spec (5 + zlen name) 2); [lia|].
  rewrite (be16_at_app _ pre ([0] ++ put16 (zlen name) ++ name ++ post) (3 + zlen name));
    [|by unfold body; rewrite <- !app_assoc|done].
  cbn [go_bind]. rewrite u16_small by lia.
  destruct (Z.eqb_spec (3 + zlen name + 2) (5 + zlen name)); [|lia]. cbn [negb].
  destruct (Z.ltb_spec (zlen pre + (5 + zlen name)) (zlen pre + 2 + 3)); [lia|].
  rewrite (idx_app _ (pre ++ put16 (3 + zlen name)) (put16 (zlen name) ++ name ++ post) 0);
    [|by unfold body; rewrite <- !app_assoc|len].
  cbn [go_bind]. rewrite Z.eqb_refl. cbn [negb].
  rewrite (be16_at_app _ (pre ++ put16 (3 + zlen name) ++ [0]) (name ++ post) (zlen name));
    [|by unfold body; rewrite <- !app_assoc|len].
  cbn [go_bind]. rewrite u16_small by lia.
  destruct (Z.ltb_spec (zlen pre + (5 + zlen name)) (zlen pre + 2 + 3 + zlen name)); [lia|].
  by rewrite <- !Z.add_assoc.
Qed.

(** One round of the loop over a well-formed extension. *)
Lemma parseExtensions_step fuel data pv pre e post end_ pos len ks :
  data = pre ++ enc_ext e ++ post -> wf_ext e ->
  end_ >= zlen pre + zlen (enc_ext e) ->
  parseExtensions (S fuel) data pv end_ (zlen pre) pos len ks =
    let ks' := is_key_share e || ks in
    let o := zlen pre + zlen (enc_ext e) in
    if is_key_share e && negb (pos =? -1) then Some (Ret (mkHello pv pos len ks' None))
    else if (pos =? -1) && is_sni e
    then let p := zlen pre + 9 in
         let l := zlen (drop 5 (ebody e)) in
         if ks' then Some (Ret (mkHello pv p l ks' None))
         else parseExtensions fuel data pv end_ o p l ks'
    else parseExtensions fuel data pv end_ o pos len ks'.
Proof.
  intros Hd (Ht & Hl & Hs) He. cbn [parseExtensions].
  rewrite zlen_enc_ext in *. pose proof (zlen_nonneg (ebody e)).
  destruct (Z.leb_spec (zlen pre + 4) end_); [|lia]. cbn [negb].
  rewrite (be16_at_app data pre (put16 (zlen (ebody e)) ++ ebody e ++ post) (etype e)),
    (be16_at_app data (pre ++ put16 (etype e)) (ebody e ++ post) (zlen (ebody e)));
    [|subst; unfold enc_ext; by rewrite <- !app_assoc|len
     |subst; unfold enc_ext; by rewrite <- !app_assoc|done].
  rewrite !u16_small by lia.
  destruct (Z.ltb_spec end_ (zlen pre + 4 + zlen (ebody e))); [lia|].
  cbn zeta. unfold is_key_share, is_sni.
  replace (zlen pre + (4 + zlen (ebody e))) with (zlen pre + 4 + zlen (ebody e)) by lia.
  destruct ((etype e =? extTypeKeyShare) && negb (pos =? -1)); [done|].
  destruct ((pos =? -1) && (etype e =? extTypeSNI)) eqn:E; [|done].
  destruct (Hs ltac:(lia)) as [name ->].
  pose proof (parseSNI_enc data (pre ++ put16 extTypeSNI ++ put16 (zlen (ebody (sni_ext name))))
    name post) as P.
  assert (zlen (ebody (sni_ext name)) = 5 + zlen name) as Hb by (cbn [sni_ext ebody]; len).
  replace (zlen (pre ++ put16 extTypeSNI ++ put16 (zlen (ebody (sni_ext name)))))
    with (zlen pre + 4) in P by len.
  rewrite P; [|subst; unfold enc_ext; by rewrite <- !app_assoc|lia].
  change (drop 5 (ebody (sni_ext name))) with name.
  replace (zlen pre + 4 + 5) with (zlen pre + 9) by lia. done.
Qed.

(** The loop over a well-formed block finds the first server name and any key
    share; [pos] is where an earlier server name was found, if one was. *)
Lemma parseExtensions_enc es : forall fuel data pv pre pos len ks,
  data = pre ++ enc_exts es -> Forall wf_ext es -> (length es < fuel)%nat ->
  (ks = true -> pos = -1) ->
  parseExtensions fuel data pv (zlen data) (zlen pre) pos len ks =
  Some (Ret match (if pos =? -1 then first_name es else None) with
            | Some (o, n) => mkHello pv (zlen pre + o) (zlen n) (existsb is_key_share es || ks) None
            | None => mkHello pv pos len (existsb is_key_share es || ks) None
            end).
Proof.
  induction es as [|e es IH]; intros fuel data pv pre pos l ks Hd Hwf Hf Hks.
  { destruct fuel; [len|]. cbn [parseExtensions].
    assert (zlen data = zlen pre) as -> by (subst; unfold enc_exts; simpl; len).
    destruct (Z.leb_spec (zlen pre + 4) (zlen pre)); [lia|]. cbn.
    by destruct (pos =? -1). }
  destruct fuel as [|fuel]; [simpl in Hf; lia|].
  inversion_clear Hwf as [|?? He Hes].
  rewrite enc_exts_cons in Hd.
  rewrite (parseExtensions_step fuel data pv pre e (enc_exts es)); [|done|done|].
  2: { subst. rewrite !zlen_app. pose proof (zlen_nonneg (enc_exts es)). lia. }
  cbn zeta. cbn [existsb first_name].
  assert (data = (pre ++ enc_ext e) ++ enc_exts es) as Hd' by (by rewrite <- app_assoc).
  pose proof (fun p l k => IH fuel data pv (pre ++ enc_ext e) p l k Hd' Hes ltac:(simpl in Hf; lia)) as IH'.
  rewrite zlen_app in IH'.
  assert (is_sni e = true -> is_key_share e = false) as Hex.
  { unfold is_sni, is_key_share, extTypeSNI, extTypeKeyShare. lia. }
  destruct (Z.eqb_spec pos (-1)) as [->|Hpos]; cbn [negb andb].
  - rewrite andb_false_r. destruct (is_sni e) eqn:Es.
    + rewrite (Hex eq_refl). cbn [orb]. destruct ks; [by rewrite orb_true_r|].
      rewrite IH' by done.
      destruct (Z.eqb_spec (zlen pre + 9) (-1)); [pose proof (zlen_nonneg pre); lia|]. done.
    + rewrite IH' by done. rewrite Z.eqb_refl.
      rewrite (orb_assoc (existsb _ es)), (orb_comm (existsb _ es) (is_key_share e)).
      destruct (first_name es) as [[o n]|]; [|done].
      cbn [mbind option_bind]. by rewrite Z.add_assoc.
  - destruct ks; [by rewrite Hks in Hpos|]. rewrite andb_true_r.
    destruct (is_key_share e) eqn:Ek; cbn [orb]; [done|].
    rewrite IH' by done. destruct (Z.eqb_spec pos (-1)); [done|]. done.
Qed.

(** Rule out the failing branch of a leading guard by arithmetic. *)
Ltac no_fail := match goal with |- (if ?c then _ else _) = _ => destruct c eqn:?; [len|] end.

(** Where the extensions start in [enc_record s]. *)
Definition exts_off (s : hello_spec) : Z :=
  49 + zlen (session_id s) + zlen (ciphers s) + zlen (compression s).

Lemma zlen_enc_record s :
  zlen (random s) = 32 -> zlen (enc_record s) = exts_off s + zlen (enc_exts (exts s)).
Proof. intros H. unfold enc_record, enc_body, exts_off. len. Qed.

Lemma length_exts_le es : (Z.of_nat (length es) <= zlen (enc_exts es)).
Proof.
  induction es as [|e es IH]; [done|]. rewrite enc_exts_cons, zlen_app, zlen_enc_ext.
  pose proof (zlen_nonneg (ebody e)). simpl length. lia.
Qed.

(** What each read of [parseClientHello] sees on an encoded record. *)
Lemma enc_record_reads s D n :
  zlen (random s) = 32 -> 4 + zlen (enc_body s) < 65536 -> D = enc_record s ->
  n = zlen (enc_body s) ->
  let sl := zlen (session_id s) in let cl := zlen (ciphers s) in
  let ml := zlen (compression s) in
  be16_at D 3 = Ret (4 + n) /\ idx D 5 = Ret 1 /\ idx D (5 + 1) = Ret 0 /\
  idx D (5 + 2) = Ret (u16 n / 256) /\ idx D (5 + 3) = Ret (u16 n mod 256) /\
  slice D (5 + 4) (5 + 4 + 2) = Ret [fst (ver s); snd (ver s)] /\
  idx D 43 = Ret sl /\ be16_at D (44 + sl) = Ret cl /\
  idx D (46 + sl + cl) = Ret ml /\
  be16_at D (47 + sl + cl + ml) = Ret (zlen (enc_exts (exts s))).
Proof.
  intros Hr Hb HD Hn.
  assert (zlen (enc_body s) = exts_off s - 9 + zlen (enc_exts (exts s))) as HB
    by (unfold enc_body, exts_off; len).
  destruct s as [mi [v1 v2] rnd sid cs cm es]. unfold exts_off, enc_record in *.
  rewrite <- Hn in *. unfold enc_body in HD.
  cbn [rec_minor fst snd ver random session_id ciphers compression exts] in *.
  set (E := enc_exts es) in *.
  pose proof (zlen_nonneg sid). pose proof (zlen_nonneg cs).
  pose proof (zlen_nonneg cm). pose proof (zlen_nonneg E).
  assert (forall x y, 0 <= x < 65536 -> y = Ret (u16 x) -> y = Ret x) as W
    by (intros x y Hx ->; by rewrite u16_small).
  set (P1 := [22; 3; mi] ++ put16 (4 + n)). set (P2 := P1 ++ [1; 0] ++ put16 n).
  set (P4 := P2 ++ ([v1; v2] ++ rnd) ++ [zlen sid] ++ sid).
  set (P5 := P4 ++ put16 (zlen cs) ++ cs).
  split_and!.
  - apply W; [lia|]. by eapply (be16_at_app D [22; 3; mi]).
  - eapply (idx_app D P1); [by rewrite HD; unfold P1; rewrite <- !app_assoc|done].
  - eapply (idx_app D (P1 ++ [1])); [by rewrite HD; unfold P1; rewrite <- !app_assoc|done].
  - eapply (idx_app D (P1 ++ [1; 0])); [by rewrite HD; unfold P1; rewrite <- !app_assoc|done].
  - eapply (idx_app D (P1 ++ [1; 0; u16 n / 256]));
      [by rewrite HD; unfold P1; rewrite <- !app_assoc|done].
  - eapply (slice_app D P2 [v1; v2]); [by rewrite HD; unfold P2, P1; rewrite <- !app_assoc|done..].
  - eapply (idx_app D (P2 ++ [v1; v2] ++ rnd));
      [by rewrite HD; unfold P2, P1; rewrite <- !app_assoc|unfold P2, P1; len].
  - apply W; [lia|]. eapply (be16_at_app D P4);
      [by rewrite HD; unfold P4, P2, P1; rewrite <- !app_assoc|unfold P4, P2, P1; len].
  - eapply (idx_app D P5); [by rewrite HD; unfold P5, P4, P2, P1; rewrite <- !app_assoc|].
    unfold P5, P4, P2, P1; len.
  - apply W; [lia|]. eapply (be16_at_app D (P5 ++ [zlen cm] ++ cm));
      [by rewrite HD, <- (app_nil_r E); unfold P5, P4, P2, P1; rewrite <- !app_assoc|].
    unfold P5, P4, P2, P1; len.
Qed.

(** The record splits at its extensions. *)
Lemma enc_record_exts s :
  zlen (random s) = 32 ->
  exists pre, enc_record s = pre ++ enc_exts (exts s) /\ zlen pre = exts_off s.
Proof.
  intros Hr. unfold enc_record, enc_body. eexists. rewrite !app_assoc. split; [done|].
  unfold exts_off. len.
Qed.

Lemma parseClientHello_enc s :
  wf_spec s ->
  parseClientHello (enc_record s) =
  Ret match first_name (exts s) with
      | Some (o, n) => mkHello (Some [fst (ver s); snd (ver s)]) (exts_off s + o) (zlen n)
                         (existsb is_key_share (exts s)) None
      | None => mkHello (Some [fst (ver s); snd (ver s)]) (-1) 0
                  (existsb is_key_share (exts s)) None
      end.
Proof.
  intros (Hr & Hb & Hwf).
  pose proof (zlen_enc_record s Hr) as HL. pose proof (length_exts_le (exts s)) as Hle.
  destruct (enc_record_reads s _ _ Hr Hb eq_refl eq_refl)
    as (R1 & R2 & R3 & R4 & R5 & R6 & R7 & R8 & R9 & R10).
  destruct (enc_record_exts s Hr) as (pre & Hpre & Lpre).
  assert (zlen (enc_body s) = zlen (enc_record s) - 9) as HB by (unfold enc_record; len).
  pose proof (zlen_nonneg (session_id s)). pose proof (zlen_nonneg (ciphers s)).
  pose proof (zlen_nonneg (compression s)). pose proof (zlen_nonneg (enc_exts (exts s))).
  set (sl := zlen (session_id s)) in *. set (cl := zlen (ciphers s)) in *.
  set (ml := zlen (compression s)) in *. set (n := zlen (enc_body s)) in *.
  set (D := enc_record s) in *. clearbody D. unfold exts_off in *. fold sl cl ml in HL, Lpre |- *.
  unfold parseClientHello. rewrite R1. cbn [go_bind]. do 2 no_fail.
  rewrite R2. cbn [go_bind]. change (negb (1 =? 1)) with false. cbn [go_bind].
  rewrite R3, R4, R5. cbn [go_bind]. rewrite Z.shiftl_0_l, Z.lor_0_l.
  rewrite lor_shiftl8 by (apply Z.mod_pos_bound; lia).
  replace (u16 n / 256 * 256 + u16 n mod 256) with n
    by (pose proof (Z.div_mod (u16 n) 256); rewrite u16_small in *; lia).
  do 2 no_fail. rewrite R6. cbn [go_bind]. change (5 + 4 + 2 + 32) with 43. no_fail.
  rewrite R7. cbn [go_bind]. change (43 + 1) with 44. do 2 no_fail.
  rewrite R8. cbn [go_bind]. replace (44 + sl + 2 + cl) with (46 + sl + cl) by lia. do 2 no_fail.
  rewrite R9. cbn [go_bind]. replace (46 + sl + cl + 1 + ml) with (47 + sl + cl + ml) by lia.
  do 2 no_fail. rewrite R10. cbn [go_bind].
  replace (47 + sl + cl + ml + 2) with (49 + sl + cl + ml) by lia.
  no_fail. rewrite <- HL. unfold runExtensions.
  rewrite <- Lpre, (parseExtensions_enc (exts s)); [|done|done|unfold zlen in *; lia|done].
  change (-1 =? -1) with true. cbn [orb]. by rewrite orb_false_r.
Qed.

Lemma first_name_split es o n :
  Forall wf_ext es -> first_name es = Some (o, n) ->
  exists mid post, enc_exts es = mid ++ n ++ post /\ zlen mid = o.
Proof.
  intros Hwf. revert o n. induction Hwf as [|e es He Hes IH]; intros o n; simpl; [done|].
  rewrite enc_exts_cons. destruct (is_sni e) eqn:Es.
  - intros [= <- <-]. destruct He as (_ & _ & Hs).
    destruct (Hs ltac:(unfold is_sni in Es; lia)) as [name ->].
    change (drop 5 (ebody (sni_ext name))) with name. unfold enc_ext.
    eexists (put16 extTypeSNI ++ put16 (zlen (ebody (sni_ext name))) ++
             put16 (3 + zlen name) ++ [0] ++ put16 (zlen name)), (enc_exts es).
    split; [|done]. cbn [sni_ext etype ebody]. by rewrite <- !app_assoc.
  - destruct (first_name es) as [[o' n']|]; [|done]. intros [= <- <-].
    destruct (IH _ _ eq_refl) as (mid & post & -> & <-).
    exists (enc_ext e ++ mid), post. rewrite <- app_assoc. split; [done|]. by rewrite zlen_app.
Qed.

Lemma first_name_at_end es name :
  forallb (fun e => negb (is_sni e)) es = true -> 
  first_name (es ++ [sni_ext name]) = Some (zlen (enc_exts es) + 9, name).
Proof.
  induction es as [|e es IH]; simpl; [done|]. intros [He Hes]%andb_prop.
  destruct (is_sni e); [done|]. rewrite (IH Hes). simpl. rewrite enc_exts_cons, zlen_app.
  by rewrite Z.add_assoc.
Qed.

(** ** Claims *)

(** C1: [parseClientHello] never indexes out of range on a record of at least
    five bytes: it panics exactly when there is no complete record header, and
    the server name it reports, with or without an error, is absent or lies
    inside the record. *)
Theorem parseClientHello_safe data :
  bytes_ok data ->
  (parseClientHello data = Panic <-> zlen data < 5) /\
  (5 <= zlen data ->
   exists h, parseClientHello data = Ret h /\
     sni_in data (sniPos h) (sniLen h) /\
     (herr h = None -> exists v1 v2, prtVer h = Some [v1; v2])).
Proof.
  intros Hok. split; [|by apply parseClientHello_total]. split; [|apply parseClientHello_short].
  intros Hp. destruct (Z.lt_ge_cases (zlen data) 5) as [|H5]; [done|].
  destruct (parseClientHello_total data Hok H5) as (h & E & _). congruence.
Qed.

Lemma parseClientHello_safe_witness :
  (parseClientHello [22; 3; 1; 0; 0] = Panic <-> zlen [22; 3; 1; 0; 0] < 5) /\
  (exists h, parseClientHello [22; 3; 1; 0; 0] = Ret h /\
     sni_in [22; 3; 1; 0; 0] (sniPos h) (sniLen h)).
Proof.
  assert (bytes_ok [22; 3; 1; 0; 0]) as Hok
    by (repeat constructor; unfold is_byte; lia).
  destruct (parseClientHello_safe [22; 3; 1; 0; 0] Hok) as [H1 H2].
  split; [exact H1|]. destruct H2 as (h & E & Hin & _); [vm_compute; discriminate|].
  exists h. split; [exact E|exact Hin].
Defined.

(** C2: on a ClientHello laid out as RFC 8446 prescribes, the parser reports no
    error, the legacy version, whether a key_share extension is present, and
    exactly the bytes of the first server name (or its absence). *)
Theorem parseClientHello_roundtrip s :
  wf_spec s ->
  exists h, parseClientHello (enc_record s) = Ret h /\ herr h = None /\
    prtVer h = Some [fst (ver s); snd (ver s)] /\
    hasKeyShare h = existsb is_key_share (exts s) /\
    match first_name (exts s) with
    | Some (_, name) => sniLen h = zlen name /\
        slice (enc_record s) (sniPos h) (sniPos h + sniLen h) = Ret name
    | None => sniPos h = -1
    end.
Proof.
  intros Hwf. pose proof (parseClientHello_enc s Hwf) as E.
  destruct Hwf as (Hr & _ & Hes).
  destruct (first_name (exts s)) as [[o n]|] eqn:F; eexists; (split; [exact E|]);
    (split_and!; [done..|]); [|done].
  destruct (enc_record_exts s Hr) as (pre & Hp & <-).
  destruct (first_name_split _ _ _ Hes F) as (mid & post & Hm & <-).
  cbn [sniPos sniLen]. eapply (slice_app _ (pre ++ mid)); [|by rewrite zlen_app..].
  by rewrite Hp, Hm, <- !app_assoc.
Qed.

(** A small ClientHello: key_share, then the server name [a.b] last. *)
Definition sample_hello : hello_spec :=
  mkSpec 1 (3, 3) (replicate 32 7) [] [0x13; 0x01] [0]
    [mkExt extTypeKeyShare [1; 2; 3]; sni_ext [97; 46; 98]].

Lemma sample_hello_wf : wf_spec sample_hello.
Proof.
  split_and!; [done|vm_compute; done|].
  apply Forall_cons_2; [|apply Forall_cons_2; [|done]].
  - split_and!; [done..|]. intros H. discriminate H.
  - split_and!; [done..|]. intros _. by exists [97; 46; 98].
Qed.

Lemma parseClientHello_roundtrip_witness :
  exists h, parseClientHello (enc_record sample_hello) = Ret h /\ herr h = None /\
    sniLen h = 3 /\ slice (enc_record sample_hello) (sniPos h) (sniPos h + sniLen h) = Ret [97; 46; 98].
Proof.
  destruct (parseClientHello_roundtrip sample_hello sample_hello_wf) as (h & E & He & _ & _ & Hn).
  destruct Hn as [Hl Hs]. exists h.
  split; [exact E|]. split; [exact He|]. split; [exact Hl|exact Hs].
Defined.

(** [findLastDot] panics exactly when the byte after the server name is past
    the end of the record; otherwise the cut lies within the name (or on that
    byte), it is the last dot there when one exists, and the middle of the name
    when none does. *)
Theorem findLastDot_correct data pos len :
  0 <= pos -> 0 <= len -> pos + len <= zlen data ->
  (findLastDot data pos len = Panic <-> pos + len = zlen data) /\
  (pos + len < zlen data ->
   exists c f, findLastDot data pos len = Ret (c, f) /\ pos <= c <= pos + len /\
     (if f then idx data c = Ret 46 /\ forall j, c < j <= pos + len -> idx data j <> Ret 46
      else c = pos + len / 2 /\ forall j, pos <= j <= pos + len -> idx data j <> Ret 46)).
Proof.
  intros H1 H2 H3. split; [|intros; by apply findLastDot_total]. split.
  - intros Hp. destruct (Z.lt_ge_cases (pos + len) (zlen data)) as [Hlt|]; [|lia].
    destruct (findLastDot_total data pos len H1 H2 Hlt) as (c & f & E & _). congruence.
  - intros E. apply findLastDot_panic; lia.
Qed.

Lemma findLastDot_correct_witness :
  (findLastDot [97; 46; 98; 0] 0 3 = Panic <-> 0 + 3 = zlen [97; 46; 98; 0]) /\
  (exists c f, findLastDot [97; 46; 98; 0] 0 3 = Ret (c, f) /\ 0 <= c <= 0 + 3).
Proof.
  destruct (findLastDot_correct [97; 46; 98; 0] 0 3) as [H1 H2];
    [lia|lia|vm_compute; discriminate|].
  split; [exact H1|]. destruct H2 as (c & f & E & Hc & _); [reflexivity|].
  exists c, f. split; [exact E|exact Hc].
Defined.

(** a well-formed ClientHello whose server_name extension comes last (and is
    the only one) is parsed without error, and the cut point computation then
    panics on it: index [sniPos+sniLen] is the length of the record. *)
Theorem sni_last_cut_panics s es name :
  wf_spec s -> exts s = es ++ [sni_ext name] ->
  forallb (fun e => negb (is_sni e)) es = true ->
  exists h, parseClientHello (enc_record s) = Ret h /\ herr h = None /\
    0 < sniPos h /\ sniLen h = zlen name /\
    findLastDot (enc_record s) (sniPos h) (sniLen h) = Panic.
Proof.
  intros Hwf He Hno. pose proof (parseClientHello_enc s Hwf) as E.
  destruct Hwf as (Hr & _ & _). pose proof (zlen_enc_record s Hr) as L.
  rewrite He in E, L. rewrite (first_name_at_end es name Hno) in E.
  eexists; split; [exact E|]. cbn [herr sniPos sniLen].
  assert (zlen (enc_exts (es ++ [sni_ext name])) = zlen (enc_exts es) + 9 + zlen name) as Hz.
  { unfold enc_exts. rewrite fmap_app, join_app, zlen_app.
    change (mjoin (enc_ext <$> [sni_ext name])) with (enc_ext (sni_ext name) ++ []).
    rewrite app_nil_r, zlen_enc_ext. cbn [sni_ext ebody]. len. }
  pose proof (zlen_nonneg (enc_exts es)). pose proof (zlen_nonneg name).
  assert (0 < exts_off s) by (unfold exts_off; pose proof (zlen_nonneg (session_id s));
    pose proof (zlen_nonneg (ciphers s)); pose proof (zlen_nonneg (compression s)); lia).
  split_and!; [done|lia|done|]. apply findLastDot_panic; lia.
Qed.

Lemma sni_last_cut_panics_witness :
  exists h, parseClientHello (enc_record sample_hello) = Ret h /\ herr h = None /\
    0 < sniPos h /\ sniLen h = zlen [97; 46; 98] /\
    findLastDot (enc_record sample_hello) (sniPos h) (sniLen h) = Panic.
Proof.
  exact (sni_last_cut_panics sample_hello [mkExt extTypeKeyShare [1; 2; 3]] [97; 46; 98]
    sample_hello_wf eq_refl eq_refl).
Defined.

End ClientHello.
