(* ===== verification/Fragment.v ===== *)
(** * TLS record and TCP segment fragmentation (src/internal/fragment.go)

    [sendRecords] rewrites a ClientHello into several TLS records and several TCP
    segments, optionally with urgent bytes.  It is translated branch by branch
    over the connection traces of [Conn]; slicing keeps its panics. *)

From S2P Require Import Prelude GoStrings ClientHello Conn.

Module Fragment.
Import ClientHello.

(** [makeRecord]: 3 header bytes, the payload length as uint16, the payload. *)
Definition makeRecord (header payload : bytes) : bytes :=
  take 3 (header ++ replicate 3 0) ++ put16 (zlen payload) ++ payload.

(** [part] of round [i] of the loop of [splitAndAppend]. *)
Definition split_part (data : bytes) (base n i : Z) : go bytes :=
  if i =? n - 1 then slice_from data (i * base) else slice data (i * base) ((i + 1) * base).

(** The slices [splitAndAppend] appends; [header = None] is Go's nil. *)
Definition splitAndAppend (data : bytes) (header : option bytes) (n : Z) : go (list bytes) :=
  let mk p := match header with Some h => makeRecord h p | None => p end in
  if n <=? 0 then Ret []
  else if (n =? 1) || (zlen data <? n) then Ret [mk data]
  else
    let base := Z.quot (zlen data) n in
    let! parts := go_map (split_part data base n) (seqZ 0 n) in
    Ret (mk <$> parts).

(** [make([]T, 0, cap)]: a negative capacity panics. *)
Definition make_cap (cap : Z) : go unit := if cap <? 0 then Panic else Ret tt.

Definition set_byte (l : bytes) (i v : Z) : go bytes :=
  if (0 <=? i) && (i <? zlen l) then Ret (<[Z.to_nat i := v]> l) else Panic.

Section send.
Context {env : Env}.

(** The two urgent sends of the oob_ex option over the first 35 bytes of [b];
    returns what remains. *)
Definition send_oobex (interval : Z) (b : bytes) : net bytes :=
  do! a := nlift (slice_to b 15) in
  do! x := nlift (idx b 15) in
  send_oob (wrap "oob 1") a x ;!
  do! c := nlift (slice b 16 35) in
  send_oob (wrap "oob 2") c 0x0 ;!
  sleep_if interval ;!
  nlift (slice_from b 35).

(** The [records == 1] branch: TCP segmentation only. *)
Definition send_one_record (clientHello : bytes) (offset len segments : Z)
    (oob oobex : bool) (interval : Z) : net unit :=
  do! (clientHello, offset) :=
    (if oobex
     then do! rest := send_oobex interval clientHello in nret (rest, offset - 35)
     else nret (clientHello, offset)) in
  if segments =? 1 then write (wrap "send remaining data") clientHello
  else
    let leftSegments := Z.quot segments 2 in
    let rightSegments := segments - leftSegments in
    do! _ := nlift (make_cap segments) in
    do! (cut, _) := nlift (findLastDot clientHello offset len) in
    do! l := nlift (slice_to clientHello cut) in
    do! lp := nlift (splitAndAppend l None leftSegments) in
    do! r := nlift (slice_from clientHello cut) in
    do! rp := nlift (splitAndAppend r None rightSegments) in
    nfor 0 (lp ++ rp) (fun i packet =>
      (if (i =? 0) && oob
       then send_oob (wrap "oob") packet 0x0
       else write (wrap ("write packet " +:+ Itoa (i + 1))%string) packet) ;!
      sleep_if interval).

(** The [segments == -1] branch: one send per TLS record; the loop body. *)
Definition send_chunk (oob oobex : bool) (interval i : Z) (chunk : bytes) : net unit :=
  if i =? 0 then
    if oob then send_oob (wrap "oob") chunk 0x0 ;! sleep_if interval
    else if oobex then
      let l := zlen chunk in
      do! a := nlift (slice_to chunk (l - 1)) in
      do! x := nlift (idx chunk (l - 1)) in
      send_oob (wrap "oob 1") a x
    else nret tt
  else if (i =? 1) && oobex then send_oob (wrap "oob 2") chunk 0x0
  else write (wrap ("write record " +:+ Itoa (i + 1))%string) chunk ;! sleep_if interval.

Definition send_chunks (chunks : list bytes) (oob oobex : bool) (interval : Z) : net unit :=
  nfor 0 chunks (send_chunk oob oobex interval).

(** The last loop: [merged] in [segments] TCP segments. *)
Definition send_merged (merged : bytes) (segments : Z) (oob : bool) (interval : Z) : net unit :=
  if (segments =? 1) || (zlen merged <=? segments) then write id merged
  else if segments =? 0 then nlift Panic
  else
    let base := Z.quot (zlen merged) segments in
    nfor 0 (seqZ 0 segments) (fun _ i =>
      let start := i * base in
      let end_ := if i =? segments - 1 then zlen merged else start + base in
      do! seg := nlift (slice merged start end_) in
      (if (i =? 0) && oob then send_oob (wrap "oob") seg 0x0
       else write (wrap ("write segment " +:+ Itoa (i + 1))%string) seg) ;!
      sleep_if interval).

(** The TLS records of the [records != 1] branch. *)
Definition make_chunks (clientHello : bytes) (offset len records : Z) : go (list bytes) :=
  let leftChunks := Z.quot records 2 in
  let rightChunks := records - leftChunks in
  let! _ := make_cap records in
  let! (cut, _) := findLastDot clientHello offset len in
  let! header := slice_to clientHello 3 in
  let! l := slice clientHello 5 cut in
  let! lc := splitAndAppend l (Some header) leftChunks in
  let! r := slice_from clientHello cut in
  let! rc := splitAndAppend r (Some header) rightChunks in
  Ret (lc ++ rc).

Definition sendRecords (clientHello : bytes) (offset len records segments : Z)
    (oob oobex modMinorVer : bool) (interval : Z) : net unit :=
  do! clientHello :=
    (if modMinorVer then nlift (set_byte clientHello 2 0x04) else nret clientHello) in
  if records =? 1 then send_one_record clientHello offset len segments oob oobex interval
  else
    do! chunks := nlift (make_chunks clientHello offset len records) in
    if segments =? -1 then send_chunks chunks oob oobex interval
    else
      do! merged := (if oobex then send_oobex interval (mjoin chunks) else nret (mjoin chunks)) in
      send_merged merged segments oob interval.
End send.

(** ** Splitting *)

Lemma split_part_spec data base n i :
  0 <= base -> base * n <= zlen data -> 0 <= i < n ->
  split_part data base n i =
  Ret (if i =? n - 1 then drop (Z.to_nat (i * base)) data
       else take (Z.to_nat base) (drop (Z.to_nat (i * base)) data)).
Proof.
  intros Hb Hn Hi. unfold split_part.
  destruct (Z.eqb_spec i (n - 1)).
  - unfold slice_from. rewrite slice_in_range by nia. f_equal.
    rewrite take_ge; [done|]. rewrite length_drop. unfold zlen. lia.
  - rewrite slice_in_range by nia. do 3 f_equal. lia.
Qed.

(** Consecutive pieces of [base] bytes with the rest in the last piece. *)
Lemma concat_parts (data : bytes) (b : nat) : forall k i,
  mjoin ((fun j => if (j =? i + Z.of_nat k) then drop (Z.to_nat j * b) data
                   else take b (drop (Z.to_nat j * b) data)) <$> seqZ i (Z.of_nat (S k))) =
  drop (Z.to_nat i * b) data \/ i < 0.
Proof.
  induction k as [|k IH]; intros i.
  - left. rewrite seqZ_cons by lia. simpl. rewrite Z.add_0_r, Z.eqb_refl. by rewrite app_nil_r.
  - destruct (Z.ltb_spec i 0); [by right|]. left.
    rewrite seqZ_cons by lia. rewrite fmap_cons, mjoin_cons.
    destruct (Z.eqb_spec i (i + Z.of_nat (S k))); [lia|].
    replace (Z.pred (Z.of_nat (S (S k)))) with (Z.of_nat (S k)) by lia.
    destruct (IH (Z.succ i)) as [E|]; [|lia].
    replace (Z.succ i + Z.of_nat k) with (i + Z.of_nat (S k)) in E by lia.
    rewrite E. replace (Z.to_nat (Z.succ i) * b)%nat with (Z.to_nat i * b + b)%nat by lia.
    rewrite <- drop_drop. apply take_drop.
Qed.

(** [splitAndAppend] never panics and the pieces put together are the data. *)
Lemma splitAndAppend_spec data header n :
  0 < n ->
  exists parts, splitAndAppend data header n =
      Ret ((fun p => match header with Some h => makeRecord h p | None => p end) <$> parts) /\
    mjoin parts = data /\
    zlen parts = (if zlen data <? n then 1 else n).
Proof.
  intros Hn. unfold splitAndAppend. destruct (Z.leb_spec n 0); [lia|].
  destruct ((n =? 1) || (zlen data <? n)) eqn:E.
  { exists [data]. split; [done|]. split; [by rewrite mjoin_cons, app_nil_r|].
    destruct (Z.ltb_spec (zlen data) n); [done|]. change (zlen [data]) with 1. lia. }
  pose proof (Z.mul_quot_le (zlen data) n). pose proof (Z.quot_pos (zlen data) n).
  rewrite (go_map_Ret _ (fun i => if i =? n - 1 then drop (Z.to_nat (i * Z.quot (zlen data) n)) data
       else take (Z.to_nat (Z.quot (zlen data) n)) (drop (Z.to_nat (i * Z.quot (zlen data) n)) data))).
  2: { intros i Hi%elem_of_seqZ. apply split_part_spec; lia. }
  simpl. eexists. split; [done|].
  destruct (Z.ltb_spec (zlen data) n); [lia|].
  split; [|unfold zlen; rewrite length_fmap, length_seqZ; lia].
  destruct (concat_parts data (Z.to_nat (Z.quot (zlen data) n)) (Z.to_nat (n - 1)) 0) as [Ec|]; [|lia].
  change (Z.to_nat 0 * Z.to_nat (Z.quot (zlen data) n))%nat with 0%nat in Ec.
  rewrite drop_0 in Ec. etrans; [|exact Ec]. f_equal.
  replace (Z.of_nat (S (Z.to_nat (n - 1)))) with n by lia.
  apply list_fmap_ext. intros k i Hi%list_elem_of_lookup_2%elem_of_seqZ.
  replace (0 + Z.of_nat (Z.to_nat (n - 1))) with (n - 1) by lia.
  rewrite Z2Nat.inj_mul by lia. done.
Qed.

(** ** Sending over a connection on which every send succeeds *)

Definition sleep_events (d : Z) : list event := if 0 <? d then [EvSleep d] else [].

(** One segment: an urgent send for the first one under the oob option. *)
Definition seg_events (oob : bool) (d i : Z) (p : bytes) : list event :=
  (if (i =? 0) && oob then [EvOOB p 0] else [EvWrite p]) ++ sleep_events d.

Lemma sleep_if_run d tr : sleep_if d tr = (Ret tt, tr ++ sleep_events d).
Proof. unfold sleep_if, sleep_events. destruct (0 <? d); [done|]. by rewrite app_nil_r. Qed.

Lemma nfor_reliable {A} (body : Z -> A -> net unit) (g : Z -> A -> list event) l : forall i tr,
  (forall k x tr, l !! k = Some x ->
     body (i + Z.of_nat k) x tr = (Ret tt, tr ++ g (i + Z.of_nat k) x)) ->
  nfor i l body tr = (Ret tt, tr ++ mjoin (imap (fun k x => g (i + Z.of_nat k) x) l)).
Proof.
  induction l as [|x l IH]; intros i tr H; [by rewrite app_nil_r|].
  cbn [nfor]. pose proof (H 0%nat x tr eq_refl) as H0. change (Z.of_nat 0) with 0 in H0.
  rewrite Z.add_0_r in H0. rewrite (nbind_nret _ _ _ _ _ H0).
  rewrite (IH (i + 1)).
  - rewrite imap_cons, mjoin_cons, <- app_assoc. do 2 f_equal.
    change (Z.of_nat 0) with 0. rewrite Z.add_0_r. f_equal.
    f_equal. apply imap_ext. intros k y _. unfold compose. f_equal. lia.
  - intros k y tr' Hk. replace (i + 1 + Z.of_nat k) with (i + Z.of_nat (S k)) by lia. by apply H.
Qed.

Lemma no_oob_sleep d : existsb is_oob (sleep_events d) = false.
Proof. unfold sleep_events. by destruct (0 <? d). Qed.

Lemma delivered_sleep d : delivered (sleep_events d) = [].
Proof. unfold sleep_events. by destruct (0 <? d). Qed.

Lemma delivered_later_segs oob d segs : forall i, 0 < i ->
  let evs := mjoin (imap (fun k p => seg_events oob d (i + Z.of_nat k) p) segs) in
  delivered evs = mjoin segs /\ existsb is_oob evs = false.
Proof.
  induction segs as [|p segs IH]; intros i Hi; [done|].
  rewrite imap_cons, !mjoin_cons. cbn zeta.
  assert (imap ((fun k p => seg_events oob d (i + Z.of_nat k) p) ∘ S) segs =
          imap (fun k p => seg_events oob d (i + 1 + Z.of_nat k) p) segs) as ->.
  { apply imap_ext. intros k y _. unfold compose. f_equal. lia. }
  destruct (IH (i + 1) ltac:(lia)) as [E1 E2]. rewrite delivered_no_oob by done. rewrite E1.
  unfold seg_events. change (Z.of_nat 0) with 0.
  destruct (Z.eqb_spec (i + 0) 0); [lia|]. cbn [andb].
  rewrite delivered_no_oob by apply no_oob_sleep.
  rewrite delivered_sleep, app_nil_r. simpl. rewrite app_nil_r.
  split; [done|]. rewrite existsb_app, no_oob_sleep. exact E2.
Qed.

Lemma delivered_segs oob d segs :
  let evs := mjoin (imap (fun k p => seg_events oob d (Z.of_nat k) p) segs) in
  delivered evs = mjoin segs /\ (oob = false -> existsb is_oob evs = false).
Proof.
  destruct segs as [|p segs]; [done|]. rewrite imap_cons, !mjoin_cons. cbn zeta.
  assert (imap ((fun k p => seg_events oob d (Z.of_nat k) p) ∘ S) segs =
          imap (fun k p => seg_events oob d (1 + Z.of_nat k) p) segs) as ->.
  { apply imap_ext. intros k y _. unfold compose. f_equal. lia. }
  destruct (delivered_later_segs oob d segs 1 ltac:(lia)) as [E1 E2].
  rewrite delivered_no_oob by done. rewrite E1.
  assert (delivered (seg_events oob d (Z.of_nat 0) p) = p) as ->.
  { unfold seg_events. rewrite delivered_no_oob by apply no_oob_sleep.
    rewrite delivered_sleep, app_nil_r. destruct oob; simpl; by rewrite !app_nil_r. }
  split; [done|]. intros ->. rewrite existsb_app, E2. unfold seg_events.
  rewrite andb_false_r, existsb_app, no_oob_sleep. done.
Qed.

(** [merged] goes out completely and in order, in one or more segments. *)
Lemma send_merged_run merged segments oob d tr :
  1 <= segments ->
  exists evs, @send_merged reliable merged segments oob d tr = (Ret tt, tr ++ evs) /\
    delivered evs = merged /\ (oob = false -> existsb is_oob evs = false).
Proof.
  intros Hs. unfold send_merged.
  destruct ((segments =? 1) || (zlen merged <=? segments)) eqn:E.
  { exists [EvWrite merged]. split; [done|]. simpl. by rewrite app_nil_r. }
  destruct (Z.eqb_spec segments 0); [lia|].
  set (base := Z.quot (zlen merged) segments).
  pose proof (Z.mul_quot_le (zlen merged) segments) as Hq.
  pose proof (Z.quot_pos (zlen merged) segments) as Hp. fold base in Hq, Hp.
  set (part := fun i => if i =? segments - 1 then drop (Z.to_nat (i * base)) merged
       else take (Z.to_nat base) (drop (Z.to_nat (i * base)) merged)).
  rewrite (nfor_reliable _ (fun k i => seg_events oob d k (part i))).
  2: { intros k i tr' Hk. apply lookup_seqZ in Hk as [-> Hk]. rewrite Z.add_0_l.
    set (i := Z.of_nat k) in *.
    assert (slice merged (i * base) (if i =? segments - 1 then zlen merged else i * base + base)
            = Ret (part i)) as Hsl.
    { pose proof (split_part_spec merged base segments i ltac:(lia) ltac:(lia) ltac:(lia)) as S.
      unfold split_part, slice_from in S. unfold part. destruct (i =? segments - 1); [done|].
      rewrite <- S. f_equal. lia. }
    rewrite Hsl. unfold nlift, nbind at 1. unfold seg_events.
    destruct ((i =? 0) && oob); unfold nbind, write, send_oob, perform; cbn -[app];
      rewrite sleep_if_run; by rewrite <- app_assoc. }
  eexists. split; [done|].
  assert (imap (fun k i => seg_events oob d (0 + Z.of_nat k) (part i)) (seqZ 0 segments) =
          imap (fun k p => seg_events oob d (Z.of_nat k) p) (part <$> seqZ 0 segments)) as ->.
  { rewrite imap_fmap. done. }
  destruct (delivered_segs oob d (part <$> seqZ 0 segments)) as [E1 E2]. split; [|done].
  rewrite E1. destruct (splitAndAppend_spec merged None segments ltac:(lia)) as (ps & Es & Ej & _).
  unfold splitAndAppend in Es. destruct (Z.leb_spec segments 0); [lia|].
  destruct ((segments =? 1) || (zlen merged <? segments)) eqn:E'; [lia|].
  rewrite (go_map_Ret _ part) in Es by (intros i Hi%elem_of_seqZ; apply split_part_spec; lia).
  simpl in Es. rewrite !list_fmap_id in Es. congruence.
Qed.

(** The oob_ex prefix: both urgent sends go out, and what they deliver followed
    by the remaining bytes is the whole buffer. *)
Lemma send_oobex_run d b tr :
  35 <= zlen b ->
  exists a x c, @send_oobex reliable d b tr =
      (Ret (drop 35 b), tr ++ [EvOOB a x; EvOOB c 0] ++ sleep_events d) /\
    a ++ [x] ++ c ++ drop 35 b = b.
Proof.
  intros Hb. unfold send_oobex.
  destruct (idx_in_range b 15) as (x & Ex & Hx); [lia|].
  exists (take 15 b), x, (take 19 (drop 16 b)).
  unfold slice_to, slice_from. rewrite !slice_in_range by lia. rewrite Ex.
  change (Z.to_nat 0) with 0%nat. rewrite drop_0.
  unfold nbind, nlift, send_oob, perform. cbn -[app].
  rewrite sleep_if_run. split.
  - f_equal; [|by rewrite <- !app_assoc]. f_equal. apply take_ge. rewrite length_drop.
    unfold zlen. lia.
  - change (Z.to_nat 15) with 15%nat in Hx.
    assert (drop 16 b = take 19 (drop 16 b) ++ drop 35 b) as E16.
    { rewrite <- (take_drop 19 (drop 16 b)) at 1. by rewrite drop_drop. }
    rewrite <- E16. simpl. rewrite <- (drop_S b x 15) by done. apply take_drop.
Qed.

Lemma delivered_oobex a x c d evs :
  existsb is_oob evs = false ->
  delivered (([EvOOB a x; EvOOB c 0] ++ sleep_events d) ++ evs) = a ++ [x] ++ c ++ delivered evs.
Proof.
  intros H. rewrite delivered_no_oob by done.
  rewrite delivered_no_oob by apply no_oob_sleep. rewrite delivered_sleep, app_nil_r.
  simpl. by rewrite app_nil_r, <- !app_assoc.
Qed.

(** ** Reassembly at the peer *)

(** A TLS peer reads records (3 header bytes, 2 length bytes, payload) off its
    stream until it is empty. *)
Fixpoint read_records (fuel : nat) (s : bytes) : option (list (bytes * bytes)) :=
  match fuel, s with
  | _, [] => Some []
  | S fuel, h1 :: h2 :: h3 :: l1 :: l2 :: s =>
    let n := Z.to_nat (be16 l1 l2) in
    if (length s <? n)%nat then None
    else rs ← read_records fuel (drop n s); Some (([h1; h2; h3], take n s) :: rs)
  | _, _ => None
  end.

Lemma read_records_make h ps : forall fuel,
  length h = 3%nat -> Forall (fun p => zlen p < 65536) ps -> (length ps < fuel)%nat ->
  read_records fuel (mjoin (makeRecord h <$> ps)) = Some ((fun p => (h, p)) <$> ps).
Proof.
  destruct h as [|h1 [|h2 [|h3 [|??]]]]; try done. intros fuel _ Hps. revert fuel.
  induction Hps as [|p ps Hp Hps IH]; intros fuel Hf; [by destruct fuel|].
  destruct fuel as [|fuel]; [simpl in Hf; lia|].
  rewrite fmap_cons, mjoin_cons. unfold makeRecord at 1.
  change (take 3 ([h1; h2; h3] ++ replicate 3 0)) with [h1; h2; h3].
  destruct (put16 (zlen p)) as [|l1 [|l2 [|??]]] eqn:Eq; try discriminate Eq.
  cbn [app read_records]. pose proof (zlen_nonneg p).
  rewrite (put16_be16 _ _ _ Eq), u16_small by lia.
  assert (Z.to_nat (zlen p) = length p) as -> by (unfold zlen; lia).
  destruct (Nat.ltb_spec (length (p ++ mjoin (makeRecord [h1; h2; h3] <$> ps))) (length p)) as [Hlt|_].
  { rewrite length_app in Hlt. lia. }
  rewrite drop_app_length, take_app_length, IH by (simpl in Hf; lia). done.
Qed.

(** The handshake bytes carried by a stream of records with header [h]. *)
Definition reassembles (h stream payload : bytes) : Prop :=
  exists ps, read_records (S (length stream)) stream = Some ((fun p => (h, p)) <$> ps) /\
    mjoin ps = payload.

Lemma reassembles_make h ps :
  length h = 3%nat -> zlen (mjoin ps) < 65536 ->
  reassembles h (mjoin (makeRecord h <$> ps)) (mjoin ps).
Proof.
  intros Hh Hz. exists ps. split; [|done]. apply read_records_make; [done| |].
  - induction ps as [|p ps IH]; [done|]. rewrite mjoin_cons, zlen_app in Hz.
    pose proof (zlen_nonneg p). pose proof (zlen_nonneg (mjoin ps)).
    constructor; [lia|apply IH; lia].
  - clear Hz. induction ps as [|p ps IH]; [simpl; lia|].
    rewrite fmap_cons, mjoin_cons, length_app. unfold makeRecord at 1.
    rewrite !length_app. unfold put16. simpl length. lia.
Qed.

(** The chunks are records with the header of the ClientHello, at least two of
    them, and their payloads make up the handshake bytes. *)
Lemma make_chunks_spec ch offset len records :
  2 <= records -> 5 <= offset -> 0 <= len -> offset + len < zlen ch ->
  exists ps, make_chunks ch offset len records = Ret (makeRecord (take 3 ch) <$> ps) /\
    mjoin ps = drop 5 ch /\ (2 <= length ps)%nat.
Proof.
  intros Hr Ho Hl Hlen. unfold make_chunks, make_cap. destruct (Z.ltb_spec records 0); [lia|].
  simpl. destruct (findLastDot_total ch offset len) as (cut & f & -> & Hc & _); [lia..|]. simpl.
  unfold slice_to, slice_from. rewrite !slice_in_range by lia. simpl go_bind. rewrite drop_0.
  change (Z.to_nat (3 - 0)) with 3%nat. change (Z.to_nat 5) with 5%nat.
  assert (1 <= Z.quot records 2 < records).
  { rewrite Z.quot_div_nonneg by lia. pose proof (Z.div_mod records 2).
    pose proof (Z.mod_pos_bound records 2). lia. }
  destruct (splitAndAppend_spec (take (Z.to_nat (cut - 5)) (drop 5 ch)) (Some (take 3 ch))
    (Z.quot records 2)) as (pl & -> & Hpl & Ll); [lia|]. simpl go_bind.
  destruct (splitAndAppend_spec (take (Z.to_nat (zlen ch - cut)) (drop (Z.to_nat cut) ch))
    (Some (take 3 ch)) (records - Z.quot records 2)) as (pr & -> & Hpr & Lr); [lia|]. simpl go_bind.
  exists (pl ++ pr). rewrite fmap_app. split; [done|].
  rewrite join_app, Hpl, Hpr. split.
  - rewrite (take_ge (drop (Z.to_nat cut) ch)) by (rewrite length_drop; unfold zlen; lia).
    rewrite <- (take_drop (Z.to_nat (cut - 5)) (drop 5 ch)) at 2. rewrite drop_drop.
    do 3 f_equal. lia.
  - rewrite length_app. unfold zlen in Ll, Lr. repeat case_match; lia.
Qed.

Lemma send_chunk_write oob oobex d i c tr :
  i <> 0 -> (i = 1 -> oobex = false) ->
  @send_chunk reliable oob oobex d i c tr = (Ret tt, tr ++ seg_events false d i c).
Proof.
  intros H0 H1. unfold send_chunk. destruct (Z.eqb_spec i 0); [done|].
  assert ((i =? 1) && oobex = false) as -> by (destruct (Z.eqb_spec i 1); [by rewrite H1|done]).
  unfold nbind, write, perform, seg_events. cbn -[app]. rewrite andb_false_r, sleep_if_run.
  by rewrite <- app_assoc.
Qed.

(** Without an urgent option the loop over the records skips the first one. *)
Lemma send_chunks_plain c cs d tr :
  exists evs, @send_chunks reliable (c :: cs) false false d tr = (Ret tt, tr ++ evs) /\
    delivered evs = mjoin cs.
Proof.
  unfold send_chunks. cbn [nfor]. rewrite (nbind_nret _ _ _ tt tr) by done.
  rewrite (nfor_reliable _ (seg_events false d)).
  - eexists. split; [done|]. apply (delivered_later_segs false d cs 1). lia.
  - intros k x tr' _. apply send_chunk_write; [lia|done].
Qed.

Lemma send_chunks_run cs oob oobex d tr :
  (2 <= length cs)%nat -> Forall (fun c => c <> []) cs -> xorb oob oobex = true ->
  exists evs, @send_chunks reliable cs oob oobex d tr = (Ret tt, tr ++ evs) /\
    delivered evs = mjoin cs.
Proof.
  intros Hl Hne Hx. unfold send_chunks. destruct oob, oobex; try done.
  - rewrite (nfor_reliable _ (seg_events true d)).
    + eexists. split; [done|]. apply (delivered_segs true d cs).
    + intros k x tr' _. rewrite Z.add_0_l. destruct k as [|k].
      * change (Z.of_nat 0) with 0. unfold send_chunk, nbind, send_oob, perform, seg_events.
        cbn -[app sleep_if]. rewrite sleep_if_run. by rewrite <- app_assoc.
      * rewrite send_chunk_write by (done || lia). unfold seg_events.
        destruct (Z.eqb_spec (Z.of_nat (S k)) 0); [lia|done].
  - destruct cs as [|c0 [|c1 cs]]; [simpl in Hl; lia..|].
    apply Forall_cons_1 in Hne as [Hc0 _].
    destruct (exists_last Hc0) as (a & x & ->).
    cbn [nfor]. rewrite (nbind_nret _ _ _ tt (tr ++ [EvOOB a x])).
    2: { unfold send_chunk, slice_to. cbn beta iota zeta delta [Z.eqb].
      unfold nbind, nlift.
      rewrite (slice_app _ [] a [x]) by (done || (rewrite zlen_app; change (zlen [x]) with 1;
        change (zlen (@nil Z)) with 0; lia)).
      by rewrite (idx_app _ a [] x) by (done || (rewrite zlen_app; change (zlen [x]) with 1; lia)). }
    rewrite (nbind_nret _ _ _ tt ((tr ++ [EvOOB a x]) ++ [EvOOB c1 0])) by done.
    rewrite (nfor_reliable _ (seg_events false d)).
    2: { intros k y tr' _. apply send_chunk_write; lia. }
    eexists. rewrite <- !app_assoc. split; [done|].
    destruct (delivered_later_segs false d cs (0 + 1 + 1) ltac:(lia)) as [E1 E2].
    rewrite app_assoc, delivered_no_oob, E1 by done. simpl. rewrite app_nil_r.
    by rewrite <- !app_assoc.
Qed.

Definition set_minor (modMinorVer : bool) (ch : bytes) : bytes :=
  if modMinorVer then <[2%nat := 0x04]> ch else ch.

Lemma set_minor_run (modMinorVer : bool) (ch : bytes) tr :
  5 <= zlen ch ->
  (if modMinorVer then nlift (set_byte ch 2 4) else nret ch) tr = (Ret (set_minor modMinorVer ch), tr).
Proof.
  intros H. unfold set_minor, set_byte. destruct modMinorVer; [|done].
  destruct (Z.ltb_spec 2 (zlen ch)); [done|lia].
Qed.

Lemma set_minor_facts m ch :
  zlen (set_minor m ch) = zlen ch /\ drop 5 (set_minor m ch) = drop 5 ch.
Proof.
  unfold set_minor, zlen. destruct m; [|done]. rewrite length_insert. split; [done|].
  by rewrite drop_insert_lt by lia.
Qed.

(** The records-then-segments pipeline of the [records != 1] branch. *)
Lemma send_pipeline_run (ps : list bytes) h segments (oob oobex : bool) d tr :
  length h = 3%nat -> (2 <= length ps)%nat -> 1 <= segments -> oob && oobex = false ->
  (oobex = true -> 35 <= zlen (mjoin (makeRecord h <$> ps))) ->
  exists evs,
    (do! merged := (if oobex then @send_oobex reliable d (mjoin (makeRecord h <$> ps))
                    else nret (mjoin (makeRecord h <$> ps))) in
     @send_merged reliable merged segments oob d) tr = (Ret tt, tr ++ evs) /\
    delivered evs = mjoin (makeRecord h <$> ps).
Proof.
  intros Hh Hl Hs Hx H35. set (m := mjoin (makeRecord h <$> ps)) in *. destruct oobex.
  - destruct oob; [done|].
    destruct (send_oobex_run d m tr (H35 eq_refl)) as (a & x & c & E & Em).
    rewrite (nbind_nret _ _ _ _ _ E).
    destruct (send_merged_run (drop 35 m) segments false d (tr ++ [EvOOB a x; EvOOB c 0] ++ sleep_events d))
      as (evs & -> & Ed & Eo); [done|].
    eexists. rewrite <- app_assoc. split; [done|].
    rewrite delivered_oobex by auto. by rewrite Ed, Em.
  - rewrite (nbind_nret _ _ _ m tr) by done.
    destruct (send_merged_run m segments oob d tr) as (evs & -> & Ed & _); [done|]. eauto.
Qed.

Lemma makeRecord_nonnil h p : makeRecord h p <> [].
Proof. unfold makeRecord, put16. intros E. apply (f_equal length) in E. revert E. len. Qed.

Lemma zlen_records_ge h (ps : list bytes) :
  zlen (mjoin ps) <= zlen (mjoin (makeRecord h <$> ps)).
Proof.
  induction ps as [|p ps IH]; [done|]. rewrite fmap_cons, !mjoin_cons, !zlen_app.
  unfold makeRecord at 1. rewrite !zlen_app. pose proof (zlen_nonneg (take 3 (h ++ replicate 3 0))).
  pose proof (zlen_nonneg (put16 (zlen p))). lia.
Qed.

(** The segments of the [records == 1] branch after the optional oob_ex prefix. *)
Lemma send_rest_run (ch : bytes) offset len segments (oob : bool) d tr :
  0 <= offset -> 0 <= len -> offset + len < zlen ch -> 1 <= segments ->
  exists evs,
    (if segments =? 1 then @write reliable (wrap "send remaining data") ch
     else
       do! _ := nlift (make_cap segments) in
       do! (cut, _) := nlift (findLastDot ch offset len) in
       do! l := nlift (slice_to ch cut) in
       do! lp := nlift (splitAndAppend l None (Z.quot segments 2)) in
       do! r := nlift (slice_from ch cut) in
       do! rp := nlift (splitAndAppend r None (segments - Z.quot segments 2)) in
       nfor 0 (lp ++ rp) (fun i packet =>
         (if (i =? 0) && oob then @send_oob reliable (wrap "oob") packet 0x0
          else @write reliable (wrap ("write packet " +:+ Itoa (i + 1))%string) packet) ;!
         sleep_if d)) tr = (Ret tt, tr ++ evs) /\
    delivered evs = ch /\ (oob = false -> existsb is_oob evs = false).
Proof.
  intros Ho Hl Hlen Hs. destruct (Z.eqb_spec segments 1).
  { exists [EvWrite ch]. split; [done|]. simpl. by rewrite app_nil_r. }
  unfold make_cap. destruct (Z.ltb_spec segments 0); [lia|].
  rewrite (nbind_nret _ _ _ tt tr) by done.
  destruct (findLastDot_total ch offset len) as (cut & f & -> & Hc & _); [lia..|].
  rewrite nbind_lift. cbn iota beta.
  unfold slice_to, slice_from. rewrite !slice_in_range by lia.
  assert (1 <= Z.quot segments 2 < segments).
  { rewrite Z.quot_div_nonneg by lia. pose proof (Z.div_mod segments 2).
    pose proof (Z.mod_pos_bound segments 2). lia. }
  rewrite nbind_lift.
  destruct (splitAndAppend_spec (take (Z.to_nat (cut - 0)) (drop (Z.to_nat 0) ch)) None
    (Z.quot segments 2)) as (pl & -> & Hpl & _); [lia|]. rewrite nbind_lift.
  rewrite nbind_lift.
  destruct (splitAndAppend_spec (take (Z.to_nat (zlen ch - cut)) (drop (Z.to_nat cut) ch)) None
    (segments - Z.quot segments 2)) as (pr & -> & Hpr & _); [lia|].
  rewrite nbind_lift. rewrite !list_fmap_id.
  rewrite (nfor_reliable _ (seg_events oob d)).
  2: { intros k p tr' _. unfold seg_events.
    destruct ((0 + Z.of_nat k =? 0) && oob); unfold nbind, write, send_oob, perform;
      cbn -[app sleep_if Z.of_nat]; rewrite sleep_if_run; by rewrite <- app_assoc. }
  eexists. split; [done|].
  destruct (delivered_segs oob d (pl ++ pr)) as [E1 E2]. split; [|exact E2].
  etrans; [exact E1|]. rewrite join_app, Hpl, Hpr, Z.sub_0_r. change (Z.to_nat 0) with 0%nat.
  rewrite drop_0, (take_ge (drop _ _)) by (rewrite length_drop; unfold zlen; lia).
  apply take_drop.
Qed.

(** ** Claims *)

(** C3: with two or more TLS records the fragmented ClientHello reaches the peer
    intact.  For every segment count of at least one, and for one send per
    record when an urgent option is on, the sends succeed without panic and the
    stream the peer's TCP delivers reassembles, record by record, to the
    original handshake bytes under the original record header (with the minor
    version changed when asked). *)
Theorem sendRecords_tls_stream (ch : bytes) offset len records segments
    (oob oobex modMinorVer : bool) interval :
  5 <= offset -> 0 <= len -> offset + len < zlen ch -> zlen ch <= 5 + 65535 ->
  2 <= records -> oob && oobex = false -> (oobex = true -> 40 <= zlen ch) ->
  1 <= segments \/ (segments = -1 /\ xorb oob oobex = true) ->
  exists evs,
    @sendRecords reliable ch offset len records segments oob oobex modMinorVer interval []
      = (Ret tt, evs) /\
    reassembles (take 3 (set_minor modMinorVer ch)) (delivered evs) (drop 5 ch).
Proof.
  intros Ho Hl Hlen Hmax Hr Hx H40 Hseg. unfold sendRecords.
  rewrite (nbind_nret _ _ _ _ _ (set_minor_run modMinorVer ch [] ltac:(lia))).
  destruct (set_minor_facts modMinorVer ch) as [Lch Dch].
  set (ch' := set_minor modMinorVer ch) in *.
  destruct (Z.eqb_spec records 1); [lia|].
  destruct (make_chunks_spec ch' offset len records) as (ps & -> & Hps & Lps); [lia..|].
  rewrite nbind_lift. rewrite Dch in Hps.
  assert (length (take 3 ch') = 3%nat) as H3 by (rewrite length_take; unfold zlen in *; lia).
  assert (zlen (mjoin ps) = zlen ch - 5) as Hz
    by (rewrite Hps; unfold zlen in *; rewrite length_drop; lia).
  rewrite <- Hps. destruct Hseg as [Hs|[-> Hs]].
  - destruct (Z.eqb_spec segments (-1)); [lia|].
    destruct (send_pipeline_run ps (take 3 ch') segments oob oobex interval [])
      as (evs & E & Ed); [done..| |].
    + intros ->. pose proof (zlen_records_ge (take 3 ch') ps). specialize (H40 eq_refl). lia.
    + exists evs. split; [exact E|]. rewrite Ed. apply reassembles_make; [done|lia].
  - change (-1 =? -1) with true. cbn iota.
    destruct (send_chunks_run (makeRecord (take 3 ch') <$> ps) oob oobex interval [])
      as (evs & E & Ed); [by rewrite length_fmap|apply Forall_fmap, Forall_true; intros; apply makeRecord_nonnil|done|].
    exists evs. split; [exact E|]. rewrite Ed. apply reassembles_make; [done|lia].
Qed.

Lemma sendRecords_tls_stream_witness :
  exists evs,
    @sendRecords reliable (enc_record sample_hello ++ [0; 0]) 63 3 2 3 true false true 0 []
      = (Ret tt, evs) /\
    reassembles [22; 3; 4] (delivered evs) (drop 5 (enc_record sample_hello ++ [0; 0])).
Proof.
  destruct (sendRecords_tls_stream (enc_record sample_hello ++ [0; 0]) 63 3 2 3 true false true 0)
    as (evs & E & H); try (vm_compute; congruence); try (left; vm_compute; congruence).
  exists evs. split; [exact E|exact H].
Defined.

(** with a single TLS record the ClientHello is only cut into TCP segments:
    the peer's stream is the ClientHello itself (with the minor version changed
    when asked), for every segment count of at least one and either urgent
    option. *)
Theorem sendRecords_tcp_stream (ch : bytes) offset len segments
    (oob oobex modMinorVer : bool) interval :
  40 <= offset -> 0 <= len -> offset + len < zlen ch -> 1 <= segments ->
  oob && oobex = false ->
  exists evs,
    @sendRecords reliable ch offset len 1 segments oob oobex modMinorVer interval []
      = (Ret tt, evs) /\
    delivered evs = set_minor modMinorVer ch.
Proof.
  intros Ho Hl Hlen Hseg Hx. unfold sendRecords.
  rewrite (nbind_nret _ _ _ _ _ (set_minor_run modMinorVer ch [] ltac:(lia))).
  destruct (set_minor_facts modMinorVer ch) as [Lch _].
  set (ch' := set_minor modMinorVer ch) in *. change (1 =? 1) with true. cbn iota.
  unfold send_one_record. destruct oobex.
  - destruct oob; [done|].
    destruct (send_oobex_run interval ch' [] ltac:(lia)) as (a & x & c & E & Em).
    erewrite nbind_nret by (rewrite (nbind_nret _ _ _ _ _ E); done). cbn beta iota.
    destruct (send_rest_run (drop 35 ch') (offset - 35) len segments false interval
      ([] ++ [EvOOB a x; EvOOB c 0] ++ sleep_events interval)) as (evs & E2 & Ed & Eo);
      [lia|lia|unfold zlen in *; rewrite length_drop; lia|done|].
    eexists. split; [exact E2|]. rewrite app_nil_l, delivered_oobex by auto.
    by rewrite Ed, Em.
  - rewrite nbind_ret. cbn beta iota.
    destruct (send_rest_run ch' offset len segments oob interval []) as (evs & E2 & Ed & _);
      [lia..|]. eauto.
Qed.

Lemma sendRecords_tcp_stream_witness :
  exists evs,
    @sendRecords reliable (enc_record sample_hello ++ [0; 0]) 63 3 1 4 false true false 5 []
      = (Ret tt, evs) /\
    delivered evs = enc_record sample_hello ++ [0; 0].
Proof.
  apply (sendRecords_tcp_stream (enc_record sample_hello ++ [0; 0]) 63 3 4 false true false 5);
    vm_compute; congruence.
Defined.

(** With one send per record and no urgent option the first TLS record is never sent. *)
Lemma drops_first_record (ch : bytes) offset len records interval :
  5 <= offset -> 0 <= len -> offset + len < zlen ch -> 2 <= records ->
  exists p ps evs,
    make_chunks ch offset len records = Ret (makeRecord (take 3 ch) <$> p :: ps) /\
    mjoin (p :: ps) = drop 5 ch /\
    @sendRecords reliable ch offset len records (-1) false false false interval []
      = (Ret tt, evs) /\
    delivered evs = mjoin (makeRecord (take 3 ch) <$> ps).
Proof.
  intros Ho Hl Hlen Hr. unfold sendRecords.
  rewrite nbind_ret. destruct (Z.eqb_spec records 1); [lia|].
  destruct (make_chunks_spec ch offset len records) as ([|p ps] & E & Hps & Lps);
    [lia..|simpl in Lps; lia|].
  rewrite E, nbind_lift. change (-1 =? -1) with true. cbn iota.
  destruct (send_chunks_plain (makeRecord (take 3 ch) p) (makeRecord (take 3 ch) <$> ps) interval [])
    as (evs & Es & Ed).
  exists p, ps, evs. split; [done|]. split; [exact Hps|]. split; [exact Es|exact Ed].
Qed.

(** fragmentation settings that break the connection.  With [num_segs] = -1 (one
    send per record) and no urgent option the first TLS record is never sent: the
    peer receives the stream of the remaining records only, whatever the
    ClientHello.  One record with [num_segs] = -1 panics; no record count (an unset
    [num_records]) sends an empty buffer and reports success; one record with an
    unset [num_segs] reports success without sending anything; several records with
    an unset [num_segs] divide by zero. *)
Theorem sendRecords_degenerate (ch : bytes) offset len records interval :
  5 <= offset -> 0 <= len -> offset + len < zlen ch -> 2 <= records ->
  (exists p ps evs,
     make_chunks ch offset len records = Ret (makeRecord (take 3 ch) <$> p :: ps) /\
     mjoin (p :: ps) = drop 5 ch /\
     @sendRecords reliable ch offset len records (-1) false false false interval [] = (Ret tt, evs) /\
     delivered evs = mjoin (makeRecord (take 3 ch) <$> ps)) /\
  fst (@sendRecords reliable ch offset len 1 (-1) false false false interval []) = Panic /\
  @sendRecords reliable ch offset len 0 0 false false false interval [] = (Ret tt, [EvWrite []]) /\
  @sendRecords reliable ch offset len 1 0 false false false interval [] = (Ret tt, []) /\
  fst (@sendRecords reliable ch offset len records 0 false false false interval []) = Panic.
Proof.
  intros Ho Hl Hlen Hr. split; [by apply drops_first_record|]. unfold sendRecords.
  rewrite !nbind_ret. split_and!.
  - done.
  - unfold make_chunks, make_cap. simpl.
    destruct (findLastDot_total ch offset len) as (cut & f & -> & Hc & _); [lia..|]. simpl.
    unfold slice_to, slice_from. by rewrite !slice_in_range by lia.
  - unfold send_one_record, make_cap. change (1 =? 1) with true. cbn iota.
    rewrite nbind_ret. cbn iota beta.
    change (0 =? 1) with false. cbn iota.
    destruct (findLastDot_total ch offset len) as (cut & f & -> & Hc & _); [lia..|].
    change (0 <? 0) with false. cbn iota. do 2 rewrite nbind_lift. cbn beta iota.
    unfold slice_to, slice_from. by rewrite !slice_in_range by lia.
  - destruct (Z.eqb_spec records 1); [lia|].
    destruct (make_chunks_spec ch offset len records) as (ps & -> & Hps & Lps); [lia..|].
    rewrite nbind_lift. change (0 =? -1) with false. cbn iota.
    rewrite nbind_ret. unfold send_merged. change (0 =? 1) with false.
    pose proof (zlen_records_ge (take 3 ch) ps) as Hz. rewrite Hps in Hz.
    assert (0 < zlen (drop 5 ch)) by (unfold zlen in *; rewrite length_drop; lia).
    destruct (Z.leb_spec (zlen (mjoin (makeRecord (take 3 ch) <$> ps))) 0); [lia|done].
Qed.

Lemma sendRecords_degenerate_witness :
  (exists p ps evs,
    make_chunks (enc_record sample_hello ++ [0; 0]) 63 3 2 =
      Ret (makeRecord [22; 3; 1] <$> p :: ps) /\
    @sendRecords reliable (enc_record sample_hello ++ [0; 0]) 63 3 2 (-1) false false false 0 []
      = (Ret tt, evs) /\
    delivered evs = mjoin (makeRecord [22; 3; 1] <$> ps)) /\
  fst (@sendRecords reliable (enc_record sample_hello ++ [0; 0]) 63 3 1 (-1) false false false 0 [])
    = Panic.
Proof.
  destruct (sendRecords_degenerate (enc_record sample_hello ++ [0; 0]) 63 3 2 0)
    as ((p & ps & evs & E1 & _ & E2 & E3) & H2 & _); [vm_compute; congruence..|].
  split; [|exact H2]. exists p, ps, evs. split; [exact E1|]. split; [exact E2|exact E3].
Defined.

End Fragment.
