(* ===== verification/Desync.v ===== *)
(** * TTL desynchronisation (src/internal/desync.go, desync_linux.go)

    The fake-TTL rule language ([parseTTLRules], [loadTTLRules]), the binary
    search for the smallest TTL that reaches a host
    ([detectMinimalReachableTTL]), the TTL choice ([getFakeTTL]) and the data
    split of [desyncSend].  Dialling is an oracle that answers each attempt. *)

From Stdlib Require Import Sorted.
From S2P Require Import Prelude GoStrings ClientHello Conn.

Module Desync.

(** ** The rule language *)

Record rule := mkRule { threshold : Z; typ : Z; val : Z }.

#[global] Instance rule_eq_dec : EqDecision rule.
Proof. solve_decision. Defined.

(** [for i < len(b) && b[i] >= '0' && b[i] <= '9' { i++ }]. *)
Fixpoint scan_digits (b : bytes) : bytes * bytes :=
  match b with
  | c :: b' => if is_digit c then let '(ds, r) := scan_digits b' in (c :: ds, r) else ([], b)
  | [] => ([], [])
  end.

(** [a = a*10 + int(c-'0')] over the digits, in Go's wrapping int. *)
Definition parse_int (ds : bytes) : Z := fold_left (fun a c => i64 (a * 10 + (c - 48))) ds 0.

(** One round of the loop of [parseTTLRules]: a rule and what follows it. *)
Definition parse_rule (b : bytes) : go (rule * bytes) :=
  let '(ds, b) := scan_digits b in
  if bool_decide (ds = []) then Err "invalid rule: missing left number" else
  let a := parse_int ds in
  match b with
  | [] => Err "invalid rule: missing operator"
  | op :: b =>
    if negb (op =? 45) && negb (op =? 61) then Err "invalid operator" else
    let '(ds, b) := scan_digits b in
    if bool_decide (ds = []) then Err "invalid rule: missing right number" else
    let v := parse_int ds in
    Ret (mkRule a op v, match b with 59 :: b' => b' | _ => b end)
  end.

(** The loop; each round consumes at least three bytes, so the input length is
    enough fuel ([parse_rules_fuel]). *)
Fixpoint parse_rules (fuel : nat) (b : bytes) : option (go (list rule)) :=
  match b, fuel with
  | [], _ => Some (Ret [])
  | _, O => None
  | _, S fuel =>
    match parse_rule b with
    | Ret (r, b) =>
      match parse_rules fuel b with
      | Some (Ret rs) => Some (Ret (r :: rs))
      | other => other
      end
    | Err e => Some (Err e)
    | Panic => Some Panic
    end
  end.

(** [sort.Slice] with [rules[i].threshold > rules[j].threshold]: some permutation
    in which thresholds do not increase (the order of equal ones is open). *)
Class SortSlice := {
  sort_slice : list rule -> list rule;
  sort_slice_perm : forall l, Permutation l (sort_slice l);
  sort_slice_sorted : forall l, StronglySorted (fun a b => threshold b <= threshold a) (sort_slice l);
}.

Inductive calc :=
| CalcInt (conf : string)
| CalcRules (rules : list rule).

Section rules.
Context {S : SortSlice}.

Definition parseTTLRules (conf : string) : go (list rule) :=
  if (String.length conf =? 0)%nat then Err "empty config" else
  let b := bytes_of_string conf in
  match parse_rules (length b) b with
  | Some r => let! rules := r in Ret (sort_slice rules)
  | None => Panic
  end.

(** [loadTTLRules]: the closure it stores in [calcTTL].  [rules == nil] holds of
    the empty list only: [append] never leaves a slice nil. *)
Definition loadTTLRules (conf : string) : go calc :=
  let! rules := parseTTLRules conf in
  Ret (if bool_decide (rules = []) then CalcInt conf else CalcRules rules).
End rules.

Fixpoint calc_int (b : bytes) (v : Z) : go Z :=
  match b with
  | [] => Ret v
  | c :: b => if negb (is_digit c) then Err "invalid integer config"
              else calc_int b (i64 (v * 10 + (c - 48)))
  end.

Fixpoint calc_rules (rs : list rule) (ttl : Z) : go Z :=
  match rs with
  | [] => Err "no matching TTL rule"
  | r :: rs =>
    if threshold r <=? ttl
    then if typ r =? 45 then Ret (i64 (ttl - val r)) else Ret (val r)
    else calc_rules rs ttl
  end.

(** Calling the closure stored in [calcTTL]. *)
Definition run_calc (c : calc) (ttl : Z) : go Z :=
  match c with
  | CalcInt conf => calc_int (bytes_of_string conf) 0
  | CalcRules rs => calc_rules rs ttl
  end.

(** ** Searching the smallest TTL *)

Inductive dialres := DialOK | DialTimeout | DialErr (e : string).

Section search.
(** [dial ttl i]: the [i]-th dial attempt with that TTL set on the socket. *)
Context (dial : Z -> nat -> dialres).

(** [for range attempts { ... }] with its breaks and its error return. *)
Fixpoint try_ttl (n i : nat) (ttl : Z) : go bool :=
  match n with
  | O => Ret false
  | Datatypes.S n =>
    match dial ttl i with
    | DialOK => Ret true
    | DialTimeout => try_ttl n (Datatypes.S i) ttl
    | DialErr e => Err (wrap ("dial " +:+ Itoa ttl)%string e)
    end
  end.

Fixpoint search (fuel : nat) (attempts : nat) (low high found : Z) : option (go Z) :=
  if negb (low <=? high) then Some (Ret found) else
  match fuel with
  | O => None
  | Datatypes.S fuel =>
    let mid := Z.quot (low + high) 2 in
    match try_ttl attempts 0 mid with
    | Ret true => search fuel attempts low (mid - 1) mid
    | Ret false => search fuel attempts (mid + 1) high found
    | Err e => Some (Err e)
    | Panic => Some Panic
    end
  end.

(** The interval shrinks every round, so its size is enough fuel. *)
Definition detectMinimalReachableTTL (maxTTL attempts : Z) : go Z :=
  match search (Z.to_nat maxTTL) (Z.to_nat attempts) 1 maxTTL (-1) with
  | Some r => r
  | None => Panic
  end.
End search.

(** ** Choosing the fake TTL *)

(** [ttlCache]: [None] when the cache is not configured. *)
Record ttl_state := mkTTL { ttlCache : option (gmap string Z); calcTTL : option calc }.

Section fake.
Context (dial : string -> Z -> nat -> dialres).

(** [getMinimalReachableTTL], with the cache write that
    [detectMinimalReachableTTL] does on success.  Concurrent callers share one
    detection; each sees its result. *)
Definition getMinimalReachableTTL (st : ttl_state) (addr : string) (maxTTL attempts : Z) :
    go (Z * bool) * ttl_state :=
  match ttlCache st ≫= lookup addr with
  | Some ttl => (Ret (ttl, true), st)
  | None =>
    match detectMinimalReachableTTL (dial addr) maxTTL attempts with
    | Ret found =>
      (Ret (found, false),
       if found =? -1 then st
       else mkTTL (insert addr found <$> ttlCache st) (calcTTL st))
    | Err e => (Err e, st)
    | Panic => (Panic, st)
    end
  end.

Definition getFakeTTL (st : ttl_state) (FakeTTL MaxTTL Attempts : Z) (addr : string) :
    go Z * ttl_state :=
  if (FakeTTL =? 0) || (FakeTTL =? -1) then
    match getMinimalReachableTTL st addr MaxTTL Attempts with
    | (Ret (ttl, _), st) =>
      (if ttl =? -1 then Err "reachable TTL not found"
       else match calcTTL st with
            | Some c => match run_calc c ttl with
                        | Err e => Err (wrap "calculate fake TTL" e)
                        | r => r
                        end
            | None => Ret (i64 (ttl - 1))
            end, st)
    | (Err e, st) => (Err (wrap "detect minimum reachable TTL" e), st)
    | (Panic, st) => (Panic, st)
    end
  else (Ret FakeTTL, st).
End fake.

(** ** The fake and the real first segment (desync_linux.go, [desyncSend]) *)

Definition minInterval : Z := 100 * 10 ^ 6.

(** What [desyncSend] hands to [sendWithNoise] (fake data, real data), what it
    writes afterwards, and the sleep it uses. *)
Record desync_plan := mkPlan {
  fakeData : bytes; realData : bytes; remaining : bytes; noiseSleep : Z }.

Definition desync_split (firstPacket : bytes) (sniPos sniLen fakeSleep : Z) : go desync_plan :=
  let fakeSleep := if fakeSleep <? minInterval then minInterval else fakeSleep in
  let! (cut, found) := ClientHello.findLastDot firstPacket sniPos sniLen in
  let! fake :=
    (if found
     then if cut <? 0 then Panic else
          let! pre := slice_to firstPacket sniPos in
          (* make([]byte, cut) zeroed, then copy(fakeData, firstPacket[:sniPos]) *)
          Ret (take (Z.to_nat cut) (pre ++ replicate (Z.to_nat cut) 0))
     else slice_to firstPacket cut) in
  let! real := slice_to firstPacket cut in
  let! rest := slice_from firstPacket cut in
  Ret (mkPlan fake real rest fakeSleep).

(** ** Parsing *)

Lemma scan_digits_length b ds r : scan_digits b = (ds, r) -> length b = (length ds + length r)%nat.
Proof.
  revert ds r. induction b as [|c b IH]; simpl; intros ds r; [by intros [= <- <-]|].
  destruct (is_digit c); [|by intros [= <- <-]].
  destruct (scan_digits b) as [ds' r'] eqn:E. intros [= <- <-]. simpl. by rewrite (IH _ _ eq_refl).
Qed.

Lemma parse_rule_shorter b r b' : parse_rule b = Ret (r, b') -> (length b' + 3 <= length b)%nat.
Proof.
  unfold parse_rule. destruct (scan_digits b) as [ds b1] eqn:E1.
  apply scan_digits_length in E1. case_bool_decide as Hd; [done|].
  destruct b1 as [|op b1]; [done|]. destruct (negb (op =? 45) && negb (op =? 61)); [done|].
  destruct (scan_digits b1) as [ds2 b2] eqn:E2. apply scan_digits_length in E2.
  case_bool_decide as Hd2; [done|].
  destruct ds as [|? ds]; [done|]. destruct ds2 as [|? ds2]; [done|].
  intros [= <- <-]. simpl in *. destruct b2 as [|c b2]; [simpl in *; lia|].
  destruct (decide (c = 59)) as [->|Hc]; [simpl in *; lia|].
  destruct c as [|c|c]; [simpl in *; lia| |simpl in *; lia].
  repeat (destruct c as [c|c|]; try (simpl in *; lia)).
Qed.

Lemma parse_rule_no_panic b : parse_rule b <> Panic.
Proof. unfold parse_rule. repeat case_match; try done; by case_bool_decide. Qed.

(** With fuel for every byte the loop finishes and never panics. *)
Lemma parse_rules_total fuel : forall b, (length b <= fuel)%nat ->
  exists r, parse_rules fuel b = Some r /\ r <> Panic.
Proof.
  induction fuel as [|fuel IH]; intros [|c b] Hf; simpl in Hf; try lia; try (by give).
  cbn [parse_rules]. destruct (parse_rule (c :: b)) as [[r b']|e|] eqn:E; [|by give|].
  - apply parse_rule_shorter in E. simpl in E.
    destruct (IH b' ltac:(lia)) as (q & -> & Hq). destruct q; by give.
  - by apply parse_rule_no_panic in E.
Qed.

(** Printing a rule list the way the configuration writes it. *)
Definition print_rule (r : rule) : bytes :=
  format_uint (threshold r) ++ typ r :: format_uint (val r).
Fixpoint print_rules (rs : list rule) : bytes :=
  match rs with
  | [] => []
  | [r] => print_rule r
  | r :: rs => print_rule r ++ 59 :: print_rules rs
  end.

Definition wf_rule (r : rule) : Prop :=
  0 <= threshold r < 2 ^ 63 /\ 0 <= val r < 2 ^ 63 /\ (typ r = 45 \/ typ r = 61).

Lemma scan_digits_app ds r :
  forallb is_digit ds = true -> match r with c :: _ => is_digit c = false | [] => True end ->
  scan_digits (ds ++ r) = (ds, r).
Proof.
  induction ds as [|c ds IH]; simpl; intros H Hr.
  - destruct r as [|c r]; [done|]. simpl. by rewrite Hr.
  - apply andb_prop in H as [Hc H]. by rewrite Hc, (IH H Hr).
Qed.

Lemma parse_int_small ds : forallb is_digit ds = true -> 0 <= dec_value ds < 2 ^ 63 ->
  parse_int ds = dec_value ds.
Proof.
  induction ds as [|c ds IH] using rev_ind; [done|].
  rewrite forallb_app, dec_value_snoc. intros [Hd Hc]%andb_prop Hv.
  unfold parse_int in *. rewrite fold_left_app. simpl in *. rewrite andb_true_r in Hc.
  unfold is_digit in Hc.
  assert (0 <= dec_value ds) as Hp.
  { clear -Hd. induction ds as [|c ds IH] using rev_ind; [done|].
    rewrite forallb_app in Hd. apply andb_prop in Hd as [H1 H2]. simpl in H2.
    unfold is_digit in H2. rewrite dec_value_snoc. specialize (IH H1). lia. }
  rewrite IH by (done || lia). apply i64_small. lia.
Qed.

Lemma parse_format n : 0 <= n < 2 ^ 63 -> parse_int (format_uint n) = n.
Proof.
  intros H. destruct (format_uint_spec n) as (E1 & E2 & _); [lia|].
  rewrite parse_int_small; rewrite ?E1; done || lia.
Qed.

Lemma parse_rule_print r rest :
  wf_rule r -> match rest with [] => True | c :: _ => c = 59 end ->
  parse_rule (print_rule r ++ rest) = Ret (r, drop 1 rest).
Proof.
  intros (Ht & Hv & Hty) Hrest. destruct r as [t ty v]. unfold print_rule in *.
  cbn [threshold typ val] in *.
  destruct (format_uint_spec t) as (_ & Dt & Nt); [lia|].
  destruct (format_uint_spec v) as (_ & Dv & Nv); [lia|].
  rewrite <- app_assoc. cbn [app]. unfold parse_rule.
  rewrite scan_digits_app by (done || (destruct Hty as [->| ->]; done)).
  rewrite bool_decide_eq_false_2 by done.
  assert (negb (ty =? 45) && negb (ty =? 61) = false) as -> by lia.
  rewrite scan_digits_app by (done || (destruct rest as [|c rest]; [done|by subst])).
  rewrite bool_decide_eq_false_2 by done. rewrite !parse_format by done.
  destruct rest as [|c rest]; [done|by subst].
Qed.

Lemma parse_rules_print rs : forall fuel, Forall wf_rule rs -> (length (print_rules rs) <= fuel)%nat ->
  parse_rules fuel (print_rules rs) = Some (Ret rs).
Proof.
  induction rs as [|r rs IH]; intros fuel Hwf Hf; [by destruct fuel|].
  inversion_clear Hwf as [|?? Hr Hrs].
  assert (print_rules (r :: rs) = print_rule r ++ match rs with [] => [] | _ => 59 :: print_rules rs end)
    as E by (destruct rs; [by rewrite app_nil_r|done]).
  rewrite E in *. destruct (print_rule r ++ _) as [|c b] eqn:Eb.
  { apply app_nil in Eb as [Eb _]. unfold print_rule in Eb. by apply app_nil in Eb as [_ ?]. }
  destruct fuel as [|fuel]; [simpl in Hf; lia|]. cbn [parse_rules]. rewrite <- Eb.
  rewrite parse_rule_print by (done || by destruct rs).
  replace (drop 1 match rs with [] => [] | _ => 59 :: print_rules rs end) with (print_rules rs)
    by (by destruct rs).
  rewrite IH; [done|done|].
  apply (f_equal length) in Eb. rewrite length_app in Eb. simpl in Hf, Eb.
  destruct rs; simpl in *; lia.
Qed.

(** ** Evaluating *)

(** The first rule of a list with non-increasing thresholds that applies is one
    with the largest threshold not above the TTL. *)
Lemma calc_rules_spec rs ttl :
  StronglySorted (fun a b => threshold b <= threshold a) rs ->
  match calc_rules rs ttl with
  | Ret v => exists r, r ∈ rs /\ threshold r <= ttl /\
      v = (if typ r =? 45 then i64 (ttl - val r) else val r) /\
      forall r', r' ∈ rs -> threshold r' <= ttl -> threshold r' <= threshold r
  | Err e => e = "no matching TTL rule"%string /\ forall r, r ∈ rs -> ttl < threshold r
  | Panic => False
  end.
Proof.
  induction 1 as [|r rs Hs IH Hf]; simpl; [split; [done|by intros ? ?%not_elem_of_nil]|].
  destruct (Z.leb_spec (threshold r) ttl).
  - assert (forall r', r' ∈ r :: rs -> threshold r' <= ttl -> threshold r' <= threshold r) as Hmax.
    { intros r' [->|Hr']%elem_of_cons _; [lia|]. by apply (proj1 (Forall_forall _ _) Hf). }
    destruct (typ r =? 45) eqn:E; exists r; rewrite E; (split_and!; [by left|done|done|done]).
  - destruct (calc_rules rs ttl) as [v|e|]; [|split; [by apply IH|]|done].
    + destruct IH as (r' & Hin & Ht & Hv & Hm). exists r'. split_and!; [by right|done|done|].
      intros q [->|Hq]%elem_of_cons Hle; [lia|auto].
    + intros q [->|Hq]%elem_of_cons; [done|by apply IH].
Qed.

(** ** The search *)

Section search_facts.
Context (dial : Z -> nat -> dialres) (attempts : nat) (reach : Z -> bool).

(** Every probe of the interval is answered: it connects or it times out. *)
Definition answers (low high : Z) : Prop :=
  forall t, low <= t <= high -> try_ttl dial attempts 0 t = Ret (reach t).

Definition monotone (low high : Z) : Prop :=
  forall a b, low <= a -> a <= b -> b <= high -> reach a = true -> reach b = true.

(** [fuel] rounds are enough for an interval of less than [2^fuel] values. *)
Lemma search_minimal fuel : forall low high found,
  1 <= low -> answers low high -> monotone low high -> high - low + 1 < 2 ^ Z.of_nat fuel ->
  exists r, search dial fuel attempts low high found = Some (Ret r) /\
    ((r = found /\ forall t, low <= t <= high -> reach t = false) \/
     (low <= r <= high /\ reach r = true /\ forall t, low <= t < r -> reach t = false)).
Proof.
  induction fuel as [|fuel IH]; intros low high found Hl Ha Hm Hf.
  - simpl in Hf. unfold search. destruct (Z.leb_spec low high); [lia|].
    eexists; split; [done|]. left. split; [done|lia].
  - cbn [search]. destruct (Z.leb_spec low high); cbn [negb].
    2: { eexists; split; [done|]. left. split; [done|lia]. }
    rewrite Z.quot_div_nonneg by lia. set (mid := (low + high) / 2).
    assert (low <= mid <= high /\ 2 * mid <= low + high < 2 * mid + 2) as [Hmid Hm2].
    { pose proof (Z.div_mod (low + high) 2). pose proof (Z.mod_pos_bound (low + high) 2).
      unfold mid. lia. }
    rewrite Nat2Z.inj_succ, Z.pow_succ_r in Hf by lia.
    rewrite (Ha mid Hmid). destruct (reach mid) eqn:Er.
    + destruct (IH low (mid - 1) mid) as (r & -> & Hr); [lia| | |lia|].
      { intros t Ht. apply Ha. lia. }
      { intros a b ????. apply (Hm a b); lia || done. }
      eexists; split; [done|]. right. destruct Hr as [[-> Hno]|(H1 & H2 & H3)].
      * split; [lia|]. split; [done|]. intros t Ht. apply Hno. lia.
      * split; [lia|done].
    + destruct (IH (mid + 1) high found) as (r & -> & Hr); [lia| | |lia|].
      { intros t Ht. apply Ha. lia. }
      { intros a b ????. apply (Hm a b); lia || done. }
      assert (forall t, low <= t <= mid -> reach t = false) as Hlow.
      { intros t Ht. destruct (reach t) eqn:Et; [|done].
        rewrite (Hm t mid) in Er; [done|lia..|done]. }
      eexists; split; [done|]. destruct Hr as [[-> Hno]|(H1 & H2 & H3)].
      * left. split; [done|]. intros t Ht.
        destruct (Z.le_gt_cases t mid); [apply Hlow; lia|apply Hno; lia].
      * right. split; [lia|]. split; [done|]. intros t Ht.
        destruct (Z.le_gt_cases t mid); [apply Hlow; lia|apply H3; lia].
Qed.

(** Without any assumption on the order of the answers, what is found was
    reached. *)
Lemma search_sound fuel : forall low high found r,
  1 <= low -> search dial fuel attempts low high found = Some (Ret r) ->
  r = found \/ (low <= r <= high /\ try_ttl dial attempts 0 r = Ret true).
Proof.
  induction fuel as [|fuel IH]; intros low high found r Hl; cbn [search];
    destruct (Z.leb_spec low high); cbn [negb]; try (intros [= <-]; by left).
  rewrite Z.quot_div_nonneg by lia. set (mid := (low + high) / 2).
  assert (low <= mid <= high) as Hmid.
  { pose proof (Z.div_mod (low + high) 2). pose proof (Z.mod_pos_bound (low + high) 2).
    unfold mid. lia. }
  destruct (try_ttl dial attempts 0 mid) as [[]|e|] eqn:Et; try done; intros Hs.
  - right. destruct (IH _ _ _ _ Hl Hs) as [->|[? ?]]; split; done || lia.
  - destruct (IH (mid + 1) _ _ _ ltac:(lia) Hs) as [->|[? ?]]; [by left|].
    right. split; [lia|done].
Qed.
End search_facts.

Lemma pow2_gt n : (0 <= n)%Z -> n < 2 ^ Z.of_nat (Z.to_nat n).
Proof. intros H. rewrite Z2Nat.id by done. apply Z.pow_gt_lin_r; lia. Qed.

Lemma print_rules_ok rs : Forall wf_rule rs -> bytes_ok (print_rules rs).
Proof.
  assert (forall r, wf_rule r -> bytes_ok (print_rule r)) as Hr.
  { intros r (H1 & H2 & H3). apply Forall_app_2; [|constructor].
    - apply digits_bytes_ok, format_uint_spec. lia.
    - unfold is_byte. lia.
    - apply digits_bytes_ok, format_uint_spec. lia. }
  induction 1 as [|r rs H Hrs IH]; [constructor|]. destruct rs as [|r' rs]; [by apply Hr|].
  apply Forall_app_2; [by apply Hr|]. constructor; [unfold is_byte; lia|done].
Qed.

Lemma print_rules_nonnil rs : print_rules rs = [] -> rs = [].
Proof.
  destruct rs as [|r [|r' rs]]; [done|..]; intros E; exfalso.
  - unfold print_rules, print_rule in E. by apply app_nil in E as [_ ?].
  - by apply app_nil in E as [_ ?].
Qed.

(** ** Claims *)

(** C4: parsing a printed rule list gives those rules back, reordered so that the
    thresholds do not increase; applying the loaded closure to a TTL then uses a
    rule with the largest threshold not above it, and fails exactly when every
    threshold is above it. *)
Theorem ttl_rules_roundtrip {S : SortSlice} rs ttl :
  rs <> [] -> Forall wf_rule rs ->
  exists rs', loadTTLRules (string_of_bytes (print_rules rs)) = Ret (CalcRules rs') /\
    Permutation rs rs' /\
    match run_calc (CalcRules rs') ttl with
    | Ret v => exists r, r ∈ rs /\ threshold r <= ttl /\
        v = (if typ r =? 45 then i64 (ttl - val r) else val r) /\
        forall r', r' ∈ rs -> threshold r' <= ttl -> threshold r' <= threshold r
    | Err e => e = "no matching TTL rule"%string /\ forall r, r ∈ rs -> ttl < threshold r
    | Panic => False
    end.
Proof.
  intros Hne Hwf. exists (sort_slice rs). pose proof (sort_slice_perm rs) as Hp.
  split; [|split; [done|]].
  - unfold loadTTLRules, parseTTLRules.
    assert (bytes_ok (print_rules rs)) as Hok by (by apply print_rules_ok).
    rewrite bytes_of_string_of_bytes by done. rewrite parse_rules_print by done.
    destruct (print_rules rs) as [|c b] eqn:E; [by apply print_rules_nonnil in E|].
    cbn [string_of_bytes String.length Nat.eqb go_bind].
    rewrite bool_decide_eq_false_2; [done|]. intros E'. rewrite E' in Hp.
    by apply Permutation_nil_r in Hp.
  - pose proof (calc_rules_spec _ ttl (sort_slice_sorted rs)) as H. simpl.
    destruct (calc_rules (sort_slice rs) ttl) as [v|e|]; [|split; [apply H|]|done].
    + destruct H as (r & Hin & Ht & Hv & Hm). exists r. rewrite Hp. split_and!; try done.
      intros r' Hr'. apply Hm. by rewrite <- Hp.
    + intros r Hr. apply H. by rewrite <- Hp.
Qed.

(** Insertion sort, as an instance of what [sort.Slice] promises. *)
Fixpoint insert_rule (r : rule) (l : list rule) : list rule :=
  match l with
  | [] => [r]
  | x :: l => if threshold r <=? threshold x then x :: insert_rule r l else r :: x :: l
  end.
Definition isort (l : list rule) : list rule := fold_right insert_rule [] l.

Lemma insert_rule_perm r l : Permutation (r :: l) (insert_rule r l).
Proof.
  induction l as [|x l IH]; simpl; [done|]. destruct (threshold r <=? threshold x); [|done].
  rewrite <- IH. apply Permutation_swap.
Qed.

Lemma insert_rule_sorted r l :
  StronglySorted (fun a b => threshold b <= threshold a) l ->
  StronglySorted (fun a b => threshold b <= threshold a) (insert_rule r l).
Proof.
  induction 1 as [|x l Hs IH Hf]; simpl; [by repeat constructor|].
  destruct (Z.leb_spec (threshold r) (threshold x)).
  - constructor; [done|]. rewrite <- insert_rule_perm. by constructor.
  - constructor; [by constructor|]. constructor; [lia|].
    eapply Forall_impl; [exact Hf|]. simpl. lia.
Qed.

#[export] Instance isort_slice : SortSlice.
Proof.
  refine {| sort_slice := isort |}.
  - induction l as [|r l IH]; simpl; [done|]. rewrite <- insert_rule_perm. by constructor.
  - induction l as [|r l IH]; simpl; [constructor|]. by apply insert_rule_sorted.
Defined.

Lemma ttl_rules_roundtrip_witness :
  exists rs', loadTTLRules "3-1;10=5" = Ret (CalcRules rs') /\
    Permutation [mkRule 3 45 1; mkRule 10 61 5] rs'.
Proof.
  destruct (ttl_rules_roundtrip [mkRule 3 45 1; mkRule 10 61 5] 8) as (rs' & E & P & _);
    [discriminate|repeat constructor; unfold wf_rule; simpl; lia|].
  exists rs'. split; [exact E|exact P].
Defined.

(** [loadTTLRules] never installs the plain-integer closure: a configuration
    that is accepted always yields a non-empty rule list, and one made of digits
    only, which that closure is for, is rejected. *)
Theorem loadTTLRules_no_integer_form {S : SortSlice} conf :
  (forall c, loadTTLRules conf = Ret c -> exists r rs, c = CalcRules (r :: rs)) /\
  loadTTLRules conf <> Panic /\
  (conf <> "" -> forallb is_digit (bytes_of_string conf) = true ->
   loadTTLRules conf = Err "invalid rule: missing operator").
Proof.
  unfold loadTTLRules, parseTTLRules.
  destruct conf as [|c0 conf]; [split_and!; done|].
  set (b := bytes_of_string (String c0 conf)). cbn [String.length Nat.eqb].
  destruct (parse_rules_total (length b) b) as (r & E & Hnp); [done|]. rewrite E.
  split_and!.
  - intros c. destruct r as [rs|e|]; [|done..]. cbn [go_bind]. intros [= <-].
    assert (rs <> []) as Hrs.
    { intros ->. unfold b in E. cbn [bytes_of_string length parse_rules] in E.
      repeat case_match; simplify_eq. }
    pose proof (sort_slice_perm rs) as Hp. destruct (sort_slice rs) as [|r' rs'].
    { by apply Permutation_nil_r in Hp. }
    exists r', rs'. by rewrite bool_decide_eq_false_2.
  - by destruct r.
  - intros _ Hd. revert E. unfold b in *. cbn [bytes_of_string length parse_rules].
    unfold parse_rule. rewrite <- (app_nil_r (char_byte c0 :: bytes_of_string conf)).
    rewrite scan_digits_app by done. rewrite bool_decide_eq_false_2 by done.
    by intros [= <-].
Qed.

Lemma loadTTLRules_no_integer_form_witness :
  loadTTLRules "8" = Err "invalid rule: missing operator".
Proof. apply (loadTTLRules_no_integer_form "8"); [discriminate|reflexivity]. Defined.

(** C5: when every TTL from 1 to [maxTTL] is answered and reachability is
    monotone in the TTL, the binary search ends after at most
    [1 + log2 maxTTL] probed values, without error, with the smallest reachable
    TTL, or with -1 when there is none. *)
Theorem detect_minimal dial maxTTL attempts reach :
  1 <= maxTTL -> answers dial (Z.to_nat attempts) reach 1 maxTTL -> monotone reach 1 maxTTL ->
  exists r, detectMinimalReachableTTL dial maxTTL attempts = Ret r /\
    search dial (S (Z.to_nat (Z.log2 maxTTL))) (Z.to_nat attempts) 1 maxTTL (-1) = Some (Ret r) /\
    ((r = -1 /\ forall t, 1 <= t <= maxTTL -> reach t = false) \/
     (1 <= r <= maxTTL /\ reach r = true /\ forall t, 1 <= t < r -> reach t = false)).
Proof.
  intros Hm Ha Hmo. unfold detectMinimalReachableTTL.
  destruct (search_minimal dial (Z.to_nat attempts) reach (Z.to_nat maxTTL) 1 maxTTL (-1))
    as (r & -> & Hr); [lia|done..|pose proof (pow2_gt maxTTL); lia|].
  destruct (search_minimal dial (Z.to_nat attempts) reach (S (Z.to_nat (Z.log2 maxTTL))) 1 maxTTL (-1))
    as (r' & -> & Hr'); [lia|done..| |].
  { rewrite Nat2Z.inj_succ, Z2Nat.id by apply Z.log2_nonneg.
    pose proof (Z.log2_spec maxTTL). lia. }
  exists r. split; [done|]. split; [|done]. do 2 f_equal.
  destruct Hr as [[-> H1]|(H1 & H2 & H3)], Hr' as [[-> G1]|(G1 & G2 & G3)].
  - done.
  - by rewrite H1 in G2 by lia.
  - by rewrite G1 in H2 by lia.
  - destruct (Z.lt_trichotomy r r') as [L|[->|L]]; [|done|].
    + by rewrite G3 in H2 by lia.
    + by rewrite H3 in G2 by lia.
Qed.

(** A host seven hops away: smaller TTLs time out. *)
Definition hop7 (ttl : Z) (_ : nat) : dialres := if 7 <=? ttl then DialOK else DialTimeout.

Lemma detect_minimal_witness :
  exists r, detectMinimalReachableTTL hop7 30 2 = Ret r /\
    search hop7 5 2 1 30 (-1) = Some (Ret r).
Proof.
  destruct (detect_minimal hop7 30 2 (fun t => 7 <=? t)) as (r & E & Es & _); [lia|..].
  - intros t Ht. change (Z.to_nat 2) with 2%nat. cbn [try_ttl]. unfold hop7.
    destruct (7 <=? t); reflexivity.
  - intros a b. lia.
  - exists r. split; [exact E|exact Es].
Defined.

(** the desync split is lossless and the fake segment has the length of the
    real one.  When the cut is at a dot the fake segment is the packet up to the
    server name followed by zeros, so none of the name is sent with the fake TTL;
    without a dot it is the real data itself.  The noise sleep is at least
    100 ms. *)
Theorem desync_split_correct pkt pos len fs :
  0 <= pos -> 0 <= len -> pos + len < zlen pkt ->
  exists p cut found, desync_split pkt pos len fs = Ret p /\
    ClientHello.findLastDot pkt pos len = Ret (cut, found) /\
    realData p ++ remaining p = pkt /\
    zlen (realData p) = cut /\ zlen (fakeData p) = cut /\ minInterval <= noiseSleep p /\
    fakeData p = (if found then take (Z.to_nat pos) pkt ++ replicate (Z.to_nat (cut - pos)) 0
                  else realData p).
Proof.
  intros Hp Hl Hlen. unfold desync_split.
  destruct (ClientHello.findLastDot_total pkt pos len) as (cut & found & -> & Hc & _); [lia..|].
  assert (slice_to pkt cut = Ret (take (Z.to_nat cut) pkt)) as Er.
  { unfold slice_to. rewrite slice_in_range by lia. change (Z.to_nat 0) with 0%nat.
    by rewrite drop_0, Z.sub_0_r. }
  assert (slice_from pkt cut = Ret (drop (Z.to_nat cut) pkt)) as Es.
  { unfold slice_from. rewrite slice_in_range by lia. f_equal. apply take_ge.
    rewrite length_drop. unfold zlen. lia. }
  set (fk := take (Z.to_nat pos) pkt ++ replicate (Z.to_nat (cut - pos)) 0).
  set (sl := if fs <? minInterval then minInterval else fs).
  assert (minInterval <= sl) by (unfold sl; case_match; lia).
  exists (mkPlan (if found then fk else take (Z.to_nat cut) pkt) (take (Z.to_nat cut) pkt)
            (drop (Z.to_nat cut) pkt) sl), cut, found.
  cbn [fakeData realData remaining noiseSleep].
  split_and!; [|done|apply take_drop|unfold zlen in *; rewrite length_take; lia| |done|done].
  - cbn [go_bind]. rewrite Er, Es. destruct found; [|done].
    destruct (Z.ltb_spec cut 0); [lia|]. unfold slice_to. rewrite slice_in_range by lia.
    cbn [go_bind]. do 2 f_equal. change (Z.to_nat 0) with 0%nat. rewrite drop_0, Z.sub_0_r.
    rewrite take_app_ge by (rewrite length_take; unfold zlen in *; lia).
    unfold fk. f_equal. rewrite take_replicate. f_equal. rewrite length_take. unfold zlen in *. lia.
  - unfold zlen in *. destruct found; unfold fk; rewrite ?length_app, ?length_replicate, length_take; lia.
Qed.

Lemma desync_split_correct_witness :
  exists p, desync_split [1; 2; 97; 46; 98; 9] 2 3 0 = Ret p /\
    realData p ++ remaining p = [1; 2; 97; 46; 98; 9].
Proof.
  destruct (desync_split_correct [1; 2; 97; 46; 98; 9] 2 3 0) as (p & c & f & E & _ & H & _);
    [lia|lia|reflexivity|].
  exists p. split; [exact E|exact H].
Defined.

End Desync.
