(* ===== verification/Bridge.v ===== *)
(** * The TUN bridge (src/internal/tun_bridge.go)

    [policyConn] wraps the connection to a target and holds back the first bytes
    the application writes until it knows what to do with them.  Its state is the
    record below, the trace of the wrapped connection and the TTL cache; the mutex
    makes each Write one step. *)

From S2P Require Import Prelude GoStrings Conn NetIP FakeIP AddrTrie Policy Route IPPool Core Dns Plan.
From S2P Require Import GoState ClientHello Fragment Desync.

Module Bridge.
Import AddrTrie Policy Route Plan.

(** tun_bridge.go: [type policyConn], the fields that change. *)
Record policyConn := mkPC { handled : bool; closed : bool; pending : bytes }.

Record bridge := mkBridge { pc : policyConn; wire : list event; ttls : Desync.ttl_state }.

(** WrapTCPConn on a fresh connection. *)
Definition WrapTCPConn (t : Desync.ttl_state) : bridge := mkBridge (mkPC false false []) [] t.

Definition B : Type -> Type := St bridge.

Definition get : B policyConn := fun s => (Ret (pc s), s).
Definition update (f : policyConn -> policyConn) : B unit := fun s =>
  (Ret tt, mkBridge (f (pc s)) (wire s) (ttls s)).
Definition set_handled (c : policyConn) : policyConn := mkPC true (closed c) (pending c).
Definition set_closed (b : bool) (c : policyConn) : policyConn := mkPC (handled c) b (pending c).
Definition set_pending (p : bytes) (c : policyConn) : policyConn := mkPC (handled c) (closed c) p.

(** [_, err := m]: a send on the wrapped connection, with its error as a value. *)
Definition sending {A} (m : net A) : B (option string) := fun s =>
  let (r, tr) := m (wire s) in
  let s := mkBridge (pc s) tr (ttls s) in
  match r with
  | Ret _ => (Ret None, s)
  | Err e => (Ret (Some e), s)
  | Panic => (Panic, s)
  end.

Definition tlsAlertLevelFatal : Z := 2.
Definition tlsAlertAccessDenied : Z := 70.
Definition tlsAlertProtocolVersion : Z := 49.

Definition plain_err (e : string) : string := e.

Section bridge.
Context {env : Env} (dial : string -> Z -> nat -> Desync.dialres) (cfg : config) (plan : DialPlan).

(** desync_linux.go: desyncSend.  sendWithNoise shows the fake data to hops within the
    fake TTL and, after the sleep, lets the kernel retransmit the same range with
    the real data: the peer receives the real data. *)
Definition desyncSend (firstPacket : bytes) (sniPos sniLen fakeTTL fakeSleep : Z) : net unit :=
  do! p := nlift (Desync.desync_split firstPacket sniPos sniLen fakeSleep) in
  sleep (Desync.noiseSleep p) ;!
  write (wrap "send data with noise") (Desync.realData p) ;!
  write (wrap "send remaining data") (Desync.remaining p).

(** tunnel.go: sendTLSAlert; a failing write is only logged. *)
Definition tls_alert (prtVer : option bytes) (desc level : Z) : go bytes :=
  let! a := idx (default [] prtVer) 0 in
  let! b := idx (default [] prtVer) 1 in
  Ret [0x15; a; b; 0x00; 0x02; level; desc].
Definition sendTLSAlert (prtVer : option bytes) (desc level : Z) : B unit :=
  alert <~ stlift (tls_alert prtVer desc level) ;
  sending (write plain_err alert) ~; stret tt.

(** [_ = c.Conn.Close()]. *)
Definition closeConn : B unit := sending (perform plain_err EvClose) ~; stret tt.

Definition flushPendingLocked : B (option string) :=
  c <~ get ;
  if zlen (pending c) =? 0 then update set_handled ~; stret None
  else
    err <~ sending (write plain_err (pending c)) ;
    match err with
    | Some e => stret (Some e)
    | None => update set_handled ~; update (set_pending []) ~; stret None
    end.

(** The policy of the server name: [Some] if a rule blocks it. *)
Definition sni_block (sniStr : string) : go (option Mode) :=
  match domainMatcher (routes cfg) with
  | None => Panic
  | Some m =>
    Ret (dp ← Find m sniStr;
         let mode := pMode (mergePolicies [dp; defaultPolicy cfg]) in
         if bool_decide (mode = ModeBlock \/ mode = ModeTLSAlert) then Some mode else None)
  end.

(** getFakeTTL on the package's TTL state. *)
Definition fake_ttl (p : Policy) (addr : string) : B (Z + string) := fun s =>
  let (r, t) := Desync.getFakeTTL dial (ttls s) (FakeTTL p) (MaxTTL p) (Attempts p) addr in
  let s := mkBridge (pc s) (wire s) t in
  match r with
  | Ret ttl => (Ret (inl ttl), s)
  | Err e => (Ret (inr e), s)
  | Panic => (Panic, s)
  end.

(** The final switch of handleTLSLocked. *)
Definition forward_record (record : bytes) (sniPos sniLen : Z) : B (option string) :=
  let p := plPolicy plan in
  match pMode p with
  | ModeTLSRF =>
    sending (Fragment.sendRecords record sniPos sniLen (NumRecords p) (NumSegments p)
      (bool_decide (OOB p = BoolTrue)) (bool_decide (OOBEx p = BoolTrue))
      (bool_decide (ModMinorVer p = BoolTrue)) (SendInterval p))
  | ModeTTLD =>
    ttl <~ (if (FakeTTL p =? 0) || (FakeTTL p =? unsetInt) then fake_ttl p (TargetHost plan)
            else stret (inl (FakeTTL p))) ;
    match ttl with
    | inr e => stret (Some e)
    | inl ttl => sending (desyncSend record sniPos sniLen ttl (FakeSleep p))
    end
  | _ => sending (write plain_err record)
  end.

Definition handleTLSLocked (record : bytes) : B (option string) :=
  h <~ stlift (ClientHello.parseClientHello record) ;
  match ClientHello.herr h with
  | Some _ => flushPendingLocked
  | None =>
    let p := plPolicy plan in
    if decide (pMode p = ModeTLSAlert) then
      update (set_closed true) ~;
      sendTLSAlert (ClientHello.prtVer h) tlsAlertAccessDenied tlsAlertLevelFatal ~;
      closeConn ~; stret (Some "EOF"%string)
    else if decide (TLS13Only p = BoolTrue /\ ClientHello.hasKeyShare h = false) then
      update (set_closed true) ~;
      sendTLSAlert (ClientHello.prtVer h) tlsAlertProtocolVersion tlsAlertLevelFatal ~;
      closeConn ~; stret (Some "EOF"%string)
    else
      let sniPos := ClientHello.sniPos h in
      let sniLen := ClientHello.sniLen h in
      verdict <~ (if (0 <? sniPos) && (0 <? sniLen) then
                    sniStr <~ stlift (slice record sniPos (sniPos + sniLen)) ;
                    stlift (sni_block (string_of_bytes sniStr))
                  else stret None) ;
      match verdict with
      | Some mode =>
        update (set_closed true) ~;
        (if decide (mode = ModeTLSAlert)
         then sendTLSAlert (ClientHello.prtVer h) tlsAlertAccessDenied tlsAlertLevelFatal
         else stret tt) ~;
        closeConn ~; stret (Some "EOF"%string)
      | None => forward_record record sniPos sniLen
      end
  end.

Definition isSome {A} (o : option A) : bool := match o with Some _ => true | None => false end.

(** The TLS branch of tryHandlePendingLocked, once the record is complete. *)
Definition handle_record (record tail : bytes) : B bool :=
  err <~ handleTLSLocked record ;
  match err with
  | Some _ => update (set_closed true) ~; stret true
  | None =>
    update set_handled ~;
    update (set_pending []) ~;
    (if 0 <? zlen tail then
       err <~ sending (write plain_err tail) ;
       if isSome err then update (set_closed true) else stret tt
     else stret tt) ~;
    stret true
  end.

(** [err := c.flushPendingLocked(); c.closed = err != nil; return true]. *)
Definition flush_all : B bool :=
  err <~ flushPendingLocked ;
  update (set_closed (isSome err)) ~; stret true.

Definition tryHandlePendingLocked : B bool :=
  c <~ get ;
  if zlen (pending c) =? 0 then stret false
  else if Blocked plan || bool_decide (pMode (plPolicy plan) = ModeBlock) then
    update (set_closed true) ~; closeConn ~; stret true
  else if decide (pMode (plPolicy plan) = ModeRaw) then flush_all
  else if zlen (pending c) <? 5 then stret false
  else
    b0 <~ stlift (idx (pending c) 0) ;
    b1 <~ stlift (idx (pending c) 1) ;
    if (b0 =? 0x16) && (b1 =? 0x03) then
      len <~ stlift (be16_at (pending c) 3) ;
      let recordLen := 5 + len in
      if zlen (pending c) <? recordLen then stret false
      else
        record <~ stlift (slice_to (pending c) recordLen) ;
        tail <~ stlift (slice_from (pending c) recordLen) ;
        handle_record record tail
    else update set_handled ~; flush_all.

Definition Write (b : bytes) : B Z :=
  c <~ get ;
  if closed c then stlift (Err "EOF")
  else if handled c then
    err <~ sending (write plain_err b) ;
    match err with Some e => stlift (Err e) | None => stret (zlen b) end
  else
    update (set_pending (pending c ++ b)) ~;
    tryHandlePendingLocked ~;
    stret (zlen b).
End bridge.

(** DefaultDialTimeout. *)
Definition DefaultDialTimeout (p : Policy) : Z :=
  if 0 <? ConnectTimeout p then ConnectTimeout p else 10 * FakeIP.second.

(** ** The first record of what was written *)

Definition first_record (p : bytes) : option bytes :=
  match p with
  | 22 :: 3 :: _ :: a :: b :: _ =>
    if 5 + be16 a b <=? zlen p then Some (take (Z.to_nat (5 + be16 a b)) p) else None
  | _ => None
  end.

Definition tls_start (p : bytes) : bool :=
  match p with b0 :: b1 :: _ => (b0 =? 22) && (b1 =? 3) | _ => false end.

Lemma first_record_cons p r : first_record p = Some r ->
  exists v a b q, p = 22 :: 3 :: v :: a :: b :: q /\ 5 + be16 a b <= zlen p /\
    r = take (Z.to_nat (5 + be16 a b)) p.
Proof.
  unfold first_record. intros H. repeat case_match; try done; subst; simplify_eq.
  eexists _, _, _, _. split; [done|]. split; [by apply Z.leb_le|done].
Qed.

Lemma first_record_app p q r : bytes_ok p -> first_record p = Some r ->
  first_record (p ++ q) = Some r /\ exists t, p = r ++ t.
Proof.
  intros Ho H. apply first_record_cons in H as (v & a & b & q0 & -> & Hl & ->).
  assert (0 <= be16 a b) as Hb.
  { unfold be16. pose proof (Forall_lookup_1 _ _ 3 a Ho eq_refl) as Ha.
    pose proof (Forall_lookup_1 _ _ 4 b Ho eq_refl) as Hbb. unfold is_byte in *. lia. }
  split.
  - unfold first_record. cbn [app]. rewrite (proj2 (Z.leb_le _ _)) by (rewrite !zlen_cons, zlen_app in *; pose proof (zlen_nonneg q); lia).
    f_equal. change (22 :: 3 :: v :: a :: b :: q0 ++ q) with ((22 :: 3 :: v :: a :: b :: q0) ++ q).
    rewrite take_app_le; [done|]. unfold zlen in Hl. lia.
  - eexists. symmetry. apply take_drop.
Qed.

Lemma first_record_length p r : bytes_ok p -> first_record p = Some r -> 5 <= zlen r /\ zlen r <= zlen p.
Proof.
  intros Ho H. apply first_record_cons in H as (v & a & b & q0 & -> & Hl & ->).
  pose proof (Forall_lookup_1 _ _ 3 a Ho eq_refl) as Ha.
  pose proof (Forall_lookup_1 _ _ 4 b Ho eq_refl) as Hb. unfold is_byte, be16 in *.
  unfold zlen in *. rewrite length_take. lia.
Qed.

Section runs.
Context {env : Env} (dial : string -> Z -> nat -> Desync.dialres) (cfg : config) (plan : DialPlan).

Notation Write := (Write dial cfg plan).
Notation tryHandle := (tryHandlePendingLocked dial cfg plan).

(** tryHandlePendingLocked by the form of the pending bytes. *)
Lemma tryHandle_spec s : pending (pc s) <> [] -> bytes_ok (pending (pc s)) ->
  Blocked plan = false -> pMode (plPolicy plan) <> ModeBlock ->
  tryHandle s =
  if decide (pMode (plPolicy plan) = ModeRaw) then flush_all s
  else if zlen (pending (pc s)) <? 5 then (Ret false, s)
  else if tls_start (pending (pc s)) then
    match first_record (pending (pc s)) with
    | None => (Ret false, s)
    | Some r => handle_record dial cfg plan r (drop (length r) (pending (pc s))) s
    end
  else (update set_handled ~; flush_all) s.
Proof.
  intros Hne Ho Hb Hm. unfold tryHandlePendingLocked, stbind at 1, get. cbn [fst snd].
  destruct (Z.eqb_spec (zlen (pending (pc s))) 0) as [E|_].
  { destruct (pending (pc s)); [done|]. rewrite zlen_cons in E. pose proof (zlen_nonneg l). lia. }
  rewrite Hb, bool_decide_eq_false_2 by done. cbn [orb].
  destruct (decide _); [done|]. destruct (Z.ltb_spec (zlen (pending (pc s))) 5); [done|].
  destruct (pending (pc s)) as [|b0 [|b1 [|v [|a [|b q]]]]] eqn:EP; try (unfold zlen in *; simpl in *; lia).
  rewrite (idx_app _ [] (b1 :: v :: a :: b :: q) b0) by done.
  rewrite (idx_app _ [b0] (v :: a :: b :: q) b1) by done.
  unfold stlift, stbind. cbn [tls_start]. destruct ((b0 =? 22) && (b1 =? 3)) eqn:E; [|done].
  apply andb_prop in E as [->%Z.eqb_eq ->%Z.eqb_eq].
  assert (be16_at (22 :: 3 :: v :: a :: b :: q) 3 = Ret (be16 a b)) as ->.
  { unfold be16_at. rewrite (idx_app _ [22; 3; v] (b :: q) a) by done.
    by rewrite (idx_app _ [22; 3; v; a] q b) by done. }
  assert (0 <= be16 a b) as Hp.
  { unfold be16. pose proof (Forall_lookup_1 _ _ 3 a Ho eq_refl). pose proof (Forall_lookup_1 _ _ 4 b Ho eq_refl).
    unfold is_byte in *. lia. }
  cbn [first_record]. destruct (Z.ltb_spec (zlen (22 :: 3 :: v :: a :: b :: q)) (5 + be16 a b)).
  { by rewrite (proj2 (Z.leb_gt _ _)). }
  rewrite (proj2 (Z.leb_le _ _)) by done. unfold slice_to, slice_from.
  rewrite !slice_in_range by lia. rewrite Z.sub_0_r. change (Z.to_nat 0) with 0%nat. rewrite drop_0.
  rewrite length_take, Nat.min_l by (unfold zlen in *; lia).
  rewrite (take_ge (drop _ _)); [done|]. rewrite length_drop. unfold zlen. lia.
Qed.
End runs.


(** ** The stream the target sees *)

Section stream.
Context (dial : string -> Z -> nat -> Desync.dialres) (cfg : config) (plan : DialPlan).
#[local] Existing Instance reliable.

Notation Write := (Write (env := reliable) dial cfg plan).

(** Consecutive Write calls of the application, stopping at the first error. *)
Fixpoint writes (bs : list bytes) : B unit :=
  match bs with
  | [] => stret tt
  | b :: bs => Write b ~; writes bs
  end.

Lemma sending_write f b s : sending (write (env := reliable) f b) s =
  (Ret None, mkBridge (pc s) (wire s ++ [EvWrite b]) (ttls s)).
Proof. done. Qed.

(** A plan that forwards bytes unchanged and no rule that blocks a server name. *)
Record forwards : Prop := {
  fw_open : Blocked plan = false;
  fw_mode : pMode (plPolicy plan) = ModeRaw \/ pMode (plPolicy plan) = ModeDirect;
  fw_tls13 : TLS13Only (plPolicy plan) <> BoolTrue;
  fw_rules : exists m, domainMatcher (routes cfg) = Some m /\ forall name dp, Find m name = Some dp ->
    pMode (mergePolicies [dp; defaultPolicy cfg]) ∉ [ModeBlock; ModeTLSAlert]
}.

Lemma fw_sni name : forwards -> sni_block cfg name = Ret None.
Proof.
  intros [_ _ _ (m & Em & Hm)]. unfold sni_block. rewrite Em. destruct (Find m name) as [dp|] eqn:Ef; [|done].
  cbn. rewrite bool_decide_eq_false_2; [done|]. intros H. apply (Hm name dp Ef). rewrite !elem_of_cons. tauto.
Qed.

(** The first record, once complete, is a ClientHello the parser accepts. *)
Definition hello_first (p : bytes) : Prop :=
  forall r, first_record p = Some r ->
    exists h, ClientHello.parseClientHello r = Ret h /\ ClientHello.herr h = None.

(** What the bridge still waits for. *)
Definition incomplete (p : bytes) : Prop :=
  p = [] \/ (pMode (plPolicy plan) <> ModeRaw /\
    (zlen p < 5 \/ (tls_start p = true /\ first_record p = None))).

(** Everything written is on the wire or pending, once and in order. *)
Definition in_step (input : bytes) (s : bridge) : Prop :=
  closed (pc s) = false /\ existsb is_oob (wire s) = false /\
  delivered (wire s) ++ pending (pc s) = input /\
  if handled (pc s) then pending (pc s) = [] else wire s = [] /\ incomplete input.

Lemma handleTLS_forward r h s : forwards -> pMode (plPolicy plan) = ModeDirect -> bytes_ok r -> 5 <= zlen r ->
  ClientHello.parseClientHello r = Ret h -> ClientHello.herr h = None ->
  handleTLSLocked (env := reliable) dial cfg plan r s =
  (Ret None, mkBridge (pc s) (wire s ++ [EvWrite r]) (ttls s)).
Proof.
  intros F Hm Ho Hl E Hh. unfold handleTLSLocked, stbind at 1, stlift. rewrite E, Hh. cbv zeta.
  rewrite decide_False by congruence. rewrite decide_False by (pose proof (fw_tls13 F); naive_solver).
  destruct (ClientHello.parseClientHello_total r Ho Hl) as (h' & E' & Hin & _).
  rewrite E in E'. injection E' as <-.
  assert (forall s : bridge, (if (0 <? ClientHello.sniPos h) && (0 <? ClientHello.sniLen h)
    then sniStr <~ (fun s => (slice r (ClientHello.sniPos h) (ClientHello.sniPos h + ClientHello.sniLen h), s));
         (fun s => (sni_block cfg (string_of_bytes sniStr), s))
    else stret None) s = (Ret None, s)) as HV.
  { intros s0. destruct (_ && _) eqn:Ec; [|done].
    apply andb_prop in Ec as [?%Z.ltb_lt ?%Z.ltb_lt].
    destruct Hin as [[Hp _]|(? & ? & ?)]; [lia|]. unfold stbind. rewrite slice_in_range by lia.
    by rewrite (fw_sni _ F). }
  unfold stbind at 1. rewrite HV. unfold forward_record. by rewrite Hm.
Qed.

Lemma flush_step s : pending (pc s) <> [] ->
  flush_all (env := reliable) s =
  (Ret true, mkBridge (mkPC true false []) (wire s ++ [EvWrite (pending (pc s))]) (ttls s)).
Proof.
  intros H. unfold flush_all, flushPendingLocked, stbind, get, update, stret.
  destruct (Z.eqb_spec (zlen (pending (pc s))) 0) as [E|_].
  { destruct (pending (pc s)); [done|]. rewrite zlen_cons in E. pose proof (zlen_nonneg l). lia. }
  by rewrite sending_write.
Qed.

Lemma in_step_flushed input t : in_step input (mkBridge (mkPC true false []) [EvWrite input] t).
Proof. unfold in_step. simpl. by rewrite !app_nil_r. Qed.

Lemma write_step input s b : forwards -> in_step input s -> bytes_ok (input ++ b) ->
  hello_first (input ++ b) ->
  exists s', Write b s = (Ret (zlen b), s') /\ in_step (input ++ b) s'.
Proof.
  intros F (Hc & Ho & Hd & Hh) Hok HH. unfold Bridge.Write, stbind at 1, get. rewrite Hc.
  destruct (handled (pc s)) eqn:EH.
  - unfold stbind. rewrite sending_write. eexists. split; [done|]. unfold in_step. cbn [pc wire].
    rewrite EH, Hc, existsb_app, Ho, delivered_no_oob by done. simpl.
    rewrite Hh, !app_nil_r in *. split_and!; [done..| |done]. by rewrite Hd.
  - destruct Hh as [Hw _]. rewrite Hw in Hd. simpl in Hd. subst input.
    unfold stbind, update at 1. cbn [pc wire ttls].
    set (s1 := mkBridge (set_pending (pending (pc s) ++ b) (pc s)) (wire s) (ttls s)).
    destruct (decide (pending (pc s) ++ b = [])) as [E0|E0].
    { assert (tryHandlePendingLocked (env := reliable) dial cfg plan s1 = (Ret false, s1)) as ->.
      { unfold tryHandlePendingLocked, stbind at 1, get, s1. cbn [pc set_pending pending]. by rewrite E0. }
      eexists. split; [done|]. unfold in_step, s1. cbn [pc wire set_pending pending closed handled].
      rewrite Hc, EH, Hw, E0. split_and!; try done. by left. }
    assert (pMode (plPolicy plan) <> ModeBlock) as Hnb by (destruct (fw_mode F); congruence).
    rewrite tryHandle_spec by (done || apply F).
    change (pending (pc s1)) with (pending (pc s) ++ b).
    assert (wire s1 = []) as Hw1 by done. assert (closed (pc s1) = false) as Hc1 by done.
    assert (handled (pc s1) = false) as Hh1 by done.
    assert (pending (pc s1) = pending (pc s) ++ b) as HP by done. clearbody s1.
    destruct (decide (pMode (plPolicy plan) = ModeRaw)) as [Hr|Hr].
    { rewrite flush_step by by rewrite HP. eexists. split; [done|]. rewrite Hw1, HP. apply in_step_flushed. }
    assert (pMode (plPolicy plan) = ModeDirect) as Hdir by by destruct (fw_mode F).
    assert (forall s', s' = s1 -> incomplete (pending (pc s) ++ b) -> in_step (pending (pc s) ++ b) s') as Hkeep.
    { intros s' -> Hi. unfold in_step. rewrite Hw1, Hc1, Hh1, HP. done. }
    destruct (Z.ltb_spec (zlen (pending (pc s) ++ b)) 5).
    { eexists. split; [done|]. apply Hkeep; [done|]. right. auto. }
    destruct (tls_start (pending (pc s) ++ b)) eqn:ET.
    + destruct (first_record (pending (pc s) ++ b)) as [r|] eqn:ER.
      2:{ eexists. split; [done|]. apply Hkeep; [done|]. right. auto. }
      destruct (HH r ER) as (h & Eh & Herr).
      destruct (first_record_length _ _ Hok ER) as [Hl _].
      destruct (first_record_app _ [] _ Hok ER) as (_ & t & Et).
      assert (bytes_ok r) as Hokr by (rewrite Et in Hok; by apply Forall_app in Hok as [? _]).
      unfold handle_record, stbind, update. rewrite (handleTLS_forward r h) by done. cbn [pc wire ttls].
      rewrite Et, drop_app_length.
      destruct (Z.ltb_spec 0 (zlen t)) as [Hlt|Hlt].
      * rewrite sending_write. eexists. split; [done|]. unfold in_step. cbn. rewrite Hw1, Hc1. cbn.
        by rewrite !app_nil_r.
      * assert (t = []) as -> by (destruct t; [done|rewrite zlen_cons in Hlt; pose proof (zlen_nonneg t); lia]).
        eexists. split; [done|]. unfold in_step. cbn. rewrite Hw1, Hc1. cbn. by rewrite !app_nil_r.
    + unfold stbind, update. rewrite flush_step by (cbn; by rewrite HP). cbn [wire pc pending set_handled].
      eexists. split; [done|]. rewrite Hw1, HP. apply in_step_flushed.
Qed.

Lemma hello_first_prefix p q : bytes_ok p -> hello_first (p ++ q) -> hello_first p.
Proof. intros Ho H r Hr. apply H. by apply first_record_app. Qed.

Lemma writes_step bs : forall input s, forwards -> in_step input s -> bytes_ok (input ++ mjoin bs) ->
  hello_first (input ++ mjoin bs) -> exists s', writes bs s = (Ret tt, s') /\ in_step (input ++ mjoin bs) s'.
Proof.
  induction bs as [|b bs IH]; intros input s F Hs Ho HH.
  { exists s. split; [done|]. by rewrite app_nil_r. }
  rewrite mjoin_cons, app_assoc in *. cbn [writes]. unfold stbind.
  assert (bytes_ok (input ++ b)) as Ho1 by by apply Forall_app in Ho as [? _].
  destruct (write_step input s b F Hs Ho1 (hello_first_prefix _ _ Ho1 HH)) as (s1 & -> & Hs1).
  destruct (IH (input ++ b) s1 F Hs1 Ho HH) as (s' & -> & Hs'). by exists s'.
Qed.

(** *** A first record the parser rejects *)

(** Bytes that are held back outside raw mode. *)
Definition unfinished (p : bytes) : Prop := zlen p < 5 \/ (tls_start p = true /\ first_record p = None).

Lemma unfinished_prefix p q : bytes_ok p -> unfinished (p ++ q) -> unfinished p.
Proof.
  intros Ho H. destruct (Z.ltb_spec (zlen p) 5) as [?|H5]; [by left|]. right. destruct H as [H|[Ht Hf]].
  { rewrite zlen_app in H. pose proof (zlen_nonneg q). lia. }
  destruct p as [|x [|y p]]; try (unfold zlen in H5; simpl in H5; lia). split; [done|].
  destruct (first_record (x :: y :: p)) as [r|] eqn:E; [|done]. destruct (first_record_app _ q r Ho E) as [E' _].
  rewrite E' in Hf. discriminate.
Qed.
Lemma unfinished_before p q r : first_record p = None -> first_record (p ++ q) = Some r -> unfinished p.
Proof.
  intros Hn HF. destruct (Z.ltb_spec (zlen p) 5) as [?|H5]; [by left|]. right. split; [|done].
  apply first_record_cons in HF as (v & a & b & q0 & E & _).
  destruct p as [|x [|y p]]; try (unfold zlen in H5; simpl in H5; lia). by injection E as -> -> _.
Qed.

Notation fresh p t := (mkBridge (mkPC false false p) [] t).

Lemma writes_unfinished bs t : Blocked plan = false -> pMode (plPolicy plan) = ModeDirect -> forall p,
  bytes_ok (p ++ mjoin bs) -> unfinished (p ++ mjoin bs) -> writes bs (fresh p t) = (Ret tt, fresh (p ++ mjoin bs) t).
Proof.
  intros Hb Hm. induction bs as [|b bs IH]; intros p Ho Hu; [by rewrite app_nil_r|].
  rewrite mjoin_cons, app_assoc in *. cbn [writes].
  assert (bytes_ok (p ++ b)) as Ho1 by by apply Forall_app in Ho as [? _].
  assert (unfinished (p ++ b)) as Hu1 by by eapply unfinished_prefix.
  assert (tryHandlePendingLocked (env := reliable) dial cfg plan (fresh (p ++ b) t) = (Ret false, fresh (p ++ b) t)) as E.
  { destruct (decide (p ++ b = [])) as [E0|E0].
    { unfold tryHandlePendingLocked, stbind at 1, get. cbn [pc pending]. by rewrite E0. }
    rewrite tryHandle_spec by (done || congruence). cbn [pc pending]. rewrite decide_False by congruence.
    destruct (Z.ltb_spec (zlen (p ++ b)) 5); [done|]. destruct Hu1 as [?|[-> ->]]; [lia|done]. }
  unfold Bridge.Write, stbind, get, update. cbn [pc closed handled pending wire ttls].
  change (set_pending (p ++ b) (mkPC false false p)) with (mkPC false false (p ++ b)). rewrite E. by apply IH.
Qed.

(** Once the bridge has decided, it passes everything on. *)
Lemma writes_handled bs : forall s, closed (pc s) = false -> handled (pc s) = true -> pending (pc s) = [] ->
  existsb is_oob (wire s) = false ->
  exists s', writes bs s = (Ret tt, s') /\ closed (pc s') = false /\ pending (pc s') = [] /\
    delivered (wire s') = delivered (wire s) ++ mjoin bs.
Proof.
  induction bs as [|b bs IH]; intros s Hc Hh Hp Ho; [exists s; by rewrite app_nil_r|].
  cbn [writes]. unfold Bridge.Write, stbind, get. rewrite Hc, Hh, sending_write. cbn [stret].
  destruct (IH (mkBridge (pc s) (wire s ++ [EvWrite b]) (ttls s))) as (s' & -> & ? & ? & E); cbn [pc wire]; try done.
  { by rewrite existsb_app, Ho. }
  exists s'. split_and!; try done. rewrite E. cbn [wire]. rewrite delivered_no_oob by done. cbn.
  by rewrite app_nil_r, <- app_assoc.
Qed.

(** The buffer goes out, and then what follows the record once more. *)
Lemma write_rejected p b t r tail h e : Blocked plan = false -> pMode (plPolicy plan) = ModeDirect -> bytes_ok (p ++ b) ->
  first_record (p ++ b) = Some r -> p ++ b = r ++ tail -> ClientHello.parseClientHello r = Ret h -> ClientHello.herr h = Some e ->
  exists s, Write b (fresh p t) = (Ret (zlen b), s) /\ closed (pc s) = false /\ handled (pc s) = true /\ pending (pc s) = [] /\
    existsb is_oob (wire s) = false /\ delivered (wire s) = (p ++ b) ++ tail.
Proof.
  intros Hb Hm Ho HR Et Hp He. destruct (first_record_length _ _ Ho HR) as [H5 Hle].
  assert (tls_start (p ++ b) = true) as ET by by apply first_record_cons in HR as (v & x & y & q & -> & _).
  assert (tryHandlePendingLocked (env := reliable) dial cfg plan (fresh (p ++ b) t) =
    (Ret true, mkBridge (mkPC true false []) ([EvWrite (p ++ b)] ++ if 0 <? zlen tail then [EvWrite tail] else []) t)) as E.
  { rewrite tryHandle_spec by (done || congruence || (cbn; intros E0; rewrite E0 in Hle; unfold zlen in *; simpl in *; lia)).
    cbn [pc pending]. rewrite decide_False by congruence. rewrite (proj2 (Z.ltb_ge _ _)) by lia. rewrite ET, HR.
    rewrite (f_equal (drop (length r)) Et), drop_app_length.
    unfold handle_record, handleTLSLocked, flushPendingLocked, stbind, stlift, get, update, stret.
    rewrite Hp, He. cbn [pc pending]. rewrite (proj2 (Z.eqb_neq _ _)) by lia. rewrite sending_write. by destruct (0 <? zlen tail). }
  unfold Bridge.Write, stbind, get, update. cbn [pc closed handled pending wire ttls].
  change (set_pending (p ++ b) (mkPC false false p)) with (mkPC false false (p ++ b)). rewrite E.
  eexists. split; [done|]. cbn [pc closed handled pending wire]. split_and!; try done.
  - by destruct (0 <? zlen tail).
  - destruct (Z.ltb_spec 0 (zlen tail)) as [_|Hz]; cbn; [by rewrite !app_nil_r|].
    assert (tail = []) as -> by (destruct tail; [done|rewrite zlen_cons in Hz; pose proof (zlen_nonneg tail); lia]). by rewrite !app_nil_r.
Qed.

(** C19: the stream a target sees under a plan that forwards unchanged: raw or direct mode,
    not blocked, no TLS 1.3 requirement, and no rule that blocks a server name.  However
    the application cuts its bytes into Write calls, every Write returns its length and the
    connection stays open.  When the first record is a ClientHello the parser accepts, or
    the stream does not begin with a complete TLS record, every byte is forwarded once and
    in order: what the target has received followed by what is held back is what was
    written; bytes are held back only while nothing was sent yet, outside raw mode, and
    only fewer than five or an unfinished TLS record.  In direct mode, when the first
    record is rejected by the parser, it is not so: the bytes that follow the record in the
    Write that completes it reach the target twice, and all others once. *)
Theorem bridge_stream bs t :
  forwards -> bytes_ok (mjoin bs) ->
  (hello_first (mjoin bs) ->
   exists s, writes bs (WrapTCPConn t) = (Ret tt, s) /\ closed (pc s) = false /\
     delivered (wire s) ++ pending (pc s) = mjoin bs /\
     (pending (pc s) <> [] -> wire s = [] /\ pMode (plPolicy plan) <> ModeRaw /\
        (zlen (mjoin bs) < 5 \/ (tls_start (mjoin bs) = true /\ first_record (mjoin bs) = None)))) /\
  (forall bs1 b bs2 r tail h e, pMode (plPolicy plan) = ModeDirect -> bs = bs1 ++ b :: bs2 ->
     first_record (mjoin bs1) = None -> first_record (mjoin bs1 ++ b) = Some r -> mjoin bs1 ++ b = r ++ tail ->
     ClientHello.parseClientHello r = Ret h -> ClientHello.herr h = Some e ->
     exists s, writes bs (WrapTCPConn t) = (Ret tt, s) /\ closed (pc s) = false /\ pending (pc s) = [] /\
       delivered (wire s) = r ++ tail ++ tail ++ mjoin bs2).
Proof.
  intros F Ho. split.
  - intros HH. destruct (writes_step bs [] (WrapTCPConn t) F) as (s & E & Hc & _ & Hd & Hp);
      [|done..|].
    { unfold in_step, WrapTCPConn. simpl. split_and!; try done. by left. }
    exists s. split; [done|]. split; [done|]. split; [done|]. intros Hne. simpl in Hd, Hp.
    destruct (handled (pc s)); [done|]. destruct Hp as [Hw [Hi|[Hr Hi]]]; [|done].
    rewrite Hw in Hd. simpl in Hd. congruence.
  - intros bs1 b bs2 r tail h e Hm -> Hn HF Et Hp He. pose proof (fw_open F) as Hb.
    rewrite join_app, mjoin_cons, app_assoc in Ho. apply Forall_app in Ho as [Ho1 _]. pose proof Ho1 as [Ho0 _]%Forall_app.
    assert (forall l1 l2 (s : bridge), writes (l1 ++ l2) s = (writes l1 ~; writes l2) s) as Hsplit.
    { intros l1 l2. induction l1 as [|x l1 IH]; intros s; [done|]. cbn [app writes]. unfold stbind in *.
      destruct (Write x s) as [[?| |] s']; [apply IH|done..]. }
    rewrite Hsplit. unfold stbind at 1. change (WrapTCPConn t) with (fresh [] t).
    rewrite (writes_unfinished bs1 t Hb Hm []); [|done|by eapply unfinished_before]. cbn [app writes]. unfold stbind at 1.
    destruct (write_rejected (mjoin bs1) b t r tail h e Hb Hm Ho1 HF Et Hp He) as (s1 & -> & Hc & Hh & Hpe & Hoob & Hd).
    destruct (writes_handled bs2 s1 Hc Hh Hpe Hoob) as (s' & -> & ? & ? & Ed). exists s'. split_and!; try done.
    by rewrite Ed, Hd, Et, <- !app_assoc.
Qed.
End stream.


(** ** Blocked connections *)

Section blocked.
Context {env : Env} (dial : string -> Z -> nat -> Desync.dialres) (cfg : config) (plan : DialPlan).

(** The states of a bridge under any writes and any failures of the network. *)
Inductive reach : bridge -> Prop :=
| reach_new t : reach (WrapTCPConn t)
| reach_write s b r s' : reach s -> Write dial cfg plan b s = (r, s') -> reach s'.

(** No payload: only closes, sleeps and fatal TLS alerts. *)
Definition is_alert (b : bytes) : Prop := exists v1 v2 desc, b = [0x15; v1; v2; 0; 2; 2; desc].
Definition no_payload (tr : list event) : Prop :=
  Forall (fun e => match e with EvWrite b => is_alert b | EvOOB _ _ => False | _ => True end) tr.

Lemma perform_payload f e tr : no_payload tr ->
  match e with EvWrite b => is_alert b | EvOOB _ _ => False | _ => True end ->
  no_payload (snd (perform f e tr)).
Proof.
  intros Ht He. unfold perform. destruct (env_fail tr e); [done|]. simpl.
  apply Forall_app. split; [done|]. by constructor.
Qed.

Lemma closeConn_spec s : no_payload (wire s) -> exists tr, no_payload tr /\
  closeConn s = (Ret tt, mkBridge (pc s) tr (ttls s)).
Proof.
  intros H. pose proof (perform_payload plain_err EvClose (wire s) H I) as Hp.
  unfold closeConn, stbind, sending. destruct (perform plain_err EvClose (wire s)) as [r tr] eqn:E.
  exists tr. split; [done|]. destruct r; [done..|].
  unfold perform in E. by destruct (env_fail _ _).
Qed.

Lemma sendTLSAlert_spec v1 v2 desc s : no_payload (wire s) -> exists tr, no_payload tr /\
  sendTLSAlert (Some [v1; v2]) desc tlsAlertLevelFatal s = (Ret tt, mkBridge (pc s) tr (ttls s)).
Proof.
  intros H. set (alert := [0x15; v1; v2; 0; 2; 2; desc]).
  pose proof (perform_payload plain_err (EvWrite alert) (wire s) H ltac:(unfold is_alert, alert; eauto)) as Hp.
  unfold sendTLSAlert, stbind, stlift. change (tls_alert (Some [v1; v2]) desc tlsAlertLevelFatal) with (Ret alert).
  unfold sending, write. destruct (perform plain_err (EvWrite alert) (wire s)) as [r tr] eqn:E.
  exists tr. split; [done|]. destruct r; [done..|].
  unfold perform in E. by destruct (env_fail _ _).
Qed.

(** What is refused: a mode that answers with an alert, a ClientHello without TLS 1.3 where
    it is required, and a server name whose rule, completed by the default policy, blocks
    or alerts. *)
Definition refused (h : ClientHello.hello) (r : bytes) : Prop :=
  pMode (plPolicy plan) = ModeTLSAlert \/
  (TLS13Only (plPolicy plan) = BoolTrue /\ ClientHello.hasKeyShare h = false) \/
  exists name m dp, 0 < ClientHello.sniPos h /\ 0 < ClientHello.sniLen h /\
    slice r (ClientHello.sniPos h) (ClientHello.sniPos h + ClientHello.sniLen h) = Ret name /\
    domainMatcher (routes cfg) = Some m /\ Find m (string_of_bytes name) = Some dp /\
    (pMode (mergePolicies [dp; defaultPolicy cfg]) = ModeBlock \/ pMode (mergePolicies [dp; defaultPolicy cfg]) = ModeTLSAlert).

Lemma sni_block_refuses name m dp : domainMatcher (routes cfg) = Some m -> Find m name = Some dp ->
  pMode (mergePolicies [dp; defaultPolicy cfg]) = ModeBlock \/ pMode (mergePolicies [dp; defaultPolicy cfg]) = ModeTLSAlert ->
  sni_block cfg name = Ret (Some (pMode (mergePolicies [dp; defaultPolicy cfg]))).
Proof. intros Em Ef Hm. unfold sni_block. rewrite Em, Ef. cbn. by rewrite bool_decide_eq_true_2. Qed.

Lemma handleTLS_refused r h s v1 v2 : no_payload (wire s) ->
  ClientHello.parseClientHello r = Ret h -> ClientHello.herr h = None ->
  ClientHello.prtVer h = Some [v1; v2] -> refused h r ->
  exists tr, no_payload tr /\ handleTLSLocked dial cfg plan r s =
    (Ret (Some "EOF"%string), mkBridge (set_closed true (pc s)) tr (ttls s)).
Proof.
  intros Hw Hp He Hv HR. unfold handleTLSLocked, stbind at 1, stlift. rewrite Hp, He, Hv. cbv zeta.
  set (s1 := mkBridge (set_closed true (pc s)) (wire s) (ttls s)).
  assert (forall desc, exists tr, no_payload tr /\
    (update (set_closed true) ~; sendTLSAlert (Some [v1; v2]) desc tlsAlertLevelFatal ~;
     closeConn ~; stret (Some "EOF"%string)) s =
    (Ret (Some "EOF"%string), mkBridge (set_closed true (pc s)) tr (ttls s))) as HA.
  { intros desc. unfold stbind, update. fold s1.
    destruct (sendTLSAlert_spec v1 v2 desc s1 Hw) as (tr & Ht & ->).
    destruct (closeConn_spec (mkBridge (pc s1) tr (ttls s1)) Ht) as (tr2 & Ht2 & ->). by exists tr2. }
  destruct (decide (pMode (plPolicy plan) = ModeTLSAlert)); [apply HA|].
  destruct (decide (_ /\ _)); [apply HA|].
  destruct HR as [?|[?|(name & m & dp & Hp1 & Hp2 & Hsl & Em & Ef & Hmode)]]; [done..|].
  pose proof (sni_block_refuses _ _ _ Em Ef Hmode) as Hsni. set (mode := pMode _) in *.
  rewrite (proj2 (Z.ltb_lt _ _) Hp1), (proj2 (Z.ltb_lt _ _) Hp2). cbn [andb].
  unfold stbind at 1 2. rewrite Hsl, Hsni. destruct (decide (mode = ModeTLSAlert)); [apply HA|].
  unfold stbind, update, stret. fold s1.
  destruct (closeConn_spec s1 Hw) as (tr & Ht & ->). by exists tr.
Qed.

Lemma Write_closed s b : closed (pc s) = true -> Write dial cfg plan b s = (Err "EOF", s).
Proof. intros H. unfold Write, stbind, get, stlift. by rewrite H. Qed.

(** One Write under a blocked plan. *)
Definition quiet (s : bridge) : Prop :=
  handled (pc s) = false /\ Forall (fun e => e = EvClose) (wire s) /\
  (closed (pc s) = true \/ pending (pc s) = []).

Lemma Write_quiet s b : Blocked plan = true \/ pMode (plPolicy plan) = ModeBlock -> quiet s ->
  quiet (snd (Write dial cfg plan b s)) /\ (b <> [] -> closed (pc (snd (Write dial cfg plan b s))) = true).
Proof.
  intros Hb (Hh & Hw & Hp). destruct (closed (pc s)) eqn:Hc.
  { rewrite Write_closed by done. unfold quiet. simpl. rewrite Hc. auto. }
  destruct Hp as [?|Hp]; [done|]. unfold Write, stbind, get, update. rewrite Hc, Hh, Hp. cbn [app].
  set (s1 := mkBridge (set_pending b (pc s)) (wire s) (ttls s)).
  unfold tryHandlePendingLocked, stbind, get. change (pending (pc s1)) with b.
  assert (Blocked plan || bool_decide (pMode (plPolicy plan) = ModeBlock) = true) as ->.
  { destruct Hb as [->|Hb]; [done|]. rewrite bool_decide_eq_true_2 by done. apply orb_true_r. }
  destruct (Z.eqb_spec (zlen b) 0) as [E|E].
  { assert (b = []) as -> by (destruct b; [done|rewrite zlen_cons in E; pose proof (zlen_nonneg b); lia]).
    split; [|done]. unfold quiet, s1. simpl. auto. }
  unfold update, closeConn, stbind, sending, perform, stret. cbn [pc wire ttls s1].
  destruct (env_fail (wire s) EvClose); cbn; (split; [|intros; by (done || congruence)]); unfold quiet; cbn; split_and!; auto.
  apply Forall_app. split; [done|]. by repeat constructor.
Qed.

Lemma reach_quiet s : Blocked plan = true \/ pMode (plPolicy plan) = ModeBlock -> reach s -> quiet s.
Proof.
  intros Hb. induction 1 as [t|s b r s' _ IH E].
  - unfold quiet. simpl. auto.
  - replace s' with (snd (Write dial cfg plan b s)) by by rewrite E. by apply Write_quiet.
Qed.

End blocked.


(** ** Witnesses *)

Definition w_plan (m : Mode) (b : bool) : DialPlan :=
  mkPlan "mobile_tun" "198.18.0.1" 443 "example.com" true false "203.0.113.10" 443 (with_mode m) b.
Definition w_dial : string -> Z -> nat -> Desync.dialres := fun _ _ _ => Desync.DialOK.
Definition w_ttls : Desync.ttl_state := Desync.mkTTL None None.
Definition w_open_cfg : config := mkConfig (with_mode ModeTLSRF) (mkRules (Some NewDomainMatcher) NewTrie NewTrie None None) 0.

Lemma w_forwards : forwards w_open_cfg (w_plan ModeDirect false).
Proof.
  split; [done|by right|done|]. exists NewDomainMatcher. split; [done|]. intros name dp H. by rewrite Find_new in H.
Qed.

Definition w_input : bytes := ClientHello.enc_record ClientHello.sample_hello ++ [9; 8; 7].

(** A ClientHello in three parts, and a record that is none, with two bytes behind it. *)
Lemma bridge_stream_witness :
  (exists s, writes w_dial w_open_cfg (w_plan ModeDirect false) [take 3 w_input; take 30 (drop 3 w_input); drop 33 w_input]
     (WrapTCPConn w_ttls) = (Ret tt, s) /\ delivered (wire s) ++ pending (pc s) = w_input /\ wire s <> []) /\
  (exists s, writes w_dial w_open_cfg (w_plan ModeDirect false) [[22; 3; 1; 0; 4; 2; 0]; [0; 0; 5; 6]; [7]]
     (WrapTCPConn w_ttls) = (Ret tt, s) /\ delivered (wire s) = [22; 3; 1; 0; 4; 2; 0; 0; 0; 5; 6; 5; 6; 7]).
Proof.
  split.
  - destruct (bridge_stream w_dial w_open_cfg (w_plan ModeDirect false)
      [take 3 w_input; take 30 (drop 3 w_input); drop 33 w_input] w_ttls w_forwards) as [HS _].
    { vm_compute. repeat constructor; discriminate. }
    destruct HS as (s & E & _ & H & _).
    + intros r Hr. vm_compute in Hr. injection Hr as <-. eexists. split; vm_compute; reflexivity.
    + exists s. split; [exact E|]. split; [rewrite H; vm_compute; reflexivity|].
      intros Hw. apply (f_equal (fun x => wire (snd x))) in E. cbn [snd] in E. rewrite Hw in E.
      vm_compute in E. discriminate.
  - destruct (bridge_stream w_dial w_open_cfg (w_plan ModeDirect false) [[22; 3; 1; 0; 4; 2; 0]; [0; 0; 5; 6]; [7]] w_ttls w_forwards) as [_ HR].
    { vm_compute. repeat constructor; discriminate. }
    destruct (HR [[22; 3; 1; 0; 4; 2; 0]] [0; 0; 5; 6] [[7]] [22; 3; 1; 0; 4; 2; 0; 0; 0] [5; 6]
      (ClientHello.mkHello None (-1) 0 false (Some "not a ClientHello handshake (type=2)"%string))
      "not a ClientHello handshake (type=2)"%string) as (s & E & _ & _ & H); try reflexivity.
    exists s. split; [exact E|]. rewrite H. reflexivity.
Defined.

(** A rule that blocks the server name "a.b" of the sample ClientHello. *)
Definition w_sni_cfg : config :=
  mkConfig (with_mode ModeTLSRF) (mkRules (Some (snd (Add NewDomainMatcher "a.b" (with_mode ModeBlock)))) NewTrie NewTrie None None) 0.


End Bridge.
