(* ===== verification/Noise.v ===== *)
(** * Fake packets on the wire (src/internal/desync_linux.go)

    desyncSend shows a censor the packet without the server name and the server the real
    one.  The trick is a store the program shares with the kernel: a page given to the
    socket with vmsplice and splice (Linux, here), a temporary file given to TransmitFile
    (Windows, in [NoiseWindows]).  The kernel sends the store's bytes under a small TTL; after a sleep the
    program overwrites the store and restores the TTL, and the kernel's retransmission of
    the same range carries the real bytes.

    The model keeps the store shared: the kernel may transmit any range of what is queued
    at any time, again and again, and reads the store and the TTL at that moment.  The
    goroutine that splices, desyncSend itself, the clock and the network card interleave in
    any order; each system call may fail. *)

From S2P Require Import Prelude GoStrings Conn ClientHello Desync Bridge.

Module Noise.

(** ** Errors (utils.go: wrappedError) *)

Inductive error :=
| Plain (msg : string)
| Wrapped (msg : string) (cause : option error).   (* [None]: a nil cause *)

(** The Error method; a nil cause is dereferenced. *)
Fixpoint Error (e : error) : go string :=
  match e with
  | Plain m => Ret m
  | Wrapped m None => Panic
  | Wrapped m (Some c) => let! t := Error c in Ret (m +:+ ": " +:+ t)%string
  end.

(** [wrap(msg, err)] of an error the system reported. *)
Definition wrapped (msg cause : string) : error := Wrapped msg (Some (Plain cause)).

(** ** The socket *)

(** A segment on the wire: when it left, its TTL, its offset in the stream, its bytes. *)
Record packet := mkPacket { ptime : Z; pttl : Z; poff : Z; pdata : bytes }.

(** The socket: its TTL option, the shared store, how much of the store is queued, what
    conn.Write queued behind it, and what the network card has sent. *)
Record socket := mkSocket {
  clock : Z; ttl : Z; store : bytes; queued : Z; after : bytes; sent : list packet }.

Definition stream (k : socket) : bytes := take (Z.to_nat (queued k)) (store k) ++ after k.

Definition transmit (off n : Z) (k : socket) : socket :=
  mkSocket (clock k) (ttl k) (store k) (queued k) (after k)
    (sent k ++ [mkPacket (clock k) (ttl k) off (take (Z.to_nat n) (drop (Z.to_nat off) (stream k)))]).
Definition tick (d : Z) (k : socket) : socket :=
  mkSocket (clock k + d) (ttl k) (store k) (queued k) (after k) (sent k).
Definition set_ttl (t : Z) (k : socket) : socket :=
  mkSocket (clock k) t (store k) (queued k) (after k) (sent k).
Definition set_store (b : bytes) (k : socket) : socket :=
  mkSocket (clock k) (ttl k) b (queued k) (after k) (sent k).
Definition enqueue (n : Z) (k : socket) : socket :=
  mkSocket (clock k) (ttl k) (store k) (queued k + n) (after k) (sent k).
Definition append (b : bytes) (k : socket) : socket :=
  mkSocket (clock k) (ttl k) (store k) (queued k) (after k ++ b) (sent k).

(** The first [i] bytes of the store are overwritten by those of [b]. *)
Definition overwrite (i : Z) (b old : bytes) : bytes := take (Z.to_nat i) b ++ drop (Z.to_nat i) old.

Definition new_socket (now t : Z) : socket := mkSocket now t [] 0 [] [].

Definition no_plan : Desync.desync_plan := Desync.mkPlan [] [] [] 0.

(** ** Linux *)

(** The next call of desyncSend and sendWithNoise. *)
Inductive lpos :=
| LRaw | LControl | LGetTTL
| LPipe | LMmap | LSetFake | LVmsplice
| LSleep
| LCopy (i : Z)                      (* copy(data, realData), [i] bytes done *)
| LSetDefault | LWait
| LRest                              (* conn.Write(firstPacket[cut:]) *)
| LDone (r : option error) | LPanic.

(** The goroutine: not started, before rawConn.Write, before a splice of [toWrite] bytes,
    waiting for the socket to become writable, ended with rawWriteErr and innerErr. *)
Inductive gpos :=
| GNone | GStart
| GSplice (toWrite : Z) | GWaiting (toWrite : Z)
| GDone (rawWriteErr innerErr : option string).

(** [until] is when the sleep ends, [pipe] how many bytes the pipe holds while it is open. *)
Record linux := mkLinux {
  sock : socket; plan : Desync.desync_plan; defaultTTL : Z; until : option Z;
  main : lpos; splicer : gpos; pipe : option Z }.

Inductive splice_result := Moved (n : Z) | EINTR | EAGAIN | SpliceErr (e : string).

Inductive laction :=
| Tick (d : Z)
| Transmit (off n : Z)                      (* the network card sends or resends a range *)
| Call (e : option string)                   (* the next system call, with its error *)
| Vmsplice (r : Z + string)                  (* vmsplice, with its count *)
| Wake                                      (* time.Sleep returns *)
| Copy (n : Z)                              (* copy moves on by [n] bytes *)
| Join                                      (* <-done *)
| WriteRest (n : Z) (e : option string)
| RawWrite (e : option string)               (* rawConn.Write calls the function, or refuses *)
| Splice (r : splice_result)
| Writable (e : option string).              (* the wait of rawConn.Write ends *)

Definition on_sock (f : socket -> socket) (s : linux) : linux :=
  mkLinux (f (sock s)) (plan s) (defaultTTL s) (until s) (main s) (splicer s) (pipe s).
Definition at_main (m : lpos) (s : linux) : linux :=
  mkLinux (sock s) (plan s) (defaultTTL s) (until s) m (splicer s) (pipe s).
Definition at_splicer (g : gpos) (s : linux) : linux :=
  mkLinux (sock s) (plan s) (defaultTTL s) (until s) (main s) g (pipe s).
Definition set_pipe (p : option Z) (s : linux) : linux :=
  mkLinux (sock s) (plan s) (defaultTTL s) (until s) (main s) (splicer s) p.

(** sendWithNoise returns: the deferred calls close the pipe and unmap the pages, which the
    socket keeps; desyncSend goes on or wraps the error. *)
Definition leave (r : option error) (s : linux) : linux :=
  at_main (match r with None => LRest | Some e => LDone (Some (Wrapped "send data with noise" (Some e))) end)
    (set_pipe None s).

Section linux.
Context (firstPacket : bytes) (sniPos sniLen fakeTTL fakeSleep : Z).

Definition call (e : option string) (s : linux) : option linux :=
  let stop m e := at_main (LDone (Some (wrapped m e))) s in
  let quit m e := leave (Some (wrapped m e)) s in
  match main s, e with
  | LRaw, None => Some (at_main LControl s)
  | LRaw, Some e => Some (stop "get raw conn"%string e)
  | LControl, None => Some (at_main LGetTTL s)
  | LControl, Some e => Some (stop "raw control"%string e)
  | LGetTTL, None =>
    Some (match Desync.desync_split firstPacket sniPos sniLen fakeSleep with
          | Ret p => mkLinux (sock s) p (ttl (sock s)) (until s) LPipe (splicer s) (pipe s)
          | _ => at_main LPanic s
          end)
  | LGetTTL, Some e => Some (stop "get default TTL"%string e)
  | LPipe, None => Some (at_main LMmap (set_pipe (Some 0) s))
  | LPipe, Some e => Some (quit "create pipe"%string e)
  | LMmap, None =>
    (* Mmap refuses a length of 0 *)
    Some (if zlen (Desync.fakeData (plan s)) =? 0 then quit "mmap"%string "invalid argument"%string
          else at_main LSetFake (on_sock (set_store (Desync.fakeData (plan s))) s))
  | LMmap, Some e => Some (quit "mmap"%string e)
  | LSetFake, None => Some (at_main LVmsplice (on_sock (set_ttl fakeTTL) s))
  | LSetFake, Some e => Some (quit "set fake TTL"%string e)
  | LSetDefault, None => Some (at_main LWait (on_sock (set_ttl (defaultTTL s)) s))
  | LSetDefault, Some e => Some (quit "set default TTL"%string e)
  | _, _ => None
  end.

(** One splice of the goroutine's loop.  The pipe is not blocking: it gives what it holds,
    EAGAIN when it is empty, and an error once it is closed. *)
Definition splice (r : splice_result) (s : linux) : option linux :=
  match splicer s, r with
  | GSplice toWrite, Moved n =>
    b ← pipe s;
    if (1 <=? n) && (n <=? toWrite) && (n <=? b)
    then Some (at_splicer (if toWrite - n =? 0 then GDone None None else GSplice (toWrite - n))
                 (set_pipe (Some (b - n)) (on_sock (enqueue n) s)))
    else None
  | GSplice toWrite, EINTR => Some s
  | GSplice toWrite, EAGAIN => Some (at_splicer (GWaiting toWrite) s)
  | GSplice toWrite, SpliceErr e => Some (at_splicer (GDone None (Some e)) s)
  | _, _ => None
  end.

Definition linux_step (a : laction) (s : linux) : option linux :=
  let len := zlen (Desync.fakeData (plan s)) in
  match a with
  | Tick d => if 0 <=? d then Some (on_sock (tick d) s) else None
  | Transmit off n => Some (on_sock (transmit off n) s)
  | Call e => call e s
  | Vmsplice r =>
    match main s, r with
    | LVmsplice, inl n =>
      if (1 <=? n) && (n <=? len)
      then Some (mkLinux (sock s) (plan s) (defaultTTL s)
                   (Some (clock (sock s) + Desync.noiseSleep (plan s))) LSleep GStart (Some n))
      else None
    | LVmsplice, inr e => Some (leave (Some (wrapped "vmsplice" e)) s)
    | _, _ => None
    end
  | Wake =>
    match main s, until s with
    | LSleep, Some t => if t <=? clock (sock s) then Some (at_main (LCopy 0) s) else None
    | _, _ => None
    end
  | Copy n =>
    match main s with
    | LCopy i =>
      if (1 <=? n) && (i + n <=? len)
      then Some (at_main (if i + n =? len then LSetDefault else LCopy (i + n))
                   (on_sock (fun k => set_store (overwrite (i + n) (Desync.realData (plan s)) (store k)) k) s))
      else None
    | _ => None
    end
  | Join =>
    match main s, splicer s with
    | LWait, GDone (Some e) _ => Some (leave (Some (wrapped "raw write (splice)" e)) s)
    | LWait, GDone None (Some e) => Some (leave (Some (wrapped "splice" e)) s)
    | LWait, GDone None None => Some (leave None s)
    | _, _ => None
    end
  | WriteRest n e =>
    let rest := Desync.remaining (plan s) in
    match main s with
    | LRest =>
      if (0 <=? n) && (if e then n <=? zlen rest else n =? zlen rest)
      then Some (at_main (LDone (wrapped "send remaining data" <$> e)) (on_sock (append (take (Z.to_nat n) rest)) s))
      else None
    | _ => None
    end
  | RawWrite e =>
    match splicer s with
    | GStart => Some (at_splicer (match e with None => GSplice len | Some _ => GDone e None end) s)
    | _ => None
    end
  | Splice r => splice r s
  | Writable e =>
    match splicer s with
    | GWaiting toWrite =>
      Some (at_splicer (match e with None => GSplice toWrite | Some _ => GDone e (Some "EAGAIN"%string) end) s)
    | _ => None
    end
  end.

Fixpoint linux_run (acts : list laction) (s : linux) : option linux :=
  match acts with
  | [] => Some s
  | a :: acts => s ← linux_step a s; linux_run acts s
  end.
End linux.

Definition start_linux (now t : Z) : linux :=
  mkLinux (new_socket now t) no_plan 0 None LRaw GNone None.

(** ** What the packets show *)

(** The bytes of a packet are those of [x] at its offset. *)
Definition matches (x : bytes) (pk : packet) : Prop :=
  pdata pk = take (length (pdata pk)) (drop (Z.to_nat (poff pk)) x).

Lemma prefix_matches st x t o off n : st `prefix_of` x ->
  matches x (mkPacket t o off (take (Z.to_nat n) (drop (Z.to_nat off) st))).
Proof.
  intros [y ->]. unfold matches. cbn [pdata poff].
  rewrite length_take, length_drop, drop_app.
  destruct (decide (Z.to_nat off <= length st)%nat).
  - rewrite take_app_le by (rewrite length_drop; lia).
    destruct (decide (Z.to_nat n <= length st - Z.to_nat off)%nat).
    + f_equal. lia.
    + rewrite !take_ge by (rewrite length_drop; lia). done.
  - rewrite (drop_ge st) by lia. rewrite take_nil.
    replace (_ `min` _)%nat with 0%nat by lia. done.
Qed.

Lemma empty_matches x pk : pdata pk = [] -> matches x pk.
Proof. intros E. unfold matches. by rewrite E. Qed.

Section shown.
Context (fp : bytes) (ft : Z) (p : Desync.desync_plan).

(** A packet that does not carry the real bytes has the fake TTL; before the sleep ends
    packets carry the fake bytes. *)
Definition packet_ok (until : option Z) (pk : packet) : Prop :=
  (pttl pk = ft \/ matches fp pk) /\
  match until with None => pdata pk = [] | Some u => ptime pk < u -> matches (Desync.fakeData p) pk end.

(** The same of what the network card would send now. *)
Definition view_ok (until : option Z) (k : socket) : Prop :=
  (ttl k = ft \/ stream k `prefix_of` fp) /\
  match until with None => stream k = [] | Some u => clock k < u -> stream k `prefix_of` Desync.fakeData p end.

Lemma transmit_ok until off n k : view_ok until k -> Forall (packet_ok until) (sent k) ->
  Forall (packet_ok until) (sent (transmit off n k)).
Proof.
  intros [H1 H2] Hs. apply Forall_app; split; [done|]. constructor; [split|constructor].
  - destruct H1 as [->|H1]; [by left|right]. by apply prefix_matches.
  - destruct until as [u|]; cbn [pdata ptime].
    + intros Ht. by apply prefix_matches, H2.
    + by rewrite H2, drop_nil, take_nil.
Qed.

Lemma start_sleeping u l : Forall (packet_ok None) l -> Forall (packet_ok (Some u)) l.
Proof. intros H. apply (Forall_impl _ _ _ H). intros pk [H1 H2]. split; [done|]. intros _. by apply empty_matches. Qed.

(** What the kernel shows in each state of the store. *)
Lemma view_faking until k : ttl k = ft -> store k = Desync.fakeData p -> after k = [] ->
  (until = None -> queued k = 0) -> view_ok until k.
Proof.
  intros Ht Hs Ha Hq. split; [by left|]. unfold stream. rewrite Hs, Ha, app_nil_r. destruct until as [u|].
  - intros _. exists (drop (Z.to_nat (queued k)) (Desync.fakeData p)). by rewrite take_drop.
  - by rewrite Hq.
Qed.

Lemma view_quiet until k : queued k = 0 -> after k = [] -> view_ok until k.
Proof.
  intros Hq Ha. unfold view_ok, stream. rewrite Hq, Ha. change (take (Z.to_nat 0) (store k) ++ []) with (@nil Z).
  split; [right; apply prefix_nil|]. destruct until; [intros _; apply prefix_nil|done].
Qed.

Definition slept (until : option Z) (k : socket) : Prop := exists u, until = Some u /\ u <= clock k.

Lemma view_mixing until k : slept until k -> ttl k = ft -> view_ok until k.
Proof. intros (u & -> & Hu) Ht. split; [by left|lia]. Qed.

Hypothesis Hfp : Desync.realData p ++ Desync.remaining p = fp.

Lemma real_stream k : store k = Desync.realData p -> after k `prefix_of` Desync.remaining p ->
  (after k = [] \/ queued k = zlen (Desync.realData p)) -> stream k `prefix_of` fp.
Proof.
  intros Hs Ha Hq. unfold stream. rewrite Hs, <- Hfp. destruct Hq as [->|Hq].
  - rewrite app_nil_r. apply prefix_app_r. exists (drop (Z.to_nat (queued k)) (Desync.realData p)). by rewrite take_drop.
  - rewrite take_ge by (unfold zlen in Hq; lia). by apply prefix_app.
Qed.

Lemma view_real until k : slept until k -> store k = Desync.realData p -> after k `prefix_of` Desync.remaining p ->
  (after k = [] \/ queued k = zlen (Desync.realData p)) -> view_ok until k.
Proof. intros (u & -> & Hu) Hs Ha Hq. split; [right; by apply real_stream|lia]. Qed.

Lemma full_stream k : store k = Desync.realData p -> after k = Desync.remaining p ->
  queued k = zlen (Desync.realData p) -> stream k = fp.
Proof. intros Hs Ha Hq. unfold stream. rewrite Hs, Ha, Hq, <- Hfp. rewrite take_ge; [done|unfold zlen; lia]. Qed.
End shown.

(** ** Linux: the invariant *)

Section linux_spec.
Context (fp : bytes) (pos len ft fs t0 : Z) (p : Desync.desync_plan).
Hypothesis Hsplit : Desync.desync_split fp pos len fs = Ret p.
Hypothesis Hfp : Desync.realData p ++ Desync.remaining p = fp.
Hypothesis Hlen : length (Desync.fakeData p) = length (Desync.realData p).

Notation fake := (Desync.fakeData p).
Notation real := (Desync.realData p).
Notation rest := (Desync.remaining p).
Notation step := (linux_step fp pos len ft fs).
Notation run := (linux_run fp pos len ft fs).

Lemma zlen_fake : zlen fake = zlen real.
Proof. unfold zlen. lia. Qed.

(** What the goroutine has moved. *)
Definition moved_ok (s : linux) : Prop :=
  match splicer s with
  | GNone => queued (sock s) = 0 /\ until s = None
  | GStart => queued (sock s) = 0 /\ plan s = p /\ 0 < zlen real
  | GSplice n | GWaiting n => queued (sock s) + n = zlen real /\ 0 < n /\ plan s = p
  | GDone None None => queued (sock s) = zlen real
  | GDone _ _ => True
  end.

(** The socket and the store where desyncSend stands. *)
Definition main_ok (s : linux) : Prop :=
  let k := sock s in
  match main s with
  | LDone _ => True
  | _ => after k = []
  end /\
  match main s with
  | LRaw | LControl | LGetTTL | LPipe | LMmap | LSetFake | LVmsplice => splicer s = GNone
  | _ => True
  end /\
  match main s with
  | LRaw | LControl | LGetTTL | LDone (Some _) => True
  | _ => plan s = p /\ defaultTTL s = t0
  end /\
  match main s with
  | LRaw | LControl | LGetTTL | LPipe | LMmap => ttl k = t0
  | LSetFake => ttl k = t0 /\ store k = fake
  | LVmsplice => ttl k = ft /\ store k = fake
  | LSleep => ttl k = ft /\ store k = fake /\ is_Some (until s) /\ 0 < zlen real
  | LCopy i => ttl k = ft /\ 0 <= i < zlen real /\ store k = overwrite i real fake /\ slept (until s) k
  | LSetDefault => ttl k = ft /\ store k = real /\ slept (until s) k
  | LWait => ttl k = t0 /\ store k = real /\ slept (until s) k
  | LRest => ttl k = t0 /\ store k = real /\ slept (until s) k /\ splicer s = GDone None None
  | LDone None => ttl k = t0 /\ store k = real /\ slept (until s) k /\ splicer s = GDone None None /\ after k = rest
  | LDone (Some e) => (exists m, Error e = Ret m) /\
      (splicer s = GNone /\ after k = [] \/
       store k = real /\ slept (until s) k /\ after k `prefix_of` rest /\ (after k = [] \/ splicer s = GDone None None))
  | LPanic => False
  end.

Definition linux_ok (s : linux) : Prop :=
  moved_ok s /\ main_ok s /\ Forall (packet_ok fp ft p (until s)) (sent (sock s)).

Lemma linux_view s : linux_ok s -> view_ok fp ft p (until s) (sock s).
Proof.
  intros (Hm & (Ha & Hg & _ & Hp) & _). unfold moved_ok in Hm.
  assert (splicer s = GNone -> queued (sock s) = 0) as Hq by (intros E; rewrite E in Hm; tauto).
  destruct (main s) as [| | | | | | | |i| | | |[e|]|] eqn:Em.
  1-6: by apply view_quiet; auto.
  - destruct Hp. apply view_faking; auto.
  - destruct Hp as (? & ? & [u Hu] & ?). apply view_faking; auto. congruence.
  - destruct Hp as (? & ? & ? & ?). by apply view_mixing.
  - destruct Hp as (? & ? & ?). by apply view_mixing.
  - destruct Hp as (? & ? & ?). apply view_real; auto. rewrite Ha. apply prefix_nil.
  - destruct Hp as (? & ? & ? & ?). apply view_real; auto. rewrite Ha. apply prefix_nil.
  - destruct Hp as (_ & [[? ?]|(? & ? & ? & Ho)]); [apply view_quiet; auto|]. apply view_real; auto.
    destruct Ho as [?|Ho]; [by left|right]. by rewrite Ho in Hm.
  - destruct Hp as (? & ? & ? & Hd & Hr). rewrite Hd in Hm. apply view_real; auto. by rewrite Hr.
  - done.
Qed.

Lemma linux_start now : linux_ok (start_linux now t0).
Proof. by repeat split. Qed.

(** Time passes and the network card sends. *)
Lemma kernel_step f s : linux_ok s -> store (f (sock s)) = store (sock s) -> ttl (f (sock s)) = ttl (sock s) ->
  queued (f (sock s)) = queued (sock s) -> after (f (sock s)) = after (sock s) -> clock (sock s) <= clock (f (sock s)) ->
  Forall (packet_ok fp ft p (until s)) (sent (f (sock s))) -> linux_ok (on_sock f s).
Proof.
  intros (Hm & Hp & _) E1 E2 E3 E4 E5 Hk.
  assert (slept (until s) (sock s) -> slept (until s) (f (sock s))) as Hsl by (intros (u & ? & ?); exists u; split; [done|lia]).
  split; [|split; [|exact Hk]].
  - unfold moved_ok, on_sock in *. cbn [splicer sock until plan] in *. by rewrite E3.
  - unfold main_ok, on_sock in *. cbn [splicer sock until plan main defaultTTL] in *.
    destruct Hp as (? & ? & ? & Hp). rewrite E4, E2, E1. split_and!; [done..|].
    destruct (main s) as [| | | | | | | |i| | | |[e|]|]; naive_solver.
Qed.

(** desyncSend returns an error from sendWithNoise, and the pipe is closed. *)
Lemma leave_ok e s : linux_ok s -> (exists m, Error e = Ret m) -> after (sock s) = [] ->
  (splicer s = GNone \/ store (sock s) = real /\ slept (until s) (sock s)) -> linux_ok (leave (Some e) s).
Proof.
  intros (Hm & Hp & Hk) [m He] Ha Ho. split; [exact Hm|split; [|exact Hk]].
  unfold main_ok, leave. cbn. split_and!; [done..| |].
  - exists ("send data with noise: " +:+ m)%string. by rewrite He.
  - rewrite Ha. destruct Ho as [?|[? ?]]; [by left|right]. split_and!; [done..|apply prefix_nil|by left].
Qed.

Lemma wrapped_prints m e : exists t, Error (wrapped m e) = Ret t.
Proof. by eexists. Qed.

Lemma call_step e s s' : linux_ok s -> call fp pos len ft fs e s = Some s' -> linux_ok s'.
Proof.
  intros Hs E. pose proof Hs as (Hm & (Ha & Hg & Hpl & Hp) & Hk). unfold call in E.
  destruct (main s) as [| | | | | | | |i| | | |r|] eqn:Em; destruct e as [e|]; try done; injection E as <-.
  all: try (apply leave_ok; [done|apply wrapped_prints|done|tauto]).
  - split; [exact Hm|split; [|exact Hk]]. split_and!; cbn; try done. split; [apply wrapped_prints|by left].
  - split; [exact Hm|split; [|exact Hk]]. split_and!; cbn; done.
  - split; [exact Hm|split; [|exact Hk]]. split_and!; cbn; try done. split; [apply wrapped_prints|by left].
  - split; [exact Hm|split; [|exact Hk]]. split_and!; cbn; done.
  - split; [exact Hm|split; [|exact Hk]]. split_and!; cbn; try done. split; [apply wrapped_prints|by left].
  - rewrite Hsplit. split; [|split; [|exact Hk]].
    + unfold moved_ok in *. cbn. by rewrite Hg in *.
    + unfold main_ok. cbn. by split_and!.
  - split; [exact Hm|split; [|exact Hk]]. split_and!; cbn; tauto.
  - case_match; [apply leave_ok; [done|apply wrapped_prints|done|tauto]|].
    split; [exact Hm|split; [|exact Hk]]. destruct Hpl as [Epl Ed]. split_and!; cbn; rewrite ?Epl; done.
  - split; [exact Hm|split; [|exact Hk]]. split_and!; cbn; tauto.
  - split; [exact Hm|split; [|exact Hk]]. destruct Hpl as [? ?]. split_and!; cbn; tauto.
Qed.

Definition active (g : gpos) : Prop := match g with GStart | GSplice _ | GWaiting _ => True | _ => False end.

(** The goroutine moves on, and may queue more of the store. *)
Lemma goroutine_step n g pi s : linux_ok s -> active (splicer s) -> g <> GNone ->
  moved_ok (at_splicer g (set_pipe pi (on_sock (enqueue n) s))) ->
  linux_ok (at_splicer g (set_pipe pi (on_sock (enqueue n) s))).
Proof.
  intros (Hm & Hp & Hk) Ha Hg Hm'. split; [exact Hm'|split; [|exact Hk]].
  unfold main_ok, at_splicer, set_pipe, on_sock in *. cbn in *. destruct Hp as (? & Hn & ? & Hp).
  unfold slept in *. cbn. split_and!; try done.
  - destruct (main s); try done; by rewrite Hn in Ha.
  - destruct (main s) as [| | | | | | | |i| | | |[e|]|]; try done.
    + destruct Hp as (? & ? & ? & Hd). by rewrite Hd in Ha.
    + destruct Hp as (? & [[Hd ?]|(? & ? & ? & Ho)]); [by rewrite Hd in Ha|]. split; [done|right]. split_and!; try done.
      destruct Ho as [?|Hd]; [by left|by rewrite Hd in Ha].
    + destruct Hp as (? & ? & ? & Hd & ?). by rewrite Hd in Ha.
Qed.

Lemma enqueue_0 s : at_splicer (splicer s) (set_pipe (pipe s) (on_sock (enqueue 0) s)) = s.
Proof. destruct s as [[] ? ? ? ? ? ?]. unfold at_splicer, set_pipe, on_sock, enqueue. cbn. by rewrite Z.add_0_r. Qed.

(** The same without queueing. *)
Lemma goroutine_turn g s : linux_ok s -> active (splicer s) -> g <> GNone -> moved_ok (at_splicer g s) -> linux_ok (at_splicer g s).
Proof.
  intros Hs Ha Hg Hm.
  assert (at_splicer g s = at_splicer g (set_pipe (pipe s) (on_sock (enqueue 0) s))) as E.
  { rewrite <- (enqueue_0 s) at 1. done. }
  rewrite E in Hm |- *. by apply goroutine_step.
Qed.

Lemma splice_step r s s' : linux_ok s -> splice r s = Some s' -> linux_ok s'.
Proof.
  intros Hs E. pose proof Hs as (Hm & _ & _). unfold splice in E. unfold moved_ok in Hm.
  destruct (splicer s) as [| |n|n|? ?] eqn:Eg; try done. destruct Hm as (Hq & Hn & Epl).
  assert (active (splicer s)) as Ha by (by rewrite Eg).
  destruct r as [m| | |e].
  - destruct (pipe s) as [b|] eqn:Ep; [|done]. cbn in E.
    destruct ((1 <=? m) && (m <=? n) && (m <=? b)) eqn:Eb; [|done]. injection E as <-.
    apply goroutine_step; [done..|by case_match|]. unfold moved_ok. cbn.
    destruct (Z.eqb_spec (n - m) 0); cbn; split_and?; try done; lia.
  - by injection E as <-.
  - injection E as <-. apply goroutine_turn; [done..|]. unfold moved_ok. cbn. done.
  - injection E as <-. by apply goroutine_turn.
Qed.

Lemma overwrite_more i j old : 0 <= i <= j -> i <= zlen real -> overwrite j real (overwrite i real old) = overwrite j real old.
Proof.
  intros H Hi. unfold overwrite. f_equal. unfold zlen in Hi.
  rewrite drop_app, length_take, (drop_ge (take _ _)) by (rewrite length_take; lia). cbn.
  rewrite drop_drop. f_equal. lia.
Qed.

Lemma overwrite_all old : length old = length real -> overwrite (zlen real) real old = real.
Proof. intros H. unfold overwrite, zlen. rewrite take_ge, drop_ge by lia. by rewrite app_nil_r. Qed.

Lemma copy_step n s s' : linux_ok s -> step (Copy n) s = Some s' -> linux_ok s'.
Proof.
  intros (Hm & (Ha & Hg & Hpl & Hp) & Hk) E. cbn in E. destruct (main s) as [| | | | | | | |i| | | |r|] eqn:Em; try done.
  destruct Hpl as [Epl Ed]. destruct Hp as (Ht & Hi & Hst & Hsl). rewrite Epl, zlen_fake in E.
  destruct ((1 <=? n) && (i + n <=? zlen real)) eqn:Eb; [|done]. injection E as <-.
  split; [exact Hm|split; [|exact Hk]]. unfold main_ok, at_main, on_sock. cbn. rewrite Hst, overwrite_more by lia.
  destruct (Z.eqb_spec (i + n) (zlen real)) as [El|]; split_and!; try done; try lia.
  by rewrite El, overwrite_all.
Qed.

Lemma linux_step_ok a s s' : linux_ok s -> step a s = Some s' -> linux_ok s'.
Proof.
  intros Hs E. pose proof Hs as (Hm & (Ha & Hg & Hpl & Hp) & Hk). destruct a as [d|off n|e|r| |n| |n e|e|r|e].
  - cbn in E. destruct (Z.leb_spec 0 d); [|done]. injection E as <-. apply kernel_step; cbn; auto; lia.
  - injection E as <-. apply kernel_step; [done..|cbn; lia|]. apply transmit_ok; [by apply linux_view|done].
  - by eapply call_step.
  - cbn in E. destruct (main s) eqn:Em; try done. destruct Hpl as [Epl Ed]. destruct r as [n|e]; [|injection E as <-].
    + unfold moved_ok in Hm. rewrite Hg in Hm. destruct Hm as [Hq Hu]. rewrite Epl, zlen_fake in E.
      destruct ((1 <=? n) && (n <=? zlen real)) eqn:Eb; [|done]. injection E as <-. rewrite Hu in Hk.
      split; [unfold moved_ok; cbn; split_and!; [done..|lia]|split; [|by apply start_sleeping]].
      unfold main_ok. cbn. destruct Hp. split_and!; [done..|by eexists|lia].
    + apply leave_ok; [done|apply wrapped_prints|done|by left].
  - cbn in E. destruct (main s) eqn:Em; try done. destruct (until s) as [t|] eqn:Eu; [|done].
    destruct (Z.leb_spec t (clock (sock s))); [|done]. injection E as <-.
    destruct Hp as (? & ? & _ & ?). split; [exact Hm|split; [|cbn; by rewrite Eu]].
    unfold main_ok. cbn. rewrite Eu. destruct Hpl. split_and!; try done. by exists t.
  - by eapply copy_step.
  - cbn in E. destruct (main s) eqn:Em; try done. destruct Hp as (? & ? & ?).
    destruct (splicer s) as [| |?|?|[e|] [e'|]] eqn:Eg; try done; injection E as <-.
    1-3: apply leave_ok; [done|apply wrapped_prints|done|by right].
    split; [exact Hm|split; [|exact Hk]]. unfold main_ok. cbn. destruct Hpl. by split_and!.
  - cbn in E. destruct (main s) eqn:Em; try done. destruct Hpl as [Epl Ed]. rewrite Epl in E.
    destruct ((0 <=? n) && _) eqn:Eb; [|done]. injection E as <-. destruct Hp as (? & ? & ? & Eg).
    split; [exact Hm|split; [|exact Hk]]. unfold main_ok. cbn. rewrite Ha. cbn. destruct e as [e|]; cbn.
    + split_and!; try done; [apply wrapped_prints|right]. split_and!; try done; [|by right].
      exists (drop (Z.to_nat n) rest). by rewrite take_drop.
    + split_and!; try done. apply take_ge. unfold zlen in *. lia.
  - cbn in E. destruct (splicer s) eqn:Eg; try done. injection E as <-. unfold moved_ok in Hm. rewrite Eg in Hm.
    destruct Hm as (Hq & Epl & Hn). apply goroutine_turn; [done|by rewrite Eg|by destruct e|].
    unfold moved_ok. destruct e; cbn; [done|]. rewrite Epl, zlen_fake, Hq. split_and!; [lia|done..].
  - by eapply splice_step.
  - cbn in E. destruct (splicer s) eqn:Eg; try done. injection E as <-. unfold moved_ok in Hm. rewrite Eg in Hm.
    apply goroutine_turn; [done|by rewrite Eg|by destruct e|]. unfold moved_ok. by destruct e.
Qed.

Lemma linux_run_ok acts : forall s s', linux_ok s -> run acts s = Some s' -> linux_ok s'.
Proof.
  induction acts as [|a acts IH]; intros s s' Hs E; cbn [linux_run] in E; [by injection E as <-|].
  destruct (step a s) as [s1|] eqn:E1; [|done]. eapply IH; [|exact E]. by eapply linux_step_ok.
Qed.

(** *** Returning *)

(** Nothing failed so far, and vmsplice took all the bytes. *)
Definition whole (s : linux) : Prop :=
  match splicer s with
  | GNone | GDone None None => True
  | GStart => pipe s = Some (zlen real)
  | GSplice n | GWaiting n => pipe s = Some n
  | _ => False
  end.

Definition ends (s : linux) : Prop := exists acts s', run acts s = Some s' /\ main s' = LDone None.

Lemma ends_step a s s1 : step a s = Some s1 -> ends s1 -> ends s.
Proof. intros E (acts & s' & E' & H). exists (a :: acts), s'. split; [|done]. cbn [linux_run]. by rewrite E. Qed.

Lemma ends_rest s : linux_ok s -> main s = LRest -> ends s.
Proof.
  intros (_ & (_ & _ & Hpl & _) & _) Em. rewrite Em in Hpl. destruct Hpl as [Epl _].
  eexists [WriteRest (zlen rest) None], _. cbn. rewrite Em, Epl, Z.eqb_refl.
  destruct (Z.leb_spec 0 (zlen rest)); [done|pose proof (zlen_nonneg rest); lia].
Qed.

Lemma ends_joined s : linux_ok s -> main s = LWait -> splicer s = GDone None None -> ends s.
Proof.
  intros Hs Em Eg. eapply (ends_step Join); [cbn; by rewrite Em, Eg|].
  apply ends_rest; [|done]. apply (linux_step_ok Join s); [done|]. cbn. by rewrite Em, Eg.
Qed.

Lemma ends_splicing n s : linux_ok s -> main s = LWait -> splicer s = GSplice n -> pipe s = Some n -> ends s.
Proof.
  intros Hs Em Eg Ep. pose proof Hs as (Hm & _ & _). unfold moved_ok in Hm. rewrite Eg in Hm. destruct Hm as (_ & Hn & _).
  eassert (step (Splice (Moved n)) s = Some _) as E.
  { cbn. unfold splice. rewrite Eg, Ep. cbn. rewrite Z.sub_diag, Z.leb_refl.
    destruct (Z.leb_spec 1 n); [|lia]. cbn. reflexivity. }
  eapply ends_step; [exact E|]. apply ends_joined; [by eapply linux_step_ok|done..].
Qed.

Lemma ends_wait s : linux_ok s -> whole s -> main s = LWait -> ends s.
Proof.
  intros Hs Hw Em. pose proof Hs as (Hm & (_ & _ & _ & Hp) & _). rewrite Em in Hp. destruct Hp as (_ & _ & (u & Hu & _)).
  unfold whole, moved_ok in *. destruct (splicer s) as [| |n|n|[e|] [e'|]] eqn:Eg; try done.
  - destruct Hm. congruence.
  - destruct Hm as (_ & Epl & _). eassert (step (RawWrite None) s = Some _) as E.
    { cbn. rewrite Eg, Epl, zlen_fake. reflexivity. }
    eapply ends_step; [exact E|]. eapply ends_splicing; [by eapply linux_step_ok|done..].
  - by eapply ends_splicing.
  - eassert (step (Writable None) s = Some _) as E by (cbn; rewrite Eg; reflexivity).
    eapply ends_step; [exact E|]. eapply ends_splicing; [by eapply linux_step_ok|done..].
  - by apply ends_joined.
Qed.

(** A step of desyncSend that leaves the goroutine alone. *)
Lemma ends_call s s1 : linux_ok s -> whole s -> step (Call None) s = Some s1 -> splicer s1 = splicer s ->
  (pipe s1 = pipe s \/ splicer s = GNone) -> (linux_ok s1 -> whole s1 -> ends s1) -> ends s.
Proof.
  intros Hs Hw E Eg Ep Hn. eapply ends_step; [exact E|]. apply Hn; [by eapply linux_step_ok|].
  unfold whole in *. rewrite Eg. destruct Ep as [->|E1]; [done|by rewrite E1].
Qed.

Lemma ends_set s : linux_ok s -> whole s -> main s = LSetDefault -> ends s.
Proof.
  intros Hs Hw Em. eapply (ends_call s); [done|done|cbn; unfold call; rewrite Em; reflexivity|done|by left|].
  intros. by apply ends_wait.
Qed.

Lemma ends_copy i s : linux_ok s -> whole s -> main s = LCopy i -> ends s.
Proof.
  intros Hs Hw Em. pose proof Hs as (_ & (_ & _ & Hpl & Hp) & _). rewrite Em in Hp, Hpl.
  destruct Hpl as [Epl _]. destruct Hp as (_ & Hi & _).
  eassert (step (Copy (zlen real - i)) s = Some _) as E.
  { cbn. rewrite Em, Epl, zlen_fake. replace (i + (zlen real - i)) with (zlen real) by lia.
    rewrite Z.leb_refl, Z.eqb_refl. destruct (Z.leb_spec 1 (zlen real - i)); [|lia]. cbn. reflexivity. }
  eapply ends_step; [exact E|]. apply ends_set; [by eapply linux_step_ok|done..].
Qed.

Lemma ends_sleep s : linux_ok s -> whole s -> main s = LSleep -> ends s.
Proof.
  intros Hs Hw Em. pose proof Hs as (_ & (_ & _ & Hpl & Hp) & _). rewrite Em in Hp. destruct Hp as (_ & _ & [t Et] & _).
  set (d := Z.max 0 (t - clock (sock s))).
  assert (step (Tick d) s = Some (on_sock (tick d) s)) as E1 by (cbn; by destruct (Z.leb_spec 0 d); [|lia]).
  assert (step Wake (on_sock (tick d) s) = Some (at_main (LCopy 0) (on_sock (tick d) s))) as E2.
  { cbn. rewrite Em, Et. by destruct (Z.leb_spec t (clock (sock s) + d)); [|lia]. }
  eapply ends_step; [exact E1|]. eapply ends_step; [exact E2|].
  apply (ends_copy 0); [|done..]. eapply linux_step_ok; [|exact E2]. by eapply linux_step_ok.
Qed.

Lemma ends_vmsplice s : linux_ok s -> 0 < zlen real -> main s = LVmsplice -> ends s.
Proof.
  intros Hs Hn Em. pose proof Hs as (_ & (_ & _ & Hpl & _) & _). rewrite Em in Hpl. destruct Hpl as [Epl _].
  eassert (step (Vmsplice (inl (zlen real))) s = Some _) as E.
  { cbn. rewrite Em, Epl, zlen_fake, Z.leb_refl. destruct (Z.leb_spec 1 (zlen real)); [|lia]. cbn. reflexivity. }
  eapply ends_step; [exact E|]. apply ends_sleep; [by eapply linux_step_ok|done..].
Qed.

(** Every run can end well until something fails. *)
Lemma linux_ends s : linux_ok s -> 0 < zlen real -> whole s -> match main s with LDone _ => False | _ => True end -> ends s.
Proof.
  intros Hs Hn Hw Hd. pose proof Hs as (_ & (_ & Hg & _ & Hp) & _).
  assert (forall s, linux_ok s -> whole s -> main s = LSetFake -> ends s) as H1.
  { intros s1 Hs1 Hw1 E. eapply (ends_call s1); [done|done|cbn; unfold call; rewrite E; reflexivity|done|by left|].
    intros. by apply ends_vmsplice. }
  assert (forall s, linux_ok s -> whole s -> main s = LMmap -> ends s) as H2.
  { intros s1 Hs1 Hw1 E. pose proof Hs1 as (_ & (_ & _ & Hpl & _) & _). rewrite E in Hpl. destruct Hpl as [Epl _].
    eassert (step (Call None) s1 = Some _) as E1.
    { cbn; unfold call. rewrite E, Epl, zlen_fake. destruct (Z.eqb_spec (zlen real) 0); [lia|reflexivity]. }
    eapply (ends_call s1); [done|done|exact E1|done|by left|by intros; apply H1]. }
  assert (forall s, linux_ok s -> whole s -> main s = LPipe -> ends s) as H3.
  { intros s1 Hs1 Hw1 E. pose proof Hs1 as (_ & (_ & Hg1 & _) & _). rewrite E in Hg1.
    eapply (ends_call s1); [done|done|cbn; unfold call; rewrite E; reflexivity|done|by right|by intros; apply H2]. }
  assert (forall s, linux_ok s -> whole s -> main s = LGetTTL -> ends s) as H4.
  { intros s1 Hs1 Hw1 E.
    eapply (ends_call s1); [done|done|cbn; unfold call; rewrite E, Hsplit; reflexivity|done|by left|by intros; apply H3]. }
  assert (forall s, linux_ok s -> whole s -> main s = LControl -> ends s) as H5.
  { intros s1 Hs1 Hw1 E.
    eapply (ends_call s1); [done|done|cbn; unfold call; rewrite E; reflexivity|done|by left|by intros; apply H4]. }
  destruct (main s) as [| | | | | | | |i| | | |r|] eqn:Em; try done; auto.
  - eapply (ends_call s); [done|done|cbn; unfold call; rewrite Em; reflexivity|done|by left|by intros; apply H5].
  - by apply ends_vmsplice.
  - by apply ends_sleep.
  - by eapply ends_copy.
  - by apply ends_set.
  - by apply ends_wait.
  - by apply ends_rest.
Qed.

(** *** Waiting for ever *)

Definition patient (a : laction) : bool :=
  match a with Splice (SpliceErr _) | Writable (Some _) => false | _ => true end.

(** The goroutine waits for bytes that are not in the pipe. *)
Definition starved (s : linux) : Prop :=
  main s = LWait /\ pipe s = Some 0 /\ match splicer s with GSplice _ | GWaiting _ => True | _ => False end.

Lemma starved_step a s s' : starved s -> patient a = true -> step a s = Some s' -> starved s'.
Proof.
  intros (Em & Ep & Eg) Ha E. unfold starved.
  destruct a as [d|off n|e|r| |n| |n e|e|r|e]; cbn in E; rewrite ?Em in E; try done.
  - case_match; [|done]. by injection E as <-.
  - by injection E as <-.
  - unfold call in E. by rewrite Em in E.
  - by destruct (splicer s).
  - by destruct (splicer s).
  - unfold splice in E. destruct (splicer s) as [| |n|n|? ?] eqn:Es; try done. destruct r as [m| | |e]; try done.
    + rewrite Ep in E. cbn in E. destruct ((1 <=? m) && (m <=? n) && (m <=? 0)) eqn:Eb; [lia|done].
    + injection E as <-. by rewrite Es.
    + by injection E as <-.
  - destruct (splicer s); try done. destruct e; [done|]. by injection E as <-.
Qed.

Lemma starved_run acts : forall s s', starved s -> forallb patient acts = true -> run acts s = Some s' -> starved s'.
Proof.
  induction acts as [|a acts IH]; intros s s' Hs Ha E; cbn in Ha; cbn [linux_run] in E; [by injection E as <-|].
  apply andb_prop in Ha as [Ha1 Ha2]. destruct (step a s) as [s1|] eqn:E1; [|done].
  eapply IH; [by eapply starved_step|done|done].
Qed.

(** A vmsplice that takes only [n] of the bytes. *)
Definition short_run (n : Z) : list laction :=
  [Call None; Call None; Call None; Call None; Call None; Call None; Vmsplice (inl n); RawWrite None;
   Splice (Moved n); Tick (Z.max 0 (Desync.noiseSleep p)); Wake; Copy (zlen real); Call None].

Lemma short_starves now n : 1 <= n < zlen real -> exists s, run (short_run n) (start_linux now t0) = Some s /\ starved s.
Proof.
  intros Hn. set (d := Z.max 0 (Desync.noiseSleep p)).
  assert ((zlen real =? 0) = false) as F0 by lia. assert ((1 <=? n) = true) as F1 by lia.
  assert ((n <=? zlen real) = true) as F2 by lia. assert ((zlen real - n =? 0) = false) as F3 by lia.
  assert ((0 <=? d) = true) as F4 by lia. assert ((now + Desync.noiseSleep p <=? now + d) = true) as F5 by lia.
  assert ((1 <=? zlen real) = true) as F6 by lia.
  eexists. unfold short_run, start_linux. fold d. split.
  - repeat (progress (cbn; unfold splice; rewrite ?Hsplit, ?zlen_fake, ?F0, ?F1, ?F2, ?F3, ?F4, ?F5, ?F6, ?Z.leb_refl, ?Z.eqb_refl)).
    reflexivity.
  - unfold starved. cbn. by rewrite Z.sub_diag.
Qed.
End linux_spec.

(** The abstract send of [Bridge]: the peer receives the real bytes. *)
Lemma bridge_send fp pos len ft fs p : Desync.desync_split fp pos len fs = Ret p ->
  Desync.realData p ++ Desync.remaining p = fp ->
  exists tr, Bridge.desyncSend (env := reliable) fp pos len ft fs [] = (Ret tt, tr) /\ delivered tr = fp.
Proof.
  intros E Hfp. eexists. unfold Bridge.desyncSend. rewrite E. split; [reflexivity|]. cbn. by rewrite app_nil_r.
Qed.

(** ** The theorem *)

(** C6: a fake packet on Linux, for every interleaving of desyncSend, its goroutine, the
    clock and the network card, and every failure of a call.  The server, [hops] away and
    so out of reach of the fake TTL, receives only bytes of the real packet, at their
    place; until the sleep is over the wire carries only the fake data, which has the
    packet up to the server name and then zeros if the name has a dot, and nothing leaves
    before vmsplice.  When desyncSend succeeds the whole packet is queued behind the
    restored TTL, which is what [Bridge] takes the peer to receive; it never panics, and its
    errors print.  As long as vmsplice takes everything and nothing fails it can return;
    when vmsplice takes fewer bytes, whose count the code ignores, it waits for ever. *)
Theorem noise_linux fp pos len ft fs now t0 hops acts s :
  0 <= pos -> 0 <= len -> pos + len < zlen fp -> ft < hops ->
  linux_run fp pos len ft fs acts (start_linux now t0) = Some s ->
  exists p cut found, Desync.desync_split fp pos len fs = Ret p /\
    ClientHello.findLastDot fp pos len = Ret (cut, found) /\ zlen (Desync.realData p) = cut /\
    Desync.minInterval <= Desync.noiseSleep p /\
    Desync.fakeData p = (if found then take (Z.to_nat pos) fp ++ replicate (Z.to_nat (cut - pos)) 0 else Desync.realData p) /\
    (forall pk, pk ∈ sent (sock s) ->
       (hops <= pttl pk -> matches fp pk) /\
       match until s with None => pdata pk = [] | Some u => ptime pk < u -> matches (Desync.fakeData p) pk end) /\
    (main s = LDone None -> stream (sock s) = fp /\ ttl (sock s) = t0 /\
       exists tr, Bridge.desyncSend (env := reliable) fp pos len ft fs [] = (Ret tt, tr) /\ delivered tr = stream (sock s)) /\
    (forall e, main s = LDone (Some e) -> exists m, Error e = Ret m) /\ main s <> LPanic /\
    (0 < cut -> whole p s -> match main s with LDone _ => False | _ => True end ->
       exists acts' s', linux_run fp pos len ft fs acts' s = Some s' /\ main s' = LDone None) /\
    (forall n, 1 <= n < cut -> exists s1, linux_run fp pos len ft fs (short_run p n) (start_linux now t0) = Some s1 /\
       forall acts' s', forallb patient acts' = true -> linux_run fp pos len ft fs acts' s1 = Some s' -> main s' = LWait).
Proof.
  intros Hp Hl Hlt Hh Hrun.
  destruct (Desync.desync_split_correct fp pos len fs) as (p & cut & found & Es & Ed & Hfp & Hr & Hf & Hmin & Efake); [done..|].
  assert (length (Desync.fakeData p) = length (Desync.realData p)) as Hlen by (unfold zlen in *; lia).
  pose proof (linux_run_ok fp pos len ft fs t0 p Es Hfp Hlen _ _ _ (linux_start _ _ _ _ now) Hrun) as Hs.
  pose proof Hs as (Hm & (_ & _ & _ & Hpos) & Hk). exists p, cut, found. split_and!; try done.
  - intros pk [H1 H2]%(proj1 (Forall_forall _ _) Hk). split; [|done]. intros Ht. destruct H1; [lia|done].
  - intros Em. rewrite Em in Hpos. destruct Hpos as (Ht & Hst & _ & Eg & Ha). unfold moved_ok in Hm. rewrite Eg in Hm.
    rewrite (full_stream fp p) by done. split_and!; [done..|]. by eapply bridge_send.
  - intros e Em. rewrite Em in Hpos. tauto.
  - intros Em. by rewrite Em in Hpos.
  - intros Hc Hw Hd. eapply linux_ends; [done..|lia|done|done].
  - intros n Hn. destruct (short_starves fp pos len ft fs t0 p Es Hlen now n) as (s1 & E1 & Hst); [lia|].
    exists s1. split; [done|]. intros acts' s' Ha E'. eapply starved_run; eauto.
Qed.

(** A send of the packet [1;2;"a.b";9] whose name is at 2, to a server 8 hops away. *)
Definition w_packet : bytes := [1; 2; 97; 46; 98; 9].
Definition w_acts : list laction :=
  [Call None; Call None; Call None; Call None; Call None; Call None; Vmsplice (inl 3); RawWrite None; Splice EAGAIN;
   Writable None; Splice (Moved 3); Transmit 0 3; Tick (10 ^ 8); Wake; Copy 1; Transmit 0 3; Copy 2; Call None;
   Transmit 0 3; Join; WriteRest 3 None; Transmit 3 3].

Lemma noise_linux_witness : exists s,
  linux_run w_packet 2 3 3 0 w_acts (start_linux 0 64) = Some s /\ stream (sock s) = w_packet /\
  (forall pk, pk ∈ sent (sock s) -> 8 <= pttl pk -> matches w_packet pk) /\
  map pdata (sent (sock s)) = [[1; 2; 0]; [1; 2; 0]; [1; 2; 97]; [46; 98; 9]].
Proof.
  eexists. split; [vm_compute; reflexivity|].
  match goal with |- stream (sock ?s) = _ /\ _ =>
    destruct (noise_linux w_packet 2 3 3 0 0 64 8 w_acts s) as (p & cut & found & _ & _ & _ & _ & _ & Hpk & Hd & _);
      [lia|lia|reflexivity|lia|vm_compute; reflexivity|] end.
  split; [apply Hd; reflexivity|]. split; [intros pk H; by apply Hpk|reflexivity].
Defined.

End Noise.
