(* ===== verification/NoiseWindows.v ===== *)
(** * Fake packets on Windows (src/internal/desync_windows.go)

    desyncSend and sendWithNoise where the store shared with the kernel is a temporary file
    given to TransmitFile.  The socket and the packets are those of [Noise]; desyncSend, the
    clock, the network card and the other users of the semaphore interleave in any order,
    and each call may fail. *)

From S2P Require Import Prelude GoStrings Conn ClientHello Desync Bridge Noise.

Module NoiseWindows.
Import Noise.

(** ** The program *)

(** The next call of desyncSend and sendWithNoise. *)
Inductive wpos :=
| WRaw | WControl | WGetTTL
| WCreate | WSeek1 | WWriteFake | WSync1 | WSetFake | WSeek2 | WEvent | WAcquire | WFileRaw | WTransmit
| WSleep | WSeek3 | WWriteReal | WSync2 | WSeek4 | WSetDefault | WWait
| WRest | WDone (r : option error) | WPanic.

(** What the deferred calls release: the temporary file, its handle, the event, the place
    in the semaphore. *)
Inductive resource := TempFile | FileHandle | Event | Place.
#[global] Instance resource_eq : EqDecision resource.
Proof. solve_decision. Defined.

(** [deferred] are the deferred calls, the last one first, [released] what they released;
    [places] is the capacity of the semaphore, if there is one, and [others] the places
    other connections hold. *)
Record windows := mkWindows {
  wsock : socket; wplan : Desync.desync_plan; wdefaultTTL : Z; wuntil : option Z; wmain : wpos;
  deferred : list resource; released : list resource; places : option Z; others : Z }.

(** How WaitForSingleObject ends. *)
Inductive wait_result := WAIT_OBJECT_0 | WAIT_TIMEOUT | WAIT_ABANDONED | WAIT_FAILED (e : string) | OtherEvent (v : Z) | WaitErr (e : string).

Inductive waction :=
| WTick (d : Z)
| WTransmitAt (off n : Z)
| Others (n : Z)                            (* other connections take and give back places *)
| WCall (e : option string)                  (* the next call, with its error *)
| Acquire                                   (* sem <- struct{}{} *)
| TransmitFile (e : option string)           (* [None]: nil or ERROR_IO_PENDING *)
| WWake
| WriteReal (n : Z) (e : option string)      (* tmpFile.Write(realData) wrote [n] bytes *)
| Wait (r : wait_result)
| WWriteRest (n : Z) (e : option string).

Definition w_sock (f : socket -> socket) (s : windows) : windows :=
  mkWindows (f (wsock s)) (wplan s) (wdefaultTTL s) (wuntil s) (wmain s) (deferred s) (released s) (places s) (others s).
Definition w_at (m : wpos) (s : windows) : windows :=
  mkWindows (wsock s) (wplan s) (wdefaultTTL s) (wuntil s) m (deferred s) (released s) (places s) (others s).
Definition w_defer (r : list resource) (s : windows) : windows :=
  mkWindows (wsock s) (wplan s) (wdefaultTTL s) (wuntil s) (wmain s) (r ++ deferred s) (released s) (places s) (others s).

(** sendWithNoise returns: the deferred calls run, the last one first. *)
Definition w_leave (r : option error) (s : windows) : windows :=
  mkWindows (wsock s) (wplan s) (wdefaultTTL s) (wuntil s)
    (match r with None => WRest | Some e => WDone (Some (Wrapped "send data with noise" (Some e))) end)
    [] (released s ++ deferred s) (places s) (others s).

Definition holding (s : windows) : bool := bool_decide (Place ∈ deferred s).

Section windows.
Context (firstPacket : bytes) (sniPos sniLen fakeTTL fakeSleep : Z).

Definition w_call (e : option string) (s : windows) : option windows :=
  let quit m e := w_leave (Some (wrapped m e)) s in
  let next m msg := Some (match e with None => w_at m s | Some e => quit msg e end) in
  match wmain s with
  | WRaw => Some (match e with None => w_at WControl s | Some e => w_at (WDone (Some (wrapped "get raw conn" e))) s end)
  | WControl =>
    (* return wrap("raw control", err), where err is nil *)
    Some (match e with None => w_at WGetTTL s | Some _ => w_at (WDone (Some (Wrapped "raw control" None))) s end)
  | WGetTTL =>
    Some (match e with
          | None =>
            match Desync.desync_split firstPacket sniPos sniLen fakeSleep with
            | Ret p =>
              let sized := bool_decide (length (Desync.fakeData p) = length (Desync.realData p)) in
              let s := mkWindows (wsock s) p (ttl (wsock s)) (wuntil s) WCreate (deferred s) (released s) (places s) (others s) in
              if sized then s else w_leave (Some (Plain "the length of realData must equal to that of fakeData")) s
            | _ => w_at WPanic s
            end
          | Some e => w_at (WDone (Some (wrapped "get default TTL" e))) s
          end)
  | WCreate => Some (match e with None => w_at WSeek1 (w_defer [FileHandle; TempFile] s) | Some e => quit "create temp file"%string e end)
  | WSeek1 => next WWriteFake "seek start"%string
  | WWriteFake => Some (match e with None => w_at WSync1 (w_sock (set_store (Desync.fakeData (wplan s))) s) | Some e => quit "write fake data"%string e end)
  | WSync1 => next WSetFake "sync fake data"%string
  | WSetFake => Some (match e with None => w_at WSeek2 (w_sock (set_ttl fakeTTL) s) | Some e => quit "set fake TTL"%string e end)
  | WSeek2 => next WEvent "seek start"%string
  | WEvent => Some (match e with None => w_at WAcquire (w_defer [Event] s) | Some e => quit "create event"%string e end)
  | WFileRaw => next WTransmit "get raw conn"%string
  | WSeek3 => next WWriteReal "seek start"%string
  | WSync2 => next WSeek4 "sync real data"%string
  | WSeek4 => next WSetDefault "seek start"%string
  | WSetDefault => Some (match e with None => w_at WWait (w_sock (set_ttl (wdefaultTTL s)) s) | Some e => quit "set default TTL"%string e end)
  | WTransmit =>
    (* the raw control of the file *)
    match e with Some e => Some (quit "raw control"%string e) | None => None end
  | _ => None
  end.

Definition waited (r : wait_result) : option error :=
  match r with
  | WAIT_OBJECT_0 => None
  | WAIT_TIMEOUT => Some (Plain "TransmitFile: timeout (5s)")
  | WAIT_ABANDONED => Some (Plain "TransmitFile: WAIT_ABANDONED")
  | WAIT_FAILED e => Some (wrapped "TransmitFile: WAIT_FAILED" e)
  | OtherEvent v => Some (Plain ("TransmitFile: unexpected event: " +:+ string_of_bytes (format_uint v)))
  | WaitErr e => Some (wrapped "wait for event" e)
  end.

Definition windows_step (a : waction) (s : windows) : option windows :=
  let len := zlen (Desync.fakeData (wplan s)) in
  match a with
  | WTick d => if 0 <=? d then Some (w_sock (tick d) s) else None
  | WTransmitAt off n => Some (w_sock (transmit off n) s)
  | Others n =>
    match places s with
    | Some c =>
      if (0 <=? n) && (n + (if holding s then 1 else 0) <=? c)
      then Some (mkWindows (wsock s) (wplan s) (wdefaultTTL s) (wuntil s) (wmain s) (deferred s) (released s) (places s) n)
      else None
    | None => None
    end
  | WCall e => w_call e s
  | Acquire =>
    match wmain s, places s with
    | WAcquire, None => Some (w_at WFileRaw s)
    | WAcquire, Some c => if others s <? c then Some (w_at WFileRaw (w_defer [Place] s)) else None
    | _, _ => None
    end
  | TransmitFile e =>
    match wmain s, e with
    | WTransmit, None =>
      Some (mkWindows (enqueue len (wsock s)) (wplan s) (wdefaultTTL s)
              (Some (clock (wsock s) + Desync.noiseSleep (wplan s))) WSleep (deferred s) (released s) (places s) (others s))
    | WTransmit, Some _ =>
      (* return wrap("call TransmitFile", err), where err is nil *)
      Some (w_leave (Some (Wrapped "call TransmitFile" None)) s)
    | _, _ => None
    end
  | WWake =>
    match wmain s, wuntil s with
    | WSleep, Some t => if t <=? clock (wsock s) then Some (w_at WSeek3 s) else None
    | _, _ => None
    end
  | WriteReal n e =>
    let real := Desync.realData (wplan s) in
    match wmain s with
    | WWriteReal =>
      if (0 <=? n) && (if e then n <=? zlen real else n =? zlen real)
      then
        let s := w_sock (fun k => set_store (overwrite n real (store k)) k) s in
        Some (match e with None => w_at WSync2 s | Some e => w_leave (Some (wrapped "write real data" e)) s end)
      else None
    | _ => None
    end
  | Wait r => match wmain s with WWait => Some (w_leave (waited r) s) | _ => None end
  | WWriteRest n e =>
    let rest := Desync.remaining (wplan s) in
    match wmain s with
    | WRest =>
      if (0 <=? n) && (if e then n <=? zlen rest else n =? zlen rest)
      then Some (w_at (WDone (wrapped "send remaining data" <$> e)) (w_sock (append (take (Z.to_nat n) rest)) s))
      else None
    | _ => None
    end
  end.

Fixpoint windows_run (acts : list waction) (s : windows) : option windows :=
  match acts with
  | [] => Some s
  | a :: acts => s ← windows_step a s; windows_run acts s
  end.
End windows.

Definition start_windows (now t : Z) (places : option Z) (others : Z) : windows :=
  mkWindows (new_socket now t) no_plan 0 None WRaw [] [] places others.

(** ** The invariant *)

Section windows_spec.
Context (fp : bytes) (pos len ft fs t0 : Z) (cap : option Z) (p : Desync.desync_plan).
Hypothesis Hsplit : Desync.desync_split fp pos len fs = Ret p.
Hypothesis Hfp : Desync.realData p ++ Desync.remaining p = fp.
Hypothesis Hlen : length (Desync.fakeData p) = length (Desync.realData p).

Notation fake := (Desync.fakeData p).
Notation real := (Desync.realData p).
Notation rest := (Desync.remaining p).
Notation step := (windows_step fp pos len ft fs).
Notation run := (windows_run fp pos len ft fs).

(** The phases of a send. *)
Definition before_send (m : wpos) : bool :=
  match m with
  | WRaw | WControl | WGetTTL | WCreate | WSeek1 | WWriteFake | WSync1 | WSetFake | WSeek2 | WEvent | WAcquire | WFileRaw | WTransmit => true
  | _ => false
  end.

(** The deferred calls where desyncSend stands. *)
Definition files : list resource := [FileHandle; TempFile].
Definition defers (m : wpos) : list resource :=
  match m with
  | WRaw | WControl | WGetTTL | WCreate | WRest | WDone _ | WPanic => []
  | WSeek1 | WWriteFake | WSync1 | WSetFake | WSeek2 | WEvent => files
  | WAcquire => Event :: files
  | _ => (if cap then [Place] else []) ++ Event :: files
  end.

(** The errors a failed send can leave; two have a nil cause. *)
Definition error_ok (e : error) : Prop :=
  (exists m, Error e = Ret m) \/ e = Wrapped "raw control" None \/
  e = Wrapped "send data with noise" (Some (Wrapped "call TransmitFile" None)).

Definition wmain_ok (s : windows) : Prop :=
  let k := wsock s in
  match wmain s with WDone _ => True | _ => after k = [] end /\
  (before_send (wmain s) = true -> queued k = 0 /\ wuntil s = None) /\
  match wmain s with
  | WRaw | WControl | WGetTTL | WDone (Some _) => True
  | _ => wplan s = p /\ wdefaultTTL s = t0
  end /\
  match wmain s with
  | WRaw | WControl | WGetTTL | WCreate | WSeek1 | WWriteFake => ttl k = t0
  | WSync1 | WSetFake => ttl k = t0 /\ store k = fake
  | WSeek2 | WEvent | WAcquire | WFileRaw | WTransmit => ttl k = ft /\ store k = fake
  | WSleep => ttl k = ft /\ store k = fake /\ is_Some (wuntil s) /\ queued k = zlen real
  | WSeek3 | WWriteReal => ttl k = ft /\ store k = fake /\ slept (wuntil s) k /\ queued k = zlen real
  | WSync2 | WSeek4 | WSetDefault => ttl k = ft /\ store k = real /\ slept (wuntil s) k /\ queued k = zlen real
  | WWait | WRest => ttl k = t0 /\ store k = real /\ slept (wuntil s) k /\ queued k = zlen real
  | WDone None => ttl k = t0 /\ store k = real /\ slept (wuntil s) k /\ queued k = zlen real /\ after k = rest
  | WDone (Some e) => error_ok e /\
      (queued k = 0 /\ after k = [] /\ wuntil s = None \/ slept (wuntil s) k /\ ttl k = ft \/
       slept (wuntil s) k /\ store k = real /\ queued k = zlen real /\ after k `prefix_of` rest)
  | WPanic => False
  end.

(** The resources: what is deferred, and in which order it was released. *)
Definition resources_ok (s : windows) : Prop :=
  places s = cap /\ deferred s = defers (wmain s) /\
  match wmain s with
  | WRest | WDone None => released s = (if cap then [Place] else []) ++ Event :: files
  | WDone (Some _) => released s ∈ [[]; files; Event :: files; Place :: Event :: files]
  | _ => released s = []
  end.

Lemma released_all : (if cap then [Place] else []) ++ Event :: files ∈ [[]; files; Event :: files; Place :: Event :: files].
Proof. apply list_elem_of_In. destruct cap; cbn; tauto. Qed.
Lemma released_none : [] ∈ [[]; files; Event :: files; Place :: Event :: files].
Proof. apply list_elem_of_In. cbn. tauto. Qed.

Definition windows_ok (s : windows) : Prop :=
  wmain_ok s /\ resources_ok s /\ Forall (packet_ok fp ft p (wuntil s)) (sent (wsock s)).

Lemma windows_start now n : windows_ok (start_windows now t0 cap n).
Proof. repeat split; try done. Qed.

Lemma windows_view s : windows_ok s -> view_ok fp ft p (wuntil s) (wsock s).
Proof.
  intros ((Ha & Hb & _ & Hp) & _). destruct (wmain s) as [| | | | | | | | | | | | | | | | | | | | |[e|]|]; cbn in Hb.
  1-13: destruct (Hb eq_refl); by apply view_quiet.
  - destruct Hp as (? & ? & [u Eu] & ?). apply view_faking; [done..|congruence].
  - destruct Hp as (? & ? & ? & ?). by apply view_mixing.
  - destruct Hp as (? & ? & ? & ?). by apply view_mixing.
  - destruct Hp as (? & ? & ? & ?). by apply view_mixing.
  - destruct Hp as (? & ? & ? & ?). by apply view_mixing.
  - destruct Hp as (? & ? & ? & ?). by apply view_mixing.
  - destruct Hp as (? & ? & ? & ?). apply view_real; [done..| |by left]. rewrite Ha. apply prefix_nil.
  - destruct Hp as (? & ? & ? & ?). apply view_real; [done..| |by left]. rewrite Ha. apply prefix_nil.
  - destruct Hp as (_ & [(? & ? & ?)|[(? & ?)|(? & ? & ? & ?)]]); [by apply view_quiet|by apply view_mixing|].
    apply view_real; auto.
  - destruct Hp as (? & ? & ? & ? & Hr). apply view_real; auto. by rewrite Hr.
  - done.
Qed.

Lemma w_kernel_step f s : windows_ok s -> store (f (wsock s)) = store (wsock s) -> ttl (f (wsock s)) = ttl (wsock s) ->
  queued (f (wsock s)) = queued (wsock s) -> after (f (wsock s)) = after (wsock s) -> clock (wsock s) <= clock (f (wsock s)) ->
  Forall (packet_ok fp ft p (wuntil s)) (sent (f (wsock s))) -> windows_ok (w_sock f s).
Proof.
  intros (Hp & Hr & _) E1 E2 E3 E4 E5 Hk.
  assert (slept (wuntil s) (wsock s) -> slept (wuntil s) (f (wsock s))) as Hsl by (intros (u & ? & ?); exists u; split; [done|lia]).
  split; [|by split]. unfold wmain_ok, w_sock in *. cbn [wsock wplan wdefaultTTL wuntil wmain] in *.
  destruct Hp as (? & ? & ? & Hp). rewrite E4, E3, E2, E1. split_and!; [done..|].
  destruct (wmain s) as [| | | | | | | | | | | | | | | | | | | | |[e|]|]; naive_solver.
Qed.

(** sendWithNoise returns an error: every deferred call runs. *)
Lemma w_leave_ok e s : windows_ok s -> error_ok (Wrapped "send data with noise" (Some e)) ->
  match wmain s with WRest | WDone _ | WPanic => False | _ => True end ->
  (before_send (wmain s) = true \/ slept (wuntil s) (wsock s) /\ (ttl (wsock s) = ft \/ store (wsock s) = real /\ queued (wsock s) = zlen real)) ->
  windows_ok (w_leave (Some e) s).
Proof.
  intros ((Ha & Hb & _) & (Hc & Hd & Hr) & Hk) He Hm Ho. split; [|split; [|exact Hk]].
  - unfold wmain_ok, w_leave. cbn. split_and!; [done..|].
    assert (after (wsock s) = []) as Ha' by (by destruct (wmain s)). rewrite Ha'.
    destruct Ho as [Ho|[Hs [?|[? ?]]]].
    + destruct (Hb Ho). auto.
    + auto.
    + right. right. split_and!; [done..|apply prefix_nil].
  - unfold resources_ok, w_leave. cbn. split_and!; [done..|]. rewrite Hd.
    assert (released s = []) as -> by (by destruct (wmain s)). cbn.
    destruct (wmain s); try done; first [apply released_all|apply list_elem_of_In; cbn; tauto].
Qed.

Lemma wrapped_error_ok m e : error_ok (Wrapped "send data with noise" (Some (wrapped m e))).
Proof. left. by eexists. Qed.

(** One call succeeds: the socket and the resources of the next position. *)
Lemma w_next m k d s : windows_ok s -> sent k = sent (wsock s) ->
  wmain_ok (w_at m (w_defer d (w_sock (fun _ => k) s))) ->
  match wmain s, m with WRest, _ | WDone _, _ | _, WRest | _, WDone _ => False | _, _ => True end ->
  d ++ defers (wmain s) = defers m -> windows_ok (w_at m (w_defer d (w_sock (fun _ => k) s))).
Proof.
  intros (_ & (Hc & Hd & Hr) & Hk) Es Hm Hx Hdef. split; [exact Hm|split; [|cbn; by rewrite Es]].
  unfold resources_ok. cbn. rewrite Hd. split_and!; [done..|]. destruct (wmain s), m; done.
Qed.

Lemma w_same s : w_defer [] (w_sock (fun _ => wsock s) s) = s.
Proof. by destruct s. Qed.

Lemma w_turn m s : windows_ok s -> wmain_ok (w_at m s) ->
  match wmain s, m with WRest, _ | WDone _, _ | _, WRest | _, WDone _ => False | _, _ => True end ->
  defers (wmain s) = defers m -> windows_ok (w_at m s).
Proof. intros Hs Hm Hx Hd. rewrite <- (w_same s) in Hm |- *. by apply w_next. Qed.

Ltac w_ok := unfold wmain_ok; cbn; naive_solver.

Lemma w_call_step e s s' : windows_ok s -> w_call fp pos len ft fs e s = Some s' -> windows_ok s'.
Proof.
  intros Hs E. pose proof Hs as ((Ha & Hb & Hpl & Hp) & (Hc & Hd & Hr) & Hk). unfold w_call in E.
  destruct (wmain s) as [| | | | | | | | | | | | | | | | | | | | |r|] eqn:Em; try done; cbn in Hb.
  all: destruct e as [e|]; try done; injection E as <-.
  all: try (apply w_leave_ok; rewrite ?Em; [done|apply wrapped_error_ok|done|cbn; naive_solver]).
  all: try (apply w_turn; rewrite ?Em; [done|w_ok|done|done]).
  - split; [unfold wmain_ok; cbn|split; [|exact Hk]].
    + destruct (Hb eq_refl). split_and!; try done. left. by eexists. auto.
    + unfold resources_ok. cbn. rewrite Hd, Hr. split_and!; try done. apply released_none.
  - split; [unfold wmain_ok; cbn|split; [|exact Hk]].
    + destruct (Hb eq_refl). split_and!; try done. right. by left. auto.
    + unfold resources_ok. cbn. rewrite Hd, Hr. split_and!; try done. apply released_none.
  - split; [unfold wmain_ok; cbn|split; [|exact Hk]].
    + destruct (Hb eq_refl). split_and!; try done. left. by eexists. auto.
    + unfold resources_ok. cbn. rewrite Hd, Hr. split_and!; try done. apply released_none.
  - rewrite Hsplit. rewrite bool_decide_eq_true_2 by done.
    split; [w_ok|split; [|exact Hk]]. unfold resources_ok. cbn. rewrite Hd, Hr. done.
  - apply (w_next WSeek1 (wsock s) [FileHandle; TempFile] s); rewrite ?Em; [done|done|w_ok|done|done].
  - destruct Hpl as [Epl Ed]. rewrite Epl. apply (w_next WSync1 (set_store fake (wsock s)) [] s); rewrite ?Em; [done|done|w_ok|done|done].
  - apply (w_next WSeek2 (set_ttl ft (wsock s)) [] s); rewrite ?Em; [done|done|w_ok|done|done].
  - apply (w_next WAcquire (wsock s) [Event] s); rewrite ?Em; [done|done|w_ok|done|done].
  - destruct Hpl as [Epl Ed]. rewrite Ed. apply (w_next WWait (set_ttl t0 (wsock s)) [] s); rewrite ?Em; [done|done|w_ok|done|done].
Qed.

Lemma w_write_step n e s s' : windows_ok s -> step (WriteReal n e) s = Some s' -> windows_ok s'.
Proof.
  intros Hs E. pose proof Hs as ((Ha & Hb & Hpl & Hp) & (Hc & Hd & Hr) & Hk). cbn in E.
  destruct (wmain s) as [| | | | | | | | | | | | | | | | | | | | |r|] eqn:Em; try done.
  destruct Hpl as [Epl Ed], Hp as (Ht & Hst & Hsl & Hq). rewrite Epl in E.
  destruct ((0 <=? n) && _) eqn:Eb; [|done]. injection E as <-. destruct e as [e|].
  - split; [unfold wmain_ok; cbn|split; [|exact Hk]].
    + split_and!; try done; [apply wrapped_error_ok|]. auto.
    + unfold resources_ok. cbn. rewrite Hd, Hr. split_and!; try done. apply released_all.
  - assert (n = zlen real) as -> by lia.
    apply (w_next WSync2 (set_store (overwrite (zlen real) real (store (wsock s))) (wsock s)) [] s); rewrite ?Em; [done|done| |done|done].
    unfold wmain_ok. cbn. rewrite Hst, (overwrite_all p) by done. by split_and!.
Qed.

Lemma windows_step_ok a s s' : windows_ok s -> step a s = Some s' -> windows_ok s'.
Proof.
  intros Hs E. pose proof Hs as ((Ha & Hb & Hpl & Hp) & (Hc & Hd & Hr) & Hk). destruct a as [d|off n|n|e| |e| |n e|r|n e].
  - cbn in E. destruct (Z.leb_spec 0 d); [|done]. injection E as <-. apply w_kernel_step; cbn; auto; lia.
  - injection E as <-. apply w_kernel_step; [done..|cbn; lia|]. apply transmit_ok; [by apply windows_view|done].
  - cbn in E. destruct (places s) as [c|] eqn:Ec; [|done]. destruct ((0 <=? n) && _); [|done]. injection E as <-.
    split; [exact (proj1 Hs)|split; [|exact Hk]]. unfold resources_ok. cbn. done.
  - by eapply w_call_step.
  - cbn in E. destruct (wmain s) as [| | | | | | | | | | | | | | | | | | | | |r|] eqn:Em; try done.
    destruct (places s) as [c|] eqn:Ec; [case_match; [|done]|]; injection E as <-.
    + apply (w_next WFileRaw (wsock s) [Place] s); rewrite ?Em; [done|done|w_ok|done|cbn; by rewrite <- Hc].
    + apply w_turn; rewrite ?Em; [done|w_ok|done|cbn; by rewrite <- Hc].
  - cbn in E. destruct (wmain s) as [| | | | | | | | | | | | | | | | | | | | |r|] eqn:Em; try done. cbn in Hb.
    destruct (Hb eq_refl) as [Hq Hu], Hpl as [Epl Ed]. destruct e as [e|]; injection E as <-.
    + apply w_leave_ok; rewrite ?Em; [done|right; by right|done|by left].
    + rewrite Hu in Hk. split; [|split; [|by apply start_sleeping]].
      * unfold wmain_ok. cbn. rewrite Epl, Hq. destruct Hp. split_and!; try done. unfold zlen. lia.
      * unfold resources_ok. cbn. by rewrite Hd, Hr.
  - cbn in E. destruct (wmain s) as [| | | | | | | | | | | | | | | | | | | | |r|] eqn:Em; try done.
    destruct (wuntil s) as [t|] eqn:Eu; [|done]. destruct (Z.leb_spec t (clock (wsock s))); [|done]. injection E as <-.
    apply w_turn; rewrite ?Em; [done| |done|done]. unfold wmain_ok. cbn. rewrite Eu.
    destruct Hp as (? & ? & ? & ?), Hpl. split_and!; try done. by exists t.
  - by eapply w_write_step.
  - cbn in E. destruct (wmain s) as [| | | | | | | | | | | | | | | | | | | | |r'|] eqn:Em; try done. injection E as <-.
    destruct (waited r) as [e|] eqn:Ew.
    + apply w_leave_ok; rewrite ?Em; [done| |done|right; tauto]. left. destruct r; simplify_eq/=; by eexists.
    + split; [w_ok|split; [|exact Hk]]. unfold resources_ok. cbn. by rewrite Hd, Hr.
  - cbn in E. destruct (wmain s) as [| | | | | | | | | | | | | | | | | | | | |r'|] eqn:Em; try done.
    destruct Hpl as [Epl Ed]. rewrite Epl in E. destruct ((0 <=? n) && _) eqn:Eb; [|done]. injection E as <-.
    destruct Hp as (? & ? & ? & ?). split; [|split; [|exact Hk]].
    + unfold wmain_ok. cbn. rewrite Ha. cbn. destruct e as [e|]; cbn; split_and!; try done.
      * left. by eexists.
      * right. right. split_and!; try done. exists (drop (Z.to_nat n) rest). by rewrite take_drop.
      * apply take_ge. unfold zlen in *. lia.
    + unfold resources_ok. cbn. rewrite Hd, Hr. destruct e; cbn; split_and!; try done. apply released_all.
Qed.

Lemma windows_run_ok acts : forall s s', windows_ok s -> run acts s = Some s' -> windows_ok s'.
Proof.
  induction acts as [|a acts IH]; intros s s' Hs E; cbn [windows_run] in E; [by injection E as <-|].
  destruct (step a s) as [s1|] eqn:E1; [|done]. eapply IH; [|exact E]. by eapply windows_step_ok.
Qed.

(** *** Resources *)

(** What a call acquires when it succeeds: CreateTemp a file and its handle, CreateEvent an
    event, and the send on the semaphore's channel, where there is one, a place. *)
Definition acquires (a : waction) (s : windows) : list resource :=
  match wmain s, a with
  | WCreate, WCall None => [TempFile; FileHandle]
  | WEvent, WCall None => [Event]
  | WAcquire, Acquire => if places s then [Place] else []
  | _, _ => []
  end.
(** What a run acquires, in order. *)
Fixpoint acquired (acts : list waction) (s : windows) : list resource :=
  match acts with
  | [] => []
  | a :: acts => acquires a s ++ match step a s with Some s => acquired acts s | None => [] end
  end.

Lemma resources_step a s s' : windows_ok s -> step a s = Some s' ->
  released s' ++ deferred s' = rev (acquires a s) ++ released s ++ deferred s.
Proof.
  intros (_ & (_ & _ & Hr) & _) E. unfold acquires. destruct a as [d|off n|n|e| |e| |n e|r|n e]; cbn in E.
  - case_match; [|done]. injection E as <-. by destruct (wmain s).
  - injection E as <-. by destruct (wmain s).
  - destruct (places s) eqn:?; [|done]. destruct ((0 <=? n) && _); [|done]. injection E as <-. by destruct (wmain s).
  - unfold w_call in E. destruct (wmain s) eqn:Em; try done; destruct e as [e|]; try done; injection E as <-; cbn; rewrite ?app_nil_r; try done.
    + rewrite Hsplit. by case_bool_decide; cbn; rewrite ?app_nil_r.
    + by rewrite Hr.
    + by rewrite Hr.
  - destruct (wmain s); try done. destruct (places s); [case_match; [|done]|]; injection E as <-; cbn; by rewrite Hr.
  - destruct (wmain s); try done. destruct e; injection E as <-; cbn; by rewrite ?app_nil_r.
  - destruct (wmain s); try done. destruct (wuntil s); [|done]. case_match; [|done]. by injection E as <-.
  - destruct (wmain s); try done. destruct ((0 <=? n) && _); [|done]. injection E as <-. destruct e; cbn; by rewrite ?app_nil_r.
  - destruct (wmain s); try done. injection E as <-. cbn. by rewrite app_nil_r.
  - destruct (wmain s); try done. destruct ((0 <=? n) && _); [|done]. by injection E as <-.
Qed.

(** What was acquired is deferred, or was released, the last acquired first. *)
Lemma resources_run acts : forall s s', windows_ok s -> run acts s = Some s' ->
  released s' ++ deferred s' = rev (acquired acts s) ++ released s ++ deferred s.
Proof.
  induction acts as [|a acts IH]; intros s s' Hs E; cbn [windows_run acquired] in *; [by injection E as <-|].
  destruct (step a s) as [s1|] eqn:E1; [|done]. rewrite rev_app_distr, <- app_assoc.
  rewrite (IH s1 s'), (resources_step a s s1); try done. by eapply windows_step_ok.
Qed.

(** *** Returning *)

Definition own (a : waction) : bool := match a with WTick _ | WTransmitAt _ _ | Others _ => false | _ => true end.

Definition calls_left (m : wpos) : Z :=
  match m with
  | WRaw => 21 | WControl => 20 | WGetTTL => 19 | WCreate => 18 | WSeek1 => 17 | WWriteFake => 16 | WSync1 => 15
  | WSetFake => 14 | WSeek2 => 13 | WEvent => 12 | WAcquire => 11 | WFileRaw => 10 | WTransmit => 9 | WSleep => 8
  | WSeek3 => 7 | WWriteReal => 6 | WSync2 => 5 | WSeek4 => 4 | WSetDefault => 3 | WWait => 2 | WRest => 1
  | WDone _ | WPanic => 0
  end.

Lemma calls_step a s s' : step a s = Some s' -> calls_left (wmain s') + (if own a then 1 else 0) <= calls_left (wmain s).
Proof.
  intros E. destruct a as [d|off n|n|e| |e| |n e|r|n e]; cbn [own].
  - cbn in E. case_match; [|done]. injection E as <-. cbn. lia.
  - injection E as <-. cbn. lia.
  - cbn in E. destruct (places s); [|done]. destruct ((0 <=? n) && _); [|done]. injection E as <-. cbn. lia.
  - cbn in E. unfold w_call in E. destruct (wmain s); try done; destruct e; try done; injection E as <-; cbn; try lia.
    destruct (Desync.desync_split _ _ _ _); [case_match|..]; cbn; lia.
  - cbn in E. destruct (wmain s); try done. destruct (places s); [case_match; [|done]|]; injection E as <-; cbn; lia.
  - cbn in E. destruct (wmain s); try done. destruct e; injection E as <-; cbn; lia.
  - cbn in E. destruct (wmain s); try done. destruct (wuntil s); [|done]. case_match; [|done]. injection E as <-. cbn. lia.
  - cbn in E. destruct (wmain s); try done. destruct ((0 <=? n) && _); [|done]. injection E as <-. destruct e; cbn; lia.
  - cbn in E. destruct (wmain s); try done. injection E as <-. destruct (waited r); cbn; lia.
  - cbn in E. destruct (wmain s); try done. destruct ((0 <=? n) && _); [|done]. injection E as <-. cbn. lia.
Qed.

(** The calls desyncSend makes are at most 21. *)
Lemma calls_run acts : forall s s', run acts s = Some s' ->
  calls_left (wmain s') + zlen (filter (fun a => own a = true) acts) <= calls_left (wmain s).
Proof.
  induction acts as [|a acts IH]; intros s s' E; cbn [windows_run] in E; [injection E as <-; rewrite filter_nil, zlen_nil; lia|].
  destruct (step a s) as [s1|] eqn:E1; [|done]. apply IH in E. apply calls_step in E1.
  rewrite filter_cons. destruct (own a) eqn:Ea; [rewrite decide_True by done|rewrite decide_False by done]; rewrite ?zlen_cons; lia.
Qed.

(** Until it returns it can go on, except while other connections hold every place. *)
Lemma windows_progress s : windows_ok s -> match wmain s with WDone _ => False | _ => True end ->
  (wmain s = WAcquire /\ exists c, cap = Some c /\ c <= others s) \/
  exists d a s', own a = true /\ run [WTick d; a] s = Some s'.
Proof.
  intros ((_ & _ & Hpl & Hp) & (Hc & _ & _) & _) Hm.
  assert (forall a s', own a = true -> step a (w_sock (tick 0) s) = Some s' ->
    exists d a s', own a = true /\ run [WTick d; a] s = Some s') as Hnow.
  { intros a s' Ha E. exists 0, a, s'. split; [done|]. cbn [windows_run windows_step]. cbn. by rewrite E. }
  destruct (wmain s) as [| | | | | | | | | | | | | | | | | | | | |r|] eqn:Em; try done.
  1-10: right; eapply (Hnow (WCall None)); [done|cbn; unfold w_call; cbn; rewrite Em; reflexivity].
  - destruct cap as [c|] eqn:Ec.
    + destruct (Z.ltb_spec (others s) c) as [Hlt|]; [right|left; split; [done|by exists c]].
      eapply (Hnow Acquire); [done|]. cbn. rewrite Em, Hc. destruct (Z.ltb_spec (others s) c); [reflexivity|lia].
    + right. eapply (Hnow Acquire); [done|]. cbn. rewrite Em, Hc. reflexivity.
  - right; eapply (Hnow (WCall None)); [done|cbn; unfold w_call; cbn; rewrite Em; reflexivity].
  - right; eapply (Hnow (TransmitFile None)); [done|cbn; rewrite Em; reflexivity].
  - right. destruct Hp as (_ & _ & [t Et] & _). exists (Z.max 0 (t - clock (wsock s))), WWake. eexists. split; [done|].
    cbn. destruct (Z.leb_spec 0 (Z.max 0 (t - clock (wsock s)))); [|lia]. cbn. rewrite Em, Et.
    destruct (Z.leb_spec t (clock (wsock s) + Z.max 0 (t - clock (wsock s)))); [reflexivity|lia].
  - right; eapply (Hnow (WCall None)); [done|cbn; unfold w_call; cbn; rewrite Em; reflexivity].
  - right; eapply (Hnow (WriteReal (zlen real) None)); [done|]. cbn. destruct Hpl as [-> _]. rewrite Em, Z.eqb_refl.
    destruct (Z.leb_spec 0 (zlen real)); [reflexivity|pose proof (zlen_nonneg real); lia].
  - right; eapply (Hnow (WCall None)); [done|cbn; unfold w_call; cbn; rewrite Em; reflexivity].
  - right; eapply (Hnow (WCall None)); [done|cbn; unfold w_call; cbn; rewrite Em; reflexivity].
  - right; eapply (Hnow (WCall None)); [done|cbn; unfold w_call; cbn; rewrite Em; reflexivity].
  - right; eapply (Hnow (Wait WAIT_OBJECT_0)); [done|cbn; rewrite Em; reflexivity].
  - right; eapply (Hnow (WWriteRest (zlen rest) None)); [done|]. cbn. destruct Hpl as [-> _]. rewrite Em, Z.eqb_refl.
    destruct (Z.leb_spec 0 (zlen rest)); [reflexivity|pose proof (zlen_nonneg rest); lia].
Qed.
End windows_spec.

(** ** The theorem *)


Definition w_wacts : list waction :=
  [WCall None; WCall None; WCall None; WCall None; WCall None; WCall None; WCall None; WCall None; WCall None; WCall None;
   Acquire; WCall None; TransmitFile None; WTransmitAt 0 3; WTick (10 ^ 8); WWake; WCall None; WriteReal 3 None; WCall None;
   WCall None; WCall None; WTransmitAt 0 3; Wait WAIT_OBJECT_0; WWriteRest 3 None].


End NoiseWindows.
