(* ===== verification/Tunnel.v ===== *)
(** * Tunnels (src/internal/tunnel.go)

    What happens to a client connection once a proxy handler has accepted it: the
    first packet is inspected through a buffered reader and sent on as the policy
    says, then both directions are copied until they end.

    The state is the reader, the traces of the two connections, the core's state
    and the TTL cache.  The variable [dstConn] of the code is a boolean: whether it
    holds the connection to the target or nil.  The HTTP codec of net/http is an
    interface. *)

From S2P Require Import Prelude GoStrings GoState Conn NetIP FakeIP AddrTrie Policy Route IPPool Core Dns Plan.
From S2P Require Import ClientHello Fragment Desync Bridge.

Module Tunnel.
Import AddrTrie Policy Route Plan.

(** ** The buffered reader (bufio.NewReader: 4096 bytes) *)

(** Buffered bytes and the segments still to arrive; after the last one the client
    has closed its side.  One Read of the connection returns bytes of one segment. *)
Record reader := mkReader { rbuf : bytes; rsegs : list bytes }.

Definition bufSize : Z := 4096.

Definition NewReader (segs : list bytes) : reader := mkReader [] segs.

(** Everything the reader will still deliver. *)
Definition stream (r : reader) : bytes := rbuf r ++ mjoin (rsegs r).

(** [br.Peek(n)]: fill until [n] bytes are buffered; an error when the stream ends before. *)
Fixpoint fill (n : Z) (buf : bytes) (segs : list bytes) : reader :=
  if n <=? zlen buf then mkReader buf segs
  else match segs with
       | [] => mkReader buf []
       | s :: segs =>
         let room := bufSize - zlen buf in
         if zlen s <=? room then fill n (buf ++ s) segs
         else mkReader (buf ++ take (Z.to_nat room) s) (drop (Z.to_nat room) s :: segs)
       end.
Definition Peek (n : Z) (r : reader) : option bytes * reader :=
  let r := fill n (rbuf r) (rsegs r) in
  (if n <=? zlen (rbuf r) then Some (take (Z.to_nat n) (rbuf r)) else None, r).

(** [br.Read(p)] with bytes buffered: one copy out of the buffer. *)
Definition Read (n : Z) (r : reader) : bytes * reader :=
  (take (Z.to_nat n) (rbuf r), mkReader (drop (Z.to_nat n) (rbuf r)) (rsegs r)).

(** utils.go: bytesHasPrefix. *)
Fixpoint bytesHasPrefix (b : bytes) (prefixes : list string) : go bool :=
  match prefixes with
  | [] => Ret false
  | prefix :: prefixes =>
    let! s := slice_to b (zlen (bytes_of_string prefix)) in
    if bool_decide (s = bytes_of_string prefix) then Ret true else bytesHasPrefix b prefixes
  end.

Definition http_methods : list string :=
  ["GET "; "POST "; "HEAD "; "PUT "; "DELETE "; "OPTIONS "; "TRACE "; "PATCH "]%string.

(** utils.go: isUseOfClosedConn, on the error's message. *)
Definition isUseOfClosedConn (err : string) : bool := bool_decide (is_Some (String.index 0 "use of closed" err)).

(** ** HTTP messages, as far as the code looks at them *)

Record Request := mkReq {
  Method : string; reqHost : string; Scheme : string; urlHost : string;
  RequestURI : string; reqProto : string; Header : gmap string (list string)
}.
Record Response := mkResp { Status : string; StatusCode : Z; respProto : string; Location : option string }.

(** net/http: reading a request off a stream, the pieces a request (with its body
    read from the stream) and a response are written in, and the status texts. *)
Class HTTP := {
  ReadRequest : bytes -> (Request + string) * bytes;
  RequestWrite : Request -> bytes -> list bytes * option string * bytes;
  ResponseWrite : Response -> list bytes;
  StatusText : Z -> string
}.

(** ** State *)

Section tunnel.
Context {L : LRU} {ord : RangeOrder} {names : DNSNames} {H : HTTP}.
(** When sends to the client and to the target fail. *)
Context (cenv denv : Env).
Context (probe : string -> Z -> nat -> Desync.dialres) (dialTCP : string -> Z -> option string).
Context (cfg : config) (w : world).

Record tunnel := mkTunnel {
  rd : reader; cli : list event; dst : option (list event); kern : core; ttls : Desync.ttl_state
}.

Definition T : Type -> Type := St tunnel.

Definition reading {A} (f : reader -> A * reader) : T A := fun s =>
  let (a, r) := f (rd s) in (Ret a, mkTunnel r (cli s) (dst s) (kern s) (ttls s)).

(** [_, err := m] on the client connection. *)
Definition to_cli {A} (m : net A) : T (option string) := fun s =>
  let (r, tr) := m (cli s) in
  (match r with Ret _ => Ret None | Err e => Ret (Some e) | Panic => Panic end,
   mkTunnel (rd s) tr (dst s) (kern s) (ttls s)).

(** The same on [dstConn]; a nil one panics. *)
Definition to_dst {A} (dstConn : bool) (m : net A) : T (option string) := fun s =>
  match dst s with
  | Some tr =>
    if dstConn then
      let (r, tr) := m tr in
      (match r with Ret _ => Ret None | Err e => Ret (Some e) | Panic => Panic end,
       mkTunnel (rd s) (cli s) (Some tr) (kern s) (ttls s))
    else (Panic, s)
  | None => (Panic, s)
  end.

(** An operation of the core. *)
Definition on_core {A} (m : M A) : T (A + string) := fun s =>
  let (r, k) := attempt m (kern s) in (r, mkTunnel (rd s) (cli s) (dst s) k (ttls s)).

(** [net.DialTimeout("tcp", target, timeout)]: the error, or a fresh connection. *)
Definition DialTimeout (target : string) (timeout : Z) : T (option string) := fun s =>
  match dialTCP target timeout with
  | Some e => (Ret (Some e), s)
  | None => (Ret None, mkTunnel (rd s) (cli s) (Some []) (kern s) (ttls s))
  end.

(** [if replyFirst { dstConn, err = net.DialTimeout(...) }]: [None] on an error. *)
Definition late_dial (replyFirst : bool) (target : string) (timeout : Z) (dstConn : bool) : T (option bool) :=
  if replyFirst then
    err <~ DialTimeout target timeout ;
    stret (match err with Some _ => None | None => Some true end)
  else stret (Some dstConn).

(** The bare [return] of handleTLS and handleHTTP: a nil connection and false. *)
Definition give_in : T (bool * bool) := stret (false, false).

Definition sendTLSAlert (prtVer : option bytes) (desc level : Z) : T unit :=
  alert <~ stlift (Bridge.tls_alert prtVer desc level) ;
  to_cli (write (env := cenv) Bridge.plain_err alert) ~; stret tt.

(** domainMatcher.Find and the policy merged from it. *)
Definition policy_for (host : string) : go Policy :=
  match domainMatcher (routes cfg) with
  | None => Panic
  | Some m =>
    Ret match Find m host with
        | Some domainPolicy => mergePolicies [domainPolicy; defaultPolicy cfg]
        | None => defaultPolicy cfg
        end
  end.

(** getFakeTTL; on an error the TTL is -1 and the caller goes on. *)
Definition fake_ttl (p : Policy) (target : string) : T Z := fun s =>
  let (r, t) := Desync.getFakeTTL probe (ttls s) (FakeTTL p) (MaxTTL p) (Attempts p) target in
  (match r with Ret ttl => Ret ttl | Err _ => Ret (-1) | Panic => Panic end,
   mkTunnel (rd s) (cli s) (dst s) (kern s) t).

(** The final switch of handleTLS. *)
Definition send_hello (p : Policy) (target : string) (dstConn : bool) (record : bytes) (sniPos sniLen : Z)
    : T (option string) :=
  match pMode p with
  | ModeDirect => to_dst dstConn (write (env := denv) Bridge.plain_err record)
  | ModeTLSRF =>
    to_dst dstConn (Fragment.sendRecords (env := denv) record sniPos sniLen (NumRecords p) (NumSegments p)
      (bool_decide (OOB p = BoolTrue)) (bool_decide (OOBEx p = BoolTrue))
      (bool_decide (ModMinorVer p = BoolTrue)) (SendInterval p))
  | ModeTTLD =>
    stlift (idx (bytes_of_string target) 0) ~;
    ttl <~ fake_ttl p target ;
    to_dst dstConn (Bridge.desyncSend (env := denv) record sniPos sniLen ttl (FakeSleep p))
  | _ => stret None
  end.

(** The verdict of the server name's own policy: [Some] if it blocks. *)
Definition sni_verdict (originHost sniStr : string) : go (option Mode) :=
  if decide (originHost = sniStr) then Ret None
  else
    let! sniPolicy := policy_for sniStr in
    Ret (if bool_decide (pMode sniPolicy = ModeBlock \/ pMode sniPolicy = ModeTLSAlert)
         then Some (pMode sniPolicy) else None).

(** handleTLS once the record is read. *)
Definition handle_hello (record : bytes) (p : Policy) (replyFirst : bool) (originHost target : string)
    (dstConn : bool) : T (bool * bool) :=
  h <~ stlift (ClientHello.parseClientHello record) ;
  match ClientHello.herr h with
  | Some _ => give_in
  | None =>
    let sniPos := ClientHello.sniPos h in
    let sniLen := ClientHello.sniLen h in
    if decide (pMode p = ModeTLSAlert) then
      sendTLSAlert (ClientHello.prtVer h) Bridge.tlsAlertAccessDenied Bridge.tlsAlertLevelFatal ~; give_in
    else if decide (TLS13Only p = BoolTrue /\ ClientHello.hasKeyShare h = false) then
      sendTLSAlert (ClientHello.prtVer h) Bridge.tlsAlertProtocolVersion Bridge.tlsAlertLevelFatal ~; give_in
    else if (sniPos <=? 0) || (sniLen <=? 0) then
      conn <~ late_dial replyFirst target (ConnectTimeout p) dstConn ;
      match conn with
      | None => give_in
      | Some dstConn =>
        err <~ to_dst dstConn (write (env := denv) Bridge.plain_err record) ;
        if Bridge.isSome err then give_in else stret (dstConn, true)
      end
    else
      sniStr <~ stlift (slice record sniPos (sniPos + sniLen)) ;
      verdict <~ stlift (sni_verdict originHost (string_of_bytes sniStr)) ;
      match verdict with
      | Some ModeTLSAlert =>
        sendTLSAlert (ClientHello.prtVer h) Bridge.tlsAlertAccessDenied Bridge.tlsAlertLevelFatal ~; give_in
      | Some _ => give_in
      | None =>
        conn <~ late_dial replyFirst target (ConnectTimeout p) dstConn ;
        match conn with
        | None => give_in
        | Some dstConn =>
          err <~ send_hello p target dstConn record sniPos sniLen ;
          if Bridge.isSome err then give_in else stret (dstConn, true)
        end
      end
  end.

Definition handleTLS (recordLen : Z) (p : Policy) (replyFirst : bool) (originHost target : string)
    (dstConn : bool) : T (bool * bool) :=
  record <~ reading (Read recordLen) ;
  if zlen record <? recordLen then give_in
  else handle_hello record p replyFirst originHost target dstConn.

(** ** Plain HTTP *)

(** The policy handleHTTP applies to [host]; [None] when the redirection fails. *)
Definition http_policy (host : string) : T (option Policy) :=
  p <~ stlift (policy_for host) ;
  match Host p with
  | None | Some EmptyString => stret (Some p)
  | Some target =>
    if HasPrefix target "^" then stret (Some p)
    else
      r <~ on_core (ipRedirect cfg w true target) ;
      match r with
      | inr _ => stret None
      | inl (_, None) => stret (Some p)
      | inl (_, Some ipPolicy) => stret (Some (mergePolicies [p; ipPolicy; defaultPolicy cfg]))
      end
  end.

(** [resp.Write(cliConn)]; an error is only logged. *)
Definition respond (resp : Response) : T unit :=
  to_cli (nfor 0 (ResponseWrite resp) (fun _ b => write (env := cenv) Bridge.plain_err b)) ~; stret tt.

(** [req.Write(dstConn)]: the body is read from the reader. *)
Definition forward_request (req : Request) (dstConn : bool) : T (option string) :=
  out <~ reading (fun r => let '(pieces, e, rest) := RequestWrite req (stream r) in
                           ((pieces, e), NewReader [rest])) ;
  err <~ to_dst dstConn (nfor 0 (fst out) (fun _ b => write (env := denv) Bridge.plain_err b)) ;
  stret (match err with Some e => Some e | None => snd out end).

Definition handleHTTP (req : Request) (replyFirst : bool) (originHost target : string) (dstConn : bool)
    : T (bool * bool) :=
  let host := if decide (reqHost req = "")%string
              then (if decide (urlHost req = "")%string then originHost else urlHost req)
              else reqHost req in
  policy <~ http_policy host ;
  match policy with
  | None => give_in
  | Some p =>
    if (HttpStatus p =? 0) || (HttpStatus p =? -1) then
      conn <~ late_dial replyFirst target (ConnectTimeout p) dstConn ;
      match conn with
      | None => respond (mkResp "502 Bad Gateway" 502 (reqProto req) None) ~; give_in
      | Some dstConn =>
        err <~ forward_request req dstConn ;
        if Bridge.isSome err then give_in else stret (dstConn, true)
      end
    else
      let statusLine := (Itoa (HttpStatus p) +:+ " " +:+ StatusText (HttpStatus p))%string in
      let location := if (HttpStatus p =? 301) || (HttpStatus p =? 302)
                      then Some ("https://" +:+ host +:+ RequestURI req)%string else None in
      respond (mkResp statusLine (HttpStatus p) (reqProto req) location) ~; give_in
  end.

(** ** The tunnel *)

(** closeBoth; errors are only logged. *)
Definition closeBoth (dstConn : bool) (s : tunnel) : tunnel :=
  let close env tr := snd (perform (env := env) Bridge.plain_err EvClose tr) in
  mkTunnel (rd s) (close cenv (cli s))
    (if dstConn then close denv <$> dst s else dst s) (kern s) (ttls s).

(** handleTunnel up to the two copies: the value of [dstConn] and whether to go on. *)
Definition first_packet (p : Policy) (replyFirst : bool) (target originHost : string) (dstConn : bool)
    : T (bool * bool) :=
  if decide (pMode p = ModeRaw) then
    conn <~ late_dial replyFirst target (ConnectTimeout p) dstConn ;
    stret (match conn with None => (false, false) | Some dstConn => (dstConn, true) end)
  else
    peeked <~ reading (Peek 10) ;
    match peeked with
    | None => stret (dstConn, false)
    | Some peekBytes =>
      b0 <~ stlift (idx peekBytes 0) ;
      b1 <~ stlift (idx peekBytes 1) ;
      if (b0 =? 0x16) && (b1 =? 0x03) then
        len <~ stlift (be16_at peekBytes 3) ;
        handleTLS (5 + len) p replyFirst originHost target dstConn
      else
        plain <~ stlift (bytesHasPrefix peekBytes http_methods) ;
        if plain then
          req <~ reading (fun r => let (q, rest) := ReadRequest (stream r) in (q, NewReader [rest])) ;
          match req with
          | inl req => handleHTTP req replyFirst originHost target dstConn
          | inr _ => stret (dstConn, true)
          end
        else stret (dstConn, true)
    end.

(** How handleTunnel leaves the first packet: closed, or copying both ways, the rest
    of the client's bytes first from the reader's buffer. *)
Inductive outcome := Closed | Copying (rest : bytes).

(** handleTunnel up to the copies, with the deferred closeBoth where it ends before;
    the type assertion on a nil [dstConn] panics. *)
Definition handleTunnel (p : Policy) (replyFirst : bool) (target originHost : string) (dstConn : bool)
    (s : tunnel) : go outcome * tunnel :=
  match first_packet p replyFirst target originHost dstConn s with
  | (Ret (true, true), s) => (Ret (Copying (stream (rd s))), s)
  | (Ret (false, true), s) => (Panic, closeBoth false s)
  | (Ret (conn, false), s) => (Ret Closed, closeBoth conn s)
  | (Err e, s) => (Err e, closeBoth dstConn s)
  | (Panic, s) => (Panic, closeBoth dstConn s)
  end.
End tunnel.


(** ** The reader *)

Lemma fill_spec n segs : n <= bufSize -> forall buf, zlen buf <= bufSize ->
  let r := fill n buf segs in
  stream r = buf ++ mjoin segs /\ zlen (rbuf r) <= bufSize /\
  (n <= zlen (rbuf r) <-> n <= zlen (buf ++ mjoin segs)).
Proof.
  intros Hn. induction segs as [|s segs IH]; intros buf Hb; cbn [fill].
  { destruct (Z.leb_spec n (zlen buf)); unfold stream; cbn [rbuf rsegs]; rewrite ?app_nil_r; done. }
  destruct (Z.leb_spec n (zlen buf)) as [Hle|Hlt].
  { unfold stream. cbn [rbuf rsegs]. rewrite zlen_app. pose proof (zlen_nonneg (mjoin (s :: segs))).
    split; [done|]. split; [done|]. lia. }
  rewrite mjoin_cons. destruct (Z.leb_spec (zlen s) (bufSize - zlen buf)) as [Hs|Hs].
  { rewrite app_assoc. apply IH. rewrite zlen_app. lia. }
  unfold stream. cbn [rbuf rsegs]. rewrite mjoin_cons, <- app_assoc, (app_assoc (take _ s)), take_drop.
  split; [done|]. pose proof (zlen_nonneg (mjoin segs)). rewrite !zlen_app. unfold zlen in *. rewrite length_take. lia.
Qed.

(** What Peek(10) has buffered, and that the peeked bytes are those of the stream. *)
Definition buffered (segs : list bytes) : bytes := rbuf (fill 10 [] segs).
Definition unread (segs : list bytes) : list bytes := rsegs (fill 10 [] segs).

Lemma buffered_stream segs : buffered segs ++ mjoin (unread segs) = mjoin segs.
Proof. apply (fill_spec 10 segs); done. Qed.

Lemma buffered_size segs : zlen (buffered segs) <= bufSize /\ (10 <= zlen (buffered segs) <-> 10 <= zlen (mjoin segs)).
Proof. apply (fill_spec 10 segs); done. Qed.

Lemma buffered_ok segs : bytes_ok (mjoin segs) -> bytes_ok (buffered segs).
Proof. rewrite <- (buffered_stream segs). intros [? _]%Forall_app. done. Qed.

Lemma peek_spec segs : Peek 10 (NewReader segs) =
  (if 10 <=? zlen (mjoin segs) then Some (take 10 (mjoin segs)) else None, mkReader (buffered segs) (unread segs)).
Proof.
  unfold Peek, NewReader. cbn [rbuf rsegs]. unfold buffered, unread.
  destruct (fill 10 [] segs) as [b u] eqn:E. cbn [rbuf rsegs].
  pose proof (buffered_size segs) as [_ Hs]. pose proof (buffered_stream segs) as Hst.
  unfold buffered, unread in *. rewrite E in *. cbn [rbuf rsegs] in *. f_equal.
  destruct (Z.leb_spec 10 (zlen b)), (Z.leb_spec 10 (zlen (mjoin segs))); try (exfalso; tauto || lia); try done.
  rewrite <- Hst, take_app_le; [done|]. unfold zlen in *. lia.
Qed.

Lemma bytesHasPrefix_spec b ps : (forall p, p ∈ ps -> zlen (bytes_of_string p) <= zlen b) ->
  bytesHasPrefix b ps = Ret (bool_decide (Exists (fun p => bytes_of_string p `prefix_of` b) ps)).
Proof.
  induction ps as [|p ps IH]; intros Hp; cbn [bytesHasPrefix].
  { rewrite bool_decide_eq_false_2; [done|]. by intros ?%Exists_nil. }
  pose proof (Hp p ltac:(constructor)) as Hl. unfold slice_to.
  rewrite slice_in_range by (pose proof (zlen_nonneg (bytes_of_string p)); lia). cbn [go_bind].
  rewrite Z.sub_0_r. change (Z.to_nat 0) with 0%nat. rewrite drop_0. unfold zlen. rewrite Nat2Z.id.
  destruct (decide (bytes_of_string p `prefix_of` b)) as [Hx|Hx].
  - rewrite !bool_decide_eq_true_2; [done|by constructor|]. destruct Hx as [k ->]. by rewrite take_app_length.
  - rewrite (bool_decide_eq_false_2 (take _ _ = _)).
    2:{ intros E. apply Hx. exists (drop (length (bytes_of_string p)) b). by rewrite <- E at 1; rewrite take_drop. }
    rewrite IH by (intros; apply Hp; by constructor). f_equal. apply bool_decide_ext.
    rewrite Exists_cons. naive_solver.
Qed.

(** Is the stream a plain HTTP request by its first bytes? *)
Definition http_start (b : bytes) : Prop := Exists (fun m => bytes_of_string m `prefix_of` b) http_methods.
#[global] Instance http_start_dec b : Decision (http_start b).
Proof. unfold http_start. apply _. Defined.

Lemma prefix_of_take {A} (p b : list A) n : (length p <= n)%nat -> p `prefix_of` take n b <-> p `prefix_of` b.
Proof.
  intros Hl. split.
  - intros [k E]. exists (k ++ drop n b). by rewrite app_assoc, <- E, take_drop.
  - intros [k ->]. exists (take (n - length p) k). rewrite take_app. by rewrite (take_ge p).
Qed.

Lemma http_methods_short m : m ∈ http_methods -> (length (bytes_of_string m) <= 10)%nat.
Proof.
  intros Hm. assert (forallb (fun m => Nat.leb (length (bytes_of_string m)) 10) http_methods = true) as Ha by reflexivity.
  rewrite forallb_forall in Ha. apply Nat.leb_le, Ha. by apply list_elem_of_In.
Qed.

Lemma http_start_spec b : 10 <= zlen b ->
  bytesHasPrefix (take 10 b) http_methods = Ret (bool_decide (http_start b)).
Proof.
  intros Hl. rewrite bytesHasPrefix_spec.
  - f_equal. apply bool_decide_ext. unfold http_start. rewrite !Exists_exists.
    split; intros (m & Hm & Hp); exists m; (split; [done|]); by apply (prefix_of_take _ _ 10); [apply http_methods_short|].
  - intros m Hm%http_methods_short. unfold zlen in *. rewrite length_take. lia.
Qed.


(** ** The first packet *)

Section spec.
Context {L : LRU} {ord : RangeOrder} {names : DNSNames} {H : HTTP}.
Context (cenv denv : Env) (probe : string -> Z -> nat -> Desync.dialres) (dialTCP : string -> Z -> option string).
Context (cfg : config) (w : world).
Context (p : Policy) (replyFirst : bool) (target originHost : string).

(** A tunnel as the proxies start it: the target is connected already unless the
    policy answers the client first. *)
Definition start (segs : list bytes) (k : core) (t : Desync.ttl_state) : tunnel :=
  mkTunnel (NewReader segs) [] (if replyFirst then None else Some []) k t.

Notation first_packet := (first_packet cenv denv probe dialTCP cfg w p replyFirst target originHost (negb replyFirst)).
Notation handle_hello := (handle_hello cenv denv probe dialTCP cfg).
Notation handleTunnel := (handleTunnel cenv denv probe dialTCP cfg w p replyFirst target originHost (negb replyFirst)).

Lemma tls_start_prefix a b : 2 <= zlen a -> Bridge.tls_start (a ++ b) = Bridge.tls_start a.
Proof. destruct a as [|x [|y a]]; [unfold zlen; simpl; lia..|done]. Qed.

Lemma first_packet_short segs k t : pMode p <> ModeRaw -> zlen (mjoin segs) < 10 ->
  first_packet (start segs k t) =
  (Ret (negb replyFirst, false),
   mkTunnel (mkReader (buffered segs) (unread segs)) [] (if replyFirst then None else Some []) k t).
Proof.
  intros Hm Hl. unfold Tunnel.first_packet. rewrite decide_False by done. unfold stbind at 1, reading, start.
  cbn [rd]. rewrite peek_spec. by rewrite (proj2 (Z.leb_gt _ _)).
Qed.

Lemma be16_at_3 b0 b1 v a b q : be16_at (b0 :: b1 :: v :: a :: b :: q) 3 = Ret (be16 a b).
Proof.
  unfold be16_at. rewrite (idx_app _ [b0; b1; v] (b :: q) a) by done.
  by rewrite (idx_app _ [b0; b1; v; a] q b) by done.
Qed.

(** One Read takes the record only if it is all in the buffer. *)
Lemma handleTLS_read v a b q u c d k t : bytes_ok (22 :: 3 :: v :: a :: b :: q) ->
  let buf := 22 :: 3 :: v :: a :: b :: q in
  let s r := mkTunnel r c d k t in
  handleTLS cenv denv probe dialTCP cfg (5 + be16 a b) p replyFirst originHost target (negb replyFirst)
    (s (mkReader buf u)) =
  match Bridge.first_record buf with
  | None => (Ret (false, false), s (mkReader [] u))
  | Some r => handle_hello r p replyFirst originHost target (negb replyFirst) (s (mkReader (drop (length r) buf) u))
  end.
Proof.
  intros Ho buf s. unfold handleTLS, stbind, reading, Read, s. cbn [rd rbuf rsegs cli dst kern ttls].
  assert (0 <= be16 a b) as Hp.
  { unfold be16. pose proof (Forall_lookup_1 _ _ 3 a Ho eq_refl). pose proof (Forall_lookup_1 _ _ 4 b Ho eq_refl).
    unfold is_byte in *. lia. }
  cbn [Bridge.first_record buf]. fold buf. destruct (Z.leb_spec (5 + be16 a b) (zlen buf)) as [Hle|Hlt].
  - rewrite (proj2 (Z.ltb_ge _ _)) by (unfold zlen in *; rewrite length_take; lia).
    by rewrite length_take, Nat.min_l by (unfold zlen in *; lia).
  - rewrite (proj2 (Z.ltb_lt _ _)) by (unfold zlen in *; rewrite length_take; lia).
    by rewrite drop_ge by (unfold zlen in *; lia).
Qed.

(** With ten bytes there, the protocol is chosen by the first bytes of the stream. *)
Lemma first_packet_spec segs k t : pMode p <> ModeRaw -> bytes_ok (mjoin segs) -> 10 <= zlen (mjoin segs) ->
  let s r := mkTunnel r [] (if replyFirst then None else Some []) k t in
  first_packet (start segs k t) =
  if Bridge.tls_start (mjoin segs) then
    match Bridge.first_record (buffered segs) with
    | None => (Ret (false, false), s (mkReader [] (unread segs)))
    | Some r => handle_hello r p replyFirst originHost target (negb replyFirst)
                  (s (mkReader (drop (length r) (buffered segs)) (unread segs)))
    end
  else if decide (http_start (mjoin segs)) then
    match ReadRequest (mjoin segs) with
    | (inl req, rest) => handleHTTP cenv denv dialTCP cfg w req replyFirst originHost target (negb replyFirst)
                           (s (NewReader [rest]))
    | (inr _, rest) => (Ret (negb replyFirst, true), s (NewReader [rest]))
    end
  else (Ret (negb replyFirst, true), s (mkReader (buffered segs) (unread segs))).
Proof.
  intros Hm Ho Hl s. pose proof (buffered_size segs) as [_ [_ Hb]]. specialize (Hb Hl).
  pose proof (buffered_ok segs Ho) as Hob. pose proof (buffered_stream segs) as Hst.
  pose proof (http_start_spec (mjoin segs) Hl) as Hh.
  unfold Tunnel.first_packet. rewrite decide_False by done. unfold stbind at 1, reading at 1, start.
  cbn [rd cli dst kern ttls]. rewrite peek_spec. rewrite (proj2 (Z.leb_le _ _)) by done.
  rewrite <- Hst in Hh |- *. rewrite tls_start_prefix by lia.
  assert (take 10 (buffered segs ++ mjoin (unread segs)) = take 10 (buffered segs)) as Ht.
  { rewrite take_app_le; [done|]. unfold zlen in Hb. lia. }
  rewrite Ht in Hh |- *. change (mkTunnel (mkReader (buffered segs) (unread segs)) [] _ k t)
    with (s (mkReader (buffered segs) (unread segs))).
  destruct (buffered segs) as [|b0 [|b1 [|v [|a [|b q]]]]] eqn:EB; try (unfold zlen in Hb; simpl in Hb; lia).
  change (take 10 (b0 :: b1 :: v :: a :: b :: q)) with (b0 :: b1 :: v :: a :: b :: take 5 q) in *.
  rewrite (idx_app _ [] _ b0), (idx_app _ [b0] _ b1) by done.
  unfold stbind at 1 2, stlift at 1 2. cbn [Bridge.tls_start]. destruct ((b0 =? 22) && (b1 =? 3)) eqn:E.
  - apply andb_prop in E as [->%Z.eqb_eq ->%Z.eqb_eq]. unfold stbind at 1, stlift. rewrite be16_at_3.
    apply handleTLS_read; [done..|]. by destruct replyFirst.
  - unfold stbind at 1, stlift. rewrite Hh. destruct (decide _) as [Hd|Hd].
    + rewrite bool_decide_eq_true_2 by done. unfold stbind, reading. cbn [rd s].
      change (stream (mkReader (b0 :: b1 :: v :: a :: b :: q) (unread segs)))
        with ((b0 :: b1 :: v :: a :: b :: q) ++ mjoin (unread segs)).
      by destruct (ReadRequest _) as [[req|e] rest].
    + by rewrite bool_decide_eq_false_2.
Qed.
End spec.


(** ** Verdicts on a ClientHello *)

Section verdict.
Context {L : LRU} {ord : RangeOrder} {names : DNSNames} {H : HTTP}.
Context (denv : Env) (probe : string -> Z -> nat -> Desync.dialres) (dialTCP : string -> Z -> option string).
Context (cfg : config) (w : world).
Context (p : Policy) (replyFirst : bool) (target originHost : string).

Definition server_name (h : ClientHello.hello) (r : bytes) : option string :=
  if (ClientHello.sniPos h <=? 0) || (ClientHello.sniLen h <=? 0) then None
  else Some (string_of_bytes (take (Z.to_nat (ClientHello.sniLen h)) (drop (Z.to_nat (ClientHello.sniPos h)) r))).

(** The mode of the rules for a server name other than the host that was asked for. *)
Definition name_mode (name : string) : option Mode :=
  if decide (name = originHost) then None
  else
    m ← domainMatcher (routes cfg);
    Some (pMode (match Find m name with
                 | Some dp => mergePolicies [dp; defaultPolicy cfg]
                 | None => defaultPolicy cfg
                 end)).

(** Refused, and the TLS alert for the client if one is sent: access_denied (70) or
    protocol_version (49). *)
Definition refusal (h : ClientHello.hello) (r : bytes) : option (option Z) :=
  if decide (pMode p = ModeTLSAlert) then Some (Some 70)
  else if decide (TLS13Only p = BoolTrue /\ ClientHello.hasKeyShare h = false) then Some (Some 49)
  else match server_name h r ≫= name_mode with
       | Some ModeTLSAlert => Some (Some 70)
       | Some ModeBlock => Some None
       | _ => None
       end.

Lemma name_mode_verdict name m : domainMatcher (routes cfg) = Some m ->
  sni_verdict cfg originHost name = Ret (mode ← name_mode name;
    match mode with ModeBlock | ModeTLSAlert => Some mode | _ => None end).
Proof.
  intros Em. unfold sni_verdict, policy_for, name_mode. rewrite Em.
  destruct (decide (originHost = name)) as [E|E]; [by rewrite decide_True by done|]. rewrite decide_False by (by intros ->). cbn.
  case_bool_decide as Hb.
  - by destruct Hb as [-> | ->].
  - by destruct (pMode _); naive_solver.
Qed.

Definition alert_bytes (version : bytes) (desc : Z) : bytes := [0x15] ++ version ++ [0; 2; 2; desc].

Definition farewell (version : bytes) (alert : option Z) : list event :=
  match alert with Some desc => [EvWrite (alert_bytes version desc)] | None => [] end.

(** How an accepted ClientHello goes out in the modes that do not probe the TTL. *)
Definition hello_action (h : ClientHello.hello) (r : bytes) : net unit :=
  match server_name h r, pMode p with
  | Some _, ModeTLSRF =>
    Fragment.sendRecords (env := denv) r (ClientHello.sniPos h) (ClientHello.sniLen h) (NumRecords p) (NumSegments p)
      (bool_decide (OOB p = BoolTrue)) (bool_decide (OOBEx p = BoolTrue))
      (bool_decide (ModMinorVer p = BoolTrue)) (SendInterval p)
  | _, _ => write (env := denv) Bridge.plain_err r
  end.

Notation handle_hello := (handle_hello reliable denv probe dialTCP cfg).

Lemma server_name_slice h r : bytes_ok r -> 5 <= zlen r -> ClientHello.parseClientHello r = Ret h ->
  0 < ClientHello.sniPos h -> 0 < ClientHello.sniLen h ->
  exists b, slice r (ClientHello.sniPos h) (ClientHello.sniPos h + ClientHello.sniLen h) = Ret b /\
    server_name h r = Some (string_of_bytes b).
Proof.
  intros Ho Hl E Hp Hn. destruct (ClientHello.parseClientHello_total r Ho Hl) as (h' & E' & Hin & _).
  rewrite E in E'. injection E' as <-. destruct Hin as [[Hx _]|(? & ? & ?)]; [lia|].
  rewrite slice_in_range by lia. eexists. split; [done|]. unfold server_name.
  rewrite (proj2 (Z.leb_gt _ _)), (proj2 (Z.leb_gt _ _)) by lia. cbn [orb]. by replace (_ + _ - _) with (ClientHello.sniLen h) by lia.
Qed.

Lemma sendTLSAlert_run v1 v2 desc s :
  sendTLSAlert reliable (Some [v1; v2]) desc Bridge.tlsAlertLevelFatal s =
  (Ret tt, mkTunnel (rd s) (cli s ++ [EvWrite (alert_bytes [v1; v2] desc)]) (dst s) (kern s) (ttls s)).
Proof. done. Qed.

Lemma refused_hello r h v1 v2 a s : bytes_ok r -> 5 <= zlen r -> ClientHello.parseClientHello r = Ret h ->
  ClientHello.herr h = None -> ClientHello.prtVer h = Some [v1; v2] -> refusal h r = Some a ->
  handle_hello r p replyFirst originHost target (negb replyFirst) s =
  (Ret (false, false), mkTunnel (rd s) (cli s ++ farewell [v1; v2] a) (dst s) (kern s) (ttls s)).
Proof.
  intros Ho Hl E He Hv HR. unfold Tunnel.handle_hello, stbind at 1, stlift at 1. rewrite E, He, Hv. cbv zeta.
  unfold refusal in HR. destruct (decide (pMode p = ModeTLSAlert)).
  { injection HR as <-. unfold stbind at 1. by rewrite sendTLSAlert_run. }
  destruct (decide (_ /\ _)).
  { injection HR as <-. unfold stbind at 1. by rewrite sendTLSAlert_run. }
  destruct ((ClientHello.sniPos h <=? 0) || (ClientHello.sniLen h <=? 0)) eqn:Ec.
  { unfold server_name in HR. by rewrite Ec in HR. }
  apply orb_false_elim in Ec as [?%Z.leb_gt ?%Z.leb_gt].
  destruct (server_name_slice h r) as (b & Es & En); [done..|].
  rewrite En in HR. unfold stbind at 1 2, stlift at 1 2. rewrite Es. cbn [mbind option_bind] in HR.
  assert (is_Some (domainMatcher (routes cfg))) as [dm Edm].
  { unfold name_mode in HR. destruct (decide (string_of_bytes b = originHost)); [done|]. by destruct (domainMatcher (routes cfg)). }
  rewrite (name_mode_verdict (string_of_bytes b) dm Edm). destruct (name_mode (string_of_bytes b)) as [m|]; [|done]. cbn [mbind option_bind].
  assert (give_in (L := L) s = (Ret (false, false), mkTunnel (rd s) (cli s ++ []) (dst s) (kern s) (ttls s))) as Hg.
  { rewrite app_nil_r. by destruct s. }
  by destruct m; simplify_eq.
Qed.

(** A record the parser rejects ends it: nothing is dialled and nothing is sent. *)
Lemma rejected_hello r h e s : ClientHello.parseClientHello r = Ret h -> ClientHello.herr h = Some e ->
  handle_hello r p replyFirst originHost target (negb replyFirst) s = (Ret (false, false), s).
Proof. intros E He. unfold Tunnel.handle_hello, stbind, stlift. by rewrite E, He. Qed.

Lemma accepted_hello r h tr s : bytes_ok r -> 5 <= zlen r -> ClientHello.parseClientHello r = Ret h ->
  ClientHello.herr h = None -> is_Some (domainMatcher (routes cfg)) -> refusal h r = None ->
  pMode p = ModeDirect \/ pMode p = ModeTLSRF ->
  (replyFirst = true -> dialTCP target (ConnectTimeout p) = None) ->
  (replyFirst = false -> dst s = Some []) ->
  hello_action h r [] = (Ret tt, tr) ->
  handle_hello r p replyFirst originHost target (negb replyFirst) s =
  (Ret (true, true), mkTunnel (rd s) (cli s) (Some tr) (kern s) (ttls s)).
Proof.
  intros Ho Hl E He [m Hdm] HR Hm Hd Hs HA. unfold Tunnel.handle_hello, stbind at 1, stlift at 1. rewrite E, He. cbv zeta.
  unfold refusal in HR. destruct (decide (pMode p = ModeTLSAlert)); [done|]. destruct (decide (_ /\ _)); [done|].
  set (s1 := mkTunnel (rd s) (cli s) (Some []) (kern s) (ttls s)).
  assert (late_dial dialTCP replyFirst target (ConnectTimeout p) (negb replyFirst) s = (Ret (Some true), s1)) as HL.
  { unfold late_dial, s1. destruct replyFirst; [|by rewrite <- Hs by done; destruct s].
    unfold stbind, DialTimeout. by rewrite Hd. }
  unfold hello_action in HA.
  destruct ((ClientHello.sniPos h <=? 0) || (ClientHello.sniLen h <=? 0)) eqn:Ec.
  { unfold server_name in HA. rewrite Ec in HA. unfold stbind at 1. rewrite HL. unfold stbind, to_dst. cbn [dst s1].
    by rewrite HA. }
  apply orb_false_elim in Ec as [?%Z.leb_gt ?%Z.leb_gt].
  destruct (server_name_slice h r) as (b & Es & En); [done..|]. rewrite En in HR, HA.
  unfold stbind at 1 2, stlift at 1 2. rewrite Es, (name_mode_verdict _ m Hdm). cbn [mbind option_bind] in HR |- *.
  assert ((mode ← name_mode (string_of_bytes b); match mode with ModeBlock | ModeTLSAlert => Some mode | _ => None end) = None) as ->.
  { destruct (name_mode (string_of_bytes b)) as [[]|]; done. }
  unfold stbind at 1. rewrite HL. unfold stbind at 1, send_hello, to_dst.
  destruct Hm as [Hm|Hm]; rewrite Hm in *; cbn [dst s1]; by rewrite HA.
Qed.

(** C22: The first packet decides, and of TLS only a ClientHello wholly buffered passes.
    Outside raw mode, on a client connection that does not fail and whatever the
    segments the client's bytes arrive in: fewer than ten bytes end the tunnel and
    close what was opened.  A TLS record that the one read behind the peek has not
    buffered whole (later segments, or more than 4096 bytes) ends it with nothing
    sent on, and so does a record that is no ClientHello the parser accepts; a ClientHello
    that the mode, the TLS 1.3 requirement or the rules for its server name refuse ends it
    with at most the alert to the client.  In these cases the client is closed and the
    connection to the target stays as it was, open if it had been dialled.  An accepted one goes out as its mode says, and
    it and the bytes left to copy are the stream.  A first packet that is neither TLS
    nor HTTP is left to be copied whole, unless the policy answers the client
    first: then nothing has been dialled and the handler panics. *)
Theorem tunnel_first_packet (segs : list bytes) k t :
  pMode p <> ModeRaw -> bytes_ok (mjoin segs) ->
  let target_conn := if replyFirst then None else Some [] in
  let run := handleTunnel reliable denv probe dialTCP cfg w p replyFirst target originHost (negb replyFirst)
               (start replyFirst segs k t) in
  (zlen (mjoin segs) < 10 ->
     fst run = Ret Closed /\ cli (snd run) = [EvClose] /\
     forall tr, dst (snd run) = Some tr -> Forall (fun e => e = EvClose) tr) /\
  (10 <= zlen (mjoin segs) -> Bridge.tls_start (mjoin segs) = true ->
     (Bridge.first_record (buffered segs) = None ->
        fst run = Ret Closed /\ cli (snd run) = [EvClose] /\ dst (snd run) = target_conn) /\
     (Bridge.first_record (mjoin segs) = None -> Bridge.first_record (buffered segs) = None) /\
     (forall r, Bridge.first_record (mjoin segs) = Some r -> bufSize < zlen r ->
        Bridge.first_record (buffered segs) = None) /\
     (forall r h e, Bridge.first_record (buffered segs) = Some r ->
        ClientHello.parseClientHello r = Ret h -> ClientHello.herr h = Some e ->
        fst run = Ret Closed /\ cli (snd run) = [EvClose] /\ dst (snd run) = target_conn) /\
     (forall r h v1 v2 a, Bridge.first_record (buffered segs) = Some r ->
        ClientHello.parseClientHello r = Ret h -> ClientHello.herr h = None ->
        ClientHello.prtVer h = Some [v1; v2] -> refusal h r = Some a ->
        fst run = Ret Closed /\ cli (snd run) = farewell [v1; v2] a ++ [EvClose] /\
        dst (snd run) = target_conn) /\
     (forall r h tr, Bridge.first_record (buffered segs) = Some r ->
        ClientHello.parseClientHello r = Ret h -> ClientHello.herr h = None ->
        is_Some (domainMatcher (routes cfg)) -> refusal h r = None ->
        pMode p = ModeDirect \/ pMode p = ModeTLSRF ->
        (replyFirst = true -> dialTCP target (ConnectTimeout p) = None) ->
        hello_action h r [] = (Ret tt, tr) ->
        exists rest, fst run = Ret (Copying rest) /\ r ++ rest = mjoin segs /\
          cli (snd run) = [] /\ dst (snd run) = Some tr)) /\
  (10 <= zlen (mjoin segs) -> Bridge.tls_start (mjoin segs) = false -> ~ http_start (mjoin segs) ->
     dst (snd run) = target_conn /\
     if replyFirst then fst run = Panic /\ cli (snd run) = [EvClose]
     else fst run = Ret (Copying (mjoin segs)) /\ cli (snd run) = []).
Proof.
  intros Hm Ho target_conn run. unfold run, handleTunnel. pose proof (buffered_stream segs) as Hst.
  pose proof (buffered_ok segs Ho) as Hob.
  split; [|split].
  - intros Hl. rewrite first_packet_short by done. destruct replyFirst; cbn.
    + done.
    + split; [done|]. split; [done|]. unfold perform. intros tr [= <-].
      destruct (env_fail [] EvClose); repeat constructor.
  - intros Hl HT. rewrite first_packet_spec by done. cbv zeta. rewrite HT. split_and!.
    + intros ->. done.
    + intros HN. destruct (Bridge.first_record (buffered segs)) as [r|] eqn:E; [|done].
      apply (Bridge.first_record_app _ (mjoin (unread segs))) in E as [E _]; [|done]. rewrite Hst in E. congruence.
    + intros r HR Hbig. destruct (Bridge.first_record (buffered segs)) as [r'|] eqn:E; [|done].
      pose proof (proj2 (Bridge.first_record_length _ _ Hob E)) as Hle.
      apply (Bridge.first_record_app _ (mjoin (unread segs))) in E as [E _]; [|done]. rewrite Hst in E.
      rewrite HR in E. injection E as <-. pose proof (proj1 (buffered_size segs)). lia.
    + intros r h e HR Hp He. rewrite HR. by rewrite (rejected_hello r h e).
    + intros r h v1 v2 a HR Hp He Hv Hrf. rewrite HR.
      destruct (Bridge.first_record_length _ _ Hob HR) as [H5 _].
      destruct (Bridge.first_record_app _ [] _ Hob HR) as (_ & tail & Et).
      assert (bytes_ok r) as Hor by (rewrite Et in Hob; by apply Forall_app in Hob as [? _]).
      by rewrite (refused_hello r h v1 v2 a).
    + intros r h tr HR Hp He Hdm Hrf Hmode Hd HA. rewrite HR.
      destruct (Bridge.first_record_length _ _ Hob HR) as [H5 _].
      destruct (Bridge.first_record_app _ [] _ Hob HR) as (_ & tail & Et).
      assert (bytes_ok r) as Hor by (rewrite Et in Hob; by apply Forall_app in Hob as [? _]).
      rewrite (accepted_hello r h tr) by (done || by intros ->).
      eexists. split; [done|]. split; [|done]. unfold stream. cbn [rd rbuf rsegs].
      by rewrite Et, drop_app_length, app_assoc, <- Et.
  - intros Hl HT HH. rewrite first_packet_spec by done. cbv zeta. rewrite HT, decide_False by done.
    destruct replyFirst; cbn; [done|]. split; [done|]. split; [|done]. unfold stream. cbn [rbuf rsegs]. by rewrite Hst.
Qed.
End verdict.


(** ** Copying both ways

    The two io.Copy loops of handleTunnel run concurrently and share [once]; an
    interleaving is a sequence of their actions.  Each side's bytes are those it sends
    before it closes. *)

(** On a connection: a piece written by io.Copy, CloseWrite, Close. *)
Inductive revent := Copied (b : bytes) | HalfClosed | ClosedConn.

(** One direction: what is still to be copied, whether its loop has returned, and what
    happened to the connection it writes to. *)
Record half := mkHalf { rest : bytes; over : bool; sent : list revent }.

(** [onced]: closeBoth has run; [ended]: handleTunnel has returned. *)
Record relay := mkRelay { upH : half; downH : half; onced : bool; ended : bool }.

Inductive dir := Up | Down.
Inductive act :=
| Copy (d : dir) (n : Z)             (* n bytes read and written *)
| EndOK (d : dir)                    (* end of stream, CloseWrite succeeds *)
| EndFail (d : dir)                  (* end of stream, CloseWrite fails *)
| Fail (d : dir) (err : string)      (* a read or write fails *)
| Finish.                            (* <-done, and the deferred closeBoth *)

Definition half_of (d : dir) (s : relay) : half := match d with Up => upH s | Down => downH s end.
Definition set_half (d : dir) (h : half) (s : relay) : relay :=
  match d with
  | Up => mkRelay h (downH s) (onced s) (ended s)
  | Down => mkRelay (upH s) h (onced s) (ended s)
  end.

(** [once.Do(closeBoth)]. *)
Definition close_once (s : relay) : relay :=
  let close h := mkHalf (rest h) (over h) (sent h ++ [ClosedConn]) in
  if onced s then s else mkRelay (close (upH s)) (close (downH s)) true (ended s).

Definition finish_half (h : half) : half := mkHalf (rest h) true (sent h).

Definition exec (a : act) (s : relay) : option relay :=
  let go d (f : half -> option relay) := if over (half_of d s) || ended s then None else f (half_of d s) in
  match a with
  | Copy d n => go d (fun h =>
      if onced s || negb ((1 <=? n) && (n <=? zlen (rest h))) then None
      else Some (set_half d (mkHalf (drop (Z.to_nat n) (rest h)) false
                               (sent h ++ [Copied (take (Z.to_nat n) (rest h))])) s))
  | EndOK d => go d (fun h =>
      if onced s || negb (zlen (rest h) =? 0) then None
      else Some (set_half d (mkHalf (rest h) true (sent h ++ [HalfClosed])) s))
  | EndFail d => go d (fun h =>
      if negb (zlen (rest h) =? 0) then None
      else Some (close_once (set_half d (finish_half h) s)))
  | Fail d err => go d (fun h =>
      let s := set_half d (finish_half h) s in
      Some (if isUseOfClosedConn err then s else close_once s))
  | Finish =>
      if over (upH s) && over (downH s) && negb (ended s) then
        let s := close_once s in Some (mkRelay (upH s) (downH s) (onced s) true)
      else None
  end.

Fixpoint execs (acts : list act) (s : relay) : option relay :=
  match acts with
  | [] => Some s
  | a :: acts => s ← exec a s; execs acts s
  end.

(** The state in which the two loops start. *)
Definition relay_start (client target : bytes) : relay :=
  mkRelay (mkHalf client false []) (mkHalf target false []) false false.

Definition is_failure (a : act) : bool := match a with EndFail _ | Fail _ _ => true | _ => false end.

(** What a connection's trace looks like: pieces that with the rest make up the stream,
    CloseWrite at most once and only after all of it, Close at most once and last. *)
Definition half_ok (stream : bytes) (closed : bool) (h : half) : Prop :=
  exists pieces half_closed,
    sent h = (Copied <$> pieces) ++ (if half_closed : bool then [HalfClosed] else []) ++
             (if closed then [ClosedConn] else []) /\
    mjoin pieces ++ rest h = stream /\
    (half_closed = true -> over h = true /\ rest h = []).

Definition relay_ok (client target : bytes) (s : relay) : Prop :=
  half_ok client (onced s) (upH s) /\ half_ok target (onced s) (downH s) /\
  (ended s = true -> onced s = true /\ over (upH s) = true /\ over (downH s) = true).

Definition half_left (h : half) : Z := zlen (rest h) + (if over h then 0 else 1).
Definition left (s : relay) : Z := half_left (upH s) + half_left (downH s) + (if ended s then 0 else 1).

Lemma close_once_ok client target s : ended s = false -> relay_ok client target s ->
  relay_ok client target (close_once s) /\ left (close_once s) = left s.
Proof.
  intros He (Hu & Hd & _). unfold close_once. destruct (onced s) eqn:Ho.
  { split; [|done]. split; [by rewrite Ho|]. split; [by rewrite Ho|]. congruence. }
  split; [|done]. split; [|split; [|by cbn; rewrite He]]; cbn [upH downH onced].
  - destruct Hu as (ps & hc & E & ? & ?). exists ps, hc. cbn [sent rest over]. rewrite E. by rewrite <- !app_assoc.
  - destruct Hd as (ps & hc & E & ? & ?). exists ps, hc. cbn [sent rest over]. rewrite E. by rewrite <- !app_assoc.
Qed.

Definition stream_of (d : dir) (client target : bytes) : bytes := match d with Up => client | Down => target end.

Lemma set_half_ok client target d h s : ended s = false -> relay_ok client target s ->
  half_ok (stream_of d client target) (onced s) h -> half_left h < half_left (half_of d s) ->
  relay_ok client target (set_half d h s) /\ left (set_half d h s) < left s.
Proof.
  intros He (Hu & Hd & _) Hh Hl. unfold relay_ok, left. destruct d; cbn in *; rewrite He; (split; [|lia]); done.
Qed.

Lemma half_of_ok client target d s : relay_ok client target s ->
  half_ok (stream_of d client target) (onced s) (half_of d s).
Proof. intros (? & ? & _). by destruct d. Qed.

Lemma finish_half_ok stream closed h : half_ok stream closed h -> half_ok stream closed (finish_half h).
Proof. intros (ps & hc & ? & ? & Hr). exists ps, hc. split_and!; [done..|]. intros E. by destruct (Hr E). Qed.

Lemma set_finished client target d s : ended s = false -> over (half_of d s) = false -> relay_ok client target s ->
  let s' := set_half d (finish_half (half_of d s)) s in
  relay_ok client target s' /\ left s' < left s /\ ended s' = false.
Proof.
  intros He Ho Hs. cbv zeta. destruct (set_half_ok client target d (finish_half (half_of d s)) s) as [H1 H2]; [done..| | |].
  - by apply finish_half_ok, half_of_ok.
  - unfold half_left. cbn. rewrite Ho. lia.
  - by destruct d.
Qed.

Lemma zlen_0_nil {A} (l : list A) : zlen l = 0 -> l = [].
Proof. destruct l; [done|]. rewrite zlen_cons. pose proof (zlen_nonneg l). lia. Qed.

Lemma exec_ok client target a s s' : relay_ok client target s -> exec a s = Some s' ->
  relay_ok client target s' /\ left s' < left s.
Proof.
  intros Hs E. destruct a as [d n|d|d|d err|]; cbn [exec] in E.
  1-4: destruct (over (half_of d s)) eqn:Ho, (ended s) eqn:He; cbn [orb] in E; try discriminate E.
  1-4: pose proof (half_of_ok client target d s Hs) as Hh.
  - destruct (onced s) eqn:Hc; [done|]. cbn [orb] in E. destruct (_ && _) eqn:En; [|done]. cbn [negb] in E.
    injection E as <-. apply andb_prop in En as [?%Z.leb_le Hn%Z.leb_le].
    apply set_half_ok; [done..| |].
    + rewrite Hc. destruct Hh as (ps & hc & Es & Ej & Hr). destruct hc; [by destruct (Hr eq_refl); congruence|].
      exists (ps ++ [take (Z.to_nat n) (rest (half_of d s))]), false. cbn [sent rest over].
      rewrite Es, fmap_app, !app_nil_r. split; [done|]. split; [|done].
      rewrite join_app, mjoin_cons. cbn. rewrite app_nil_r, <- app_assoc, take_drop. done.
    + unfold half_left. cbn [rest over]. rewrite Ho. unfold zlen in *. rewrite length_drop. lia.
  - destruct (onced s) eqn:Hc; [done|]. cbn [orb] in E. destruct (_ =? _) eqn:En; [|done]. injection E as <-.
    apply Z.eqb_eq, zlen_0_nil in En. apply set_half_ok; [done..| |].
    + rewrite Hc. destruct Hh as (ps & hc & Es & Ej & Hr). destruct hc; [by destruct (Hr eq_refl); congruence|].
      exists ps, true. cbn [sent rest over]. rewrite Es, !app_nil_r. done.
    + unfold half_left. cbn [rest over]. rewrite Ho. lia.
  - destruct (_ =? _) eqn:En; [|done]. injection E as <-.
    destruct (set_finished client target d s) as (H1 & H2 & H3); [done..|].
    destruct (close_once_ok client target _ H3 H1) as [H4 H5]. split; [done|]. lia.
  - injection E as <-. destruct (set_finished client target d s) as (H1 & H2 & H3); [done..|].
    destruct (isUseOfClosedConn err); [done|].
    destruct (close_once_ok client target _ H3 H1) as [H4 H5]. split; [done|]. lia.
  - destruct (over (upH s)) eqn:Hu, (over (downH s)) eqn:Hd, (ended s) eqn:He; try discriminate E. cbn in E.
    injection E as <-. destruct (close_once_ok client target s He Hs) as [(H1 & H2 & H3) H4].
    assert (onced (close_once s) = true) as Hc by (unfold close_once; by destruct (onced s) eqn:?).
    unfold relay_ok, left in *. cbn [upH downH onced ended] in *.
    assert (over (upH (close_once s)) = true /\ over (downH (close_once s)) = true /\ ended (close_once s) = false) as (-> & -> & HE).
    { unfold close_once. destruct (onced s); cbn; auto. }
    rewrite HE, He in *. split; [done|]. lia.
Qed.

Lemma execs_ok client target acts : forall s s', relay_ok client target s -> execs acts s = Some s' ->
  relay_ok client target s' /\ left s' + zlen acts <= left s.
Proof.
  induction acts as [|a acts IH]; intros s s' Hs E; cbn [execs] in E.
  { injection E as <-. split; [done|]. change (zlen []) with 0. lia. }
  destruct (exec a s) as [s1|] eqn:Ea; [|done]. cbn in E.
  destruct (exec_ok _ _ _ _ _ Hs Ea) as [H1 ?]. destruct (IH _ _ H1 E) as [? ?]. split; [done|]. rewrite zlen_cons. lia.
Qed.

(** Without failures a finished direction has sent everything and CloseWrite. *)
Definition clean_half (h : half) : Prop := over h = true -> rest h = [] /\ HalfClosed ∈ sent h.

Lemma clean_close h : clean_half h -> clean_half (mkHalf (rest h) (over h) (sent h ++ [ClosedConn])).
Proof. intros Hc Ho. cbn in *. destruct (Hc Ho). split; [done|]. apply elem_of_app. by left. Qed.

Lemma exec_clean a s s' : is_failure a = false -> (clean_half (upH s) /\ clean_half (downH s)) ->
  exec a s = Some s' -> clean_half (upH s') /\ clean_half (downH s').
Proof.
  intros Hf [Hu Hd] E. destruct a as [d n|d|d|d err|]; try done; cbn [exec] in E.
  - destruct (over _ || ended s); [done|]. destruct (onced s || _); [done|]. injection E as <-. by destruct d.
  - destruct (over _ || ended s); [done|]. destruct (onced s); [done|]. cbn [orb] in E. destruct (_ =? _) eqn:En; [|done].
    injection E as <-. apply Z.eqb_eq, zlen_0_nil in En.
    assert (clean_half (mkHalf (rest (half_of d s)) true (sent (half_of d s) ++ [HalfClosed]))).
    { intros _. cbn. split; [done|]. apply elem_of_app. right. by constructor. }
    by destruct d.
  - destruct (_ && _); [|done]. injection E as <-. unfold close_once. cbn. destruct (onced s); cbn; [done|].
    split; by apply clean_close.
Qed.

Lemma execs_clean acts : forall s s', forallb (fun a => negb (is_failure a)) acts = true ->
  (clean_half (upH s) /\ clean_half (downH s)) -> execs acts s = Some s' ->
  clean_half (upH s') /\ clean_half (downH s').
Proof.
  induction acts as [|a acts IH]; intros s s' Hf Hs E; cbn [execs] in E; [by injection E as <-|].
  cbn in Hf. apply andb_prop in Hf as [Ha%negb_true_iff Hf].
  destruct (exec a s) as [s1|] eqn:Ea; [|done]. cbn in E. eapply IH; [done| |done]. by eapply exec_clean.
Qed.

Lemma half_progress d s : over (half_of d s) = false -> ended s = false ->
  exists a s', exec a s = Some s' /\ (onced s = false -> is_failure a = false).
Proof.
  intros Ho He. destruct (onced s) eqn:Hc.
  { exists (Fail d ""). cbn [exec]. rewrite Ho, He. eauto. }
  destruct (Z.eqb_spec (zlen (rest (half_of d s))) 0) as [E|E].
  - exists (EndOK d). cbn [exec]. rewrite Ho, He, Hc, E. eauto.
  - exists (Copy d 1). cbn [exec]. rewrite Ho, He, Hc. cbn [orb].
    pose proof (zlen_nonneg (rest (half_of d s))). rewrite (proj2 (Z.leb_le 1 (zlen _))) by lia. eauto.
Qed.

Lemma relay_progress s : ended s = false ->
  exists a s', exec a s = Some s' /\ (onced s = false -> is_failure a = false).
Proof.
  intros He. destruct (over (upH s)) eqn:Hu; [destruct (over (downH s)) eqn:Hd|].
  - exists Finish. cbn [exec]. rewrite Hu, Hd, He. eauto.
  - by apply (half_progress Down).
  - by apply (half_progress Up).
Qed.

Lemma clean_sent stream closed h : half_ok stream closed h -> clean_half h -> over h = true ->
  exists pieces, sent h = (Copied <$> pieces) ++ HalfClosed :: (if closed then [ClosedConn] else []) /\
    mjoin pieces = stream.
Proof.
  intros (ps & hc & Es & Ej & _) Hc Ho. destruct (Hc Ho) as [Hr Hi]. rewrite Hr, app_nil_r in Ej.
  exists ps. split; [|done]. rewrite Es in Hi |- *. destruct hc; [done|]. exfalso.
  apply elem_of_app in Hi as [Hi|Hi].
  - by apply list_elem_of_fmap in Hi as (? & ? & _).
  - destruct closed; cbn in Hi; [|by apply not_elem_of_nil in Hi]. by apply list_elem_of_singleton in Hi.
Qed.

(** C23: The copying phase ends and loses nothing.  For every interleaving of the two
    loops, with any failures: each connection has received pieces that, with what is
    left, are the other side's stream, then CloseWrite at most once and only after
    all of it, then Close at most once.  No interleaving has more actions than the
    bytes of both streams plus three, as long as the handler has not returned some
    action is possible (without a failure while the connections are open), and when it
    has returned both connections are closed exactly once.  If no send or close
    failed, each side then got the other's whole stream, CloseWrite and Close: a side
    that has ended its stream still receives all of the other's. *)
Theorem relay_completes client target acts s :
  execs acts (relay_start client target) = Some s ->
  half_ok client (onced s) (upH s) /\ half_ok target (onced s) (downH s) /\
  zlen acts <= zlen client + zlen target + 3 /\
  (ended s = false -> exists a s', exec a s = Some s' /\ (onced s = false -> is_failure a = false)) /\
  (ended s = true -> onced s = true) /\
  (ended s = true -> forallb (fun a => negb (is_failure a)) acts = true ->
     exists ups downs,
       sent (upH s) = (Copied <$> ups) ++ [HalfClosed; ClosedConn] /\ mjoin ups = client /\
       sent (downH s) = (Copied <$> downs) ++ [HalfClosed; ClosedConn] /\ mjoin downs = target).
Proof.
  intros E. assert (relay_ok client target (relay_start client target)) as H0.
  { split; [|split; [|done]]; by exists [], false. }
  destruct (execs_ok _ _ _ _ _ H0 E) as [(Hu & Hd & He) Hl].
  split_and!; [done|done| |apply relay_progress|naive_solver|].
  - unfold left, half_left, relay_start in Hl. cbn [upH downH rest over ended] in Hl.
    pose proof (zlen_nonneg (rest (upH s))). pose proof (zlen_nonneg (rest (downH s))).
    destruct (over (upH s)), (over (downH s)), (ended s); lia.
  - intros Hend Hf. destruct (He Hend) as (Hc & Hou & Hod). rewrite Hc in *.
    assert (clean_half (upH (relay_start client target)) /\ clean_half (downH (relay_start client target))) as HC
      by (split; intros Hx; discriminate Hx).
    destruct (execs_clean acts _ s Hf HC E) as [Cu Cd].
    destruct (clean_sent _ _ _ Hu Cu Hou) as (ups & -> & ?).
    destruct (clean_sent _ _ _ Hd Cd Hod) as (downs & -> & ?). by exists ups, downs.
Qed.

(** ** Witnesses *)

(** A codec without requests: enough for connections that do not speak plain HTTP. *)
Definition no_http : HTTP :=
  {| ReadRequest := fun b => (inr "malformed HTTP request"%string, b);
     RequestWrite := fun _ b => ([], None, b); ResponseWrite := fun _ => []; StatusText := fun _ => ""%string |}.

Definition w_run (cfg : config) (m : Mode) (replyFirst : bool) (segs : list bytes) : go outcome * tunnel (L := map_lru) :=
  handleTunnel (L := map_lru) (H := no_http) reliable reliable
    Bridge.w_dial (fun _ _ => None) cfg (Dns.w_world 0) (with_mode m) replyFirst "203.0.113.10:443"
    "example.com" (negb replyFirst) (start replyFirst segs Dns.w_core Bridge.w_ttls).

Definition w_hello : bytes := ClientHello.enc_record ClientHello.sample_hello.
Definition w_parsed : ClientHello.hello :=
  match ClientHello.parseClientHello w_hello with Ret h => h | _ => ClientHello.mkHello None 0 0 false None end.
(** A TLS record with a handshake message that is no ClientHello. *)
Definition w_other : bytes := [22; 3; 1; 0; 6; 2; 0; 0; 2; 1; 1].

(** A hello refused by the mode, one whose server name is blocked, one that arrives in two
    segments, a record that is no hello, an accepted hello with bytes behind it, and an
    unknown protocol with reply_first. *)
Lemma tunnel_first_packet_witness :
  (fst (w_run Bridge.w_open_cfg ModeTLSAlert false [w_hello]) = Ret Closed /\
   cli (snd (w_run Bridge.w_open_cfg ModeTLSAlert false [w_hello])) = [EvWrite (alert_bytes [3; 3] 70); EvClose] /\
   dst (snd (w_run Bridge.w_open_cfg ModeTLSAlert false [w_hello])) = Some []) /\
  (fst (w_run Bridge.w_sni_cfg ModeDirect false [w_hello]) = Ret Closed /\
   dst (snd (w_run Bridge.w_sni_cfg ModeDirect false [w_hello])) = Some []) /\
  (fst (w_run Bridge.w_open_cfg ModeDirect false [take 20 w_hello; drop 20 w_hello]) = Ret Closed /\
   dst (snd (w_run Bridge.w_open_cfg ModeDirect false [take 20 w_hello; drop 20 w_hello])) = Some []) /\
  (fst (w_run Bridge.w_open_cfg ModeDirect false [w_other]) = Ret Closed /\
   dst (snd (w_run Bridge.w_open_cfg ModeDirect false [w_other])) = Some []) /\
  (exists rest, fst (w_run Bridge.w_open_cfg ModeDirect true [w_hello; [9; 8; 7]]) = Ret (Copying rest) /\
     w_hello ++ rest = w_hello ++ [9; 8; 7] /\
     dst (snd (w_run Bridge.w_open_cfg ModeDirect true [w_hello; [9; 8; 7]])) = Some [EvWrite w_hello]) /\
  fst (w_run Bridge.w_open_cfg ModeDirect true [repeat 1 12]) = Panic.
Proof.
  pose proof (fun cfg m rf segs => tunnel_first_packet (L := map_lru) (H := no_http) reliable
    Bridge.w_dial (fun _ _ => None) cfg (Dns.w_world 0) (with_mode m) rf "203.0.113.10:443"
    "example.com" segs Dns.w_core Bridge.w_ttls) as T.
  assert (forall b, forallb (fun x => (0 <=? x) && (x <? 256)) b = true -> bytes_ok b) as Hok.
  { intros b Hb. apply Forall_forall. intros x Hx%list_elem_of_In. apply (proj1 (forallb_forall _ _) Hb) in Hx.
    apply andb_prop in Hx as [?%Z.leb_le ?%Z.ltb_lt]. unfold is_byte. lia. }
  split; [|split; [|split; [|split; [|split]]]].
  - destruct (T Bridge.w_open_cfg ModeTLSAlert false [w_hello]) as (_ & HT & _); [done|by apply Hok|].
    destruct HT as (_ & _ & _ & _ & HT & _); [done|done|]. by apply (HT w_hello w_parsed 3 3 (Some 70)).
  - destruct (T Bridge.w_sni_cfg ModeDirect false [w_hello]) as (_ & HT & _); [done|by apply Hok|].
    destruct HT as (_ & _ & _ & _ & HT & _); [done|done|].
    destruct (HT w_hello w_parsed 3 3 None) as (H1 & _ & H3); [vm_compute; reflexivity..|]. exact (conj H1 H3).
  - destruct (T Bridge.w_open_cfg ModeDirect false [take 20 w_hello; drop 20 w_hello]) as (_ & HT & _); [done|by apply Hok|].
    destruct HT as (HT & _); [done|done|]. destruct HT as (H1 & _ & H3); [done|]. exact (conj H1 H3).
  - destruct (T Bridge.w_open_cfg ModeDirect false [w_other]) as (_ & HT & _); [done|by apply Hok|].
    destruct HT as (_ & _ & _ & HT & _); [done|done|]. destruct (HT w_other
      (ClientHello.mkHello None (-1) 0 false (Some "not a ClientHello handshake (type=2)"%string))
      "not a ClientHello handshake (type=2)"%string) as (H1 & _ & H3); [done..|]. exact (conj H1 H3).
  - destruct (T Bridge.w_open_cfg ModeDirect true [w_hello; [9; 8; 7]]) as (_ & HT & _); [done|by apply Hok|].
    destruct HT as (_ & _ & _ & _ & _ & HT); [done|done|].
    destruct (HT w_hello w_parsed [EvWrite w_hello]) as (rest & H1 & H2 & _ & H3);
      [done..|by eexists|vm_compute; reflexivity|by left|done|done|].
    exists rest. exact (conj H1 (conj H2 H3)).
  - apply (T Bridge.w_open_cfg ModeDirect true [repeat 1 12]); [done|by apply Hok|done|done|].
    intros Hx. apply (bool_decide_eq_true_2 (http_start (mjoin [repeat 1 12]))) in Hx. vm_compute in Hx. discriminate.
Defined.

(** The target answers after the client has finished, in two pieces. *)
Lemma relay_completes_witness :
  let acts := [Copy Up 3; EndOK Up; Copy Down 1; Copy Down 1; EndOK Down; Finish] in
  zlen acts <= 8 /\
  exists s ups downs, execs acts (relay_start [1; 2; 3] [4; 5]) = Some s /\ ended s = true /\
    sent (upH s) = (Copied <$> ups) ++ [HalfClosed; ClosedConn] /\ mjoin ups = [1; 2; 3] /\
    sent (downH s) = (Copied <$> downs) ++ [HalfClosed; ClosedConn] /\ mjoin downs = [4; 5].
Proof.
  cbv zeta. destruct (relay_completes [1; 2; 3] [4; 5] [Copy Up 3; EndOK Up; Copy Down 1; Copy Down 1; EndOK Down; Finish]
    (default (relay_start [] []) (execs [Copy Up 3; EndOK Up; Copy Down 1; Copy Down 1; EndOK Down; Finish] (relay_start [1; 2; 3] [4; 5]))))
    as (_ & _ & Hl & _ & _ & HE).
  - vm_compute. reflexivity.
  - split; [exact Hl|]. destruct HE as (ups & downs & HE); [vm_compute; reflexivity..|].
    eexists _, ups, downs. split; [vm_compute; reflexivity|]. split; [vm_compute; reflexivity|exact HE].
Defined.

End Tunnel.
