(* ===== verification/Http.v ===== *)
(** * The HTTP proxy (src/internal/http.go)

    httpHandler and its two branches, CONNECT and plain requests.  The effects of a
    handler are what it writes to the ResponseWriter, what it sends on the hijacked
    connection, what it dials and the requests it passes to the transport.  Dialling,
    hijacking and the transport are parameters. *)

From S2P Require Import Prelude GoStrings GoState Conn NetIP GoNet FakeIP Patterns AddrTrie Policy Route IPPool Core Dns Plan.
From S2P Require Import ClientHello Fragment Desync Bridge Tunnel.

Module Http.
Import Policy Plan Tunnel.

Definition status500 : string := "500 Internal Server Error".
Definition status403 : string := "403 Forbidden".

Definition RequestSourceHTTP : string := "http".

(** Uses of the ResponseWriter: http.Error, setting headers, WriteHeader, body bytes. *)
Inductive wevent :=
| HttpError (msg : string) (code : Z)
| SetHeaders (h : gmap string (list string))
| WroteHeader (code : Z)
| WroteBody (b : bytes).

(** What the transport returns: the response up to its end or to an error of the body. *)
Record UpResponse := mkUp { upCode : Z; upHeader : gmap string (list string); upBody : bytes }.

Section http.
Context {L : LRU} {ord : RangeOrder} {names : DNSNames} {env : Env}.
Context (dialTCP : string -> Z -> option string) (canHijack : bool) (hijackErr : option string).
(** transport.RoundTrip with the dial timeout set on it, if any. *)
Context (RoundTrip : Request -> option Z -> go UpResponse).
Context (cfg : config) (w : world).

Record hstate := mkH {
  httpConnID : Z; kern : core; resp : list wevent; conn : list event;
  dialled : list (string * Z); requests : list Request
}.

Definition Hm : Type -> Type := St hstate.

Definition reply (e : wevent) : Hm unit := fun s =>
  (Ret tt, mkH (httpConnID s) (kern s) (resp s ++ [e]) (conn s) (dialled s) (requests s)).

(** w.WriteHeader: net/http panics on a code that is not three digits. *)
Definition WriteHeader (code : Z) : Hm unit :=
  if (code <? 100) || (999 <? code) then stlift Panic else reply (WroteHeader code).

(** [_, err := m] on the hijacked connection. *)
Definition on_conn {A} (m : net A) : Hm (option string) := fun s =>
  let (r, tr) := m (conn s) in
  (match r with Ret _ => Ret None | Err e => Ret (Some e) | Panic => Panic end,
   mkH (httpConnID s) (kern s) (resp s) tr (dialled s) (requests s)).

Definition on_core {A} (m : M A) : Hm (A + string) := fun s =>
  let (r, k) := attempt m (kern s) in (r, mkH (httpConnID s) k (resp s) (conn s) (dialled s) (requests s)).

Definition attempt_go {A} (m : go A) : Hm (A + string) :=
  stlift match m with Ret a => Ret (inl a) | Err e => Ret (inr e) | Panic => Panic end.

Definition dial (target : string) (timeout : Z) : Hm (option string) := fun s =>
  (Ret (dialTCP target timeout),
   mkH (httpConnID s) (kern s) (resp s) (conn s) (dialled s ++ [(target, timeout)]) (requests s)).

Definition round_trip (req : Request) (timeout : option Z) : Hm (UpResponse + string) := fun s =>
  (match RoundTrip req timeout with Ret a => Ret (inl a) | Err e => Ret (inr e) | Panic => Panic end,
   mkH (httpConnID s) (kern s) (resp s) (conn s) (dialled s) (requests s ++ [req])).

(** How the handler ends: it returns, or handleTunnel takes over the connection. *)
Inductive houtcome :=
| Served
| ToTunnel (p : Policy) (replyFirst : bool) (target originHost : string).

Definition http_error (msg : string) (code : Z) : Hm houtcome := reply (HttpError msg code) ~; stret Served.

Definition crlf : string := String (Ascii.ascii_of_nat 13) (String (Ascii.ascii_of_nat 10) EmptyString).
Definition established : bytes := bytes_of_string ("HTTP/1.1 200 Connection Established" +:+ crlf +:+ crlf)%string.
Definition bad_gateway : bytes := bytes_of_string ("HTTP/1.1 502 Bad Gateway" +:+ crlf +:+ crlf)%string.

(** The deferred close of handleConnect while closeHere. *)
Definition close_here : Hm houtcome := on_conn (perform Bridge.plain_err EvClose) ~; stret Served.

(** handleConnect from the hijacking on. *)
Definition connect_hijacked (policy : Policy) (dest originHost : string) : Hm houtcome :=
  let replyFirst := bool_decide (ReplyFirst policy = BoolTrue) in
  err <~ (if replyFirst then stret None else dial dest (ConnectTimeout policy)) ;
  match err with
  | Some _ => on_conn (write Bridge.plain_err bad_gateway) ~; close_here
  | None =>
    err <~ on_conn (write Bridge.plain_err established) ;
    match err with
    | Some _ => close_here
    | None => stret (ToTunnel policy replyFirst dest originHost)
    end
  end.

Definition handleConnect (req : Request) : Hm houtcome :=
  let oldDest := reqHost req in
  if decide (oldDest = "")%string then http_error "" 400
  else
    split <~ attempt_go (SplitHostPort oldDest) ;
    match split with
    | inr _ => stret Served
    | inl (originHost, dstPort) =>
      match Atoi dstPort with
      | None => stret Served
      | Some port =>
        plan <~ on_core (PlanRequest cfg w (mkRequest RequestSourceHTTP originHost port ResolveDomainTarget) true) ;
        match plan with
        | inr _ => http_error status500 500
        | inl plan =>
          let policy := plPolicy plan in
          if Blocked plan then http_error status403 403
          else if decide (pMode policy = ModeBlock) then http_error "" 403
          else if negb canHijack then http_error status500 500
          else match hijackErr with
               | Some _ => http_error status500 500
               | None => connect_hijacked policy (TargetAddress plan) originHost
               end
        end
      end
    end.

(** The host a plain request is for, and its port by the scheme when it names none. *)
Definition origin_of (req : Request) (host : string) : Hm (string * string) :=
  split <~ attempt_go (SplitHostPort host) ;
  stret match split with
        | inl hp => hp
        | inr _ => (host, if decide (Scheme req = "https")%string then "443" else "80")%string
        end.

(** The outgoing request: the target as URL host and Host, proxy headers removed. *)
Definition out_request (req : Request) (targetAddr : string) : Request :=
  let h := delete "Proxy-Connection"%string (delete "Proxy-Authorization"%string (Header req)) in
  let h := match h !! "Connection"%string with
           | Some (v :: _) => if decide (v = "")%string then <["Connection"%string := ["close"%string]]> h else h
           | _ => <["Connection"%string := ["close"%string]]> h
           end in
  mkReq (Method req) targetAddr (if decide (Scheme req = "")%string then "http"%string else Scheme req)
    targetAddr (RequestURI req) (reqProto req) h.

(** forwardHTTPRequest from the round trip on. *)
Definition relay_request (p : Policy) (outReq : Request) : Hm houtcome :=
  r <~ round_trip outReq (if 0 <? ConnectTimeout p then Some (ConnectTimeout p) else None) ;
  match r with
  | inr _ => http_error "502 Bad Gateway" 502
  | inl up =>
    reply (SetHeaders (upHeader up)) ~;
    WriteHeader (upCode up) ~;
    reply (WroteBody (upBody up)) ~; stret Served
  end.

Definition forwardHTTPRequest (req : Request) : Hm houtcome :=
  let host := if decide (reqHost req = "")%string then urlHost req else reqHost req in
  if decide (host = "")%string then http_error "400 Bad Request" 400
  else
    origin <~ origin_of req host ;
    let '(originHost, port) := origin in
    match Atoi port with
    | None => http_error "400 Bad Request" 400
    | Some portNum =>
      plan <~ on_core (PlanRequest cfg w (mkRequest RequestSourceHTTP originHost portNum PreserveDomainTarget) true) ;
      match plan with
      | inr _ => http_error status500 500
      | inl plan =>
        let p := plPolicy plan in
        if negb (HttpStatus p =? 0) && negb (HttpStatus p =? -1) then
          (if (HttpStatus p =? 301) || (HttpStatus p =? 302) then
             let scheme := if decide (Scheme req = "")%string then "https"%string else Scheme req in
             reply (SetHeaders {["Location"%string := [(scheme +:+ "://" +:+ host +:+ RequestURI req)%string]]})
           else stret tt) ~;
          WriteHeader (HttpStatus p) ~; stret Served
        else if decide (pMode p = ModeBlock) then http_error status403 403
        else relay_request p (out_request req (TargetAddress plan))
      end
    end.

(** The connection number of the log: an atomic uint32 that restarts past 0xFFFFF. *)
Definition next_id : Hm Z := fun s =>
  let connID := u32 (httpConnID s + 1) in
  let stored := if 0xFFFFF <? connID then 0 else connID in
  (Ret stored, mkH stored (kern s) (resp s) (conn s) (dialled s) (requests s)).

Definition httpHandler (req : Request) : Hm houtcome :=
  next_id ~;
  if decide (Method req = "CONNECT")%string then handleConnect req
  else if decide (Scheme req = "")%string then http_error "403 Forbidden" 403
  else forwardHTTPRequest req.
End http.


(** ** Requests *)

Section spec.
Context {L : LRU} {ord : RangeOrder} {names : DNSNames}.
Context (dialTCP : string -> Z -> option string) (RoundTrip : Request -> option Z -> go UpResponse).
Context (cfg : config) (w : world).

Notation handler := (httpHandler (env := reliable) dialTCP true None RoundTrip cfg w).

Lemma target_split host port : clean host -> 0 <= port < 65536 ->
  JoinHostPort host (Itoa port) <> ""%string /\
  SplitHostPort (JoinHostPort host (Itoa port)) = Ret (host, Itoa port) /\ Atoi (Itoa port) = Some port.
Proof.
  intros Hc Hp. destruct (Itoa_clean port) as [Hpc Hpi]; [lia|].
  pose proof (SplitHostPort_Join host (Itoa port) Hc Hpc Hpi) as HS. split; [|split; [done|]].
  - intros E. rewrite E in HS. vm_compute in HS. discriminate.
  - apply Atoi_Itoa. lia.
Qed.

Lemma next_id_run (s : hstate) : exists i, next_id s = (Ret i, mkH i (kern s) (resp s) (conn s) (dialled s) (requests s)).
Proof. eexists. done. Qed.

(** The end of a CONNECT whose plan is made: how it ends, what is written to the
    ResponseWriter and to the connection, what is dialled. *)
Definition connect_verdict (plan : DialPlan) (host : string) : houtcome * list wevent * list event * list (string * Z) :=
  let policy := plPolicy plan in
  let target := TargetAddress plan in
  if Blocked plan then (Served, [HttpError status403 403], [], [])
  else if decide (pMode policy = ModeBlock) then (Served, [HttpError "" 403], [], [])
  else if decide (ReplyFirst policy = BoolTrue) then (ToTunnel policy true target host, [], [EvWrite established], [])
  else match dialTCP target (ConnectTimeout policy) with
       | Some _ => (Served, [], [EvWrite bad_gateway; EvClose], [(target, ConnectTimeout policy)])
       | None => (ToTunnel policy false target host, [], [EvWrite established], [(target, ConnectTimeout policy)])
       end.

Lemma handleConnect_run req host port (s : hstate) :
  reqHost req = JoinHostPort host (Itoa port) -> clean host -> 0 <= port < 65536 ->
  handleConnect (env := reliable) dialTCP true None cfg w req s =
  let (r, k) := PlanRequest cfg w (mkRequest RequestSourceHTTP host port ResolveDomainTarget) true (kern s) in
  match r with
  | Ret plan =>
    let '(o, ws, cs, ds) := connect_verdict plan host in
    (Ret o, mkH (httpConnID s) k (resp s ++ ws) (conn s ++ cs) (dialled s ++ ds) (requests s))
  | Err _ => (Ret Served, mkH (httpConnID s) k (resp s ++ [HttpError status500 500]) (conn s) (dialled s) (requests s))
  | Panic => (Panic, mkH (httpConnID s) k (resp s) (conn s) (dialled s) (requests s))
  end.
Proof.
  intros Hr Hc Hp. destruct (target_split host port Hc Hp) as (Hne & HS & HA).
  unfold handleConnect. rewrite Hr, decide_False by done. unfold stbind at 1, attempt_go, stlift. rewrite HS, HA.
  unfold stbind at 1, on_core, attempt.
  destruct (PlanRequest _ _ _ _ (kern s)) as [[plan|e|] k]; [|done..].
  unfold connect_verdict. cbv zeta. destruct (Blocked plan); [by rewrite !app_nil_r|].
  destruct (decide (pMode (plPolicy plan) = ModeBlock)); [by rewrite !app_nil_r|]. cbn [negb].
  unfold connect_hijacked. cbv zeta. destruct (decide (ReplyFirst (plPolicy plan) = BoolTrue)).
  { rewrite bool_decide_eq_true_2 by done. cbn. by rewrite !app_nil_r. }
  rewrite bool_decide_eq_false_2 by done. unfold stbind at 1, dial.
  destruct (dialTCP _ _); cbn; rewrite ?app_nil_r; [|done]. by rewrite <- app_assoc.
Qed.

Lemma relay_request_sends p req (s : hstate) :
  requests (snd (relay_request (L := L) RoundTrip p req s)) = requests s ++ [req].
Proof.
  unfold relay_request, stbind at 1, round_trip. destruct (RoundTrip _ _) as [up|e|]; [|done..].
  unfold stbind, reply, WriteHeader, stret, stlift. by destruct (_ || _).
Qed.

(** C24: What a blocked destination gets depends on the method.  For every request
    for a host and port: CONNECT follows its dial plan on every branch (403 when the
    plan or the mode blocks it and nothing is dialled; 502 when dialling fails; 200 and
    the tunnel otherwise).  A plain request with a blocked plan is not refused: the
    blocked plan carries the zero policy and no host, so the request is passed to the
    transport for the address ":port".  And a CONNECT whose target cannot be split
    into host and port ends with nothing written, which net/http turns into a 200. *)
Theorem http_verdicts req host port s :
  clean host -> 0 <= port < 65536 ->
  (Method req = "CONNECT"%string -> reqHost req = JoinHostPort host (Itoa port) ->
     exists i, handler req s =
       let (r, k) := PlanRequest cfg w (mkRequest RequestSourceHTTP host port ResolveDomainTarget) true (kern s) in
       match r with
       | Ret plan =>
         let '(o, ws, cs, ds) := connect_verdict plan host in
         (Ret o, mkH i k (resp s ++ ws) (conn s ++ cs) (dialled s ++ ds) (requests s))
       | Err _ => (Ret Served, mkH i k (resp s ++ [HttpError status500 500]) (conn s) (dialled s) (requests s))
       | Panic => (Panic, mkH i k (resp s) (conn s) (dialled s) (requests s))
       end) /\
  (Method req <> "CONNECT"%string -> Scheme req <> ""%string -> reqHost req = JoinHostPort host (Itoa port) ->
     forall plan k,
       PlanRequest cfg w (mkRequest RequestSourceHTTP host port PreserveDomainTarget) true (kern s) = (Ret plan, k) ->
       Blocked plan = true -> 0 < port ->
       exists out, requests (snd (handler req s)) = requests s ++ [out] /\
         reqHost out = (":" +:+ Itoa port)%string /\ urlHost out = (":" +:+ Itoa port)%string) /\
  (Method req = "CONNECT"%string -> reqHost req <> ""%string -> (exists e, SplitHostPort (reqHost req) = Err e) ->
     exists i, handler req s = (Ret Served, mkH i (kern s) (resp s) (conn s) (dialled s) (requests s))).
Proof.
  intros Hc Hp. destruct (target_split host port Hc Hp) as (Hne & HS & HA).
  unfold httpHandler. unfold stbind at 1 2 3. destruct (next_id_run s) as [i ->]. split; [|split].
  - intros Hm Hr. rewrite decide_True by done. exists i. by rewrite (handleConnect_run req host port).
  - intros Hm Hs Hr plan k Hpl Hb Hpos. rewrite !decide_False by done.
    unfold forwardHTTPRequest. cbv zeta. rewrite Hr. rewrite (decide_False (P := JoinHostPort host (Itoa port) = ""%string)) by done. rewrite decide_False by done. unfold stbind at 1, origin_of, attempt_go, stlift, stbind at 1.
    rewrite HS. cbn [stret]. unfold stret at 1. rewrite HA. unfold stbind at 1, on_core, attempt.
    cbn [kern]. rewrite Hpl. destruct (plan_blocked _ _ _ _ _ _ _ Hpl Hb) as (Hz & Hh & Ht).
    rewrite Hz. change (HttpStatus zeroPolicy) with 0. cbn [Z.eqb negb andb].
    rewrite decide_False by done. eexists. split; [by rewrite relay_request_sends|].
    unfold TargetAddress. rewrite Ht. cbn [rqPort]. rewrite (proj2 (Z.leb_gt _ _)) by done. by rewrite Hh.
  - intros Hm Hr [e He]. rewrite decide_True by done. unfold handleConnect. rewrite decide_False by done.
    unfold stbind, attempt_go, stlift. rewrite He. by exists i.
Qed.
End spec.

(** ** Witness *)

Definition w_req (method host : string) : Request := mkReq method host "http" host "/" "HTTP/1.1" ∅.
Definition w_state : hstate (L := map_lru) := mkH 0 Dns.w_core [] [] [] [].
Definition w_http (req : Request) : go houtcome * hstate (L := map_lru) :=
  httpHandler (L := map_lru) (names := Dns.w_names) (env := reliable) (fun _ _ => None) true None
    (fun _ _ => Err "refused"%string) w_block_cfg (Dns.w_world 0) req w_state.

Definition w_plan : go DialPlan * core (L := map_lru) :=
  PlanRequest (names := Dns.w_names) w_block_cfg (Dns.w_world 0)
    (mkRequest RequestSourceHTTP "x.ads.example" 8080 PreserveDomainTarget) true (kern w_state).

Lemma http_verdicts_witness :
  resp (snd (w_http (w_req "CONNECT" "x.ads.example:443"))) = [HttpError status403 403] /\
  (exists out, requests (snd (w_http (w_req "GET" "x.ads.example:8080"))) = [out] /\ reqHost out = ":8080"%string) /\
  resp (snd (w_http (w_req "CONNECT" "x.ads.example"))) = [].
Proof.
  destruct (http_verdicts (L := map_lru) (names := Dns.w_names) (fun _ _ => None) (fun _ _ => Err "refused"%string)
    w_block_cfg (Dns.w_world 0) (w_req "CONNECT" "x.ads.example:443") "x.ads.example" 443 w_state) as (H1 & _ & _).
  { by split. }
  { lia. }
  destruct (http_verdicts (L := map_lru) (names := Dns.w_names) (fun _ _ => None) (fun _ _ => Err "refused"%string)
    w_block_cfg (Dns.w_world 0) (w_req "GET" "x.ads.example:8080") "x.ads.example" 8080 w_state) as (_ & H2 & _).
  { by split. }
  { lia. }
  destruct (http_verdicts (L := map_lru) (names := Dns.w_names) (fun _ _ => None) (fun _ _ => Err "refused"%string)
    w_block_cfg (Dns.w_world 0) (w_req "CONNECT" "x.ads.example") "x.ads.example" 443 w_state) as (_ & _ & H3).
  { by split. }
  { lia. }
  split; [|split].
  - destruct H1 as [i H1]; [reflexivity|vm_compute; reflexivity|]. unfold w_http. rewrite H1. vm_compute. reflexivity.
  - destruct (H2 ltac:(discriminate) ltac:(discriminate) ltac:(vm_compute; reflexivity)
      (match fst w_plan with Ret pl => pl | _ => mkPlan "" "" 0 "" false false "" 0 zeroPolicy false end)
      (snd w_plan)) as (out & HO & HH & _).
    + transitivity w_plan; [reflexivity|]. rewrite (surjective_pairing w_plan) at 1.
      apply (f_equal (fun x => (x, snd w_plan))). vm_compute. reflexivity.
    + vm_compute. reflexivity.
    + lia.
    + exists out. split; [exact HO|exact HH].
  - destruct H3 as [i H3]; [reflexivity|discriminate|eexists; vm_compute; reflexivity|]. unfold w_http. rewrite H3. reflexivity.
Defined.

End Http.
