(* ===== verification/Doh.v ===== *)
(** * DNS over HTTPS connections (src/internal/config.go)

    The dialer LoadConfig installs for an https:// DNS address: genDialContext
    chooses the address and the policy once, and interceptConn applies the policy to
    the first Write, the ClientHello of the TLS library.  Parsing the URL is a
    parameter. *)

From S2P Require Import Prelude GoStrings GoState Conn NetIP FakeIP Patterns AddrTrie Policy Route IPPool Core Dns Plan.
From S2P Require Import ClientHello Fragment Desync Bridge.

Module Doh.
Import AddrTrie Policy Route Plan.

(** ** The intercepting connection *)

(** config.go: [type interceptConn] with the trace of its connection and the TTL cache. *)
Record interceptConn := mkIC { handled : bool; wire : list event; ttls : Desync.ttl_state }.

Definition I : Type -> Type := St interceptConn.

Definition sending {A} (m : net A) : I A := fun c =>
  let (r, tr) := m (wire c) in (r, mkIC (handled c) tr (ttls c)).

(** [if err != nil { return 0, wrap(msg, err) }]. *)
Definition wrapped {A} (msg : string) (m : I A) : I A := fun c =>
  match m c with
  | (Err e, c) => (Err (wrap msg e), c)
  | r => r
  end.

Section intercept.
Context {env : Env} (probe : string -> Z -> nat -> Desync.dialres) (dohConnPolicy : Policy) (raddr : string).

(** [c.Conn.Write(b)]. *)
Definition plain_write (b : bytes) : I Z := sending (write Bridge.plain_err b) ~; stret (zlen b).

Definition fake_ttl : I Z := fun c =>
  let p := dohConnPolicy in
  let (r, t) := Desync.getFakeTTL probe (ttls c) (FakeTTL p) (MaxTTL p) (Attempts p) raddr in
  (r, mkIC (handled c) (wire c) t).

(** The second switch of interceptConn.Write. *)
Definition send_by_mode (b : bytes) (sniPos sniLen : Z) : I Z :=
  let p := dohConnPolicy in
  match pMode p with
  | ModeDirect | ModeRaw => plain_write b
  | ModeTTLD =>
    stlift (idx (bytes_of_string raddr) 0) ~;
    ttl <~ wrapped "get fake TTL" fake_ttl ;
    wrapped "ttl desync" (sending (Bridge.desyncSend b sniPos sniLen ttl (FakeSleep p))) ~;
    stret (zlen b)
  | ModeTLSRF =>
    wrapped "tls fragment" (sending (Fragment.sendRecords b sniPos sniLen (NumRecords p) (NumSegments p)
      (bool_decide (OOB p = BoolTrue)) (bool_decide (OOBEx p = BoolTrue))
      (bool_decide (ModMinorVer p = BoolTrue)) (SendInterval p))) ~;
    stret (zlen b)
  | _ => stret (zlen b)
  end.

(** interceptConn.Write. *)
Definition intercept_write (b : bytes) : I Z := fun c =>
  if handled c then plain_write b c
  else
    (if bool_decide (pMode dohConnPolicy = ModeBlock \/ pMode dohConnPolicy = ModeTLSAlert)
     then stfail "blocked by policy"
     else
       h <~ stlift (ClientHello.parseClientHello b) ;
       match ClientHello.herr h with
       | Some e => stfail e
       | None =>
         if bool_decide (TLS13Only dohConnPolicy = BoolTrue /\ ClientHello.hasKeyShare h = false)
         then stfail "not a TLS 1.3 ClientHello"
         else if ClientHello.sniPos h =? -1 then plain_write b
         else send_by_mode b (ClientHello.sniPos h) (ClientHello.sniLen h)
       end) (mkIC true (wire c) (ttls c)).
End intercept.

(** ** The dialer *)

Section dialer.
Context {L : LRU} {ord : RangeOrder} {names : DNSNames}.
(** url.Parse: Hostname and Port of the URL. *)
Context (parseURL : string -> go (string * string)) (cfg : config) (w : world).

(** The branch of genDialContext for a host that is an address. *)
Definition dial_ip (host : string) : M (string * Policy) :=
  r <- mapErr (wrap "ip redirect") (ipRedirect cfg w false host) ;
  match r with
  | (host, None) => ret (host, defaultPolicy cfg)
  | (host, Some ipPolicy) => ret (host, mergePolicies [ipPolicy; defaultPolicy cfg])
  end.

(** The host a policy names: the host to use and whether redirection is off. *)
Definition named_host (hostValue : string) : string * bool :=
  if HasPrefix hostValue "^" then (sdrop 1 hostValue, true)
  else (hostValue, bool_decide (hostValue <> "self"%string) && negb (not_ip hostValue)).

(** The branch for a domain. *)
Definition dial_domain (host : string) : M (string * Policy) :=
  match domainMatcher (routes cfg) with
  | None => lift Panic
  | Some m =>
    let domainPolicy := Find m host in
    let p := match domainPolicy with
             | Some dp => mergePolicies [dp; defaultPolicy cfg]
             | None => defaultPolicy cfg
             end in
    match Host p with
    | None | Some EmptyString => ret (host, p)
    | Some hostValue =>
      let '(host, disableRedirect) := named_host hostValue in
      host <- (if HasPrefix host tagPrefix then from_pool (sdrop 1 host) else ret host) ;
      if disableRedirect then ret (host, p)
      else
        host <- (if not_ip host then resolveBootstrapHost cfg w host else ret host) ;
        r <- mapErr (wrap "ip redirect") (ipRedirect cfg w false host) ;
        match r with
        | (host, None) => ret (host, p)
        | (host, Some ipPolicy) =>
          ret (host, match domainPolicy with
                     | Some dp => mergePolicies [dp; ipPolicy; defaultPolicy cfg]
                     | None => mergePolicies [ipPolicy; defaultPolicy cfg]
                     end)
        end
    end
  end.

(** genDialContext: the address every DoH connection dials, with the connection's policy. *)
Definition genDialContext (dnsAddr : string) : M (string * Policy) :=
  url <- mapErr (wrap "invalid DoH URL") (lift (parseURL dnsAddr)) ;
  let '(hostname, urlPort) := url in
  r <- (if negb (not_ip hostname) then dial_ip hostname else dial_domain hostname) ;
  let '(host, dohConnPolicy) := r in
  let port := if decide (urlPort = "")%string then "443"%string else urlPort in
  let port := if decide (Port dohConnPolicy = unsetInt) then port else Itoa (Port dohConnPolicy) in
  ret (JoinHostPort host port, dohConnPolicy).
End dialer.


(** ** What a DoH connection does *)

Section spec.
Context {L : LRU} {ord : RangeOrder} {names : DNSNames}.
Context (parseURL : string -> go (string * string)) (cfg : config) (w : world).
Context (probe : string -> Z -> nat -> Desync.dialres) (raddr : string).

Notation gen := (genDialContext parseURL cfg w).
Notation Write := (intercept_write (env := reliable) probe).

(** The port dialled under a policy for a URL's port. *)
Definition doh_port (p : Policy) (urlPort : string) : string :=
  if decide (Port p = unsetInt) then (if decide (urlPort = "")%string then "443"%string else urlPort)
  else Itoa (Port p).

Lemma gen_domain url h urlPort c : parseURL url = Ret (h, urlPort) -> not_ip h = true ->
  gen url c = (r <- dial_domain cfg w h ; let '(host, p) := r in ret (JoinHostPort host (doh_port p urlPort), p)) c.
Proof.
  intros Hu Hn. unfold genDialContext. rewrite (bind_step _ _ c (h, urlPort) c) by (unfold mapErr, lift; by rewrite Hu).
  by rewrite Hn.
Qed.

Lemma dial_domain_plain m h c : domainMatcher (routes cfg) = Some m ->
  let p := match Find m h with Some dp => mergePolicies [dp; defaultPolicy cfg] | None => defaultPolicy cfg end in
  Host p = None -> dial_domain cfg w h c = (Ret (h, p), c).
Proof. intros Hm p Hp. unfold dial_domain. rewrite Hm. cbv zeta. fold p. by rewrite Hp. Qed.

Lemma dial_domain_self m h dp e c : domainMatcher (routes cfg) = Some m -> Find m h = Some dp ->
  Host dp = Some "self"%string -> dnsCache c = None -> bootstrapLookupIP w "self" = Err e ->
  fst (dial_domain cfg w h c) = Err (wrap "bootstrap resolve self" e).
Proof.
  intros Hm Hf Hh Hc Hb. unfold dial_domain. rewrite Hm, Hf. cbv zeta.
  assert (Host (mergePolicies [dp; defaultPolicy cfg]) = Some "self"%string) as ->.
  { unfold mergePolicies. cbn [fold_left applyPolicyDefaults Host merge_step merge_start]. rewrite Hh. reflexivity. }
  change (named_host "self") with ("self"%string, false). cbn iota beta.
  change (HasPrefix "self" tagPrefix) with false. cbn iota.
  rewrite (bind_step _ _ c "self"%string c) by done. change (not_ip "self") with true. cbn iota.
  assert (fst (resolveBootstrapHost cfg w "self" c) = Err (wrap "bootstrap resolve self" e)) as HR.
  { unfold resolveBootstrapHost. change (bool_decide ("self"%string = ""%string) || negb (not_ip "self")) with false. cbn iota.
    unfold bind at 1, Dns.cache_get. rewrite Hc. unfold bind, mapErr, lift. by rewrite Hb. }
  unfold bind at 1. destruct (resolveBootstrapHost cfg w "self" c) as [r c1]. cbn [fst] in HR. by subst r.
Qed.

Lemma intercept_first p b hello t : ClientHello.parseClientHello b = Ret hello -> ClientHello.herr hello = None ->
  ClientHello.sniPos hello <> -1 -> ~ (TLS13Only p = BoolTrue /\ ClientHello.hasKeyShare hello = false) ->
  Write p raddr b (mkIC false [] t) =
  (if bool_decide (pMode p = ModeBlock \/ pMode p = ModeTLSAlert) then stfail "blocked by policy"
   else send_by_mode (env := reliable) probe p raddr b (ClientHello.sniPos hello) (ClientHello.sniLen hello)) (mkIC true [] t).
Proof.
  intros Hp He Hs Ht. unfold intercept_write. cbn [handled wire ttls]. destruct (bool_decide _); [done|].
  unfold stbind at 1, stlift. rewrite Hp, He, bool_decide_eq_false_2 by done. by rewrite (proj2 (Z.eqb_neq _ _)).
Qed.

(** C25: The DoH connection depends on a complete default policy.  For a DoH host that
    is a name without a rule, the address is the URL's host, with the URL's port
    (443 if it has none) only if the default policy has its port at -1; without a
    default_policy in the configuration the port is 0.  A rule merged over the
    default policy always has a mode; a rule whose host is self, which a dial plan
    takes for the host itself, makes the dialer resolve the name "self".  The first
    Write on the connection sends the ClientHello once as it stands in direct and raw
    mode and as fragments in tls-rf mode, refuses it in the blocking modes, and with
    no mode set reports all of it written and sends nothing; every later Write goes
    through. *)
Theorem doh_connection m url h urlPort c :
  parseURL url = Ret (h, urlPort) -> not_ip h = true -> domainMatcher (routes cfg) = Some m ->
  (Find m h = None -> Host (defaultPolicy cfg) = None ->
     gen url c = (Ret (JoinHostPort h (doh_port (defaultPolicy cfg) urlPort), defaultPolicy cfg), c) /\
     (defaultPolicy cfg = zeroPolicy -> gen url c = (Ret (JoinHostPort h "0", zeroPolicy), c))) /\
  (forall dp, Find m h = Some dp -> Host dp = None -> Host (defaultPolicy cfg) = None ->
     let p := mergePolicies [dp; defaultPolicy cfg] in
     gen url c = (Ret (JoinHostPort h (doh_port p urlPort), p), c) /\ pMode p <> ModeUnknown) /\
  (forall dp e, Find m h = Some dp -> Host dp = Some "self"%string -> dnsCache c = None ->
     bootstrapLookupIP w "self" = Err e ->
     fst (gen url c) = Err (wrap "bootstrap resolve self" e) /\ host_target h "self" = (h, false)) /\
  (forall p b hello t, ClientHello.parseClientHello b = Ret hello -> ClientHello.herr hello = None ->
     ClientHello.sniPos hello <> -1 -> ~ (TLS13Only p = BoolTrue /\ ClientHello.hasKeyShare hello = false) ->
     let first := Write p raddr b (mkIC false [] t) in
     match pMode p with
     | ModeDirect | ModeRaw => first = (Ret (zlen b), mkIC true [EvWrite b] t)
     | ModeTLSRF =>
       forall tr, Fragment.sendRecords (env := reliable) b (ClientHello.sniPos hello) (ClientHello.sniLen hello)
           (NumRecords p) (NumSegments p) (bool_decide (OOB p = BoolTrue)) (bool_decide (OOBEx p = BoolTrue))
           (bool_decide (ModMinorVer p = BoolTrue)) (SendInterval p) [] = (Ret tt, tr) ->
         first = (Ret (zlen b), mkIC true tr t)
     | ModeBlock | ModeTLSAlert => first = (Err "blocked by policy", mkIC true [] t)
     | ModeUnknown => first = (Ret (zlen b), mkIC true [] t)
     | ModeTTLD => True
     end) /\
  (forall p b ic, handled ic = true -> Write p raddr b ic = (Ret (zlen b), mkIC true (wire ic ++ [EvWrite b]) (ttls ic))).
Proof.
  intros Hu Hn Hm. split_and!.
  - intros Hf Hd. assert (gen url c = (Ret (JoinHostPort h (doh_port (defaultPolicy cfg) urlPort), defaultPolicy cfg), c)) as E.
    { rewrite (gen_domain url h urlPort) by done. pose proof (dial_domain_plain m h c Hm) as HD. cbv zeta in HD.
      rewrite Hf in HD. by rewrite (bind_step _ _ c (h, defaultPolicy cfg) c) by auto. }
    split; [done|]. intros Hz. by rewrite E, Hz.
  - intros dp Hf Hp Hd p. assert (Host p = None) as HP.
    { unfold p, mergePolicies. cbn [fold_left applyPolicyDefaults Host merge_step merge_start]. by rewrite Hp, Hd. }
    split.
    + rewrite (gen_domain url h urlPort) by done. pose proof (dial_domain_plain m h c Hm) as HD. cbv zeta in HD.
      rewrite Hf in HD. by rewrite (bind_step _ _ c (h, p) c) by auto.
    + unfold p, mergePolicies, applyPolicyDefaults. cbn [pMode]. by destruct (decide _).
  - intros dp e Hf Hh Hc Hb. split; [|done]. rewrite (gen_domain url h urlPort) by done.
    pose proof (dial_domain_self m h dp e c Hm Hf Hh Hc Hb) as HD. unfold bind.
    destruct (dial_domain cfg w h c) as [r c1]. cbn [fst] in HD. by subst r.
  - intros p b hello t Hp He Hs Ht first. unfold first. rewrite (intercept_first p b hello) by done.
    unfold send_by_mode. destruct (pMode p); try done.
    intros tr HF. rewrite (bool_decide_eq_false_2 (ModeTLSRF = ModeBlock \/ ModeTLSRF = ModeTLSAlert)) by (intros [?|?]; done). unfold stbind, wrapped, sending. cbn [wire].
    by rewrite HF.
  - intros p b ic Hh. unfold intercept_write, plain_write, stbind, sending. rewrite Hh. done.
Qed.
End spec.


(** ** Witness *)

(** The URL https://dns.example/dns-query, with no default_policy and no rules. *)
Definition w_parse : string -> go (string * string) := fun _ => Ret ("dns.example"%string, ""%string).
Definition w_zero_cfg : config := mkConfig zeroPolicy (mkRules (Some NewDomainMatcher) NewTrie NewTrie None None) 0.
Definition w_hello : bytes := ClientHello.enc_record ClientHello.sample_hello.

Lemma doh_connection_witness :
  genDialContext (L := map_lru) w_parse w_zero_cfg (Dns.w_world 0) "https://dns.example/dns-query" Dns.w_core =
    (Ret ("dns.example:0"%string, zeroPolicy), Dns.w_core) /\
  intercept_write (env := reliable) Bridge.w_dial zeroPolicy "192.0.2.1:443" w_hello (mkIC false [] Bridge.w_ttls) =
    (Ret (zlen w_hello), mkIC true [] Bridge.w_ttls).
Proof.
  destruct (doh_connection (L := map_lru) w_parse w_zero_cfg (Dns.w_world 0) Bridge.w_dial "192.0.2.1:443" NewDomainMatcher
    "https://dns.example/dns-query" "dns.example" "" Dns.w_core) as (HA & _ & _ & HD & _).
  - reflexivity.
  - vm_compute. reflexivity.
  - reflexivity.
  - split.
    + apply HA; [apply Find_new|reflexivity|reflexivity].
    + apply (HD zeroPolicy w_hello (match ClientHello.parseClientHello w_hello with Ret h => h | _ => ClientHello.mkHello None 0 0 false None end)).
      * vm_compute. reflexivity.
      * vm_compute. reflexivity.
      * vm_compute. discriminate.
      * intros [H _]. discriminate H.
Defined.

End Doh.
