(* ===== verification/Config.v ===== *)
(** * Loading a configuration (src/internal/config.go, LoadConfig)

    LoadConfig reads a file and sets the package variables one after the other.  The
    variables are a record, an assignment is a step of a state-and-error computation, and an
    early return leaves the assignments made before it.  Reading the file and decoding its
    JSON are a parameter, as are the cache constructor, the SOCKS dialer and what the probes
    of the IP pools find. *)

From S2P Require Import Prelude GoStrings GoState Conn NetIP FakeIP Patterns AddrTrie Policy Route IPPool Core Dns Plan Desync Doh Gfw.

Module Config.
Import FakeIP AddrTrie Policy Route IPPool.

(** The decoded file. *)
Record Config := mkConf {
  LogLevel : string; TransmitFileLimit : Z; Socks5Addr : string; HttpAddr : string; DNSAddr : string; UDPSize : Z; DoHProxy : string;
  FakeTTLRules : string; DNSSingleflight : bool; DNSCacheTTL : Z; DNSCacheCapacity : Z;
  TTLSingleflight : bool; TTLCacheTTL : Z; TTLCacheCapacity : Z;
  IPPools : gmap string IPPool; DefaultPolicy : Policy;
  DomainPolicies : gmap string Policy; IpPolicies : gmap string Policy
}.

Inductive Level := DEBUG | INFO | ERROR.

(** [dnsExchange] with the client it uses. *)
Inductive exchange :=
| NoExchange
| DoHDirect (addr : string) (policy : Policy)    (* dohExchange through genDialContext *)
| DoHProxied (proxy : string)                    (* dohExchange through a SOCKS5 dialer *)
| Do53 (udpSize : option Z).

Section load.
Context {L : LRU} {ord : RangeOrder} {names : DNSNames} {S : Desync.SortSlice}.

Record vars := mkVars {
  kern : core;                      (* fake addresses, IPPools, dnsCache, ipDomainCache, answers *)
  conf : config;                    (* defaultPolicy, the matchers, dnsCacheTTL *)
  logLevel : Level;
  dnsSingleflight : bool;
  ttlSingleflight : bool;
  ttls : Desync.ttl_state;          (* ttlCache, calcTTL *)
  ttlCacheTTL : Z;
  dnsAddr : string;
  exchanger : exchange;
  sem : option Z                    (* the capacity of the channel that limits TransmitFile *)
}.

Definition V : Type -> Type := St vars.
Definition assign (f : vars -> vars) : V unit := fun v => (Ret tt, f v).
Definition read {A} (f : vars -> A) : V A := fun v => (Ret (f v), v).

Definition set_kern (k : core) (v : vars) : vars :=
  mkVars k (conf v) (logLevel v) (dnsSingleflight v) (ttlSingleflight v) (ttls v) (ttlCacheTTL v) (dnsAddr v) (exchanger v) (sem v).
Definition set_conf (c : config) (v : vars) : vars :=
  mkVars (kern v) c (logLevel v) (dnsSingleflight v) (ttlSingleflight v) (ttls v) (ttlCacheTTL v) (dnsAddr v) (exchanger v) (sem v).
Definition set_logLevel (l : Level) (v : vars) : vars :=
  mkVars (kern v) (conf v) l (dnsSingleflight v) (ttlSingleflight v) (ttls v) (ttlCacheTTL v) (dnsAddr v) (exchanger v) (sem v).
Definition set_flights (d t : bool) (v : vars) : vars :=
  mkVars (kern v) (conf v) (logLevel v) d t (ttls v) (ttlCacheTTL v) (dnsAddr v) (exchanger v) (sem v).
Definition set_ttls (t : Desync.ttl_state) (d : Z) (v : vars) : vars :=
  mkVars (kern v) (conf v) (logLevel v) (dnsSingleflight v) (ttlSingleflight v) t d (dnsAddr v) (exchanger v) (sem v).
Definition set_dns (a : string) (e : exchange) (v : vars) : vars :=
  mkVars (kern v) (conf v) (logLevel v) (dnsSingleflight v) (ttlSingleflight v) (ttls v) (ttlCacheTTL v) a e (sem v).
(** [sem = make(chan struct{}, n)]. *)
Definition set_sem (n : Z) (v : vars) : vars :=
  mkVars (kern v) (conf v) (logLevel v) (dnsSingleflight v) (ttlSingleflight v) (ttls v) (ttlCacheTTL v) (dnsAddr v) (exchanger v) (Some n).

Definition set_defaultPolicy (p : Policy) (v : vars) : vars :=
  set_conf (mkConfig p (routes (conf v)) (dnsCacheTTL (conf v))) v.
Definition set_dnsCacheTTL (d : Z) (v : vars) : vars :=
  set_conf (mkConfig (defaultPolicy (conf v)) (routes (conf v)) d) v.
Definition set_routes (r : rules) (v : vars) : vars :=
  set_conf (mkConfig (defaultPolicy (conf v)) r (dnsCacheTTL (conf v))) v.

(** What is outside: the file, the probes of a pool, freelru's constructor (its error),
    url.Parse, golang.org/x/net/proxy, the clock and network, and the embedded list. *)
Class Outside := {
  open_and_decode : string -> go Config;
  probes : string -> Z -> list (option Z);
  arrivals : string -> list Z;
  newCache : Z -> option string;
  parseURL : string -> go (string * string);
  urlHost : string -> option string;
  newSOCKS5 : string -> option string;
  around : world;
  embeddedGFWList : string;
  windows : bool                    (* runtime.GOOS == "windows" *)
}.
Context `{Outside}.

Definition set_level (text : string) : V unit :=
  if decide (text = "")%string then stret tt
  else
    let upper := ToUpper text in
    if decide (upper = "DEBUG")%string then assign (set_logLevel DEBUG)
    else if decide (upper = "INFO")%string then assign (set_logLevel INFO)
    else if decide (upper = "ERROR")%string then assign (set_logLevel ERROR)
    else stfail ("unknown log level: " +:+ text).

(** The loop over the pools: each is initialised in place. *)
Fixpoint init_pools (tags : list string) : V unit :=
  match tags with
  | [] => stret tt
  | tag :: tags =>
    k <~ read kern ;
    match pools k !! tag with
    | None => init_pools tags
    | Some pool =>
      match Init (probes tag) (arrivals tag) pool with
      | Ret pool => assign (set_kern (set_pools k (<[tag := pool]> (pools k)))) ~; init_pools tags
      | Err e => stfail (wrap ("init ip pool " +:+ tag) e)
      | Panic => stlift Panic
      end
    end
  end.
Definition load_pools (ps : gmap string IPPool) : V unit :=
  if decide (ps = ∅) then stret tt
  else k <~ read kern ; assign (set_kern (set_pools k ps)) ~; init_pools (range_keys ps).

Definition second : Z := 10 ^ 9.

Definition load_dns_cache (c : Config) : V unit :=
  if DNSCacheTTL c <? 0 then stfail ("invalid dns_cache_ttl: " +:+ Itoa (DNSCacheTTL c))
  else if DNSCacheTTL c =? 0 then stret tt
  else if DNSCacheCapacity c <? 1 then stfail ("invalid dns_cache_cap: " +:+ Itoa (DNSCacheCapacity c))
  else
    match newCache (u32 (DNSCacheCapacity c)) with
    | Some e => k <~ read kern ; assign (set_kern (set_dnsCache k None)) ~; stfail (wrap "init dns cache" e)
    | None =>
      k <~ read kern ;
      assign (set_kern (set_ipDomainCache (set_dnsCache k (Some lru_empty)) (Some lru_empty))) ~;
      assign (set_dnsCacheTTL (i64 (DNSCacheTTL c * second)))
    end.

Definition load_ttl_cache (c : Config) : V unit :=
  if TTLCacheTTL c <? 0 then stfail ("invalid ttl cache ttl: " +:+ Itoa (TTLCacheTTL c))
  else if TTLCacheTTL c =? 0 then stret tt
  else if TTLCacheCapacity c <? 1 then stfail ("invalid ttl_cache_cap: " +:+ Itoa (TTLCacheCapacity c))
  else
    t <~ read ttls ;
    d <~ read ttlCacheTTL ;
    match newCache (u32 (TTLCacheCapacity c)) with
    | Some e => assign (set_ttls (Desync.mkTTL None (Desync.calcTTL t)) d) ~; stfail (wrap "init ttl cache" e)
    | None => assign (set_ttls (Desync.mkTTL (Some ∅) (Desync.calcTTL t)) (i64 (TTLCacheTTL c * second)))
    end.

Definition load_ttl_rules (c : Config) : V unit :=
  if decide (FakeTTLRules c = "")%string then stret tt
  else
    match Desync.loadTTLRules (FakeTTLRules c) with
    | Ret r =>
      t <~ read ttls ;
      d <~ read ttlCacheTTL ;
      assign (set_ttls (Desync.mkTTL (Desync.ttlCache t) (Some r)) d) ~;
      if windows && (0 <? TransmitFileLimit c) then assign (set_sem (TransmitFileLimit c)) else stret tt
    | Err e => stfail (wrap "load fake ttl rules" e)
    | Panic => stlift Panic
    end.

(** The matchers: domains, the built-in list, addresses. *)
Definition load_matchers (c : Config) : V unit :=
  r <~ read (fun v => routes (conf v)) ;
  let r := mkRules (Some (buildDomainMatcher (DomainPolicies c))) (ipMatcher r) (ipv6Matcher r)
             (gfwDomainMatcher r) (gfwBypassMatcher r) in
  assign (set_routes r) ~;
  match Gfw.loadBuiltinGFWList urlHost embeddedGFWList with
  | Ret (gfw, byp) =>
    let (ip4, ip6) := buildIPMatchers (IpPolicies c) in
    assign (set_routes (mkRules (domainMatcher r) ip4 ip6 (Some gfw) (Some byp)))
  | Err e => stfail (wrap "load builtin gfwlist" e)
  | Panic => stlift Panic
  end.

Definition load_exchange (c : Config) : V unit :=
  e <~ read exchanger ;
  assign (set_dns (DNSAddr c) e) ~;
  if HasPrefix (DNSAddr c) "https://" then
    if decide (DoHProxy c = "")%string then
      fun v =>
        let (r, k) := Doh.genDialContext parseURL (conf v) around (DNSAddr c) (kern v) in
        let v := set_kern k v in
        match r with
        | Ret (addr, policy) => (Ret tt, set_dns (DNSAddr c) (DoHDirect addr policy) v)
        | Err e => (Err e, v)
        | Panic => (Panic, v)
        end
    else
      match newSOCKS5 (DoHProxy c) with
      | Some e => stfail (wrap "create socks5 dialer" e)
      | None => assign (set_dns (DNSAddr c) (DoHProxied (DoHProxy c)))
      end
  else assign (set_dns (DNSAddr c) (Do53 (if UDPSize c <=? 0 then None else Some (UDPSize c)))).

(** The steps after decoding. *)
Definition apply_config (c : Config) : V (string * string) :=
  set_level (LogLevel c) ~;
  assign (set_defaultPolicy (DefaultPolicy c)) ~;
  load_pools (IPPools c) ~;
  assign (fun v => set_flights (DNSSingleflight c || dnsSingleflight v) (TTLSingleflight c || ttlSingleflight v) v) ~;
  load_dns_cache c ~;
  load_ttl_cache c ~;
  load_ttl_rules c ~;
  load_matchers c ~;
  load_exchange c ~;
  stret (Socks5Addr c, HttpAddr c).

Definition LoadConfig (filePath : string) : V (string * string) :=
  c <~ stlift (open_and_decode filePath) ;
  apply_config c.
End load.

(** ** What a load changes *)

Section spec.
Context {L : LRU} {ord : RangeOrder} {names : DNSNames} {S : Desync.SortSlice} `{Outside}.

Lemma vbind_Ret {A B} (m : V A) (k : A -> V B) v b v' :
  stbind m k v = (Ret b, v') <-> exists a v1, m v = (Ret a, v1) /\ k a v1 = (Ret b, v').
Proof. unfold stbind. destruct (m v) as [[a|e|] v1]; naive_solver. Qed.

(** The level a text names; the old one for the empty text. *)
Definition level_of (text : string) (old : Level) : option Level :=
  if decide (text = "")%string then Some old
  else
    let upper := ToUpper text in
    if decide (upper = "DEBUG")%string then Some DEBUG
    else if decide (upper = "INFO")%string then Some INFO
    else if decide (upper = "ERROR")%string then Some ERROR
    else None.

Lemma set_level_spec text v :
  set_level text v = match level_of text (logLevel v) with
                     | Some l => (Ret tt, set_logLevel l v)
                     | None => (Err ("unknown log level: " +:+ text), v)
                     end.
Proof. unfold set_level, level_of. cbv zeta. repeat case_decide; try done. by destruct v. Qed.

(** Initialising pools changes nothing else, keeps their tags, and succeeds only if each
    has a valid address. *)
Lemma init_pools_spec tags : forall v, exists ps,
  snd (init_pools tags v) = set_kern (set_pools (kern v) ps) v /\
  (forall t, is_Some (ps !! t) <-> is_Some (pools (kern v) !! t)) /\
  (forall t p, ps !! t = Some p -> (exists p0, pools (kern v) !! t = Some p0 /\ 0 < curValidIPs p0) -> 0 < curValidIPs p) /\
  (fst (init_pools tags v) = Ret tt -> forall t p, t ∈ tags -> ps !! t = Some p -> 0 < curValidIPs p).
Proof.
  induction tags as [|t tags IH]; intros v; cbn [init_pools].
  { exists (pools (kern v)). split; [by destruct v as [[]]|]. split; [done|]. split; [naive_solver|].
    intros _ t p Ht. by apply not_elem_of_nil in Ht. }
  unfold stbind at 1 3. cbn [read]. destruct (pools (kern v) !! t) as [p0|] eqn:Ep.
  2:{ destruct (IH v) as (ps & E & Hd & Hk & Hv). exists ps. split_and!; try done.
      intros Hr t' p [->|Ht]%elem_of_cons Hp; [|by eapply Hv]. destruct (proj1 (Hd t)) as [q Hq]; [by eexists|]. congruence. }
  destruct (Init (probes t) (arrivals t) p0) as [p1|e|] eqn:EI.
  - unfold stbind, assign. set (v1 := set_kern _ v). destruct (IH v1) as (ps & E & Hd & Hk & Hv).
    assert (0 < curValidIPs p1) as Hp1.
    { unfold Init in EI. cbv zeta in EI. destruct (Z.ltb_spec 0 (curValidIPs (scan (probes t) (arrivals t) p0))); [|done]. by injection EI as <-. }
    exists ps. cbn [kern set_kern pools set_pools v1] in *. split; [by rewrite E|]. split.
    { intros t'. rewrite Hd, lookup_insert_is_Some. destruct (decide (t = t')) as [<-|]; [rewrite Ep; split; [by eexists|by left]|naive_solver]. }
    split.
    { intros t' p Hp (p' & Hp' & Hc). eapply Hk; [exact Hp|]. destruct (decide (t = t')) as [<-|Hne].
      - exists p1. by rewrite lookup_insert_eq.
      - exists p'. by rewrite lookup_insert_ne. }
    intros Hr t' p [->|Ht]%elem_of_cons Hp; [|by eapply Hv]. eapply Hk; [exact Hp|]. exists p1. by rewrite lookup_insert_eq.
  - exists (pools (kern v)). split; [by destruct v as [[]]|]. split; [done|]. split; [naive_solver|done].
  - exists (pools (kern v)). split; [by destruct v as [[]]|]. split; [done|]. split; [naive_solver|done].
Qed.

Lemma load_pools_spec ps v : exists ps',
  snd (load_pools ps v) = set_kern (set_pools (kern v) ps') v /\
  (fst (load_pools ps v) = Ret tt ->
     (ps = ∅ -> ps' = pools (kern v)) /\
     (ps <> ∅ -> (forall t, is_Some (ps' !! t) <-> is_Some (ps !! t)) /\ forall t p, ps' !! t = Some p -> 0 < curValidIPs p)).
Proof.
  unfold load_pools. case_decide as Hps.
  { exists (pools (kern v)). split; [by destruct v as [[]]|done]. }
  unfold stbind, read, assign. set (v1 := set_kern _ v). destruct (init_pools_spec (range_keys ps) v1) as (ps' & E & Hd & _ & Hv).
  exists ps'. rewrite E. split; [done|]. intros Hr. split; [done|]. intros _. cbn [kern set_kern pools set_pools v1] in Hd. split; [done|].
  intros t p Hp. eapply Hv; [done| |exact Hp]. apply range_keys_dom, Hd. by eexists.
Qed.

Lemma load_dns_cache_Ret c v v' : load_dns_cache c v = (Ret tt, v') ->
  0 <= DNSCacheTTL c /\
  v' = if DNSCacheTTL c =? 0 then v
       else set_dnsCacheTTL (i64 (DNSCacheTTL c * second))
              (set_kern (set_ipDomainCache (set_dnsCache (kern v) (Some lru_empty)) (Some lru_empty)) v).
Proof.
  unfold load_dns_cache. destruct (Z.ltb_spec (DNSCacheTTL c) 0); [done|]. destruct (DNSCacheTTL c =? 0); [by intros [= <-]|].
  destruct (_ <? 1); [done|]. destruct (newCache _); [done|]. by intros [= <-].
Qed.

Lemma load_ttl_cache_Ret c v v' : load_ttl_cache c v = (Ret tt, v') ->
  0 <= TTLCacheTTL c /\
  v' = if TTLCacheTTL c =? 0 then v
       else set_ttls (Desync.mkTTL (Some ∅) (Desync.calcTTL (ttls v))) (i64 (TTLCacheTTL c * second)) v.
Proof.
  unfold load_ttl_cache. destruct (Z.ltb_spec (TTLCacheTTL c) 0); [done|]. destruct (TTLCacheTTL c =? 0); [by intros [= <-]|].
  destruct (_ <? 1); [done|]. unfold stbind, read. destruct (newCache _); [done|]. by intros [= <-].
Qed.

Lemma load_ttl_rules_Ret c v v' : load_ttl_rules c v = (Ret tt, v') ->
  (FakeTTLRules c = ""%string /\ v' = v) \/
  (FakeTTLRules c <> ""%string /\ exists r, Desync.loadTTLRules (FakeTTLRules c) = Ret r /\
     v' = (if windows && (0 <? TransmitFileLimit c) then set_sem (TransmitFileLimit c) else id)
            (set_ttls (Desync.mkTTL (Desync.ttlCache (ttls v)) (Some r)) (ttlCacheTTL v) v)).
Proof.
  unfold load_ttl_rules. case_decide; [intros [= <-]; by left|]. intros E. right. split; [done|].
  destruct (Desync.loadTTLRules _) as [r|e|]; [|done..]. exists r. split; [done|].
  cbn in E. by destruct (windows && _); injection E as <-.
Qed.

Lemma load_matchers_Ret c v v' : load_matchers c v = (Ret tt, v') ->
  exists gfw byp, Gfw.loadBuiltinGFWList urlHost embeddedGFWList = Ret (gfw, byp) /\
    v' = set_routes (mkRules (Some (buildDomainMatcher (DomainPolicies c))) (fst (buildIPMatchers (IpPolicies c)))
           (snd (buildIPMatchers (IpPolicies c))) (Some gfw) (Some byp)) v.
Proof.
  unfold load_matchers, stbind, read, assign. cbv zeta. destruct (Gfw.loadBuiltinGFWList _ _) as [[gfw byp]|e|]; [|done..].
  destruct (buildIPMatchers _) as [ip4 ip6]. intros [= <-]. by exists gfw, byp.
Qed.

(** Queries that do not go through the DoH dialer. *)
Definition plain_dns (c : Config) : Prop := HasPrefix (DNSAddr c) "https://" = false \/ DoHProxy c <> ""%string.

(** The exchange a file asks for, made with the rules [g] and the caches and pools [k] that
    were loaded before; only the DoH dialer changes them, to [k']. *)
Definition exchange_of (c : Config) (g : config) (k k' : core) (e : exchange) : Prop :=
  if HasPrefix (DNSAddr c) "https://" then
    if decide (DoHProxy c = "")%string then
      exists addr policy, Doh.genDialContext parseURL g around (DNSAddr c) k = (Ret (addr, policy), k') /\ e = DoHDirect addr policy
    else k' = k /\ e = DoHProxied (DoHProxy c)
  else k' = k /\ e = Do53 (if UDPSize c <=? 0 then None else Some (UDPSize c)).

Lemma load_exchange_Ret c v v' : load_exchange c v = (Ret tt, v') ->
  exists k e, v' = set_dns (DNSAddr c) e (set_kern k v) /\ exchange_of c (conf v) (kern v) k e.
Proof.
  unfold load_exchange, exchange_of. unfold stbind at 1. cbn [read]. unfold stbind at 1. cbn [assign].
  destruct (HasPrefix _ _) eqn:Eh.
  - case_decide as Ep.
    + set (v1 := set_dns _ _ v). change (conf v1) with (conf v). change (kern v1) with (kern v).
      destruct (Doh.genDialContext _ _ _ _ _) as [[[a p]|e|] k]; [|done..].
      intros [= <-]. exists k, (DoHDirect a p). split; [done|]. by exists a, p.
    + destruct (newSOCKS5 _); [done|]. intros [= <-]. exists (kern v). eexists. by split.
  - intros [= <-]. exists (kern v). eexists. by split.
Qed.

(** A failure after the log level was read. *)
Lemma apply_policy c v l : level_of (LogLevel c) (logLevel v) = Some l ->
  apply_config c v = (load_pools (IPPools c) ~;
    assign (fun v => set_flights (DNSSingleflight c || dnsSingleflight v) (TTLSingleflight c || ttlSingleflight v) v) ~;
    load_dns_cache c ~; load_ttl_cache c ~; load_ttl_rules c ~; load_matchers c ~; load_exchange c ~;
    stret (Socks5Addr c, HttpAddr c)) (set_defaultPolicy (DefaultPolicy c) (set_logLevel l v)).
Proof. intros El. unfold apply_config. unfold stbind at 1. rewrite set_level_spec, El. done. Qed.

(** ** When a load succeeds

    [succeeds m P]: from any state, [m] returns exactly when [P] holds. *)
Definition succeeds {A} (m : V A) (P : Prop) : Prop := forall v, (exists a v', m v = (Ret a, v')) <-> P.

Lemma succeeds_bind {A B} (m : V A) (k : A -> V B) P Q :
  succeeds m P -> (forall a, succeeds (k a) Q) -> succeeds (stbind m k) (P /\ Q).
Proof.
  intros Hm Hk v. rewrite <- (Hm v). setoid_rewrite vbind_Ret. split.
  - intros (b & v' & a & v1 & E & Ek). split; [eauto|]. apply (Hk a v1). eauto.
  - intros [(a & v1 & E) HQ]. apply (Hk a v1) in HQ as (b & v' & Ek). eauto 6.
Qed.
Lemma succeeds_assign f : succeeds (assign f) True.
Proof. intros v. split; [done|]. intros _. by exists tt, (f v). Qed.
Lemma succeeds_ret {A} (a : A) : succeeds (stret a) True.
Proof. intros v. split; [done|]. intros _. by exists a, v. Qed.
Lemma succeeds_iff {A} (m : V A) P Q : (P <-> Q) -> succeeds m P -> succeeds m Q.
Proof. intros E Hm v. by rewrite <- E. Qed.

Lemma succeeds_set_level text : succeeds (set_level text) (level_of text INFO <> None).
Proof. intros v. rewrite set_level_spec. unfold level_of. cbv zeta. repeat case_decide; naive_solver. Qed.

Definition pool_ok (t : string) (p : IPPool) : Prop := exists p', Init (probes t) (arrivals t) p = Ret p'.

Lemma init_pools_ok tags : NoDup tags -> forall v,
  (exists a v', init_pools tags v = (Ret a, v')) <->
  forall t p, t ∈ tags -> pools (kern v) !! t = Some p -> pool_ok t p.
Proof.
  induction 1 as [|t tags Ht _ IH]; intros v; cbn [init_pools].
  { split; [intros _ t p Hin; by apply not_elem_of_nil in Hin|]. intros _. by exists tt, v. }
  setoid_rewrite elem_of_cons. unfold stbind at 1. cbn [read]. destruct (pools (kern v) !! t) as [p0|] eqn:Ep.
  2:{ rewrite IH. naive_solver. }
  destruct (Init (probes t) (arrivals t) p0) as [p1|e|] eqn:EI.
  2,3: split; [by intros (a & v' & ?)|]; intros Hok; destruct (Hok t p0 (or_introl eq_refl) Ep); congruence.
  unfold stbind, assign. rewrite IH. cbn [kern set_kern pools set_pools].
  split; intros Hok t' p.
  - intros [->|Hin] Hp; [exists p1; congruence|]. apply Hok; [done|]. by rewrite lookup_insert_ne by set_solver.
  - intros Hin Hp. rewrite lookup_insert_ne in Hp by set_solver. eauto.
Qed.

Lemma succeeds_load_pools ps : succeeds (load_pools ps) (forall t p, ps !! t = Some p -> pool_ok t p).
Proof.
  intros v. unfold load_pools. case_decide as Hps.
  { subst ps. split; [intros _ t p Hp; by rewrite lookup_empty in Hp|]. intros _. by exists tt, v. }
  unfold stbind, read, assign. rewrite init_pools_ok by apply range_keys_NoDup. cbn [kern set_kern pools set_pools].
  split; [|naive_solver]. intros Hok t p Hp. apply Hok; [|done]. apply range_keys_dom. by eexists.
Qed.

(** A cache of [capacity] entries with a time to live of [ttl] seconds, 0 for no cache. *)
Definition cache_ok (ttl capacity : Z) : Prop :=
  ttl = 0 \/ 0 < ttl /\ 1 <= capacity /\ newCache (u32 capacity) = None.

Ltac cache_cases :=
  repeat match goal with
  | |- context [if ?a <? ?b then _ else _] => destruct (Z.ltb_spec a b)
  | |- context [if ?a =? ?b then _ else _] => destruct (Z.eqb_spec a b)
  | |- context [match newCache ?n with _ => _ end] => destruct (newCache n) eqn:?
  end; (split; [intros (? & ? & ?); try done|intros [?|(? & ? & ?)]; try lia; try congruence; by eexists _, _]);
  first [by left|right; split_and!; lia || done].

Lemma succeeds_load_dns_cache c : succeeds (load_dns_cache c) (cache_ok (DNSCacheTTL c) (DNSCacheCapacity c)).
Proof. intros v. unfold load_dns_cache, stbind, read, cache_ok. cache_cases. Qed.
Lemma succeeds_load_ttl_cache c : succeeds (load_ttl_cache c) (cache_ok (TTLCacheTTL c) (TTLCacheCapacity c)).
Proof. intros v. unfold load_ttl_cache, stbind, read, cache_ok. cache_cases. Qed.

Lemma succeeds_load_ttl_rules c :
  succeeds (load_ttl_rules c) (FakeTTLRules c = ""%string \/ exists r, Desync.loadTTLRules (FakeTTLRules c) = Ret r).
Proof.
  intros v. unfold load_ttl_rules, stbind, read. case_decide; [split; [auto|intros _; by eexists _, _]|].
  destruct (Desync.loadTTLRules _) as [r|e|]; [destruct (windows && _)|..];
    (split; [intros (? & ? & ?); try done; eauto|intros [?|[? ?]]; try done; by eexists _, _]).
Qed.
Lemma succeeds_load_matchers c :
  succeeds (load_matchers c) (exists gb, Gfw.loadBuiltinGFWList urlHost embeddedGFWList = Ret gb).
Proof.
  intros v. unfold load_matchers, stbind, read, assign. cbv zeta. destruct (buildIPMatchers _) as [ip4 ip6].
  destruct (Gfw.loadBuiltinGFWList _ _) as [[gfw byp]|e|]; (split; [intros (? & ? & ?); try done; eauto|intros [? ?]; try done; by eexists _, _]).
Qed.
Lemma succeeds_load_exchange c : plain_dns c ->
  succeeds (load_exchange c) (HasPrefix (DNSAddr c) "https://" = true -> newSOCKS5 (DoHProxy c) = None).
Proof.
  intros Hp v. unfold load_exchange, stbind, read, assign. destruct (HasPrefix _ _) eqn:Eh.
  2:{ split; [done|]. intros _. by eexists _, _. }
  destruct Hp as [?|Hp]; [congruence|]. rewrite decide_False by done.
  destruct (newSOCKS5 _); (split; [intros (? & ? & ?); try done|intros Hn; try (by specialize (Hn eq_refl)); by eexists _, _]).
Qed.

(** The configurations a load accepts, when queries do not go through the DoH dialer. *)
Record accepted (c : Config) : Prop := mkAccepted {
  acc_level : level_of (LogLevel c) INFO <> None;
  acc_pools : forall t p, IPPools c !! t = Some p -> pool_ok t p;
  acc_dns : cache_ok (DNSCacheTTL c) (DNSCacheCapacity c);
  acc_ttl : cache_ok (TTLCacheTTL c) (TTLCacheCapacity c);
  acc_rules : FakeTTLRules c = ""%string \/ exists r, Desync.loadTTLRules (FakeTTLRules c) = Ret r;
  acc_gfw : exists gb, Gfw.loadBuiltinGFWList urlHost embeddedGFWList = Ret gb;
  acc_proxy : HasPrefix (DNSAddr c) "https://" = true -> newSOCKS5 (DoHProxy c) = None
}.

Lemma succeeds_apply_config c : plain_dns c -> succeeds (apply_config c) (accepted c).
Proof.
  intros Hp. eapply succeeds_iff; cycle 1.
  { unfold apply_config. repeat (apply succeeds_bind; [|intros _]);
      [apply succeeds_set_level|apply succeeds_assign|apply succeeds_load_pools|apply succeeds_assign
      |apply succeeds_load_dns_cache|apply succeeds_load_ttl_cache|apply succeeds_load_ttl_rules
      |apply succeeds_load_matchers|by apply succeeds_load_exchange|apply succeeds_ret]. }
  split; [intros (? & _ & ? & _ & ? & ? & ? & ? & ? & _); by constructor|intros []; by split_and!].
Qed.

End spec.

(** *** A concrete load *)

#[local] Instance w_outside : Outside :=
  {| open_and_decode := fun _ => Err "no file"; probes := fun _ _ => []; arrivals := fun _ => []; newCache := fun _ => None;
     parseURL := fun _ => Err "no url"; urlHost := fun _ => None; newSOCKS5 := fun _ => None;
     around := Dns.w_world 0; embeddedGFWList := Gfw.w_raw; windows := true |}.
Definition w_config : Config :=
  mkConf "debug" 4 "127.0.0.1:1080" "127.0.0.1:1225" "1.1.1.1:53" 0 "" "3-1;10=5" true 60 4096 false 0 0 ∅ zeroPolicy ∅ ∅.
Definition w_vars : vars (L := map_lru) :=
  mkVars Dns.w_core (mkConfig zeroPolicy (mkRules None NewTrie NewTrie None None) 0) INFO false false (Desync.mkTTL None None) 0 "" NoExchange None.


End Config.
