(* ===== verification/Aead.v ===== *)
(** * Shadowsocks AEAD streams and packets
      (src/tun2socks/transport/shadowsocks/shadowaead)

    The framing of a stream into sealed chunks under counting nonces, the reader that
    opens them, the connection that exchanges salts first, and datagrams.  The AEAD
    primitives and the key derivation are parameters with their documented laws. *)

From S2P Require Import Prelude GoState Conn GoIO.

Module Aead.

(** ** The cipher *)

(** crypto/cipher.AEAD without additional data. *)
Record AEAD := mkAEAD {
  NonceSize : Z; Overhead : Z;
  Seal : bytes -> bytes -> bytes;
  Open : bytes -> bytes -> option bytes
}.

(** What crypto/cipher documents, with sizes the buffers of this package allow for. *)
Record aead_ok (a : AEAD) : Prop := {
  nonce_range : 0 <= NonceSize a <= 32;
  overhead_range : 0 <= Overhead a <= 511;
  seal_length : forall n p, zlen (Seal a n p) = zlen p + Overhead a;
  open_seal : forall n p, Open a n (Seal a n p) = Some p
}.

(** cipher.go: metaCipher, with HKDF and the AEAD's constructor as parameters. *)
Record metaCipher := mkCipher {
  psk : bytes;
  hkdfSHA1 : bytes -> bytes -> Z -> bytes;
  makeAEAD : bytes -> go AEAD
}.
Definition KeySize (c : metaCipher) : Z := zlen (psk c).
Definition SaltSize (c : metaCipher) : Z := if 16 <? KeySize c then KeySize c else 16.
Definition Encrypter (c : metaCipher) (salt : bytes) : go AEAD := makeAEAD c (hkdfSHA1 c (psk c) salt (KeySize c)).
Definition Decrypter (c : metaCipher) (salt : bytes) : go AEAD := makeAEAD c (hkdfSHA1 c (psk c) salt (KeySize c)).

Definition payloadSizeMask : Z := 0x3FFF.
Definition bufSize : Z := 17 * 1024.

(** increment: little-endian, wrapping around. *)
Fixpoint increment (b : bytes) : bytes :=
  match b with
  | [] => []
  | x :: b => if u8 (x + 1) =? 0 then 0 :: increment b else u8 (x + 1) :: b
  end.

(** ** Writing *)

(** The nonce array and the trace of the connection below. *)
Record Writer := mkWriter { wnonce : bytes; wire : list event }.
Definition NewWriter (tr : list event) : Writer := mkWriter (replicate 32 0) tr.

Definition W : Type -> Type := St Writer.

(** [w.Seal(..., nonce, p, nil); increment(nonce)], where [nonce] aliases the array. *)
Definition seal_next (a : AEAD) (p : bytes) : W bytes := fun w =>
  match slice_to (wnonce w) (NonceSize a) with
  | Ret nonce =>
    (Ret (Seal a nonce p), mkWriter (increment nonce ++ drop (Z.to_nat (NonceSize a)) (wnonce w)) (wire w))
  | _ => (Panic, w)
  end.

(** Reslicing the pooled buffer. *)
Definition within (n cap : Z) : go unit := if n <=? cap then Ret tt else Panic.

Section writer.
Context {env : Env} (a : AEAD).

(** [_, err = w.Writer.Write(b)]. *)
Definition send (b : bytes) : W (option string) := fun w =>
  let (r, tr) := write (fun e => e) b (wire w) in
  (match r with Ret _ => Ret None | Err e => Ret (Some e) | Panic => Panic end, mkWriter (wnonce w) tr).

(** One chunk: its size and the payload, both sealed, in one write. *)
Definition write_frame (payload : bytes) : W (option string) :=
  stlift (within (2 + Overhead a + zlen payload + Overhead a) bufSize) ~;
  size <~ seal_next a (put16 (zlen payload)) ;
  body <~ seal_next a payload ;
  send (size ++ body).

(** The loop of Write: bytes taken so far and the error. *)
Fixpoint write_loop (fuel : nat) (p : bytes) (n : Z) : W (Z * option string) :=
  match fuel with
  | O => stret (n, None)
  | S fuel =>
    if zlen p =? 0 then stret (n, None)
    else
      let nr := Z.min payloadSizeMask (zlen p) in
      err <~ write_frame (take (Z.to_nat nr) p) ;
      match err with
      | Some e => stret (n + nr, Some e)
      | None => write_loop fuel (drop (Z.to_nat nr) p) (n + nr)
      end
  end.

Definition Write (p : bytes) : W (Z * option string) :=
  if zlen p =? 0 then
    stlift (within (2 + Overhead a) bufSize) ~;
    size <~ seal_next a [0; 0] ;
    err <~ send size ;
    stret (0, err)
  else write_loop (length p) p 0.

(** Writer.ReadFrom over the results of the source's reads: pieces without an error, then
    the bytes and the error of the last read. *)
Fixpoint ReadFrom (pieces : list bytes) (last : bytes) (er : string) (n : Z) : W (Z * option string) :=
  match pieces with
  | [] =>
    err <~ write_frame last ;
    stret (n + zlen last,
           match err with
           | Some e => Some e
           | None => if decide (er = "EOF")%string then None else Some er
           end)
  | p :: pieces =>
    err <~ write_frame p ;
    match err with
    | Some e => stret (n + zlen p, Some e)
    | None => ReadFrom pieces last er (n + zlen p)
    end
  end.
End writer.

(** ** Reading *)

(** The bytes still to come, the nonce array, and the part of a decrypted chunk not yet
    handed out; [None] when the buffer is nil. *)
Record Reader := mkReader { rin : bytes; rnonce : bytes; rbuf : option bytes }.
Definition NewReader (s : bytes) : Reader := mkReader s (replicate 32 0) None.

Definition R : Type -> Type := St Reader.

Definition read_full (n : Z) : R bytes := fun r =>
  let (b, rest) := ReadFull n (rin r) in (b, mkReader rest (rnonce r) (rbuf r)).

(** [r.Open(..., nonce, p, nil); increment(nonce)]. *)
Definition open_next (a : AEAD) (p : bytes) : R bytes := fun r =>
  match slice_to (rnonce r) (NonceSize a) with
  | Ret nonce =>
    (match Open a nonce p with Some b => Ret b | None => Err "cipher: message authentication failed" end,
     mkReader (rin r) (increment nonce ++ drop (Z.to_nat (NonceSize a)) (rnonce r)) (rbuf r))
  | _ => (Panic, r)
  end.

Definition set_rbuf (b : option bytes) : R unit := fun r => (Ret tt, mkReader (rin r) (rnonce r) b).

Section reader.
Context (a : AEAD).

(** Reader.read into a slice of capacity [cap]: the size of the next chunk, then its payload. *)
Definition read_size (cap : Z) : R Z :=
  stlift (within (2 + Overhead a) cap) ~;
  sealed <~ read_full (2 + Overhead a) ;
  p <~ open_next a sealed ;
  p0 <~ stlift (idx p 0) ;
  p1 <~ stlift (idx p 1) ;
  stret (Z.land (Z.shiftl p0 8 + p1) payloadSizeMask).
Definition read (cap : Z) : R bytes :=
  size <~ read_size cap ;
  if size =? 0 then stfail "zero chunk"
  else
    stlift (within (size + Overhead a) cap) ~;
    sealed <~ read_full (size + Overhead a) ;
    open_next a sealed.

(** [copy(p, r.buf[r.off:])] and the release of an exhausted buffer. *)
Definition hand_out (n : Z) (b : bytes) : R bytes :=
  set_rbuf (if zlen b <=? n then None else Some (drop (Z.to_nat n) b)) ~;
  stret (take (Z.to_nat n) b).

(** Reader.Read into a slice of length [n]. *)
Definition Read (n : Z) : R bytes := fun r =>
  match rbuf r with
  | Some b => hand_out n b r
  | None =>
    if payloadSizeMask + Overhead a <=? n then read n r
    else (b <~ read bufSize ; hand_out n b) r
  end.

(** Reader.WriteTo into a writer that takes everything: what it wrote, and the error.
    The buffer stays allocated, with nothing left in it, when the stream ends. *)
Fixpoint write_to (fuel : nat) (out : bytes) : R (bytes * option string) := fun r =>
  match fuel with
  | O => (Ret (out, Some "out of fuel"%string), r)
  | S fuel =>
    match read bufSize r with
    | (Ret b, r) => write_to fuel (out ++ b) r
    | (Err e, r) => (Ret (out, if decide (e = "EOF")%string then None else Some e), r)
    | (Panic, r) => (Panic, r)
    end
  end.
Definition WriteTo : R (bytes * option string) := fun r =>
  let out := default [] (rbuf r) in
  (set_rbuf (Some []) ~; write_to (S (length (rin r))) out) r.
End reader.

(** ** Connections: a salt, then the stream *)

Section conn.
Context {env : Env} (ciph : metaCipher).

(** Conn.initWriter with the salt [rand.Read] delivers: the AEAD of the stream. *)
Definition initWriter (salt : bytes) : St (list event) AEAD := fun tr =>
  match Encrypter ciph salt with
  | Ret a =>
    match write (fun e => e) salt tr with
    | (Ret _, tr) => (Ret a, tr)
    | (Err e, tr) => (Err e, tr)
    | (Panic, tr) => (Panic, tr)
    end
  | Err e => (Err e, tr)
  | Panic => (Panic, tr)
  end.

(** Conn.initReader. *)
Definition initReader : St bytes AEAD := fun s =>
  match ReadFull (SaltSize ciph) s with
  | (Ret salt, s) => (Decrypter ciph salt, s)
  | (Err e, s) => (Err e, s)
  | (Panic, s) => (Panic, s)
  end.
End conn.

(** ** Packets *)

(** Pack into a buffer of length [cap], with the salt [rand.Read] delivers. *)
Definition Pack (cap : Z) (salt plaintext : bytes) (ciph : metaCipher) : go bytes :=
  let! _ := within (SaltSize ciph) cap in
  let! a := Encrypter ciph salt in
  if cap <? SaltSize ciph + zlen plaintext + Overhead a then Err "short buffer"
  else Ret (salt ++ Seal a (replicate (Z.to_nat (NonceSize a)) 0) plaintext).

(** Unpack into a buffer of length [cap]. *)
Definition Unpack (cap : Z) (pkt : bytes) (ciph : metaCipher) : go bytes :=
  if zlen pkt <? SaltSize ciph then Err "short packet"
  else
    let! salt := slice_to pkt (SaltSize ciph) in
    let! a := Decrypter ciph salt in
    if zlen pkt <? SaltSize ciph + Overhead a then Err "short packet"
    else if SaltSize ciph + cap + Overhead a <? zlen pkt then Err "short buffer"
    else
      let! body := slice_from pkt (SaltSize ciph) in
      match Open a (replicate (Z.to_nat (NonceSize a)) 0) body with
      | Some b => Ret b
      | None => Err "cipher: message authentication failed"
      end.

(** PacketConn.WriteTo sends this; PacketConn.ReadFrom returns that for a datagram that
    fits a buffer of length [len]. *)
Definition maxPacketSize : Z := 64 * 1024.
Definition packet_write (salt b : bytes) (ciph : metaCipher) : go bytes := Pack maxPacketSize salt b ciph.
Definition packet_read (len : Z) (datagram : bytes) (ciph : metaCipher) : go bytes :=
  let b := take (Z.to_nat len) datagram in
  let! _ := within (SaltSize ciph) len in
  let! bb := Unpack (len - SaltSize ciph) b ciph in
  Ret (take (Z.to_nat len) bb).

(** ** Nonces *)

Section nonces.
Context (a : AEAD) (Ha : aead_ok a).

(** The [i]-th nonce, and the array that holds it. *)
Definition nonce (i : Z) : bytes := le_bytes (Z.to_nat (NonceSize a)) i.
Definition nonce_array (i : Z) : bytes := nonce i ++ replicate (32 - Z.to_nat (NonceSize a)) 0.

Lemma increment_le n : forall z, increment (le_bytes n z) = le_bytes n (z + 1).
Proof.
  induction n as [|n IH]; intros z; [done|]. cbn [le_bytes increment]. unfold u8. change (2 ^ 8) with 256.
  pose proof (Z.div_mod z 256) as Hd. pose proof (Z.mod_pos_bound z 256) as Hb.
  destruct (Z.eq_dec (z mod 256) 255) as [E|E].
  - rewrite E. change ((255 + 1) mod 256 =? 0) with true. cbn iota. rewrite IH.
    assert (z + 1 = (z / 256 + 1) * 256) as Hz by lia.
    f_equal; [by rewrite Hz, Z.mod_mul|]. f_equal. by rewrite Hz, Z.div_mul.
  - assert ((z + 1) mod 256 = z mod 256 + 1 /\ (z + 1) / 256 = z / 256) as [-> ->].
    { assert (z + 1 = 256 * (z / 256) + (z mod 256 + 1)) as Hz by lia.
      split; [symmetry; eapply Z.mod_unique|symmetry; eapply Z.div_unique]; [| |left|]; try exact Hz; [left|]; lia. }
    rewrite Z.mod_small by lia. by rewrite (proj2 (Z.eqb_neq _ _)) by lia.
Qed.

Lemma le_bytes_0 n : le_bytes n 0 = replicate n 0.
Proof. induction n as [|n IH]; [done|]. cbn [le_bytes replicate]. by rewrite <- IH. Qed.

Lemma nonce_array_0 : replicate 32 0 = nonce_array 0.
Proof.
  destruct (nonce_range a Ha). unfold nonce_array, nonce. rewrite le_bytes_0, <- replicate_add. f_equal. lia.
Qed.

Lemma nonce_slice i : slice_to (nonce_array i) (NonceSize a) = Ret (nonce i).
Proof.
  destruct (nonce_range a Ha). unfold slice_to, nonce_array.
  assert (length (nonce i) = Z.to_nat (NonceSize a)) as Hl by apply length_le_bytes.
  rewrite slice_in_range by (unfold zlen; len). rewrite Z.sub_0_r. change (Z.to_nat 0) with 0%nat.
  rewrite drop_0, <- Hl. by rewrite take_app_length.
Qed.

Lemma nonce_bump i :
  increment (nonce i) ++ drop (Z.to_nat (NonceSize a)) (nonce_array i) = nonce_array (i + 1).
Proof.
  unfold nonce_array. assert (length (nonce i) = Z.to_nat (NonceSize a)) as Hl by apply length_le_bytes.
  rewrite <- Hl at 1. rewrite drop_app_length. unfold nonce at 1. by rewrite increment_le.
Qed.

(** Nonces repeat only after 256 ^ NonceSize of them. *)
Lemma nonce_fresh i j : nonce i = nonce j -> i mod 256 ^ NonceSize a = j mod 256 ^ NonceSize a.
Proof. destruct (nonce_range a Ha). intros E%le_bytes_inj. by rewrite Z2Nat.id in E. Qed.

Lemma seal_next_spec i p tr : seal_next a p (mkWriter (nonce_array i) tr) =
  (Ret (Seal a (nonce i) p), mkWriter (nonce_array (i + 1)) tr).
Proof. unfold seal_next. cbn [wnonce wire]. by rewrite nonce_slice, nonce_bump. Qed.

Lemma open_next_spec i p s b : open_next a (Seal a (nonce i) p) (mkReader s (nonce_array i) b) =
  (Ret p, mkReader s (nonce_array (i + 1)) b).
Proof. unfold open_next. cbn [rnonce rin rbuf]. by rewrite nonce_slice, (open_seal a Ha), nonce_bump. Qed.
End nonces.


(** ** The stream on the wire *)

Section stream.
Context (a : AEAD) (Ha : aead_ok a).

(** A chunk under the nonces [i] and [i + 1], and consecutive chunks. *)
Definition frame (i : Z) (p : bytes) : bytes :=
  Seal a (nonce a i) (put16 (zlen p)) ++ Seal a (nonce a (i + 1)) p.
Fixpoint frames (i : Z) (chunks : list bytes) : bytes :=
  match chunks with
  | [] => []
  | c :: chunks => frame i c ++ frames (i + 2) chunks
  end.

Definition chunk_ok (c : bytes) : Prop := 1 <= zlen c <= payloadSizeMask.

Lemma frames_app cs1 cs2 : forall i, frames i (cs1 ++ cs2) = frames i cs1 ++ frames (i + 2 * zlen cs1) cs2.
Proof.
  induction cs1 as [|c cs1 IH]; intros i; cbn [app frames].
  { unfold zlen. cbn [length]. f_equal. lia. }
  rewrite IH, app_assoc. do 2 f_equal. rewrite zlen_cons. lia.
Qed.

(** Writes append to the trace, all of them plain sends. *)
Definition sends (evs : list event) : Prop := existsb is_oob evs = false.

Lemma write_frame_spec i p tr : zlen p <= payloadSizeMask ->
  write_frame (env := reliable) a p (mkWriter (nonce_array a i) tr) =
  (Ret None, mkWriter (nonce_array a (i + 2)) (tr ++ [EvWrite (frame i p)])).
Proof.
  intros Hp. destruct (overhead_range a Ha). unfold write_frame, stbind, stlift, within.
  unfold payloadSizeMask, bufSize in *. rewrite (proj2 (Z.leb_le _ _)) by lia.
  rewrite !seal_next_spec by done. rewrite <- Z.add_assoc. done.
Qed.

Lemma write_loop_spec fuel : forall p i n tr, (length p <= fuel)%nat ->
  exists cs evs, mjoin cs = p /\ Forall chunk_ok cs /\ sends evs /\ delivered evs = frames i cs /\
    write_loop (env := reliable) a fuel p n (mkWriter (nonce_array a i) tr) =
    (Ret (n + zlen p, None), mkWriter (nonce_array a (i + 2 * zlen cs)) (tr ++ evs)).
Proof.
  induction fuel as [|fuel IH]; intros p i n tr Hl; cbn [write_loop].
  { destruct p; [|simpl in Hl; lia]. exists [], []. rewrite app_nil_r. split_and!; try done.
    by rewrite !zlen_nil, Z.mul_0_r, !Z.add_0_r. }
  destruct (Z.eqb_spec (zlen p) 0) as [E|E].
  { destruct p; [|rewrite zlen_cons in E; pose proof (zlen_nonneg p); lia]. exists [], []. rewrite app_nil_r.
    split_and!; try done. by rewrite !zlen_nil, Z.mul_0_r, !Z.add_0_r. }
  pose proof (zlen_nonneg p) as Hp. cbv zeta. set (nr := Z.min payloadSizeMask (zlen p)).
  assert (1 <= nr <= zlen p /\ nr <= payloadSizeMask) as Hn by (unfold nr, payloadSizeMask; lia).
  assert (zlen (take (Z.to_nat nr) p) = nr) as Ht by (unfold zlen in *; rewrite length_take; lia).
  unfold stbind. rewrite write_frame_spec by lia.
  destruct (IH (drop (Z.to_nat nr) p) (i + 2) (n + nr) (tr ++ [EvWrite (frame i (take (Z.to_nat nr) p))]))
    as (cs & evs & Ej & Hc & Hs & Hd & ->). { rewrite length_drop. unfold zlen in *. lia. }
  exists (take (Z.to_nat nr) p :: cs), (EvWrite (frame i (take (Z.to_nat nr) p)) :: evs).
  rewrite mjoin_cons, Ej, take_drop. split; [done|]. split; [constructor; [unfold chunk_ok; lia|done]|].
  split; [done|]. split; [cbn [delivered frames]; by rewrite Hd|].
  rewrite <- app_assoc, zlen_cons.
  replace (n + nr + zlen (drop (Z.to_nat nr) p)) with (n + zlen p) by (unfold zlen in *; rewrite length_drop; lia).
  by replace (i + 2 + 2 * zlen cs) with (i + 2 * (1 + zlen cs)) by lia.
Qed.

Lemma Write_spec p i tr : p <> [] ->
  exists cs evs, mjoin cs = p /\ Forall chunk_ok cs /\ sends evs /\ delivered evs = frames i cs /\
    Write (env := reliable) a p (mkWriter (nonce_array a i) tr) =
    (Ret (zlen p, None), mkWriter (nonce_array a (i + 2 * zlen cs)) (tr ++ evs)).
Proof.
  intros Hp. unfold Write. rewrite (proj2 (Z.eqb_neq _ _)).
  2:{ destruct p; [done|]. rewrite zlen_cons. pose proof (zlen_nonneg p). lia. }
  apply (write_loop_spec (length p) p i 0 tr). lia.
Qed.

(** Consecutive Write calls. *)
Fixpoint writes (ps : list bytes) : W unit :=
  match ps with
  | [] => stret tt
  | p :: ps => Write (env := reliable) a p ~; writes ps
  end.

Lemma writes_spec ps : Forall (fun p => p <> []) ps -> forall i tr,
  exists cs evs, mjoin cs = mjoin ps /\ Forall chunk_ok cs /\ sends evs /\ delivered evs = frames i cs /\
    writes ps (mkWriter (nonce_array a i) tr) =
    (Ret tt, mkWriter (nonce_array a (i + 2 * zlen cs)) (tr ++ evs)).
Proof.
  induction 1 as [|p ps Hp _ IH]; intros i tr; cbn [writes].
  { exists [], []. rewrite app_nil_r. split_and!; try done. by rewrite (@zlen_nil bytes), Z.mul_0_r, Z.add_0_r. }
  destruct (Write_spec p i tr Hp) as (cs & evs & Ej & Hc & Hs & Hd & E). unfold stbind. rewrite E.
  destruct (IH (i + 2 * zlen cs) (tr ++ evs)) as (cs' & evs' & Ej' & Hc' & Hs' & Hd' & ->).
  exists (cs ++ cs'), (evs ++ evs'). rewrite join_app, mjoin_cons, Ej, Ej', app_assoc, zlen_app.
  split; [done|]. split; [by apply Forall_app|]. split; [unfold sends in *; by rewrite existsb_app, Hs|].
  split; [by rewrite delivered_no_oob, Hd, Hd', frames_app|]. do 3 f_equal. lia.
Qed.

Lemma ReadFrom_spec pieces last er : Forall (fun p => zlen p <= payloadSizeMask) (pieces ++ [last]) -> forall i n tr,
  exists evs m, sends evs /\ delivered evs = frames i (pieces ++ [last]) /\
    ReadFrom (env := reliable) a pieces last er n (mkWriter (nonce_array a i) tr) =
    (Ret (n + zlen (mjoin (pieces ++ [last])), if decide (er = "EOF")%string then None else Some er),
     mkWriter (nonce_array a m) (tr ++ evs)).
Proof.
  induction pieces as [|p pieces IH]; intros Hf i n tr; cbn [ReadFrom app] in *.
  - apply Forall_cons in Hf as [Hl _]. unfold stbind. rewrite write_frame_spec by done.
    exists [EvWrite (frame i last)], (i + 2). split; [done|]. split; [cbn; by rewrite app_nil_r|].
    cbn. by rewrite app_nil_r.
  - apply Forall_cons in Hf as [Hl Hf]. unfold stbind. rewrite write_frame_spec by done.
    destruct (IH Hf (i + 2) (n + zlen p) (tr ++ [EvWrite (frame i p)])) as (evs & m & Hs & Hd & ->).
    exists (EvWrite (frame i p) :: evs), m. split; [done|]. split; [cbn; by rewrite Hd|].
    rewrite mjoin_cons, zlen_app, <- app_assoc. do 3 f_equal. lia.
Qed.

(** ** What the reader makes of it *)

Lemma mask_small z : 0 <= z <= payloadSizeMask -> Z.land z payloadSizeMask = z.
Proof.
  unfold payloadSizeMask. intros Hz. change 0x3FFF with (Z.ones 14) at 1. rewrite Z.land_ones by lia. apply Z.mod_small.
  change (2 ^ 14) with 16384. lia.
Qed.

Lemma read_size_spec cap i (p s : bytes) b : 0 <= zlen p <= payloadSizeMask -> 2 + Overhead a <= cap ->
  read_size a cap (mkReader (Seal a (nonce a i) (put16 (zlen p)) ++ s) (nonce_array a i) b) =
  (Ret (zlen p), mkReader s (nonce_array a (i + 1)) b).
Proof.
  intros Hp Hc. destruct (overhead_range a Ha). unfold read_size, stbind, stlift, within.
  rewrite (proj2 (Z.leb_le _ _)) by done. unfold read_full. cbn [rin rnonce rbuf].
  rewrite ReadFull_app by (by rewrite (seal_length a Ha)). rewrite open_next_spec by done.
  unfold put16. rewrite (idx_app _ [] [_] _), (idx_app _ [_] [] _) by done.
  unfold payloadSizeMask in Hp. rewrite u16_small by lia. rewrite Z.shiftl_mul_pow2 by lia.
  replace (zlen p / 256 * 2 ^ 8 + zlen p mod 256) with (zlen p) by (pose proof (Z.div_mod (zlen p) 256); lia).
  by rewrite mask_small by (unfold payloadSizeMask; lia).
Qed.

Lemma read_frame cap i c s b : chunk_ok c -> payloadSizeMask + Overhead a <= cap ->
  read a cap (mkReader (frame i c ++ s) (nonce_array a i) b) = (Ret c, mkReader s (nonce_array a (i + 2)) b).
Proof.
  intros [H1 H2] Hc. destruct (overhead_range a Ha). unfold read, frame, stbind at 1. rewrite <- app_assoc.
  rewrite read_size_spec by (unfold payloadSizeMask in *; lia). rewrite (proj2 (Z.eqb_neq _ _)) by lia.
  unfold stbind, stlift, within. rewrite (proj2 (Z.leb_le _ _)) by lia.
  unfold read_full. cbn [rin rnonce rbuf]. rewrite ReadFull_app by (by rewrite (seal_length a Ha)).
  rewrite open_next_spec by done. by rewrite <- Z.add_assoc.
Qed.

Lemma read_zero cap i s b : payloadSizeMask + Overhead a <= cap ->
  fst (read a cap (mkReader (frame i [] ++ s) (nonce_array a i) b)) = Err "zero chunk".
Proof.
  intros Hc. unfold read, frame, stbind at 1. rewrite <- app_assoc.
  by rewrite read_size_spec by (unfold payloadSizeMask in *; change (zlen (@nil Z)) with 0; lia).
Qed.

Lemma read_eof cap i b : payloadSizeMask + Overhead a <= cap ->
  fst (read a cap (mkReader [] (nonce_array a i) b)) = Err "EOF".
Proof.
  intros Hc. destruct (overhead_range a Ha). unfold read, read_size, stbind, stlift, within.
  rewrite (proj2 (Z.leb_le _ _)) by (unfold payloadSizeMask in *; lia).
  unfold read_full. cbn [rin]. by rewrite ReadFull_eof by lia.
Qed.
End stream.


(** ** Reading with buffers of any size *)

Section reads.
Context (a : AEAD) (Ha : aead_ok a).

(** The reader has [left] to hand out, then finds [tail] under the nonce [j]. *)
Definition holds (left tail : bytes) (j : Z) (r : Reader) : Prop :=
  exists i cs buf, r = mkReader (frames a i cs ++ tail) (nonce_array a i) buf /\ Forall chunk_ok cs /\
    i + 2 * zlen cs = j /\ left = default [] buf ++ mjoin cs /\ buf <> Some [].

Lemma chunk_ne c : chunk_ok c -> c <> [].
Proof. intros [Hc _] ->. unfold zlen in Hc. simpl in Hc. lia. Qed.

Lemma hand_out_spec k b r : 1 <= k -> b <> [] ->
  exists out rest buf, hand_out k b r = (Ret out, mkReader (rin r) (rnonce r) buf) /\ out <> [] /\
    out ++ rest = b /\ default [] buf = rest /\ buf <> Some [].
Proof.
  intros Hk Hb. unfold hand_out, stbind, set_rbuf, stret.
  exists (take (Z.to_nat k) b), (drop (Z.to_nat k) b). rewrite take_drop.
  assert (take (Z.to_nat k) b <> []) as Ht.
  { destruct b; [done|]. by destruct (Z.to_nat k) eqn:E; [lia|]. }
  destruct (Z.leb_spec (zlen b) k) as [Hl|Hl].
  - exists None. split_and!; try done. symmetry. apply drop_ge. unfold zlen in Hl. lia.
  - exists (Some (drop (Z.to_nat k) b)). split_and!; try done. intros [= E%(f_equal length)].
    rewrite length_drop in E. unfold zlen in Hl. simpl in E. lia.
Qed.

Lemma Read_step left tail j k r : 1 <= k -> holds left tail j r -> left <> [] ->
  exists out left' r', Read a k r = (Ret out, r') /\ out <> [] /\ out ++ left' = left /\ holds left' tail j r'.
Proof.
  intros Hk (i & cs & buf & -> & Hc & Hj & Hl & Hn) Hne. destruct (overhead_range a Ha). unfold Read. cbn [rbuf].
  destruct buf as [b|].
  - destruct (hand_out_spec k b (mkReader (frames a i cs ++ tail) (nonce_array a i) (Some b)) Hk)
      as (out & rest & buf & -> & Ho & Eb & Ed & Hb); [congruence|].
    exists out, (rest ++ mjoin cs). eexists. split; [done|]. split; [done|]. split; [by rewrite app_assoc, Eb, Hl|].
    exists i, cs, buf. cbn [rin rnonce]. by rewrite Ed.
  - destruct cs as [|c cs]; [done|]. apply Forall_cons in Hc as [Hc Hcs]. cbn [frames]. rewrite <- app_assoc.
    cbn [default] in Hl. rewrite mjoin_cons in Hl. change ([] ++ c ++ mjoin cs) with (c ++ mjoin cs) in Hl. rewrite zlen_cons in Hj.
    destruct (Z.leb_spec (payloadSizeMask + Overhead a) k).
    + rewrite read_frame by done. exists c, (mjoin cs). eexists. split; [done|].
      split; [by apply chunk_ne|]. split; [done|].
      exists (i + 2), cs, None. split_and!; try done. lia.
    + unfold stbind at 1. rewrite read_frame by (done || unfold payloadSizeMask, bufSize; lia).
      destruct (hand_out_spec k c (mkReader (frames a (i + 2) cs ++ tail) (nonce_array a (i + 2)) None) Hk)
        as (out & rest & buf & -> & Ho & Eb & Ed & Hb); [by apply chunk_ne|].
      exists out, (rest ++ mjoin cs). eexists. split; [done|]. split; [done|]. split; [by rewrite app_assoc, Eb|].
      exists (i + 2), cs, buf. cbn [rin rnonce]. rewrite Ed. split_and!; try done. lia.
Qed.

Lemma Read_end tail j k r E : 1 <= k -> holds [] tail j r ->
  (forall cap, payloadSizeMask + Overhead a <= cap -> fst (read a cap (mkReader tail (nonce_array a j) None)) = Err E) ->
  fst (Read a k r) = Err E.
Proof.
  intros Hk (i & cs & buf & -> & Hc & Hj & Hl & Hn) HE. destruct (overhead_range a Ha).
  destruct buf as [[|x b]|]; [done|done|]. destruct cs as [|c cs].
  2:{ apply Forall_cons in Hc as [Hc%chunk_ne _]. by destruct c. }
  unfold zlen in Hj. cbn in Hj. rewrite Z.add_0_r in Hj. subst j. unfold Read. cbn [rbuf frames app].
  destruct (Z.leb_spec (payloadSizeMask + Overhead a) k); [by apply HE|].
  specialize (HE bufSize ltac:(unfold payloadSizeMask, bufSize; lia)). unfold stbind.
  destruct (read a bufSize _) as [[] ?]; cbn [fst] in HE |- *; congruence.
Qed.

(** The end of the stream decides the error. *)
Lemma Read_delivers tail j E :
  (forall cap, payloadSizeMask + Overhead a <= cap -> fst (read a cap (mkReader tail (nonce_array a j) None)) = Err E) ->
  Delivers (Read a) (fun left => holds left tail j) E.
Proof.
  intros HE. constructor.
  - intros left k r. apply Read_step.
  - intros k r Hk Hr. by apply (Read_end tail j k r E).
Qed.

Lemma write_to_spec cs : Forall chunk_ok cs -> forall fuel i out b, (length cs < fuel)%nat ->
  exists r, write_to a fuel out (mkReader (frames a i cs) (nonce_array a i) b) = (Ret (out ++ mjoin cs, None), r).
Proof.
  induction 1 as [|c cs Hc _ IH]; intros [|fuel] i out b Hf; simpl in Hf; try lia; cbn [write_to frames].
  - pose proof (read_eof a Ha bufSize i b) as HE. destruct (overhead_range a Ha).
    destruct (read a bufSize _) as [r0 r']. cbn [fst] in HE. rewrite HE by (unfold payloadSizeMask, bufSize; lia).
    eexists. by rewrite app_nil_r.
  - destruct (overhead_range a Ha). rewrite read_frame by (done || unfold payloadSizeMask, bufSize; lia).
    destruct (IH fuel (i + 2) (out ++ c) b) as [r ->]; [lia|]. exists r. by rewrite mjoin_cons, app_assoc.
Qed.

Lemma frames_length cs : Forall chunk_ok cs -> forall i, (length cs <= length (frames a i cs))%nat.
Proof.
  induction 1 as [|c cs Hc _ IH]; intros i; [done|]. cbn [frames length]. specialize (IH (i + 2)).
  assert (1 <= zlen (frame a i c)).
  { destruct Hc, (overhead_range a Ha). unfold frame. rewrite zlen_app, !(seal_length a Ha). change (zlen (put16 (zlen c))) with 2. lia. }
  rewrite length_app. unfold zlen in *. lia.
Qed.
End reads.

(** ** Streams end to end *)

Section theorems.
Context (a : AEAD) (Ha : aead_ok a).

(** C34: An AEAD stream delivers what was written.  For any cipher that opens what it seals
    and any non-empty writes, Read calls with buffers of any positive sizes return a
    prefix of the bytes written, in order, and enough calls return all of them and then
    EOF; WriteTo delivers the same.  When the writer is fed by ReadFrom (io.Copy), the
    end of its source adds an empty chunk, so the reader gets all of the source and then
    the error "zero chunk" in place of EOF.  The chunks are sealed under consecutive
    nonces, which are all different up to 256 ^ NonceSize of them. *)
Theorem aead_stream (ps pieces : list bytes) :
  Forall (fun p => p <> []) ps -> Forall chunk_ok pieces ->
  (exists cs w, writes a ps (NewWriter []) = (Ret tt, w) /\ delivered (wire w) = frames a 0 cs /\
     Forall chunk_ok cs /\
     (forall ks, Forall (fun k => 1 <= k) ks ->
        let (outs, e) := reads (Read a) ks (NewReader (delivered (wire w))) in
        mjoin outs `prefix_of` mjoin ps /\
        (zlen (mjoin ps) < zlen ks -> mjoin outs = mjoin ps /\ e = Failed "EOF")) /\
     fst (WriteTo a (NewReader (delivered (wire w)))) = Ret (mjoin ps, None)) /\
  (exists w, ReadFrom (env := reliable) a pieces [] "EOF" 0 (NewWriter []) = (Ret (zlen (mjoin pieces), None), w) /\
     forall ks, Forall (fun k => 1 <= k) ks ->
       let (outs, e) := reads (Read a) ks (NewReader (delivered (wire w))) in
       mjoin outs `prefix_of` mjoin pieces /\
       (zlen (mjoin pieces) < zlen ks -> mjoin outs = mjoin pieces /\ e = Failed "zero chunk")) /\
  (forall i j, 0 <= i < 256 ^ NonceSize a -> 0 <= j < 256 ^ NonceSize a -> nonce a i = nonce a j -> i = j).
Proof.
  intros Hps Hpc. split; [|split].
  - destruct (writes_spec a Ha ps Hps 0 []) as (cs & evs & Ej & Hc & _ & Hd & E).
    rewrite <- (nonce_array_0 a Ha) in E. exists cs. eexists. split; [exact E|]. cbn [wire app]. rewrite Hd.
    split; [done|]. split; [done|]. split.
    + intros ks Hks. assert (Delivers (Read a) (fun left => holds a left [] (2 * zlen cs)) "EOF")
        by (apply Read_delivers; [done|]; intros; by apply read_eof).
      destruct (reads_deliver (Read a) _ "EOF" ks Hks (mjoin ps) (NewReader (frames a 0 cs))) as [H1 H2].
      { exists 0, cs, None. unfold NewReader. rewrite app_nil_r, <- (nonce_array_0 a Ha), Ej. split_and!; try done. }
      by destruct (reads (Read a) ks _).
    + unfold WriteTo, stbind, set_rbuf, NewReader. cbn [rin rnonce rbuf default]. rewrite (nonce_array_0 a Ha).
      pose proof (frames_length a Ha cs Hc 0).
      destruct (write_to_spec a Ha cs Hc (S (length (frames a 0 cs))) 0 [] (Some [])) as [r ->]; [lia|]. cbn. by rewrite Ej.
  - assert (Forall (fun p => zlen p <= payloadSizeMask) (pieces ++ [[]])) as Hf.
    { apply Forall_app. split; [eapply Forall_impl; [exact Hpc|]; by intros ? []|]. by repeat constructor. }
    destruct (ReadFrom_spec a Ha pieces [] "EOF" Hf 0 0 []) as (evs & m & _ & Hd & E).
    rewrite <- (nonce_array_0 a Ha), join_app, app_nil_r in E. eexists. split; [exact E|]. cbn [wire app].
    rewrite Hd, frames_app. intros ks Hks.
    assert (Delivers (Read a) (fun left => holds a left (frame a (0 + 2 * zlen pieces) []) (2 * zlen pieces)) "zero chunk")
      by (apply Read_delivers; [done|]; intros; rewrite <- (app_nil_r (frame _ _ _)); by apply read_zero).
    destruct (reads_deliver (Read a) _ "zero chunk" ks Hks (mjoin pieces)
      (NewReader (frames a 0 pieces ++ frames a (0 + 2 * zlen pieces) [[]]))) as [H1 H2].
    { exists 0, pieces, None. unfold NewReader. cbn [frames]. rewrite app_nil_r, <- (nonce_array_0 a Ha). by split_and!. }
    by destruct (reads (Read a) ks _).
  - intros i j Hi Hj E%(nonce_fresh a Ha). rewrite !Z.mod_small in E by done. done.
Qed.
End theorems.


(** ** Salts and packets *)

Section packets.
Context (ciph : metaCipher).

(** A datagram comes back as it was packed, and both ends of a connection use the
    same keys.  For a salt of the cipher's size and any payload that fits the 64 KiB
    buffer, WriteTo's datagram is salt and sealed payload, and ReadFrom into any buffer
    that holds the datagram returns the payload; a payload that does not fit is refused,
    and a datagram shorter than salt and tag is too.  On a connection the salt is sent
    first, and the peer derives from it the cipher the sender seals with, with the rest of
    the stream still to be read. *)
Theorem aead_packets salt a p :
  zlen salt = SaltSize ciph -> Encrypter ciph salt = Ret a -> aead_ok a ->
  (SaltSize ciph + zlen p + Overhead a <= maxPacketSize ->
     exists d, packet_write salt p ciph = Ret d /\ zlen d = SaltSize ciph + zlen p + Overhead a /\
       forall len, zlen d <= len -> packet_read len d ciph = Ret p) /\
  (SaltSize ciph <= maxPacketSize < SaltSize ciph + zlen p + Overhead a ->
     packet_write salt p ciph = Err "short buffer") /\
  (forall len d, SaltSize ciph <= len -> zlen d < SaltSize ciph -> packet_read len d ciph = Err "short packet") /\
  (forall s, initWriter (env := reliable) ciph salt [] = (Ret a, [EvWrite salt]) /\
     initReader ciph (salt ++ s) = (Ret a, s)).
Proof.
  intros Hs HE Ha. destruct (overhead_range a Ha) as [Ho _]. pose proof (zlen_nonneg salt) as Hz. pose proof (zlen_nonneg p).
  assert (Decrypter ciph salt = Ret a) as HD by done. set (zero := replicate (Z.to_nat (NonceSize a)) 0).
  split; [|split; [|split]].
  - intros Hf. unfold packet_write, Pack, within. rewrite (proj2 (Z.leb_le _ _)) by lia. cbn [go_bind]. rewrite HE.
    cbn [go_bind]. rewrite (proj2 (Z.ltb_ge _ _)) by lia. eexists. split; [done|]. fold zero.
    assert (zlen (salt ++ Seal a zero p) = SaltSize ciph + zlen p + Overhead a) as Hd.
    { rewrite zlen_app, (seal_length a Ha). lia. }
    split; [done|]. intros len Hlen. unfold packet_read, within. rewrite take_ge by (unfold zlen in *; lia).
    rewrite (proj2 (Z.leb_le _ _)) by lia. cbn [go_bind]. unfold Unpack. rewrite Hd.
    rewrite (proj2 (Z.ltb_ge _ _)) by lia. unfold slice_to, slice_from.
    rewrite slice_in_range by lia. rewrite Z.sub_0_r. change (Z.to_nat 0) with 0%nat. rewrite drop_0.
    assert (Z.to_nat (SaltSize ciph) = length salt) as Hl by (unfold zlen in Hs; lia).
    rewrite Hl, take_app_length. cbn [go_bind]. rewrite HD. cbn [go_bind].
    rewrite !(proj2 (Z.ltb_ge _ _)) by lia. rewrite slice_in_range by lia. rewrite Hl, drop_app_length.
    rewrite take_ge by (rewrite zlen_app; unfold zlen in *; lia). cbn [go_bind]. fold zero.
    rewrite (open_seal a Ha). cbn [go_bind]. rewrite take_ge; [done|]. unfold zlen in *. lia.
  - intros Hf. unfold packet_write, Pack, within. rewrite (proj2 (Z.leb_le _ _)) by lia. cbn [go_bind]. rewrite HE.
    cbn [go_bind]. by rewrite (proj2 (Z.ltb_lt _ _)) by lia.
  - intros len d Hlen Hd. unfold packet_read, within. rewrite (proj2 (Z.leb_le _ _)) by lia. cbn [go_bind].
    unfold Unpack. rewrite (proj2 (Z.ltb_lt _ _)); [done|]. unfold zlen in *. rewrite length_take. lia.
  - intros s. unfold initWriter, initReader. rewrite HE, ReadFull_app by done. by rewrite HD.
Qed.
End packets.

(** ** Witnesses *)

(** A cipher that only appends two bytes of the nonce, and checks them. *)
Definition toy_tag (n : bytes) : bytes := take 2 (n ++ [0; 0]).
Definition toy : AEAD := mkAEAD 12 2 (fun n p => p ++ toy_tag n)
  (fun n c => let p := take (length c - 2) c in if decide (drop (length c - 2) c = toy_tag n) then Some p else None).

Lemma toy_ok : aead_ok toy.
Proof.
  assert (forall n, length (toy_tag n) = 2%nat) as Ht.
  { intros n. unfold toy_tag. rewrite length_take, length_app. cbn [length]. lia. }
  constructor.
  - cbn. lia.
  - cbn. lia.
  - intros n p. cbn. unfold zlen. rewrite length_app, Ht. lia.
  - intros n p. cbn. rewrite length_app, Ht. replace (length p + 2 - 2)%nat with (length p) by lia.
    rewrite drop_app_length, take_app_length. by rewrite decide_True.
Qed.

Definition toy_cipher : metaCipher := mkCipher (replicate 16 7) (fun key salt _ => key ++ salt) (fun _ => Ret toy).

(** Two writes, read three bytes at a time. *)
Lemma aead_stream_witness :
  exists w, writes toy [[1; 2; 3; 4]; [5]] (NewWriter []) = (Ret tt, w) /\
    mjoin (fst (reads (Read toy) (replicate 6 3) (NewReader (delivered (wire w))))) = [1; 2; 3; 4; 5] /\
    snd (reads (Read toy) (replicate 6 3) (NewReader (delivered (wire w)))) = Failed "EOF".
Proof.
  destruct (aead_stream toy toy_ok [[1; 2; 3; 4]; [5]] [[1]]) as [(cs & w & E & _ & _ & HR & _) _].
  - by repeat constructor.
  - repeat constructor; vm_compute; discriminate.
  - exists w. split; [exact E|]. specialize (HR (replicate 6 3)).
    destruct (reads (Read toy) (replicate 6 3) _) as [outs e]. cbn [fst snd].
    destruct HR as [_ HR]; [repeat constructor; vm_compute; discriminate|]. apply HR. vm_compute. reflexivity.
Defined.

Lemma aead_packets_witness :
  exists d, packet_write (replicate 16 9) [1; 2; 3] toy_cipher = Ret d /\ packet_read 100 d toy_cipher = Ret [1; 2; 3].
Proof.
  destruct (aead_packets toy_cipher (replicate 16 9) toy [1; 2; 3]) as (HP & _).
  - reflexivity.
  - reflexivity.
  - exact toy_ok.
  - destruct HP as (d & Hd & Hl & HR); [vm_compute; discriminate|]. exists d. split; [exact Hd|].
    apply HR. rewrite Hl. vm_compute. discriminate.
Defined.

End Aead.
