(* ===== verification/ShadowStream.v ===== *)
(** * Shadowsocks stream ciphers (src/tun2socks/transport/shadowsocks/shadowstream)

    Connections that exchange an initialisation vector and then run the bytes through a
    stream cipher, and datagrams with a vector of their own.  A cipher.Stream is the
    function from all bytes that went in to all bytes that came out, with the law
    crypto/cipher documents: calls of XORKeyStream behave as one call on the
    concatenation. *)

From S2P Require Import Prelude GoState Conn GoIO.

Module ShadowStream.

(** ** Ciphers (cipher.go) *)

Definition stream : Type := bytes -> bytes.

Record stream_ok (f : stream) : Prop := mkStreamOk {
  stream_length : forall x, length (f x) = length x;
  stream_prefix : forall x y, f x `prefix_of` f (x ++ y)
}.

(** [s.XORKeyStream(dst, src)] of a stream that has seen [hist]. *)
Definition XORKeyStream (f : stream) (hist src : bytes) : bytes := drop (length hist) (f (hist ++ src)).

Record Cipher := mkCipher {
  IVSize : Z;
  Encrypter : bytes -> go stream;
  Decrypter : bytes -> go stream
}.

(** The cipher takes the vector [iv], and decrypts with it what it encrypted with it. *)
Record cipher_ok (c : Cipher) (iv : bytes) (enc dec : stream) : Prop := mkCipherOk {
  iv_size : 1 <= IVSize c;
  iv_length : zlen iv = IVSize c;
  is_enc : Encrypter c iv = Ret enc;
  is_dec : Decrypter c iv = Ret dec;
  enc_ok : stream_ok enc;
  dec_ok : stream_ok dec;
  dec_enc : forall x, dec (enc x) = x
}.

(** ** Streams (stream.go) *)

Definition bufSize : Z := 2048.

(** A Writer: its stream with what it has seen, and the trace of the connection below. *)
Record Writer := mkWriter { wstream : stream; whist : bytes; wire : list event }.
Definition NewWriter (tr : list event) (s : stream) : Writer := mkWriter s [] tr.

(** [w.XORKeyStream(buf, p)]. *)
Definition encrypt (p : bytes) : St Writer bytes := fun w =>
  (Ret (XORKeyStream (wstream w) (whist w) p), mkWriter (wstream w) (whist w ++ p) (wire w)).

Section writer.
Context {env : Env}.

(** [w.Writer.Write(b)]: the error, if any; a send that fails sends nothing. *)
Definition send (b : bytes) : St Writer (option string) := fun w =>
  let (r, tr) := write (fun e => e) b (wire w) in
  (match r with Ret _ => Ret None | Err e => Ret (Some e) | Panic => Panic end, mkWriter (wstream w) (whist w) tr).

(** The loop of Writer.Write over what is left of its argument. *)
Fixpoint write_loop (fuel : nat) (p : bytes) (n : Z) : St Writer (Z * option string) :=
  match fuel with
  | O => stret (n, None)
  | S fuel =>
    if zlen p =? 0 then stret (n, None)
    else
      let chunk := take (Z.to_nat bufSize) p in
      buf <~ encrypt chunk ;
      err <~ send buf ;
      match err with
      | Some e => stret (n, Some e)
      | None => write_loop fuel (drop (Z.to_nat bufSize) p) (n + zlen chunk)
      end
  end.
Definition Write (p : bytes) : St Writer (Z * option string) := write_loop (length p) p 0.

(** Writer.ReadFrom over the results of the source's reads: pieces without an error, then
    the bytes and the error of the last read. *)
Fixpoint ReadFrom (pieces : list bytes) (last : bytes) (er : string) (n : Z) : St Writer (Z * option string) :=
  match pieces with
  | [] =>
    b <~ encrypt last ;
    err <~ send b ;
    stret (n + zlen last,
           match err with
           | Some e => Some e
           | None => if decide (er = "EOF")%string then None else Some er
           end)
  | p :: pieces =>
    b <~ encrypt p ;
    err <~ send b ;
    match err with
    | Some e => stret (n + zlen p, Some e)
    | None => ReadFrom pieces last er (n + zlen p)
    end
  end.
End writer.

(** A Reader: its stream with what it has seen, and the segments still to arrive. *)
Record Reader := mkReader { rstream : stream; rhist : bytes; rin : list bytes }.
Definition NewReader (segs : list bytes) (s : stream) : Reader := mkReader s [] segs.

(** Reader.Read into a slice of length [k]. *)
Definition Read (k : Z) : St Reader bytes := fun r =>
  match seg_read k (rin r) with
  | (Ret b, segs) => (Ret (XORKeyStream (rstream r) (rhist r) b), mkReader (rstream r) (rhist r ++ b) segs)
  | (Err e, segs) => (Err e, mkReader (rstream r) (rhist r) segs)
  | (Panic, segs) => (Panic, mkReader (rstream r) (rhist r) segs)
  end.

(** Reader.WriteTo into a writer that takes everything: what it wrote, and the error. *)
Fixpoint write_to (fuel : nat) (out : bytes) : St Reader (bytes * option string) := fun r =>
  match fuel with
  | O => (Ret (out, Some "out of fuel"%string), r)
  | S fuel =>
    match Read bufSize r with
    | (Ret b, r) => write_to fuel (out ++ b) r
    | (Err e, r) => (Ret (out, if decide (e = "EOF")%string then None else Some e), r)
    | (Panic, r) => (Panic, r)
    end
  end.
Definition WriteTo : St Reader (bytes * option string) := fun r =>
  write_to (S (length (rin r) + length (mjoin (rin r)))) [] r.

(** ** Connections *)

(** A Conn: its reader and writer once made, the vectors, and the connection below. *)
Record Conn := mkConn {
  csegs : list bytes; ctrace : list event;
  cr : option (stream * bytes); cw : option (stream * bytes);
  readIV : bytes; writeIV : bytes
}.
Definition NewConn (segs : list bytes) (tr : list event) : Conn := mkConn segs tr None None [] [].

Section conn.
Context {env : Env} (ciph : Cipher).

Definition ObtainWriteIV (rand : bytes) : St Conn bytes := fun c =>
  if zlen (writeIV c) =? IVSize ciph then (Ret (writeIV c), c)
  else (Ret rand, mkConn (csegs c) (ctrace c) (cr c) (cw c) (readIV c) rand).
Definition ObtainReadIV : St Conn bytes := fun c =>
  if zlen (readIV c) =? IVSize ciph then (Ret (readIV c), c)
  else
    match seg_ReadFull (IVSize ciph) (csegs c) with
    | (Ret iv, segs) => (Ret iv, mkConn segs (ctrace c) (cr c) (cw c) iv (writeIV c))
    | (Err e, segs) => (Err e, mkConn segs (ctrace c) (cr c) (cw c) (readIV c) (writeIV c))
    | (Panic, segs) => (Panic, mkConn segs (ctrace c) (cr c) (cw c) (readIV c) (writeIV c))
    end.

(** Conn.initReader and Conn.initWriter; [rand] is what rand.Read delivers. *)
Definition initReader : St Conn unit := fun c =>
  match cr c with
  | Some _ => (Ret tt, c)
  | None =>
    (iv <~ ObtainReadIV ;
     s <~ stlift (Decrypter ciph iv) ;
     fun c => (Ret tt, mkConn (csegs c) (ctrace c) (Some (s, [])) (cw c) (readIV c) (writeIV c))) c
  end.
Definition initWriter (rand : bytes) : St Conn unit := fun c =>
  match cw c with
  | Some _ => (Ret tt, c)
  | None =>
    (iv <~ ObtainWriteIV rand ;
     (fun c => let (r, tr) := write (fun e => e) iv (ctrace c) in
               (r, mkConn (csegs c) tr (cr c) (cw c) (readIV c) (writeIV c))) ~;
     s <~ stlift (Encrypter ciph iv) ;
     fun c => (Ret tt, mkConn (csegs c) (ctrace c) (cr c) (Some (s, [])) (readIV c) (writeIV c))) c
  end.

(** The operations of the embedded reader and writer on the connection. *)
Definition on_reader {A} (m : St Reader A) : St Conn A := fun c =>
  match cr c with
  | Some (f, h) =>
    let (x, r) := m (mkReader f h (csegs c)) in
    (x, mkConn (rin r) (ctrace c) (Some (rstream r, rhist r)) (cw c) (readIV c) (writeIV c))
  | None => (Panic, c)
  end.
Definition on_writer {A} (m : St Writer A) : St Conn A := fun c =>
  match cw c with
  | Some (f, h) =>
    let (x, w) := m (mkWriter f h (ctrace c)) in
    (x, mkConn (csegs c) (wire w) (cr c) (Some (wstream w, whist w)) (readIV c) (writeIV c))
  | None => (Panic, c)
  end.

Definition conn_Read (k : Z) : St Conn bytes := initReader ~; on_reader (Read k).
Definition conn_WriteTo : St Conn (bytes * option string) := initReader ~; on_reader WriteTo.
Definition conn_Write (rand b : bytes) : St Conn (Z * option string) := initWriter rand ~; on_writer (Write b).
Definition conn_ReadFrom (rand : bytes) (pieces : list bytes) (last : bytes) (er : string) : St Conn (Z * option string) :=
  initWriter rand ~; on_writer (ReadFrom pieces last er 0).
End conn.

(** ** Packets (packet.go) *)

(** Pack into a buffer of length [cap], with the vector [rand.Read] delivers. *)
Definition Pack (cap : Z) (iv plaintext : bytes) (s : Cipher) : go bytes :=
  if cap <? IVSize s + zlen plaintext then Err "short buffer"
  else
    let! enc := Encrypter s iv in
    Ret (iv ++ XORKeyStream enc [] plaintext).

(** Unpack into a buffer of length [cap]. *)
Definition Unpack (cap : Z) (pkt : bytes) (s : Cipher) : go bytes :=
  if zlen pkt <? IVSize s then Err "short packet"
  else if cap <? zlen pkt - IVSize s then Err "short buffer"
  else
    let! iv := slice_to pkt (IVSize s) in
    let! dec := Decrypter s iv in
    let! body := slice_from pkt (zlen iv) in
    Ret (XORKeyStream dec [] body).

(** PacketConn.WriteTo sends this; PacketConn.ReadFrom returns that for a datagram and a
    buffer of length [len]. *)
Definition maxPacketSize : Z := 64 * 1024.
Definition packet_write (iv b : bytes) (s : Cipher) : go bytes := Pack maxPacketSize iv b s.
Definition packet_read (len : Z) (datagram : bytes) (s : Cipher) : go bytes :=
  let b := take (Z.to_nat len) datagram in
  if len <? IVSize s then Panic
  else
    let! bb := Unpack (len - IVSize s) b s in
    Ret (take (Z.to_nat len) bb).

(** ** The stream of a writer *)

Section streams.
Context (f : stream) (Hf : stream_ok f).

Lemma XOR_app h x : f (h ++ x) = f h ++ XORKeyStream f h x.
Proof.
  unfold XORKeyStream. destruct (stream_prefix f Hf h x) as [k E]. rewrite E at 1. rewrite E.
  by rewrite <- (stream_length f Hf h), drop_app_length.
Qed.
Lemma XOR_two h x y : XORKeyStream f h (x ++ y) = XORKeyStream f h x ++ XORKeyStream f (h ++ x) y.
Proof. apply (app_inv_head (f h)). by rewrite <- XOR_app, !app_assoc, <- !XOR_app. Qed.
Lemma XOR_length h x : length (XORKeyStream f h x) = length x.
Proof. unfold XORKeyStream. rewrite length_drop, (stream_length f Hf), length_app. lia. Qed.
Lemma XOR_start x : XORKeyStream f [] x = f x.
Proof. unfold XORKeyStream. by rewrite drop_0. Qed.

(** What a run of writes adds to the wire: the encryption of the bytes taken. *)
Definition extends (h p : bytes) (tr : list event) (w : Writer) : Prop :=
  exists evs, w = mkWriter f (h ++ p) (tr ++ evs) /\ existsb is_oob evs = false /\
    delivered evs = XORKeyStream f h p.

Lemma extends_nil h tr : extends h [] tr (mkWriter f h tr).
Proof.
  exists []. rewrite !app_nil_r. split; [done|]. split; [done|]. unfold XORKeyStream.
  rewrite app_nil_r. by rewrite <- (stream_length f Hf h), drop_all.
Qed.
Lemma extends_step h p q tr w : extends h p tr w -> forall w', extends (h ++ p) q (wire w) w' -> extends h (p ++ q) tr w'.
Proof.
  intros (e1 & -> & H1 & D1) w' (e2 & -> & H2 & D2). exists (e1 ++ e2). cbn [wire].
  rewrite existsb_app, H1, H2, delivered_no_oob, D1, D2, XOR_two, !app_assoc by done. done.
Qed.

(** One encrypted send. *)
Lemma encrypt_send h p tr : exists w,
  (forall A (k : option string -> St Writer A),
     (b <~ encrypt p ; err <~ send (env := reliable) b ; k err) (mkWriter f h tr) = k None w) /\ extends h p tr w.
Proof.
  exists (mkWriter f (h ++ p) (tr ++ [EvWrite (XORKeyStream f h p)])). split; [done|].
  exists [EvWrite (XORKeyStream f h p)]. split; [done|]. split; [done|]. cbn. by rewrite app_nil_r.
Qed.

Lemma ss_write_loop fuel : forall p h n tr, (length p <= fuel)%nat -> exists w,
  write_loop (env := reliable) fuel p n (mkWriter f h tr) = (Ret (n + zlen p, None), w) /\ extends h p tr w.
Proof.
  induction fuel as [|fuel IH]; intros p h n tr Hl; cbn [write_loop].
  { destruct p; [|simpl in Hl; lia]. eexists. rewrite zlen_nil, Z.add_0_r. split; [done|apply extends_nil]. }
  destruct (Z.eqb_spec (zlen p) 0) as [E|E].
  { destruct p; [|rewrite zlen_cons in E; pose proof (zlen_nonneg p); lia]. eexists. rewrite zlen_nil, Z.add_0_r.
    split; [done|apply extends_nil]. }
  cbv zeta. set (m := Z.to_nat bufSize). assert (1 <= m)%nat by (unfold m, bufSize; lia).
  destruct (encrypt_send h (take m p) tr) as (w & Ew & Hw). rewrite Ew.
  pose proof Hw as (evs & -> & _ & _).
  destruct (IH (drop m p) (h ++ take m p) (n + zlen (take m p)) (tr ++ evs)) as (w' & -> & Hw').
  { rewrite length_drop. unfold zlen in E. lia. }
  exists w'. split; [|rewrite <- (take_drop m p); by eapply extends_step].
  rewrite <- Z.add_assoc, <- zlen_app, take_drop. done.
Qed.

Lemma ss_ReadFrom pieces last er : forall h n tr, exists w,
  ReadFrom (env := reliable) pieces last er n (mkWriter f h tr) =
    (Ret (n + zlen (mjoin pieces ++ last), if decide (er = "EOF")%string then None else Some er), w) /\
  extends h (mjoin pieces ++ last) tr w.
Proof.
  induction pieces as [|p pieces IH]; intros h n tr; cbn [ReadFrom].
  { destruct (encrypt_send h last tr) as (w & Ew & Hw). rewrite Ew. by exists w. }
  destruct (encrypt_send h p tr) as (w & Ew & Hw). rewrite Ew. pose proof Hw as (evs & -> & _ & _).
  destruct (IH (h ++ p) (n + zlen p) (tr ++ evs)) as (w' & -> & Hw').
  exists w'. rewrite mjoin_cons, <- (app_assoc p). split; [|by eapply extends_step].
  do 3 f_equal. rewrite (zlen_app p). lia.
Qed.

(** ** The stream of a reader *)

(** The reader will still hand out [left]. *)
Definition holds (left : bytes) (r : Reader) : Prop :=
  rstream r = f /\ segs_ok (rin r) /\ XORKeyStream f (rhist r) (mjoin (rin r)) = left.

#[local] Instance ss_delivers : Delivers Read holds "EOF".
Proof.
  split.
  - intros left k [g h segs] Hk (Hg & Hs & HL) Hne. cbn [rstream rin rhist] in *. subst g.
    assert (mjoin segs <> []) as Hm.
    { intros E. apply Hne. rewrite <- HL, E. apply nil_length_inv. by rewrite XOR_length. }
    destruct (seg_read_spec k segs Hk Hs Hm) as (b & segs' & E & Hb & _ & Ej & Hs').
    exists (XORKeyStream f h b), (XORKeyStream f (h ++ b) (mjoin segs')), (mkReader f (h ++ b) segs').
    unfold Read. cbn [rin rstream rhist]. rewrite E. split; [done|]. split.
    { intros E0%(f_equal length). rewrite XOR_length in E0. by destruct b. }
    by rewrite <- XOR_two, Ej.
  - intros k [g h segs] Hk (Hg & Hs & HL). cbn [rstream rin rhist] in *.
    destruct Hs as [|s ss Hs _]; [done|]. apply (f_equal length) in HL. rewrite XOR_length, mjoin_cons, length_app in HL.
    destruct s; [done|]. simpl in HL. lia.
Qed.

Lemma ss_write_to fuel : forall left out r, holds left r -> (length left < fuel)%nat -> exists r',
  write_to fuel out r = (Ret (out ++ left, None), r').
Proof.
  induction fuel as [|fuel IH]; intros left out r Hr Hl; [lia|]. cbn [write_to].
  destruct (decide (left = [])) as [->|Hne].
  - pose proof (deliver_end bufSize r ltac:(unfold bufSize; lia) Hr) as E.
    destruct (Read bufSize r) as [x r']. cbn [fst] in E. rewrite E. exists r'. by rewrite app_nil_r.
  - destruct (deliver_step left bufSize r ltac:(unfold bufSize; lia) Hr Hne) as (b & left' & r' & -> & Hb & <- & Hr').
    rewrite app_assoc. apply IH; [done|]. rewrite length_app in Hl. destruct b; [done|]. simpl in Hl. lia.
Qed.

Lemma ss_WriteTo left r : holds left r -> exists r', WriteTo r = (Ret (left, None), r').
Proof.
  intros Hr. apply (ss_write_to _ left []); [done|]. destruct Hr as (_ & _ & <-). rewrite XOR_length. lia.
Qed.
End streams.

(** ** Connections end to end *)

Section connections.
Context (ciph : Cipher) (iv : bytes) (enc dec : stream) (Hc : cipher_ok ciph iv enc dec).

(** Consecutive Write calls on one connection. *)
Fixpoint conn_writes (rand : bytes) (ps : list bytes) : St Conn unit :=
  match ps with
  | [] => stret tt
  | p :: ps => conn_Write (env := reliable) ciph rand p ~; conn_writes rand ps
  end.

(** The connection has sent its vector and the encryption of [h]. *)
Definition sent (h : bytes) (c : Conn) : Prop :=
  cw c = Some (enc, h) /\ exists evs, ctrace c = EvWrite iv :: evs /\ existsb is_oob evs = false /\ delivered evs = enc h.

Lemma sent_delivered h c : sent h c -> existsb is_oob (ctrace c) = false /\ delivered (ctrace c) = iv ++ enc h.
Proof. intros (_ & evs & -> & Ho & Hd). cbn. by rewrite Hd. Qed.

Lemma sent_extends h p segs tr r ri wi w :
  sent h (mkConn segs tr r (Some (enc, h)) ri wi) ->
  extends enc h p tr w ->
  sent (h ++ p) (mkConn segs (wire w) r (Some (wstream w, whist w)) ri wi).
Proof.
  intros (_ & evs0 & E & Ho & Hd) (evs & -> & He & Hx). cbn in *. subst tr. split; [done|]. exists (evs0 ++ evs). split; [done|].
  rewrite existsb_app, Ho, He, delivered_no_oob, Hd, Hx by done.
  by rewrite <- XOR_app by apply (enc_ok _ _ _ _ Hc).
Qed.

Lemma conn_Write_sent h p rand c : sent h c -> exists c',
  conn_Write (env := reliable) ciph rand p c = (Ret (zlen p, None), c') /\ sent (h ++ p) c'.
Proof.
  destruct c as [segs tr r w ri wi]. intros Hs. pose proof Hs as (E & _). cbn in E. subst w.
  unfold conn_Write, stbind, initWriter, on_writer. cbn [cw].
  destruct (ss_write_loop _ (enc_ok _ _ _ _ Hc) (length p) p h 0 tr) as (w & Ew & Hw); [done|].
  unfold Write. cbn [ctrace]. rewrite Ew. eexists. split; [done|]. by eapply sent_extends.
Qed.

Lemma conn_writes_sent rand ps : forall h c, sent h c -> exists c',
  conn_writes rand ps c = (Ret tt, c') /\ sent (h ++ mjoin ps) c'.
Proof.
  induction ps as [|p ps IH]; intros h c Hs; cbn [conn_writes].
  { exists c. by rewrite app_nil_r. }
  destruct (conn_Write_sent h p rand c Hs) as (c1 & E & H1). unfold stbind. rewrite E.
  destruct (IH _ _ H1) as (c2 & E2 & H2). exists c2. by rewrite mjoin_cons, app_assoc.
Qed.

(** The first operation that needs the writer sends the vector. *)
Lemma initWriter_sent segs : exists c,
  initWriter (env := reliable) ciph iv (NewConn segs []) = (Ret tt, c) /\ sent [] c /\ writeIV c = iv.
Proof.
  pose proof (iv_size _ _ _ _ Hc). eexists. unfold initWriter, ObtainWriteIV, stlift, stbind. cbn [cw NewConn writeIV].
  rewrite (proj2 (Z.eqb_neq _ _)) by (change (zlen (@nil Z)) with 0; lia). rewrite (is_enc _ _ _ _ Hc).
  split; [done|]. split; [|done].
  split; [done|]. exists []. split; [done|]. split; [done|]. symmetry. apply nil_length_inv.
  by rewrite (stream_length _ (enc_ok _ _ _ _ Hc)).
Qed.

(** The connection will still hand out [left]: its vector is still to be read, or the
    reader is there. *)
Definition conn_holds (left : bytes) (c : Conn) : Prop :=
  (exists ct, cr c = None /\ readIV c = [] /\ segs_ok (csegs c) /\ mjoin (csegs c) = iv ++ ct /\ dec ct = left) \/
  (exists h, cr c = Some (dec, h) /\ holds dec left (mkReader dec h (csegs c))).

Lemma initReader_holds left c : conn_holds left c -> exists c' h,
  (forall A (m : St Conn A), (initReader ciph ~; m) c = m c') /\ cr c' = Some (dec, h) /\
  holds dec left (mkReader dec h (csegs c')).
Proof.
  destruct c as [segs tr r w ri wi]. pose proof (iv_size _ _ _ _ Hc).
  intros [(ct & Er & Ei & Hs & Ej & Hd)|(h & Er & Hh)]; cbn in *; subst.
  - destruct (seg_ReadFull_app (IVSize ciph) segs iv ct Hs Ej (iv_length _ _ _ _ Hc)) as (segs' & E & Hs' & Ej').
    exists (mkConn segs' tr (Some (dec, [])) w iv wi), []. split; [|split; [done|]].
    + intros A m. unfold initReader, ObtainReadIV, stlift, stbind. cbn [cr readIV csegs].
      rewrite (proj2 (Z.eqb_neq _ _)) by (change (zlen (@nil Z)) with 0; lia). by rewrite E, (is_dec _ _ _ _ Hc).
    + split; [done|]. split; [done|]. cbn [rhist rin csegs]. by rewrite XOR_start, Ej'.
  - exists (mkConn segs tr (Some (dec, h)) w ri wi), h. done.
Qed.

#[local] Instance conn_delivers : Delivers (conn_Read ciph) conn_holds "EOF".
Proof.
  split.
  - intros left k c Hk Hc0 Hne. destruct (initReader_holds left c Hc0) as (c' & h & E & Er & Hh).
    destruct (deliver_step (Delivers := ss_delivers _ (dec_ok _ _ _ _ Hc)) left k _ Hk Hh Hne)
      as (out & left' & r' & ER & Ho & El & Hr').
    unfold conn_Read. rewrite E. unfold on_reader. rewrite Er, ER. eexists out, left', _. do 3 (split; [done|]).
    right. exists (rhist r'). destruct r' as [g h' segs']. destruct Hr' as (Hg & Hr'). cbn in *. by subst g.
  - intros k c Hk Hc0. destruct (initReader_holds [] c Hc0) as (c' & h & E & Er & Hh).
    pose proof (deliver_end (Delivers := ss_delivers _ (dec_ok _ _ _ _ Hc)) k _ Hk Hh) as ER.
    unfold conn_Read. rewrite E. unfold on_reader. rewrite Er. by destruct (Read k _).
Qed.

Lemma conn_WriteTo_holds left c : conn_holds left c -> fst (conn_WriteTo ciph c) = Ret (left, None).
Proof.
  intros Hc0. destruct (initReader_holds left c Hc0) as (c' & h & E & Er & Hh).
  destruct (ss_WriteTo _ (dec_ok _ _ _ _ Hc) left _ Hh) as [r' ER].
  unfold conn_WriteTo. rewrite E. unfold on_reader. by rewrite Er, ER.
Qed.

Lemma conn_ReadFrom_sent h pieces last rand c : sent h c -> exists c',
  conn_ReadFrom (env := reliable) ciph rand pieces last "EOF" c = (Ret (zlen (mjoin pieces ++ last), None), c') /\
  sent (h ++ mjoin pieces ++ last) c'.
Proof.
  destruct c as [segs tr r w ri wi]. intros Hs. pose proof Hs as (E & _). cbn in E. subst w.
  unfold conn_ReadFrom, stbind, initWriter, on_writer. cbn [cw ctrace].
  destruct (ss_ReadFrom _ (enc_ok _ _ _ _ Hc) pieces last "EOF" h 0 tr) as (w & Ew & Hw).
  rewrite Ew. eexists. split; [done|]. by eapply sent_extends.
Qed.

(** A first write on a fresh connection. *)
Lemma conn_Write_fresh p segs : exists c,
  conn_Write (env := reliable) ciph iv p (NewConn segs []) = (Ret (zlen p, None), c) /\ sent p c.
Proof.
  destruct (initWriter_sent segs) as (c & E & Hs & _). destruct (conn_Write_sent [] p iv c Hs) as (c' & E' & Hs').
  exists c'. split; [|done]. unfold conn_Write, stbind in *. rewrite E. destruct Hs as (Hw & _).
  unfold initWriter in E'. by rewrite Hw in E'.
Qed.
Lemma conn_writes_fresh p ps : exists c,
  conn_writes iv (p :: ps) (NewConn [] []) = (Ret tt, c) /\ sent (mjoin (p :: ps)) c.
Proof.
  destruct (conn_Write_fresh p []) as (c & E & Hs). destruct (conn_writes_sent iv ps p c Hs) as (c' & E' & Hs').
  exists c'. split; [|by rewrite mjoin_cons]. cbn [conn_writes]. unfold stbind. by rewrite E.
Qed.

(** A datagram: its vector, then the encrypted payload. *)
Lemma packet_roundtrip p : IVSize ciph + zlen p <= maxPacketSize ->
  exists d, packet_write iv p ciph = Ret d /\ zlen d = IVSize ciph + zlen p /\
    forall len, zlen d <= len -> packet_read len d ciph = Ret p.
Proof.
  intros Hf. pose proof (iv_length _ _ _ _ Hc) as Hi. pose proof (iv_size _ _ _ _ Hc). pose proof (zlen_nonneg p).
  assert (length (enc p) = length p) as Hl by apply (stream_length _ (enc_ok _ _ _ _ Hc)).
  unfold packet_write, Pack. rewrite (proj2 (Z.ltb_ge _ _)), (is_enc _ _ _ _ Hc) by lia. cbn [go_bind]. rewrite XOR_start. eexists. split; [done|].
  assert (zlen (iv ++ enc p) = IVSize ciph + zlen p) as Hd.
  { rewrite zlen_app. unfold zlen in *. rewrite Hl. lia. }
  split; [done|]. intros len Hlen. unfold packet_read. rewrite take_ge by (unfold zlen in *; lia).
  rewrite (proj2 (Z.ltb_ge _ _)) by lia. unfold Unpack. rewrite Hd, !(proj2 (Z.ltb_ge _ _)) by lia.
  unfold slice_to, slice_from. rewrite slice_in_range by lia. rewrite Z.sub_0_r, drop_0.
  assert (Z.to_nat (IVSize ciph) = length iv) as Hn by (unfold zlen in Hi; lia). rewrite Hn, take_app_length.
  cbn [go_bind]. rewrite (is_dec _ _ _ _ Hc). cbn [go_bind]. rewrite slice_in_range by lia. rewrite Hi, Hn, drop_app_length.
  rewrite take_ge by (unfold zlen in *; rewrite length_app; lia). cbn [go_bind].
  rewrite XOR_start, (dec_enc _ _ _ _ Hc), take_ge; [done|]. unfold zlen in *. lia.
Qed.

(** A shadowsocks stream connection delivers what was written.  Its Write calls put the
    vector on the wire once, followed by one encrypted stream that a later ReadFrom
    (io.Copy) continues; whatever random vector the later calls would draw is not used.
    However the network cuts that into segments, the peer's Read calls with buffers of any
    positive sizes return a prefix of the bytes, enough of them return all and then EOF,
    and WriteTo delivers the same; a stream that ends inside the vector fails.  When
    sending the vector fails nothing is on the wire, and the next attempt sends the same
    vector.  Datagrams come back as they were packed, a payload that does not fit the
    buffer and a datagram shorter than its vector are refused. *)
Theorem shadow_stream rand p ps pieces last :
  (exists c c', conn_writes iv (p :: ps) (NewConn [] []) = (Ret tt, c) /\
     conn_ReadFrom (env := reliable) ciph rand pieces last "EOF" c = (Ret (zlen (mjoin pieces ++ last), None), c') /\
     delivered (ctrace c') = iv ++ enc (mjoin (p :: ps) ++ mjoin pieces ++ last) /\
     forall segs tr, segs_ok segs -> mjoin segs = delivered (ctrace c') ->
       fst (conn_WriteTo ciph (NewConn segs tr)) = Ret (mjoin (p :: ps) ++ mjoin pieces ++ last, None) /\
       forall ks, Forall (fun k => 1 <= k) ks ->
         let (outs, e) := reads (conn_Read ciph) ks (NewConn segs tr) in
         mjoin outs `prefix_of` mjoin (p :: ps) ++ mjoin pieces ++ last /\
         (zlen (mjoin (p :: ps) ++ mjoin pieces ++ last) < zlen ks ->
            mjoin outs = mjoin (p :: ps) ++ mjoin pieces ++ last /\ e = Failed "EOF")) /\
  (forall segs tr k, zlen (mjoin segs) < IVSize ciph ->
     fst (conn_Read ciph k (NewConn segs tr)) = Err (if zlen (mjoin segs) =? 0 then "EOF" else "unexpected EOF")) /\
  (forall (env : Env) err, env_fail [] (EvWrite iv) = Some err ->
     exists c, conn_Write (env := env) ciph iv p (NewConn [] []) = (Err err, c) /\ ctrace c = [] /\
       exists c', conn_Write (env := reliable) ciph rand p c = (Ret (zlen p, None), c') /\
         delivered (ctrace c') = iv ++ enc p) /\
  (IVSize ciph + zlen p <= maxPacketSize ->
     exists d, packet_write iv p ciph = Ret d /\ zlen d = IVSize ciph + zlen p /\
       forall len, zlen d <= len -> packet_read len d ciph = Ret p) /\
  (maxPacketSize < IVSize ciph + zlen p -> packet_write iv p ciph = Err "short buffer") /\
  (forall len d, IVSize ciph <= len -> zlen d < IVSize ciph -> packet_read len d ciph = Err "short packet").
Proof.
  pose proof (iv_length _ _ _ _ Hc) as Hi. pose proof (iv_size _ _ _ _ Hc) as Hz. split_and!.
  - destruct (conn_writes_fresh p ps) as (c & E & Hs).
    destruct (conn_ReadFrom_sent _ pieces last rand c Hs) as (c' & E' & [_ Hd]%sent_delivered).
    exists c, c'. do 3 (split; [done|]). intros segs tr Hseg Hj.
    assert (conn_holds (mjoin (p :: ps) ++ mjoin pieces ++ last) (NewConn segs tr)) as Hh.
    { left. eexists. do 3 (split; [done|]). rewrite Hd in Hj. split; [exact Hj|]. apply (dec_enc _ _ _ _ Hc). }
    split; [by apply conn_WriteTo_holds|]. intros ks Hks.
    destruct (reads_deliver (conn_Read ciph) conn_holds "EOF" ks Hks _ _ Hh). by destruct (reads _ _ _).
  - intros segs tr k Hl. unfold conn_Read, initReader, ObtainReadIV, stlift, stbind, NewConn. cbn [cr readIV csegs].
    rewrite (proj2 (Z.eqb_neq (zlen (@nil Z)) (IVSize ciph))) by (change (zlen (@nil Z)) with 0; lia).
    unfold seg_ReadFull, ReadFull. by rewrite (proj2 (Z.leb_gt _ _)).
  - intros env err He. exists (mkConn [] [] None None [] iv). split; [|split; [done|]].
    + unfold conn_Write, initWriter, ObtainWriteIV, stlift, stbind, NewConn. cbn [cw writeIV].
      rewrite (proj2 (Z.eqb_neq _ _)) by (change (zlen (@nil Z)) with 0; lia). unfold write, perform. cbn [ctrace]. by rewrite He.
    + destruct (conn_Write_sent [] p rand (mkConn [] [EvWrite iv] None (Some (enc, [])) [] iv))
        as (c' & E' & [_ Hd']%sent_delivered).
      { split; [done|]. exists []. split; [done|]. split; [done|]. symmetry. apply nil_length_inv.
        apply (stream_length _ (enc_ok _ _ _ _ Hc)). }
      exists c'. split; [|done]. unfold conn_Write, initWriter, ObtainWriteIV, stlift, stbind in *. cbn [cw writeIV] in *.
      by rewrite (proj2 (Z.eqb_eq _ _) Hi), (is_enc _ _ _ _ Hc).
  - by apply packet_roundtrip.
  - intros Hl. unfold packet_write, Pack. by rewrite (proj2 (Z.ltb_lt _ _)).
  - intros len d Hlen Hd. unfold packet_read. rewrite (proj2 (Z.ltb_ge _ _)) by done. unfold Unpack.
    rewrite (proj2 (Z.ltb_lt _ _)); [done|]. unfold zlen in *. rewrite length_take. lia.
Qed.
End connections.

(** ** Witnesses *)

(** A keystream that repeats the first byte of the vector. *)
Definition toy_stream (iv : bytes) : stream := fun x => (fun b => Z.lxor (hd 0 iv) b) <$> x.
Definition toy : Cipher := mkCipher 8 (fun iv => Ret (toy_stream iv)) (fun iv => Ret (toy_stream iv)).

Lemma toy_stream_ok iv : stream_ok (toy_stream iv).
Proof.
  split; intros x; unfold toy_stream; [by rewrite length_fmap|]. intros y. rewrite fmap_app. by eexists.
Qed.
Lemma toy_stream_twice iv x : toy_stream iv (toy_stream iv x) = x.
Proof.
  unfold toy_stream. rewrite <- list_fmap_compose. rewrite <- (list_fmap_id x) at 2.
  apply list_fmap_ext. intros _ b _. cbn. by rewrite <- Z.lxor_assoc, Z.lxor_nilpotent, Z.lxor_0_l.
Qed.
Lemma xor_toy_ok iv : zlen iv = 8 -> cipher_ok toy iv (toy_stream iv) (toy_stream iv).
Proof. intros Hi. split; try done; [apply toy_stream_ok|apply toy_stream_ok|apply toy_stream_twice]. Qed.

(** Two writes and a copied rest, arriving in two segments. *)
Lemma shadow_stream_witness :
  let iv := replicate 8 5 in
  exists c, delivered (ctrace c) = iv ++ [4; 7; 6; 1] /\
    reads (conn_Read toy) [1; 9; 9; 9; 9] (NewConn [iv ++ [4; 7]; [6; 1]] []) = ([[1]; [2]; [3; 4]], Failed "EOF") /\
    fst (conn_WriteTo toy (NewConn [iv ++ [4; 7]; [6; 1]] [])) = Ret ([1; 2; 3; 4], None).
Proof.
  intros iv. destruct (shadow_stream toy iv _ _ (xor_toy_ok iv eq_refl) [9] [1] [[2]] [[3]] [4]) as [(c & c' & _ & _ & Hd & HW) _].
  exists c'. split; [exact Hd|]. split; [vm_compute; reflexivity|].
  apply (HW [iv ++ [4; 7]; [6; 1]] []); [repeat constructor; discriminate|by rewrite Hd].
Defined.

End ShadowStream.
