(* ===== verification/Ciphers.v ===== *)
(** * Shadowsocks ciphers (src/tun2socks/transport/shadowsocks/core/cipher.go,
      shadowaead/cipher.go, shadowstream/cipher.go)

    The table of ciphers, the choice by name, and the derivation of a key from a password.
    MD5 is written out; the block and stream ciphers of Go's crypto packages are
    parameters, with the sizes they document and the law that they decrypt what they
    encrypted. *)

From stdpp Require Import sorting.
From S2P Require Import Prelude GoStrings GoState Conn GoIO FakeIP Aead ShadowStream.

Module Ciphers.

(** ** MD5 (crypto/md5) *)

Section md5.
Definition md5_K : list Z :=
  [0xd76aa478; 0xe8c7b756; 0x242070db; 0xc1bdceee; 0xf57c0faf; 0x4787c62a; 0xa8304613; 0xfd469501;
   0x698098d8; 0x8b44f7af; 0xffff5bb1; 0x895cd7be; 0x6b901122; 0xfd987193; 0xa679438e; 0x49b40821;
   0xf61e2562; 0xc040b340; 0x265e5a51; 0xe9b6c7aa; 0xd62f105d; 0x02441453; 0xd8a1e681; 0xe7d3fbc8;
   0x21e1cde6; 0xc33707d6; 0xf4d50d87; 0x455a14ed; 0xa9e3e905; 0xfcefa3f8; 0x676f02d9; 0x8d2a4c8a;
   0xfffa3942; 0x8771f681; 0x6d9d6122; 0xfde5380c; 0xa4beea44; 0x4bdecfa9; 0xf6bb4b60; 0xbebfbc70;
   0x289b7ec6; 0xeaa127fa; 0xd4ef3085; 0x04881d05; 0xd9d4d039; 0xe6db99e5; 0x1fa27cf8; 0xc4ac5665;
   0xf4292244; 0x432aff97; 0xab9423a7; 0xfc93a039; 0x655b59c3; 0x8f0ccc92; 0xffeff47d; 0x85845dd1;
   0x6fa87e4f; 0xfe2ce6e0; 0xa3014314; 0x4e0811a1; 0xf7537e82; 0xbd3af235; 0x2ad7d2bb; 0xeb86d391].
Definition md5_shifts : list (list Z) := [[7; 12; 17; 22]; [5; 9; 14; 20]; [4; 11; 16; 23]; [6; 10; 15; 21]].

Definition not32 (x : Z) : Z := Z.lxor x 0xffffffff.
Definition rotl32 (x n : Z) : Z := u32 (Z.lor (Z.shiftl x n) (Z.shiftr x (32 - n))).

(** One of the 64 steps on a block of sixteen words. *)
Definition md5_step (m : list Z) (s : Z * Z * Z * Z) (i : nat) : Z * Z * Z * Z :=
  let '(a, b, c, d) := s in
  let r := Nat.div i 16 in
  let '(f, g) :=
    match r with
    | 0%nat => (Z.lor (Z.land b c) (Z.land (not32 b) d), i)
    | 1%nat => (Z.lor (Z.land d b) (Z.land (not32 d) c), 5 * i + 1)%nat
    | 2%nat => (Z.lxor b (Z.lxor c d), 3 * i + 5)%nat
    | _ => (Z.lxor c (Z.lor b (not32 d)), 7 * i)%nat
    end in
  let x := u32 (a + f + nth i md5_K 0 + nth (Nat.modulo g 16) m 0) in
  (d, u32 (b + rotl32 x (nth (Nat.modulo i 4) (nth r md5_shifts []) 0)), b, c).

(** Words, least significant byte first. *)
Fixpoint words (n : nat) (b : bytes) : list Z :=
  match n, b with
  | S n, b0 :: b1 :: b2 :: b3 :: b => b0 + 256 * (b1 + 256 * (b2 + 256 * b3)) :: words n b
  | _, _ => []
  end.

Definition md5_block (s : Z * Z * Z * Z) (block : bytes) : Z * Z * Z * Z :=
  let '(a, b, c, d) := s in
  let '(a', b', c', d') := fold_left (md5_step (words 16 block)) (seq 0 64) s in
  (u32 (a + a'), u32 (b + b'), u32 (c + c'), u32 (d + d')).

Fixpoint md5_blocks (fuel : nat) (s : Z * Z * Z * Z) (msg : bytes) : Z * Z * Z * Z :=
  match fuel, msg with
  | O, _ | _, [] => s
  | S fuel, _ => md5_blocks fuel (md5_block s (take 64 msg)) (drop 64 msg)
  end.

(** The message with its padding. *)
Definition md5_pad (msg : bytes) : bytes :=
  msg ++ [0x80] ++ replicate (Z.to_nat ((55 - zlen msg) mod 64)) 0 ++ le_bytes 8 (8 * zlen msg).

(** [md5.Sum(msg)]. *)
Definition md5 (msg : bytes) : bytes :=
  let '(a, b, c, d) :=
    md5_blocks (S (length msg)) (0x67452301, 0xefcdab89, 0x98badcfe, 0x10325476) (md5_pad msg) in
  le_bytes 4 a ++ le_bytes 4 b ++ le_bytes 4 c ++ le_bytes 4 d.
End md5.

Definition md5_Size : Z := 16.
Lemma md5_length msg : zlen (md5 msg) = md5_Size.
Proof. unfold md5. destruct (md5_blocks _ _ _) as [[[a b] c] d]. unfold zlen. by rewrite !length_app, !length_le_bytes. Qed.

(** ** Kdf *)

Section kdf.
Context (password : bytes) (keyLen : Z).

(** The loop of Kdf: [b] and [prev]. *)
Fixpoint kdf_loop (fuel : nat) (b prev : bytes) : go bytes :=
  match fuel with
  | O => Ret b
  | S fuel =>
    if zlen b <? keyLen then
      let b := b ++ md5 (prev ++ password) in
      let! prev := slice_from b (zlen b - md5_Size) in
      kdf_loop fuel b prev
    else Ret b
  end.
Definition Kdf : go bytes :=
  let! b := kdf_loop (Z.to_nat keyLen) [] [] in
  slice_to b keyLen.
End kdf.

(** ** The primitives *)

Class Primitives := {
  block : Type;
  aes_NewCipher : bytes -> go block;
  BlockSize : block -> Z;
  NewGCM : block -> go Aead.AEAD;
  NewCTR : block -> bytes -> go ShadowStream.stream;
  NewCFBEncrypter : block -> bytes -> go ShadowStream.stream;
  NewCFBDecrypter : block -> bytes -> go ShadowStream.stream;
  chacha20poly1305_New : bytes -> go Aead.AEAD;
  chacha20poly1305_NewX : bytes -> go Aead.AEAD;
  NewUnauthenticatedCipher : bytes -> bytes -> go ShadowStream.stream;
  rc4_NewCipher : bytes -> go ShadowStream.stream;
  hkdf_read : bytes -> bytes -> string -> Z -> bytes
}.

(** golang.org/x/crypto: sizes. *)
Definition chacha20_KeySize : Z := 32.
Definition chacha20_NonceSize : Z := 12.
Definition chacha20_NonceSizeX : Z := 24.

(** [a] and [b] undo each other. *)
Definition inverse_streams (a b : go ShadowStream.stream) : Prop :=
  exists f g, a = Ret f /\ b = Ret g /\ ShadowStream.stream_ok f /\ ShadowStream.stream_ok g /\ forall x, g (f x) = x.

Definition aes_key_size (n : Z) : Prop := n = 16 \/ n = 24 \/ n = 32.

(** What the packages document. *)
Class PrimitivesOk `{Primitives} : Prop := {
  aes_accepts k : aes_key_size (zlen k) -> exists b, aes_NewCipher k = Ret b /\ BlockSize b = 16 /\
    (exists a, NewGCM b = Ret a /\ Aead.aead_ok a) /\
    (forall iv, zlen iv = 16 -> inverse_streams (NewCTR b iv) (NewCTR b iv)) /\
    (forall iv, zlen iv = 16 -> inverse_streams (NewCFBEncrypter b iv) (NewCFBDecrypter b iv));
  poly1305_accepts k : zlen k = chacha20_KeySize ->
    (exists a, chacha20poly1305_New k = Ret a /\ Aead.aead_ok a) /\
    (exists a, chacha20poly1305_NewX k = Ret a /\ Aead.aead_ok a);
  chacha20_accepts k iv : zlen k = chacha20_KeySize -> zlen iv = chacha20_NonceSize \/ zlen iv = chacha20_NonceSizeX ->
    inverse_streams (NewUnauthenticatedCipher k iv) (NewUnauthenticatedCipher k iv);
  rc4_accepts k : 1 <= zlen k <= 256 -> inverse_streams (rc4_NewCipher k) (rc4_NewCipher k);
  hkdf_length s salt info n : 0 <= n -> zlen (hkdf_read s salt info n) = n
}.

(** [KeySizeError.Error] of both packages. *)
Definition KeySizeError (n : Z) : string := ("key size error: need " +:+ Itoa n +:+ " bytes")%string.

Section constructors.
Context `{Primitives}.

(** shadowaead/cipher.go. *)
Definition hkdfSHA1 (secret salt : bytes) (n : Z) : bytes := hkdf_read secret salt "ss-subkey" n.
Definition aesGCM (key : bytes) : go Aead.AEAD :=
  let! blk := aes_NewCipher key in
  NewGCM blk.
Definition AESGCM (psk : bytes) : go Aead.metaCipher :=
  let l := zlen psk in
  if (l =? 16) || (l =? 24) || (l =? 32) then Ret (Aead.mkCipher psk hkdfSHA1 aesGCM)
  else Err ("crypto/aes: invalid key size " +:+ Itoa l).
Definition Chacha20Poly1305 (psk : bytes) : go Aead.metaCipher :=
  if negb (zlen psk =? chacha20_KeySize) then Err (KeySizeError chacha20_KeySize)
  else Ret (Aead.mkCipher psk hkdfSHA1 chacha20poly1305_New).
Definition XChacha20Poly1305 (psk : bytes) : go Aead.metaCipher :=
  if negb (zlen psk =? chacha20_KeySize) then Err (KeySizeError chacha20_KeySize)
  else Ret (Aead.mkCipher psk hkdfSHA1 chacha20poly1305_NewX).

(** shadowstream/cipher.go. *)
Definition ctrStream (b : block) : ShadowStream.Cipher := ShadowStream.mkCipher (BlockSize b) (NewCTR b) (NewCTR b).
Definition AESCTR (key : bytes) : go ShadowStream.Cipher :=
  let! blk := aes_NewCipher key in
  Ret (ctrStream blk).
Definition cfbStream (b : block) : ShadowStream.Cipher :=
  ShadowStream.mkCipher (BlockSize b) (NewCFBEncrypter b) (NewCFBDecrypter b).
Definition AESCFB (key : bytes) : go ShadowStream.Cipher :=
  let! blk := aes_NewCipher key in
  Ret (cfbStream blk).

(** Encrypter panics on the constructor's error. *)
Definition chacha_stream (key iv : bytes) : go ShadowStream.stream :=
  match NewUnauthenticatedCipher key iv with
  | Ret ciph => Ret ciph
  | _ => Panic
  end.
Definition chacha20ietfkey (k : bytes) : ShadowStream.Cipher :=
  ShadowStream.mkCipher chacha20_NonceSize (chacha_stream k) (chacha_stream k).
Definition Chacha20IETF (key : bytes) : go ShadowStream.Cipher :=
  if negb (zlen key =? chacha20_KeySize) then Err (KeySizeError chacha20_KeySize) else Ret (chacha20ietfkey key).
Definition xchacha20key (k : bytes) : ShadowStream.Cipher :=
  ShadowStream.mkCipher chacha20_NonceSizeX (chacha_stream k) (chacha_stream k).
Definition Xchacha20 (key : bytes) : go ShadowStream.Cipher :=
  if negb (zlen key =? chacha20_KeySize) then Err (KeySizeError chacha20_KeySize) else Ret (xchacha20key key).
Definition rc4_stream (k iv : bytes) : go ShadowStream.stream :=
  let rc4key := md5 (k ++ iv) in
  rc4_NewCipher rc4key.
Definition rc4Md5Key (k : bytes) : ShadowStream.Cipher := ShadowStream.mkCipher 16 (rc4_stream k) (rc4_stream k).
Definition RC4MD5 (key : bytes) : go ShadowStream.Cipher := Ret (rc4Md5Key key).

(** ** core/cipher.go *)

Inductive cipher :=
| dummy
| AeadCipher (c : Aead.metaCipher) (Key : bytes)
| StreamCipher (c : ShadowStream.Cipher) (Key : bytes).

Definition aeadList : gmap string (Z * (bytes -> go Aead.metaCipher)) :=
  list_to_map [("AEAD_AES_128_GCM"%string, (16, AESGCM)); ("AEAD_AES_192_GCM"%string, (24, AESGCM));
    ("AEAD_AES_256_GCM"%string, (32, AESGCM)); ("AEAD_CHACHA20_POLY1305"%string, (32, Chacha20Poly1305));
    ("AEAD_XCHACHA20_POLY1305"%string, (32, XChacha20Poly1305))].
Definition streamList : gmap string (Z * (bytes -> go ShadowStream.Cipher)) :=
  list_to_map [("RC4-MD5"%string, (16, RC4MD5)); ("AES-128-CTR"%string, (16, AESCTR));
    ("AES-192-CTR"%string, (24, AESCTR)); ("AES-256-CTR"%string, (32, AESCTR));
    ("AES-128-CFB"%string, (16, AESCFB)); ("AES-192-CFB"%string, (24, AESCFB));
    ("AES-256-CFB"%string, (32, AESCFB)); ("CHACHA20-IETF"%string, (32, Chacha20IETF));
    ("XCHACHA20"%string, (32, Xchacha20))].

Definition ListCipher {ord : RangeOrder} : list string :=
  merge_sort String.le (range_keys aeadList ++ range_keys streamList).

(** The switch on the upper-case name; "DUMMY" is taken before. *)
Definition alias (name : string) : string :=
  if decide (name = "CHACHA20-IETF-POLY1305")%string then "AEAD_CHACHA20_POLY1305"
  else if decide (name = "XCHACHA20-IETF-POLY1305")%string then "AEAD_XCHACHA20_POLY1305"
  else if decide (name = "AES-128-GCM")%string then "AEAD_AES_128_GCM"
  else if decide (name = "AES-192-GCM")%string then "AEAD_AES_192_GCM"
  else if decide (name = "AES-256-GCM")%string then "AEAD_AES_256_GCM"
  else name.

(** The key of a choice, and the cipher made from it. *)
Definition with_key {A} (KeySize : Z) (New : bytes -> go A) (wrap : A -> bytes -> cipher)
    (key : bytes) (password : string) : go cipher :=
  let! key := if zlen key =? 0 then Kdf (bytes_of_string password) KeySize else Ret key in
  if negb (zlen key =? KeySize) then Err (KeySizeError KeySize)
  else
    let! c := New key in
    Ret (wrap c key).

Definition PickCipher (name : string) (key : bytes) (password : string) : go cipher :=
  let name := ToUpper name in
  if decide (name = "DUMMY")%string then Ret dummy
  else
    let name := alias name in
    match aeadList !! name with
    | Some (KeySize, New) => with_key KeySize New AeadCipher key password
    | None =>
      match streamList !! name with
      | Some (KeySize, New) => with_key KeySize New StreamCipher key password
      | None => Err "cipher not supported"
      end
    end.
End constructors.

Example md5_foobar : md5 (bytes_of_string "foobar") =
  [0x38; 0x58; 0xf6; 0x22; 0x30; 0xac; 0x3c; 0x91; 0x5f; 0x30; 0x0c; 0x66; 0x43; 0x12; 0xc6; 0x3f].
Proof. vm_compute. reflexivity. Qed.
Example md5_long : md5 (replicate 100 97) =
  [0x36; 0xa9; 0x2c; 0xc9; 0x4a; 0x9e; 0x0f; 0xa2; 0x1f; 0x62; 0x5f; 0x8b; 0xfb; 0x00; 0x7a; 0xdf].
Proof. vm_compute. reflexivity. Qed.

(** ** Keys *)

(** The reference: each digest is of the one before and the password. *)
Fixpoint digests (password : bytes) (n : nat) (prev : bytes) : list bytes :=
  match n with
  | O => []
  | S n => let d := md5 (prev ++ password) in d :: digests password n d
  end.

Section keys.
Context (pw : bytes).

Lemma digests_length n : forall prev, zlen (mjoin (digests pw n prev)) = 16 * Z.of_nat n.
Proof.
  induction n as [|n IH]; intros prev; [done|]. cbn [digests]. cbv zeta. rewrite mjoin_cons, zlen_app, IH, md5_length.
  unfold md5_Size. lia.
Qed.
Lemma digests_more n m : forall prev, exists tl, mjoin (digests pw (n + m) prev) = mjoin (digests pw n prev) ++ tl.
Proof.
  induction n as [|n IH]; intros prev; [by eexists|]. cbn [digests Nat.add]. cbv zeta.
  destruct (IH (md5 (prev ++ pw))) as [tl E]. exists tl. by rewrite !mjoin_cons, E, app_assoc.
Qed.

Lemma kdf_loop_spec keyLen fuel : forall b prev, keyLen <= zlen b + 16 * Z.of_nat fuel ->
  exists n, kdf_loop pw keyLen fuel b prev = Ret (b ++ mjoin (digests pw n prev)) /\ keyLen <= zlen b + 16 * Z.of_nat n.
Proof.
  induction fuel as [|fuel IH]; intros b prev Hl; cbn [kdf_loop].
  { exists O. by rewrite app_nil_r. }
  destruct (Z.ltb_spec (zlen b) keyLen) as [Hb|Hb].
  2:{ exists O. rewrite app_nil_r. split; [done|lia]. }
  set (d := md5 (prev ++ pw)). assert (zlen d = 16) as Hd by apply md5_length. pose proof (zlen_nonneg b).
  assert (slice_from (b ++ d) (zlen (b ++ d) - md5_Size) = Ret d) as ->.
  { unfold slice_from, md5_Size. rewrite zlen_app, Hd. rewrite slice_in_range by (rewrite ?zlen_app; lia).
    replace (Z.to_nat (zlen b + 16 - 16)) with (length b) by (unfold zlen; lia). rewrite drop_app_length.
    rewrite take_ge; [done|]. unfold zlen in *. lia. }
  cbn [go_bind]. destruct (IH (b ++ d) d) as (n & -> & Hn); [rewrite zlen_app; lia|].
  exists (S n). cbn [digests]. cbv zeta. fold d. rewrite mjoin_cons, app_assoc. split; [done|]. rewrite zlen_app in Hn. lia.
Qed.

(** Kdf is a prefix of the digests, of exactly the length asked for. *)
Lemma Kdf_spec keyLen n : 0 <= keyLen <= 16 * Z.of_nat n ->
  Kdf pw keyLen = Ret (take (Z.to_nat keyLen) (mjoin (digests pw n []))).
Proof.
  intros Hl. unfold Kdf. destruct (kdf_loop_spec keyLen (Z.to_nat keyLen) [] []) as (m & -> & Hm).
  { change (zlen (@nil Z)) with 0. lia. }
  change (zlen (@nil Z)) with 0 in Hm. cbn [go_bind app]. unfold slice_to.
  rewrite slice_in_range by (rewrite ?digests_length; lia). rewrite Z.sub_0_r, drop_0. f_equal.
  pose proof (digests_length m []) as Lm. pose proof (digests_length n []) as Ln. unfold zlen in Lm, Ln.
  destruct (Nat.le_ge_cases m n) as [Hc|Hc].
  - destruct (digests_more m (n - m) []) as [tl E]. replace (m + (n - m))%nat with n in E by lia. rewrite E.
    by rewrite take_app_le by lia.
  - destruct (digests_more n (m - n) []) as [tl E]. replace (n + (m - n))%nat with m in E by lia. rewrite E.
    by rewrite take_app_le by lia.
Qed.

Lemma Kdf_length keyLen : 0 <= keyLen -> exists key, Kdf pw keyLen = Ret key /\ zlen key = keyLen.
Proof.
  intros Hk. eexists. split; [apply (Kdf_spec keyLen (Z.to_nat keyLen)); lia|].
  pose proof (digests_length (Z.to_nat keyLen) []). unfold zlen in *. rewrite length_take. lia.
Qed.
End keys.

(** ** Ciphers that work *)

Section ready.
Context `{PrimitivesOk}.

Definition Key (c : cipher) : bytes :=
  match c with dummy => [] | AeadCipher _ k | StreamCipher _ k => k end.

(** What connections and packets need of a cipher. *)
Definition cipher_ready (c : cipher) : Prop :=
  match c with
  | dummy => True
  | AeadCipher c k => Aead.psk c = k /\ 16 <= Aead.SaltSize c <= 32 /\
      forall salt, exists a, Aead.Encrypter c salt = Ret a /\ Aead.aead_ok a
  | StreamCipher c _ => 12 <= ShadowStream.IVSize c <= 24 /\
      forall iv, zlen iv = ShadowStream.IVSize c -> exists enc dec, ShadowStream.cipher_ok c iv enc dec
  end.

Lemma meta_ready psk make : aes_key_size (zlen psk) ->
  (forall k, zlen k = zlen psk -> exists a, make k = Ret a /\ Aead.aead_ok a) ->
  cipher_ready (AeadCipher (Aead.mkCipher psk hkdfSHA1 make) psk).
Proof.
  intros Hs Hm. split; [done|]. unfold Aead.SaltSize, Aead.KeySize. cbn [Aead.psk]. split.
  { destruct (Z.ltb_spec 16 (zlen psk)); unfold aes_key_size in Hs; lia. }
  intros salt. unfold Aead.Encrypter, Aead.KeySize. cbn. apply Hm. apply hkdf_length. apply zlen_nonneg.
Qed.

Lemma stream_ready size e d k : 12 <= size <= 24 ->
  (forall iv, zlen iv = size -> inverse_streams (e iv) (d iv)) ->
  cipher_ready (StreamCipher (ShadowStream.mkCipher size e d) k).
Proof.
  intros Hs Hi. split; [done|]. cbn. intros iv Hiv. destruct (Hi iv Hiv) as (f & g & Ef & Eg & Hf & Hg & Hfg).
  exists f, g. split; try done. cbn. lia.
Qed.

Lemma aead_new name size New key : aeadList !! name = Some (size, New) -> zlen key = size ->
  exists c, New key = Ret c /\ cipher_ready (AeadCipher c key).
Proof.
  intros Hl%elem_of_list_to_map_2 Hk. repeat (apply elem_of_cons in Hl as [Hl|Hl]); [..|by apply elem_of_nil in Hl];
    injection Hl as _ -> ->; unfold AESGCM, Chacha20Poly1305, XChacha20Poly1305; rewrite Hk; (eexists; split; [done|]);
    apply meta_ready; unfold aes_key_size; try lia; intros k E; rewrite Hk in E.
  1-3: destruct (aes_accepts k) as (b & Eb & _ & Hg & _); [unfold aes_key_size; lia|]; unfold aesGCM; by rewrite Eb.
  - apply (poly1305_accepts k E).
  - apply (poly1305_accepts k E).
Qed.

Lemma chacha_inverse k iv : zlen k = 32 -> zlen iv = 12 \/ zlen iv = 24 ->
  inverse_streams (chacha_stream k iv) (chacha_stream k iv).
Proof. intros Hk Hi. unfold chacha_stream. by destruct (chacha20_accepts k iv Hk Hi) as (f & g & -> & ? & ?); exists f, g. Qed.

Lemma aes_stream key (New : block -> ShadowStream.Cipher) :
  New = ctrStream \/ New = cfbStream -> aes_key_size (zlen key) ->
  exists c, (let! blk := aes_NewCipher key in Ret (New blk)) = Ret c /\ cipher_ready (StreamCipher c key).
Proof.
  intros HN Hs. destruct (aes_accepts key Hs) as (b & -> & Hb & _ & Hctr & Hcfb). eexists. split; [done|].
  destruct HN as [-> | ->]; unfold ctrStream, cfbStream; rewrite Hb; by apply stream_ready.
Qed.

Lemma stream_new name size New key : streamList !! name = Some (size, New) -> zlen key = size ->
  exists c, New key = Ret c /\ cipher_ready (StreamCipher c key).
Proof.
  intros Hl%elem_of_list_to_map_2 Hk. repeat (apply elem_of_cons in Hl as [Hl|Hl]); [..|by apply elem_of_nil in Hl];
    injection Hl as _ -> ->; try (apply aes_stream; [by auto|unfold aes_key_size; lia]).
  - eexists. split; [done|]. apply stream_ready; [lia|]. intros iv _. apply rc4_accepts. rewrite md5_length. unfold md5_Size. lia.
  - unfold Chacha20IETF. rewrite Hk. eexists. split; [done|]. apply stream_ready; [unfold chacha20_NonceSize; lia|].
    intros iv E. apply chacha_inverse; auto.
  - unfold Xchacha20. rewrite Hk. eexists. split; [done|]. apply stream_ready; [unfold chacha20_NonceSizeX; lia|].
    intros iv E. apply chacha_inverse; auto.
Qed.

Lemma table_size name : (forall size New, aeadList !! name = Some (size, New) -> aes_key_size size) /\
  (forall size New, streamList !! name = Some (size, New) -> aes_key_size size).
Proof.
  split; intros size New Hl%elem_of_list_to_map_2;
    repeat (apply elem_of_cons in Hl as [Hl|Hl]); try (by apply elem_of_nil in Hl); injection Hl as _ -> _; unfold aes_key_size; lia.
Qed.

(** The key size the tables give a name. *)
Definition key_size (name : string) : option Z :=
  match aeadList !! name with
  | Some (size, _) => Some size
  | None => fst <$> streamList !! name
  end.

(** A choice under any key. *)
Lemma with_key_spec {A} size (New : bytes -> go A) wrap key pw : 1 <= size ->
  (forall k, zlen k = size -> exists c, New k = Ret c /\ cipher_ready (wrap c k)) -> (forall c k, Key (wrap c k) = k) ->
  if zlen key =? 0 then
    exists c, with_key size New wrap key pw = Ret c /\ cipher_ready c /\ Kdf (bytes_of_string pw) size = Ret (Key c) /\ zlen (Key c) = size
  else if zlen key =? size then exists c, with_key size New wrap key pw = Ret c /\ cipher_ready c /\ Key c = key
  else with_key size New wrap key pw = Err (KeySizeError size).
Proof.
  intros Hs HN HK. unfold with_key. destruct (zlen key =? 0).
  - destruct (Kdf_length (bytes_of_string pw) size) as (k & Ek & Hk); [lia|]. rewrite Ek. cbn [go_bind].
    rewrite (proj2 (Z.eqb_eq _ _) Hk). cbn [negb]. destruct (HN k Hk) as (c & -> & Hc). exists (wrap c k). by rewrite HK.
  - cbn [go_bind]. destruct (Z.eqb_spec (zlen key) size) as [E|E]; cbn [negb]; [|done].
    destruct (HN key E) as (c & -> & Hc). exists (wrap c key). by rewrite HK.
Qed.

(** A name of the tables, under any key. *)
Lemma PickCipher_spec name key pw : ToUpper name <> "DUMMY"%string ->
  match key_size (alias (ToUpper name)) with
  | Some size => aes_key_size size /\
    if zlen key =? 0 then exists c, PickCipher name key pw = Ret c /\ cipher_ready c /\
      Kdf (bytes_of_string pw) size = Ret (Key c) /\ zlen (Key c) = size
    else if zlen key =? size then exists c, PickCipher name key pw = Ret c /\ cipher_ready c /\ Key c = key
    else PickCipher name key pw = Err (KeySizeError size)
  | None => PickCipher name key pw = Err "cipher not supported"
  end.
Proof.
  intros Hne. unfold PickCipher, key_size. cbv zeta. rewrite decide_False by done. set (up := alias (ToUpper name)).
  destruct (table_size up) as [Ha Hs].
  destruct (aeadList !! up) as [[size New]|] eqn:E; [|destruct (streamList !! up) as [[size New]|] eqn:E'; [|done]].
  - specialize (Ha size New eq_refl). split; [done|]. apply with_key_spec; [unfold aes_key_size in Ha; lia| |done].
    intros k. by apply (aead_new up).
  - specialize (Hs size New eq_refl). cbn [fmap option_fmap option_map fst]. split; [done|].
    apply with_key_spec; [unfold aes_key_size in Hs; lia| |done]. intros k. by apply (stream_new up).
Qed.

Lemma PickCipher_ready name key pw c : PickCipher name key pw = Ret c -> cipher_ready c.
Proof.
  intros E. destruct (decide (ToUpper name = "DUMMY"%string)) as [Hd|Hd].
  { unfold PickCipher in E. rewrite decide_True in E by done. by injection E as <-. }
  pose proof (PickCipher_spec name key pw Hd) as H1. destruct (key_size _) as [size|]; [|congruence].
  destruct H1 as [_ H1]. destruct (zlen key =? 0); [|destruct (zlen key =? size)]; try congruence.
  all: destruct H1 as (c' & E' & Hr & _); congruence.
Qed.

(** ** The list of names *)

Definition cipher_names : list string :=
  ["AEAD_AES_128_GCM"; "AEAD_AES_192_GCM"; "AEAD_AES_256_GCM"; "AEAD_CHACHA20_POLY1305"; "AEAD_XCHACHA20_POLY1305";
   "AES-128-CFB"; "AES-128-CTR"; "AES-192-CFB"; "AES-192-CTR"; "AES-256-CFB"; "AES-256-CTR"; "CHACHA20-IETF";
   "RC4-MD5"; "XCHACHA20"]%string.

Lemma range_keys_list {A} {ord : RangeOrder} (l : list (string * A)) : NoDup l.*1 ->
  range_keys (list_to_map l : gmap string A) ≡ₚ l.*1.
Proof.
  intros Hn. apply NoDup_Permutation; [apply range_keys_NoDup|done|]. intros k. rewrite range_keys_dom. split.
  - intros [v Hv%elem_of_list_to_map_2]. by apply (list_elem_of_fmap_2 fst _ (k, v)).
  - intros ([k' v] & -> & Hv)%list_elem_of_fmap. exists v. by apply elem_of_list_to_map_1.
Qed.

Lemma ListCipher_names {ord : RangeOrder} : ListCipher = cipher_names.
Proof.
  apply (Sorted_unique String.le).
  - apply Sorted_merge_sort. intros a b. apply String.le_total.
  - repeat constructor.
  - unfold ListCipher. rewrite merge_sort_Permutation. unfold aeadList, streamList.
    rewrite !range_keys_list by (apply (bool_decide_unpack _); vm_compute; exact I).
    apply (bool_decide_unpack _). vm_compute. exact I.
Qed.

Lemma key_size_names name : name ∈ cipher_names <-> is_Some (key_size name).
Proof.
  split.
  - intros Hn. repeat (apply elem_of_cons in Hn as [->|Hn]); [by eexists..|by apply elem_of_nil in Hn].
  - unfold key_size. destruct (aeadList !! name) as [[n New]|] eqn:E.
    + intros _. apply elem_of_list_to_map_2 in E.
      repeat (apply elem_of_cons in E as [E|E]; [injection E as -> _; apply (bool_decide_unpack _); vm_compute; exact I|]).
      by apply elem_of_nil in E.
    + destruct (streamList !! name) as [[n New]|] eqn:E'; [|by intros []]. intros _. apply elem_of_list_to_map_2 in E'.
      repeat (apply elem_of_cons in E' as [E'|E']; [injection E' as -> _; apply (bool_decide_unpack _); vm_compute; exact I|]).
      by apply elem_of_nil in E'.
Qed.

(** ** The ciphers, name by name *)

(** What a user may ask for: the spellings of each cipher in capitals, the size of its key,
    and the cipher that the package makes of a key. *)
Definition catalogue : list (list string * Z * (bytes -> go cipher)) :=
  [(["AEAD_AES_128_GCM"; "AES-128-GCM"]%string, 16, fun k => Ret (AeadCipher (Aead.mkCipher k hkdfSHA1 aesGCM) k));
   (["AEAD_AES_192_GCM"; "AES-192-GCM"]%string, 24, fun k => Ret (AeadCipher (Aead.mkCipher k hkdfSHA1 aesGCM) k));
   (["AEAD_AES_256_GCM"; "AES-256-GCM"]%string, 32, fun k => Ret (AeadCipher (Aead.mkCipher k hkdfSHA1 aesGCM) k));
   (["AEAD_CHACHA20_POLY1305"; "CHACHA20-IETF-POLY1305"]%string, 32,
      fun k => Ret (AeadCipher (Aead.mkCipher k hkdfSHA1 chacha20poly1305_New) k));
   (["AEAD_XCHACHA20_POLY1305"; "XCHACHA20-IETF-POLY1305"]%string, 32,
      fun k => Ret (AeadCipher (Aead.mkCipher k hkdfSHA1 chacha20poly1305_NewX) k));
   (["RC4-MD5"]%string, 16, fun k =>
      let s iv := rc4_NewCipher (md5 (k ++ iv)) in Ret (StreamCipher (ShadowStream.mkCipher 16 s s) k));
   (["AES-128-CTR"]%string, 16, fun k => let! b := aes_NewCipher k in
      Ret (StreamCipher (ShadowStream.mkCipher (BlockSize b) (NewCTR b) (NewCTR b)) k));
   (["AES-192-CTR"]%string, 24, fun k => let! b := aes_NewCipher k in
      Ret (StreamCipher (ShadowStream.mkCipher (BlockSize b) (NewCTR b) (NewCTR b)) k));
   (["AES-256-CTR"]%string, 32, fun k => let! b := aes_NewCipher k in
      Ret (StreamCipher (ShadowStream.mkCipher (BlockSize b) (NewCTR b) (NewCTR b)) k));
   (["AES-128-CFB"]%string, 16, fun k => let! b := aes_NewCipher k in
      Ret (StreamCipher (ShadowStream.mkCipher (BlockSize b) (NewCFBEncrypter b) (NewCFBDecrypter b)) k));
   (["AES-192-CFB"]%string, 24, fun k => let! b := aes_NewCipher k in
      Ret (StreamCipher (ShadowStream.mkCipher (BlockSize b) (NewCFBEncrypter b) (NewCFBDecrypter b)) k));
   (["AES-256-CFB"]%string, 32, fun k => let! b := aes_NewCipher k in
      Ret (StreamCipher (ShadowStream.mkCipher (BlockSize b) (NewCFBEncrypter b) (NewCFBDecrypter b)) k));
   (["CHACHA20-IETF"]%string, 32, fun k => Ret (StreamCipher (ShadowStream.mkCipher 12 (chacha_stream k) (chacha_stream k)) k));
   (["XCHACHA20"]%string, 32, fun k => Ret (StreamCipher (ShadowStream.mkCipher 24 (chacha_stream k) (chacha_stream k)) k))].

(** [PickCipher], under the spelling [up] in capitals, makes ciphers of [size] by [make]. *)
Definition picks (up : string) (size : Z) (make : bytes -> go cipher) : Prop :=
  aes_key_size size /\
  (forall name key pw, ToUpper name = up ->
    PickCipher name key pw =
      (let! k := if zlen key =? 0 then Kdf (bytes_of_string pw) size else Ret key in
       if negb (zlen k =? size) then Err (KeySizeError size) else make k)) /\
  forall k, zlen k = size -> exists c, make k = Ret c /\ cipher_ready c.

Lemma with_key_make {A} size (New : bytes -> go A) wrap key pw (make : bytes -> go cipher) :
  (forall k, zlen k = size -> (let! c := New k in Ret (wrap c k)) = make k) ->
  with_key size New wrap key pw =
    (let! k := if zlen key =? 0 then Kdf (bytes_of_string pw) size else Ret key in
     if negb (zlen k =? size) then Err (KeySizeError size) else make k).
Proof.
  intros HN. unfold with_key. destruct (if zlen key =? 0 then _ else _) as [k| |]; cbn; try done.
  destruct (Z.eqb_spec (zlen k) size); cbn; [by apply HN|done].
Qed.

Lemma picks_aead up canon size New make : up <> "DUMMY"%string -> alias up = canon ->
  aeadList !! canon = Some (size, New) ->
  (forall k, zlen k = size -> (let! c := New k in Ret (AeadCipher c k)) = make k) -> picks up size make.
Proof.
  intros Hd Ha Hl HN. split; [by apply (table_size canon) in Hl|]. split.
  - intros name key pw E. unfold PickCipher. rewrite E, decide_False, Ha, Hl by done. by apply with_key_make.
  - intros k Hk. destruct (aead_new canon size New k Hl Hk) as (c & E & Hc). rewrite <- (HN k Hk), E. by eexists.
Qed.
Lemma picks_stream up canon size New make : up <> "DUMMY"%string -> alias up = canon ->
  aeadList !! canon = None -> streamList !! canon = Some (size, New) ->
  (forall k, zlen k = size -> (let! c := New k in Ret (StreamCipher c k)) = make k) -> picks up size make.
Proof.
  intros Hd Ha Hn Hl HN. split; [by apply (table_size canon) in Hl|]. split.
  - intros name key pw E. unfold PickCipher. rewrite E, decide_False, Ha, Hn, Hl by done. by apply with_key_make.
  - intros k Hk. destruct (stream_new canon size New k Hl Hk) as (c & E & Hc). rewrite <- (HN k Hk), E. by eexists.
Qed.

(** Making ciphers of a key of the right size. *)
Ltac made := intros k Hk; unfold AESGCM, Chacha20Poly1305, XChacha20Poly1305, Chacha20IETF, Xchacha20, AESCTR, AESCFB;
  rewrite ?Hk; try done; by destruct (aes_NewCipher k).

Lemma catalogue_picks names size make : (names, size, make) ∈ catalogue -> Forall (fun up => picks up size make) names.
Proof.
  intros Hc. repeat (apply elem_of_cons in Hc as [Hc|Hc]); [..|by apply elem_of_nil in Hc]; injection Hc as -> -> ->;
    repeat (constructor; [first [eapply picks_aead; [done|reflexivity|reflexivity|made]
                                |eapply picks_stream; [done|reflexivity|reflexivity|reflexivity|made]]|]); constructor.
Qed.

Lemma alias_cases up : alias up = up \/ up ∈ ["CHACHA20-IETF-POLY1305"; "XCHACHA20-IETF-POLY1305"; "AES-128-GCM"; "AES-192-GCM"; "AES-256-GCM"]%string.
Proof. unfold alias. repeat case_decide; subst; auto; right; apply (bool_decide_unpack _); vm_compute; exact I. Qed.

(** Every name the tables know is in the catalogue. *)
Lemma catalogue_complete up : is_Some (key_size (alias up)) ->
  exists names size make, (names, size, make) ∈ catalogue /\ up ∈ names.
Proof.
  intros Hs%key_size_names.
  assert (up ∈ mjoin ((fun e => e.1.1) <$> catalogue)) as (ns & Hu & ([[names size] make] & -> & He)%list_elem_of_fmap)%list_elem_of_join.
  - destruct (alias_cases up) as [E|Hu]; [rewrite E in Hs; rename Hs into Hu|clear Hs];
      repeat (apply elem_of_cons in Hu as [->|Hu]; [apply (bool_decide_unpack _); vm_compute; exact I|]); by apply elem_of_nil in Hu.
  - by exists names, size, make.
Qed.

(** C37: choosing a cipher.  Kdf returns exactly as many bytes as asked for, the first of
    the chain of MD5 digests, each of the previous digest and the password, so a longer key
    extends a shorter one.  PickCipher takes, whatever the case of its letters, the fourteen
    names of the tables, the five short spellings of the AEAD ciphers and "dummy", and
    refuses every other name.  Each name but "dummy" gives the cipher the catalogue lists
    for it, made of a key of the listed size: the one derived from the password when no key
    is given, or a key given of exactly that size; a key of any other size is refused with
    the size that is needed.  The cipher works: it accepts every salt or vector of its size
    and decrypts what it encrypted.  ListCipher returns the fourteen names, sorted, whatever
    order the maps are walked in. *)
Theorem pick_cipher {ord : RangeOrder} (pw : string) :
  (forall keyLen n, 0 <= keyLen <= 16 * Z.of_nat n ->
     exists k, Kdf (bytes_of_string pw) keyLen = Ret k /\ zlen k = keyLen /\
       k = take (Z.to_nat keyLen) (mjoin (digests (bytes_of_string pw) n []))) /\
  ListCipher = cipher_names /\
  (forall names size make name, (names, size, make) ∈ catalogue -> ToUpper name ∈ names -> forall key,
     (key = [] -> exists c k, PickCipher name key pw = Ret c /\ make k = Ret c /\ cipher_ready c /\
        k = take (Z.to_nat size) (mjoin (digests (bytes_of_string pw) 2 []))) /\
     (zlen key = size -> exists c, PickCipher name key pw = Ret c /\ make key = Ret c /\ cipher_ready c) /\
     (key <> [] -> zlen key <> size ->
        PickCipher name key pw = Err ("key size error: need " +:+ Itoa size +:+ " bytes"))) /\
  (forall name, ToUpper name = "DUMMY"%string -> forall key, PickCipher name key pw = Ret dummy) /\
  (forall name, (forall names size make, (names, size, make) ∈ catalogue -> ToUpper name ∉ names) ->
     ToUpper name <> "DUMMY"%string -> forall key, PickCipher name key pw = Err "cipher not supported").
Proof.
  split; [|split; [|split; [|split]]].
  - intros keyLen n Hl. destruct (Kdf_length (bytes_of_string pw) keyLen) as (k & E & Hk); [lia|]. exists k.
    split; [done|]. split; [done|]. rewrite (Kdf_spec _ keyLen n Hl) in E. by injection E as <-.
  - apply ListCipher_names.
  - intros names size make name Hc Hn key.
    destruct (proj1 (Forall_forall _ _) (catalogue_picks _ _ _ Hc) _ Hn) as (Hs & Hp & Hm). rewrite (Hp name key pw eq_refl).
    assert (1 <= size <= 32) by (unfold aes_key_size in Hs; lia). split_and!.
    + intros ->. cbn [zlen length Z.of_nat Z.eqb]. rewrite (Kdf_spec _ size 2) by lia. set (k := take _ _).
      assert (zlen k = size) as Hk.
      { pose proof (digests_length (bytes_of_string pw) 2 []) as Hl. unfold zlen, k in *. rewrite length_take. lia. }
      destruct (Hm k Hk) as (c & Ec & Hr). exists c, k. change (zlen (@nil Z) =? 0) with true. cbn [go_bind]. by rewrite (proj2 (Z.eqb_eq _ _) Hk).
    + intros Hk. destruct (Hm key Hk) as (c & Ec & Hr). exists c. rewrite (proj2 (Z.eqb_neq (zlen key) 0)) by lia.
      cbn [go_bind]. by rewrite (proj2 (Z.eqb_eq _ _) Hk).
    + intros Hne Hk. rewrite (proj2 (Z.eqb_neq (zlen key) 0)) by (by destruct key). cbn [go_bind].
      by rewrite (proj2 (Z.eqb_neq _ _) Hk).
  - intros name E key. unfold PickCipher. cbv zeta. by rewrite decide_True.
  - intros name Hn Hd key. pose proof (PickCipher_spec name key pw Hd) as HP.
    destruct (key_size _) eqn:E; [|done]. destruct (catalogue_complete (ToUpper name)) as (names & n & make & Hc & Hu); [by eexists|].
    by destruct (Hn _ _ _ Hc).
Qed.
End ready.

(** ** Witnesses *)

(** Primitives that check sizes and encrypt with the toy ciphers. *)
Definition sized {A} (ok : bool) (a : A) : go A := if ok then Ret a else Err "invalid size".
#[local] Instance toy_primitives : Primitives := {|
  block := bytes;
  aes_NewCipher k := sized ((zlen k =? 16) || (zlen k =? 24) || (zlen k =? 32)) k;
  BlockSize _ := 16;
  NewGCM _ := Ret Aead.toy;
  NewCTR _ iv := sized (zlen iv =? 16) (ShadowStream.toy_stream iv);
  NewCFBEncrypter _ iv := sized (zlen iv =? 16) (ShadowStream.toy_stream iv);
  NewCFBDecrypter _ iv := sized (zlen iv =? 16) (ShadowStream.toy_stream iv);
  chacha20poly1305_New k := sized (zlen k =? 32) Aead.toy;
  chacha20poly1305_NewX k := sized (zlen k =? 32) Aead.toy;
  NewUnauthenticatedCipher k iv := sized ((zlen k =? 32) && ((zlen iv =? 12) || (zlen iv =? 24))) (ShadowStream.toy_stream iv);
  rc4_NewCipher k := sized ((1 <=? zlen k) && (zlen k <=? 256)) (ShadowStream.toy_stream k);
  hkdf_read s salt info n := take (Z.to_nat n) (s ++ salt ++ replicate (Z.to_nat n) 0)
|}.

Lemma toy_inverse (b : bool) iv : b = true ->
  inverse_streams (sized b (ShadowStream.toy_stream iv)) (sized b (ShadowStream.toy_stream iv)).
Proof.
  intros ->. exists (ShadowStream.toy_stream iv), (ShadowStream.toy_stream iv).
  split_and!; try done; try apply ShadowStream.toy_stream_ok. apply ShadowStream.toy_stream_twice.
Qed.

#[local] Instance toy_primitives_ok : PrimitivesOk.
Proof.
  assert (forall z n, z = n -> (z =? n) = true) as Ez by (intros; by apply Z.eqb_eq).
  split; cbn.
  - intros k Hk. exists k. split.
    { unfold sized. destruct Hk as [-> | [-> | ->]]; done. }
    split; [done|]. split; [eexists; split; [done|apply Aead.toy_ok]|].
    split; intros iv Hi; apply toy_inverse; auto.
  - intros k Hk. split; (eexists; split; [unfold sized; by rewrite Ez|apply Aead.toy_ok]).
  - intros k iv Hk Hi. apply toy_inverse. rewrite Ez by done. destruct Hi as [-> | ->]; done.
  - intros k Hk. apply toy_inverse. apply andb_true_intro. split; apply Z.leb_le; lia.
  - intros s salt _ n Hn. unfold zlen. rewrite length_take, !length_app, length_replicate. lia.
Qed.

(** A short spelling in lower case with a derived key, a key one byte short, an unknown name. *)
Lemma pick_cipher_witness :
  (exists c k, PickCipher "aes-256-gcm" [] "foobar" = Ret c /\ c = AeadCipher (Aead.mkCipher k hkdfSHA1 aesGCM) k /\ cipher_ready c) /\
  PickCipher "aes-128-ctr" (replicate 15 1) "" = Err "key size error: need 16 bytes" /\
  PickCipher "rot13" [] "foobar" = Err "cipher not supported".
Proof.
  destruct (pick_cipher (ord := sorted_order) "foobar") as (_ & _ & HP & _ & HN).
  destruct (pick_cipher (ord := sorted_order) "") as (_ & _ & HP' & _).
  split; [|split].
  - destruct (HP ["AEAD_AES_256_GCM"; "AES-256-GCM"]%string 32 (fun k => Ret (AeadCipher (Aead.mkCipher k hkdfSHA1 aesGCM) k))
      "aes-256-gcm"%string) with (key := @nil Z) as [H _].
    + do 2 right. left.
    + right. left.
    + destruct H as (c & k & E & Ec & Hr & _); [done|]. exists c, k. split; [done|]. split; [congruence|done].
  - destruct (HP' ["AES-128-CTR"]%string 16 (fun k => let! b := aes_NewCipher k in
      Ret (StreamCipher (ShadowStream.mkCipher (BlockSize b) (NewCTR b) (NewCTR b)) k)) "aes-128-ctr"%string) with (key := replicate 15 1) as (_ & _ & H).
    + do 6 right. left.
    + left.
    + by apply H.
  - apply HN; [|done]. intros names size make Hc Hn. revert Hn.
    repeat (apply elem_of_cons in Hc as [Hc|Hc]); [..|by apply elem_of_nil in Hc]; injection Hc as -> _ _;
      apply (bool_decide_unpack _); vm_compute; exact I.
Defined.

End Ciphers.
