(* ===== verification/SocksClient.v ===== *)
(** * The SOCKS5 client of the TUN side (src/tun2socks/transport/socks5)

    Addresses and UDP packets on the wire and the client's handshake, as programs over
    the bytes the server sends and the trace of what is sent to it.  The same protocol as
    the server of [Socks5], written independently. *)

From S2P Require Import Prelude GoStrings GoState Conn GoIO NetIP GoNet FakeIP Patterns Policy Route IPPool Core Dns Plan Socks5.

Module SocksClient.
Import Policy Plan.

Definition MethodNoAuth : Z := 0x00.
Definition MethodUserPass : Z := 0x02.
Definition Version : Z := 0x05.
Definition CmdConnect : Z := 0x01.
Definition CmdBind : Z := 0x02.
Definition CmdUDPAssociate : Z := 0x03.
Definition AtypIPv4 : Z := 0x01.
Definition AtypDomainName : Z := 0x03.
Definition AtypIPv6 : Z := 0x04.
Definition MaxAddrLen : Z := 1 + 1 + 255 + 2.
Definition MaxAuthLen : Z := 255.

Definition CommandString (c : Z) : string :=
  if c =? CmdConnect then "CONNECT"
  else if c =? CmdBind then "BIND"
  else if c =? CmdUDPAssociate then "UDP ASSOCIATE"
  else "UNDEFINED".

(** [%#02x] of a byte: no padding, since the width counts the prefix. *)
Definition hex_digit (d : Z) : Ascii.ascii := byte_char (if d <? 10 then 48 + d else 87 + d).
Definition hex_byte (b : Z) : string :=
  let digits := if b <? 16 then String (hex_digit b) ""
                else String (hex_digit (b / 16)) (String (hex_digit (b mod 16)) "") in
  ("0x" +:+ digits)%string.

Definition ReplyString (r : Z) : string :=
  if r =? 0x00 then "succeeded"
  else if r =? 0x01 then "general SOCKS server failure"
  else if r =? 0x02 then "connection not allowed by ruleset"
  else if r =? 0x03 then "network unreachable"
  else if r =? 0x04 then "host unreachable"
  else if r =? 0x05 then "connection refused"
  else if r =? 0x06 then "TTL expired"
  else if r =? 0x07 then "command not supported"
  else if r =? 0x08 then "address type not supported"
  else ("unassigned <" +:+ hex_byte r +:+ ">")%string.

(** ** Addresses *)

(** Addr.Valid. *)
Definition Valid (a : bytes) : go bool :=
  if zlen a <? 1 + 1 + 2 then Ret false
  else
    let! atyp := idx a 0 in
    if atyp =? AtypDomainName then let! n := idx a 1 in Ret (negb (zlen a <? 1 + 1 + n + 2))
    else if atyp =? AtypIPv4 then Ret (negb (zlen a <? 1 + 4 + 2))
    else if atyp =? AtypIPv6 then Ret (negb (zlen a <? 1 + 16 + 2))
    else Ret true.

(** Addr.String. *)
Definition AddrText (a : bytes) : go string :=
  let! ok := Valid a in
  if negb ok then Ret ""%string
  else
    let! atyp := idx a 0 in
    let! (host, port) :=
      if atyp =? AtypDomainName then
        let! hostLen := idx a 1 in
        let! host := slice a 2 (2 + hostLen) in
        let! port := be16_at a (2 + hostLen) in
        Ret (string_of_bytes host, Itoa port)
      else if atyp =? AtypIPv4 then
        let! ip := slice a 1 (1 + 4) in
        let! port := be16_at a (1 + 4) in
        Ret (Socks5.ip4_text ip, Itoa port)
      else if atyp =? AtypIPv6 then
        let! ip := slice a 1 (1 + 16) in
        let! port := be16_at a (1 + 16) in
        Ret (Socks5.ip16_text ip, Itoa port)
      else Ret (""%string, ""%string) in
    Ret (JoinHostPort host port).

(** Addr.UDPAddr: the address bytes and the port; [None] for nil. *)
Definition UDPAddr (a : bytes) : go (option (bytes * Z)) :=
  let! ok := Valid a in
  if negb ok then Ret None
  else
    let! atyp := idx a 0 in
    if atyp =? AtypDomainName then Ret None
    else if atyp =? AtypIPv4 then
      let! ip := slice a 1 (1 + 4) in
      let! port := be16_at a (1 + 4) in
      Ret (Some (ip, port))
    else if atyp =? AtypIPv6 then
      let! ip := slice a 1 (1 + 16) in
      let! port := be16_at a (1 + 16) in
      Ret (Some (ip, port))
    else Ret (Some ([], 0)).

(** SplitAddr; [None] for nil. *)
Definition SplitAddr (b : bytes) : go (option bytes) :=
  if zlen b <? 1 then Ret None
  else
    let! atyp := idx b 0 in
    let! addrLen :=
      if atyp =? AtypDomainName then
        if zlen b <? 2 then Ret None else let! n := idx b 1 in Ret (Some (1 + 1 + n + 2))
      else if atyp =? AtypIPv4 then Ret (Some (1 + 4 + 2))
      else if atyp =? AtypIPv6 then Ret (Some (1 + 16 + 2))
      else Ret None in
    match addrLen with
    | None => Ret None
    | Some n => if zlen b <? n then Ret None else let! a := slice_to b n in Ret (Some a)
    end.

(** SerializeAddr; [None] is the zero netip.Addr, whose AsSlice is empty. *)
Definition SerializeAddr (domainName : string) (dstIP : option Addr) (dstPort : Z) : bytes :=
  if negb (bool_decide (domainName = ""%string)) then
    [AtypDomainName; u8 (zlen (bytes_of_string domainName))] ++ bytes_of_string domainName ++ put16 dstPort
  else match dstIP with
       | Some (Addr4 v) => [AtypIPv4] ++ Socks5.bytes4 v ++ put16 dstPort
       | Some (Addr6 v _) => [AtypIPv6] ++ Socks5.bytes16 v ++ put16 dstPort
       | None => [AtypIPv6] ++ put16 dstPort
       end.

(** ParseAddrString; [None] for nil. *)
Definition ParseAddrString (s : string) : go (option bytes) :=
  match SplitHostPort s with
  | Err _ => Ret None
  | Panic => Panic
  | Ret (host, port) =>
    match ParseUint16 port with
    | None => Ret None
    | Some dstPort =>
      Ret (Some (match ParseAddr host with
                 | Some ip => SerializeAddr "" (Some ip) dstPort
                 | None => SerializeAddr host None dstPort
                 end))
    end
  end.

(** ** UDP packets *)

(** DecodeUDPPacket: address and payload. *)
Definition DecodeUDPPacket (packet : bytes) : go (bytes * bytes) :=
  if zlen packet <? 5 then Err "insufficient length of packet"
  else
    let! rsv := slice_to packet 2 in
    if negb (bool_decide (rsv = [0x00; 0x00])) then Err "reserved fields should be zero"
    else
      let! frag := idx packet 2 in
      if negb (frag =? 0x00) then Err "discarding fragmented payload"
      else
        let! rest := slice_from packet 3 in
        let! addr := SplitAddr rest in
        match addr with
        | None => Err "socks5 UDP addr is nil"
        | Some addr => let! payload := slice_from packet (3 + zlen addr) in Ret (addr, payload)
        end.

(** EncodeUDPPacket; [None] is a nil address. *)
Definition EncodeUDPPacket (addr : option bytes) (payload : bytes) : go bytes :=
  match addr with
  | None => Err "address is invalid"
  | Some addr => Ret ([0x00; 0x00; 0x00] ++ addr ++ payload)
  end.

(** proxy/socks5.go: socksPacketConn.WriteTo to an address of the metadata's kind. *)
Definition packet_write (dstIP : option Addr) (dstPort : Z) (b : bytes) : go bytes :=
  EncodeUDPPacket (Some (SerializeAddr "" dstIP dstPort)) b.

(** socksPacketConn.ReadFrom of [datagram] into a buffer that held [b] before: the count
    it returns, the sender, and the buffer afterwards.  The whole buffer is decoded, not
    only the bytes of the datagram. *)
Definition packet_read (b datagram : bytes) : go (Z * (bytes * Z) * bytes) :=
  let n := Z.min (zlen datagram) (zlen b) in
  let b := take (Z.to_nat n) datagram ++ drop (Z.to_nat n) b in
  let! (addr, payload) := DecodeUDPPacket b in
  let! udpAddr := UDPAddr addr in
  match udpAddr with
  | None => Err "convert to UDPAddr is nil"
  | Some udpAddr => Ret (n - zlen addr - 3, udpAddr, payload ++ drop (length payload) b)
  end.

(** ** The handshake *)

Record User := mkUser { Username : string; Password : string }.

(** What the server will send, and what was sent to it. *)
Record client := mkClient { inp : bytes; out : list event }.

Definition C : Type -> Type := St client.

Section handshake.
Context {env : Env}.

Definition send (b : bytes) : C unit := fun s =>
  let (r, tr) := write (fun e => e) b (out s) in (r, mkClient (inp s) tr).
Definition read_full (n : Z) : C bytes := fun s =>
  let (r, rest) := ReadFull n (inp s) in (r, mkClient rest (out s)).

(** ReadAddr into a buffer of length [len]. *)
Definition ReadAddr (len : Z) : C bytes :=
  if len <? MaxAddrLen then stfail "short buffer"
  else
    b <~ read_full 1 ;
    atyp <~ stlift (idx b 0) ;
    if atyp =? AtypDomainName then
      n <~ read_full 1 ;
      domainLength <~ stlift (idx n 0) ;
      rest <~ read_full (domainLength + 2) ;
      stret (b ++ n ++ rest)
    else if atyp =? AtypIPv4 then rest <~ read_full (4 + 2) ; stret (b ++ rest)
    else if atyp =? AtypIPv6 then rest <~ read_full (16 + 2) ; stret (b ++ rest)
    else stfail "invalid address type".

(** The username/password exchange of ClientHandshake. *)
Definition authenticate (user : option User) : C unit :=
  match user with
  | None => stfail "auth required"
  | Some u =>
    let uname := bytes_of_string (Username u) in
    let passwd := bytes_of_string (Password u) in
    if (zlen uname =? 0) || (zlen passwd =? 0) then stfail "auth username/password empty"
    else if (MaxAuthLen <? zlen uname) || (MaxAuthLen <? zlen passwd) then stfail "auth username/password too long"
    else
      send ([0x01; u8 (zlen uname)] ++ uname ++ [u8 (zlen passwd)] ++ passwd) ~;
      buf <~ read_full 2 ;
      status <~ stlift (idx buf 1) ;
      if negb (status =? 0x00) then stfail "rejected username/password" else stret tt
  end.

Definition ClientHandshake (addr : bytes) (command : Z) (user : option User) : C bytes :=
  let method := match user with Some _ => MethodUserPass | None => MethodNoAuth end in
  send [Version; 0x01; method] ~;
  buf <~ read_full 2 ;
  ver <~ stlift (idx buf 0) ;
  if negb (ver =? Version) then stfail "socks version mismatched"
  else
    chosen <~ stlift (idx buf 1) ;
    (if chosen =? MethodUserPass then authenticate user
     else if negb (chosen =? MethodNoAuth) then stfail "unsupported method"
     else stret tt) ~;
    send ([Version; command; 0x00] ++ addr) ~;
    buf <~ read_full 3 ;
    rep <~ stlift (idx buf 1) ;
    if negb (rep =? 0x00) then stfail (CommandString command +:+ ": " +:+ ReplyString rep)
    else ReadAddr MaxAddrLen.
End handshake.


(** ** The client against the server *)

(** A destination the client can name, and the text the server gets for it. *)
Definition dest (domainName : string) (ip : option Addr) (host : string) : Prop :=
  (domainName <> ""%string /\ zlen (bytes_of_string domainName) <= 255 /\ host = domainName) \/
  (domainName = ""%string /\ exists v, ip = Some (Addr4 v) /\ 0 <= v < 2 ^ 32 /\ host = AddrString (Addr4 v)) \/
  (domainName = ""%string /\ exists v z, ip = Some (Addr6 v z) /\ 0 <= v < 2 ^ 128 /\ host = IPString v).

Lemma serialize_dest d ip host port : dest d ip host ->
  exists atyp addr, SerializeAddr d ip port = [atyp] ++ addr ++ put16 port /\ Socks5.socks_addr atyp addr host.
Proof.
  unfold SerializeAddr. intros [(Hd & Hl & ->)|[(-> & v & -> & Hv & ->)|(-> & v & z & -> & Hv & ->)]].
  - rewrite bool_decide_eq_false_2 by done. cbn [negb]. unfold u8.
    rewrite Z.mod_small by (pose proof (zlen_nonneg (bytes_of_string d)); lia).
    exists AtypDomainName, (zlen (bytes_of_string d) :: bytes_of_string d). split; [done|].
    rewrite <- (string_of_bytes_of_string d) at 3. by constructor.
  - exists AtypIPv4, (Socks5.bytes4 v). split; [done|]. rewrite <- Socks5.ip4_text_mapped by done. by constructor.
  - exists AtypIPv6, (Socks5.bytes16 v). split; [done|].
    replace (IPString v) with (Socks5.ip16_text (Socks5.bytes16 v)) by (unfold Socks5.ip16_text; by rewrite Socks5.of_fields_bytes16).
    by constructor.
Qed.

Lemma read_full_app n a b tr : zlen a = n -> read_full n (mkClient (a ++ b) tr) = (Ret a, mkClient b tr).
Proof. intros Ha. unfold read_full. cbn [inp out]. by rewrite ReadFull_app. Qed.

(** The handshake on the server's two messages. *)
Lemma handshake_run addr rep later :
  ClientHandshake (env := reliable) addr CmdConnect None
    (mkClient ([0x05; 0x00] ++ Socks5.reply_bytes rep None ++ later) []) =
  let sent := [EvWrite [Version; 0x01; MethodNoAuth]; EvWrite ([Version; CmdConnect; 0x00] ++ addr)] in
  if rep =? 0 then (Ret [AtypIPv4; 0; 0; 0; 0; 0; 0], mkClient later sent)
  else (Err ("CONNECT: " +:+ ReplyString rep), mkClient ([AtypIPv4; 0; 0; 0; 0; 0; 0] ++ later) sent).
Proof.
  unfold ClientHandshake, stbind at 1, send at 1. cbn [write perform env_fail reliable out inp app].
  change (5 :: 0 :: Socks5.reply_bytes rep None ++ later) with ([5; 0] ++ [5; rep; 0] ++ [1; 0; 0; 0; 0; 0; 0] ++ later).
  unfold stbind at 1. rewrite read_full_app by done. unfold stbind at 1, stlift at 1.
  rewrite (idx_app _ [] [0] 5) by done. change (negb (5 =? Version)) with false. cbn iota.
  unfold stbind at 1, stlift at 1. rewrite (idx_app _ [5] [] 0) by done.
  unfold stbind at 1. change (0 =? MethodUserPass) with false. change (negb (0 =? MethodNoAuth)) with false. cbn iota.
  unfold stret at 1, stbind at 1, send at 1. cbn [write perform env_fail reliable out inp].
  unfold stbind at 1. rewrite read_full_app by done. unfold stbind at 1, stlift at 1.
  rewrite (idx_app _ [5] [0] rep) by done. cbv zeta. destruct (rep =? 0); [|done]. cbn [negb].
  unfold ReadAddr. change (MaxAddrLen <? MaxAddrLen) with false. cbn iota.
  unfold stbind at 1. change ([1; 0; 0; 0; 0; 0; 0] ++ later) with ([1] ++ [0; 0; 0; 0; 0; 0] ++ later).
  rewrite read_full_app by done. unfold stbind at 1, stlift at 1. rewrite (idx_app _ [] [] 1) by done.
  change (1 =? AtypDomainName) with false. change (1 =? AtypIPv4) with true. cbn iota.
  unfold stbind. by rewrite read_full_app.
Qed.

Section interop.
Context {L : LRU} {ord : RangeOrder} {names : DNSNames} (cfg : config) (w : world).
Context (dialTCP : string -> Z -> option string) (listenUDP : option string) (localAddr : option Z * Z).

(** C32: The TUN side's SOCKS5 client and the proxy's SOCKS5 server understand each
    other.  For every destination (a name of at most 255 bytes or an address) and
    every state of the core: run on what the client sends, the server plans exactly
    that destination; run on what the server answers, the client sends exactly those
    bytes.  When the server hands the connection to the tunnel the client succeeds, each
    side left with the bytes that follow its handshake; in every other case the client
    fails with the text of the server's reply code. *)
Theorem socks_interop d ip host port data later k r k' :
  dest d ip host -> 0 <= port < 65536 ->
  PlanRequest cfg w (mkRequest "socks5" host port ResolveDomainTarget) true k = (r, k') -> r <> Panic ->
  let request := SerializeAddr d ip port in
  let said := [Version; 0x01; MethodNoAuth] ++ [Version; CmdConnect; 0x00] ++ request in
  let server := Socks5.socks5Handler (env := reliable) cfg w dialTCP listenUDP localAddr
                  (Socks5.mkSession (said ++ data) [] k) in
  let client := ClientHandshake (env := reliable) request CmdConnect None
                  (mkClient (delivered (Socks5.cli (snd server)) ++ later) []) in
  delivered (out (snd client)) = said /\
  match r with
  | Ret plan =>
    match Socks5.verdict dialTCP plan with
    | (Socks5.Done, rep) => fst client = Err ("CONNECT: " +:+ ReplyString rep)
    | (o, _) =>
      fst server = Ret o /\ Socks5.input (snd server) = data /\
      fst client = Ret [AtypIPv4; 0; 0; 0; 0; 0; 0] /\ inp (snd client) = later
    end
  | _ => fst client = Err ("CONNECT: " +:+ ReplyString 1)
  end.
Proof.
  intros Hd Hp HP Hr. cbv zeta. destruct (serialize_dest d ip host port Hd) as (atyp & addr & -> & Ha).
  set (said := _ ++ _ ++ [atyp] ++ addr ++ put16 port).
  assert (said = Socks5.connect_request [0] 0 atyp addr port) as Hs by done.
  rewrite Hs. rewrite (Socks5.connect_session cfg w dialTCP listenUDP localAddr [0] 0 atyp addr host port data k);
    [|set_solver|done..]. rewrite HP. cbv zeta.
  assert (forall rep, delivered [EvWrite [5; 0]; EvWrite (Socks5.reply_bytes rep None)] ++ later =
    [5; 0] ++ Socks5.reply_bytes rep None ++ later) as HD by done.
  assert (forall rep, delivered ([EvWrite [5; 0]; EvWrite (Socks5.reply_bytes rep None)] ++ [EvClose]) ++ later =
    [5; 0] ++ Socks5.reply_bytes rep None ++ later) as HC by done.
  assert (delivered [EvWrite [Version; 1; MethodNoAuth]; EvWrite ([Version; CmdConnect; 0] ++ [atyp] ++ addr ++ put16 port)]
    = Socks5.connect_request [0] 0 atyp addr port) as HB.
  { cbn [delivered]. rewrite app_nil_r. done. }
  destruct r as [plan|e|]; [|cbn [snd Socks5.cli]; by rewrite HC, handshake_run|done].
  unfold Socks5.verdict. cbv zeta.
  repeat case_match; cbn [snd fst Socks5.cli Socks5.input]; rewrite ?HC, ?HD, handshake_run; simplify_eq; done.
Qed.
End interop.

(** ** UDP packets of the two sides *)

(** A host both sides write alike: the text of an address, or a name that is none. *)
Definition peer_host (host : string) : Prop :=
  (exists a, plain a /\ Unmap a = a /\ host = AddrString a) \/
  (ParseAddr host = None /\ host <> ""%string /\ clean host /\ zlen (bytes_of_string host) <= 255).

Lemma peer_udp_host host : peer_host host -> Socks5.udp_host host.
Proof.
  intros [H|(H & _ & Hc & Hl)]; [by left|right]. unfold ParseIP. by rewrite H.
Qed.

(** The two forms an address has on the wire. *)
Definition wire_addr (a : Addr) : bytes :=
  match a with Addr4 v => AtypIPv4 :: Socks5.bytes4 v | Addr6 v _ => AtypIPv6 :: Socks5.bytes16 v end.

Lemma enc_host_addr a : plain a -> Unmap a = a -> Socks5.enc_host (AddrString a) = wire_addr a.
Proof.
  intros Ha Hu. unfold Socks5.enc_host. rewrite ParseIP_String by done. destruct a as [v|v z].
  - destruct Ha as [Hv _]. unfold addr_ok in Hv. cbn [addr_val BitLen] in Hv.
    assert (is4in6 (As16 (Addr4 v)) = true) as ->.
    { unfold is4in6, As16. rewrite Z.shiftr_div_pow2 by lia.
      by rewrite <- (Z.div_unique_pos (65535 * 2 ^ 32 + v) (2 ^ 32) 65535 v) by lia. }
    assert (As16 (Addr4 v) mod 2 ^ 32 = v) as ->; [|done].
    unfold As16. symmetry. apply (Z.mod_unique_pos _ _ 65535 v); lia.
  - destruct (is4in6 (As16 (Addr6 v z))) eqn:E; [|done]. unfold Unmap in Hu. cbn [As16] in E. by rewrite E in Hu.
Qed.

Lemma ParseAddrString_enc host port : peer_host host -> 0 <= port < 65536 ->
  ParseAddrString (JoinHostPort host (Itoa port)) = Ret (Some (Socks5.enc_host host ++ put16 port)).
Proof.
  intros Hh Hp. unfold ParseAddrString. destruct (Itoa_clean port) as [C1 C2]; [lia|].
  rewrite SplitHostPort_Join by (try done; apply Socks5.udp_host_clean; by apply peer_udp_host).
  rewrite ParseUint16_Itoa by done. destruct Hh as [(a & Ha & Hu & ->)|(Hn & Hne & _ & Hl)].
  - rewrite ParseAddr_String, enc_host_addr by done. by destruct a.
  - rewrite Hn. unfold SerializeAddr, Socks5.enc_host, ParseIP. rewrite Hn, bool_decide_eq_false_2 by done.
    cbn [negb mbind option_bind]. unfold u8. by rewrite Z.mod_small by (pose proof (zlen_nonneg (bytes_of_string host)); lia).
Qed.

(** The three layouts, as the client's functions take them apart. *)
Inductive layout : bytes -> Z -> Prop :=
| lay4 b : zlen b = 4 -> layout (AtypIPv4 :: b) 4
| lay6 b : zlen b = 16 -> layout (AtypIPv6 :: b) 16
| layname b : zlen b <= 255 -> layout (AtypDomainName :: zlen b :: b) (1 + zlen b).

Lemma enc_host_layout host : peer_host host -> exists n, layout (Socks5.enc_host host) n.
Proof.
  intros [(a & Ha & Hu & ->)|(Hn & _ & _ & Hl)].
  - rewrite enc_host_addr by done. destruct a; eexists; by constructor.
  - unfold Socks5.enc_host, ParseIP. rewrite Hn. cbn [mbind option_bind]. eexists. by constructor.
Qed.

Lemma SplitAddr_enc enc n pb payload : layout enc n -> zlen pb = 2 ->
  SplitAddr (enc ++ pb ++ payload) = Ret (Some (enc ++ pb)).
Proof.
  intros Hl Hpb. pose proof (zlen_nonneg payload). unfold SplitAddr.
  assert (forall m, m = zlen (enc ++ pb) -> 1 <= m ->
    (if zlen (enc ++ pb ++ payload) <? m then Ret None
     else let! a := slice_to (enc ++ pb ++ payload) m in Ret (Some a)) = Ret (Some (enc ++ pb))) as HS.
  { intros m -> Hm. rewrite (proj2 (Z.ltb_ge _ _)) by (rewrite !zlen_app; lia). unfold slice_to.
    rewrite app_assoc, (slice_app _ [] (enc ++ pb) payload); [done|done|done|]. rewrite zlen_nil. lia. }
  destruct Hl as [b Hb|b Hb|b Hb]; (pose proof (zlen_nonneg b); rewrite (proj2 (Z.ltb_ge _ _)) by Socks5.zl).
  - rewrite (idx_app _ [] (b ++ pb ++ payload) AtypIPv4) by done. cbn [go_bind].
    change (AtypIPv4 =? AtypDomainName) with false. change (AtypIPv4 =? AtypIPv4) with true. cbn [go_bind].
    apply HS; Socks5.zl.
  - rewrite (idx_app _ [] (b ++ pb ++ payload) AtypIPv6) by done. cbn [go_bind].
    change (AtypIPv6 =? AtypDomainName) with false. change (AtypIPv6 =? AtypIPv4) with false.
    change (AtypIPv6 =? AtypIPv6) with true. cbn [go_bind]. apply HS; Socks5.zl.
  - rewrite (idx_app _ [] (zlen b :: b ++ pb ++ payload) AtypDomainName) by done. cbn [go_bind].
    change (AtypDomainName =? AtypDomainName) with true. pose proof (zlen_nonneg b).
    rewrite (proj2 (Z.ltb_ge _ _)) by Socks5.zl.
    rewrite (idx_app _ [AtypDomainName] (b ++ pb ++ payload) (zlen b)) by done. cbn [go_bind].
    apply HS; Socks5.zl.
Qed.

Lemma DecodeUDPPacket_enc enc n pb payload : layout enc n -> zlen pb = 2 ->
  DecodeUDPPacket ([0x00; 0x00; 0x00] ++ enc ++ pb ++ payload) = Ret (enc ++ pb, payload).
Proof.
  intros Hl Hpb. unfold DecodeUDPPacket. assert (2 <= zlen enc) as He.
  { destruct Hl as [b|b|b]; pose proof (zlen_nonneg b); Socks5.zl. }
  pose proof (zlen_nonneg payload). rewrite (proj2 (Z.ltb_ge _ _)) by Socks5.zl.
  unfold slice_to. rewrite (slice_app _ [] [0; 0] (0 :: enc ++ pb ++ payload)) by done. cbn [go_bind].
  rewrite bool_decide_eq_true_2 by done. cbn [negb].
  rewrite (idx_app _ [0; 0] (enc ++ pb ++ payload) 0) by done. cbn [go_bind Z.eqb negb].
  unfold slice_from. rewrite (slice_app _ [0; 0; 0] (enc ++ pb ++ payload) []); [|by rewrite app_nil_r|done|Socks5.zl].
  cbn [go_bind]. rewrite (SplitAddr_enc enc n) by done. cbn [go_bind].
  rewrite (slice_app _ ([0; 0; 0] ++ enc ++ pb) payload []); [done| |Socks5.zl..].
  rewrite app_nil_r. by rewrite <- !app_assoc.
Qed.

Lemma SplitAddr_total b : bytes_ok b ->
  match SplitAddr b with
  | Ret (Some a) => zlen a <= zlen b
  | Ret None => True
  | _ => False
  end.
Proof.
  intros Ho. unfold SplitAddr. destruct (Z.ltb_spec (zlen b) 1); [done|].
  destruct (idx_in_range b 0) as (atyp & -> & _); [lia|]. cbn [go_bind].
  assert (forall n, 0 <= n -> match (if zlen b <? n then Ret None else let! a := slice_to b n in Ret (Some a)) with
    | Ret (Some a) => zlen a <= zlen b | Ret None => True | _ => False end) as HS.
  { intros n Hn. destruct (Z.ltb_spec (zlen b) n); [done|]. unfold slice_to. rewrite slice_in_range by lia.
    cbn [go_bind]. unfold zlen. rewrite length_take, length_drop. lia. }
  destruct (atyp =? AtypDomainName).
  - destruct (Z.ltb_spec (zlen b) 2); [done|]. destruct (idx_in_range b 1) as (n & -> & Hn); [lia|]. cbn [go_bind].
    pose proof (Forall_lookup_1 _ _ _ _ Ho Hn) as Hb. unfold is_byte in Hb. apply HS. lia.
  - destruct (atyp =? AtypIPv4); [by apply HS|]. destruct (atyp =? AtypIPv6); [by apply HS|done].
Qed.

Lemma DecodeUDPPacket_total packet : bytes_ok packet -> DecodeUDPPacket packet <> Panic.
Proof.
  intros Ho. unfold DecodeUDPPacket. destruct (Z.ltb_spec (zlen packet) 5); [done|].
  unfold slice_to, slice_from. rewrite slice_in_range by lia. cbn [go_bind]. destruct (negb _); [done|].
  destruct (idx_in_range packet 2) as (frag & -> & _); [lia|]. cbn [go_bind]. destruct (negb _); [done|].
  rewrite slice_in_range by lia. cbn [go_bind]. set (rest := take _ _).
  assert (bytes_ok rest) as Hr by (apply Forall_take, Forall_drop, Ho).
  pose proof (SplitAddr_total rest Hr) as HS. destruct (SplitAddr rest) as [[a|]| |]; try done. cbn [go_bind].
  assert (zlen rest = zlen packet - 3) by (unfold rest, zlen in *; rewrite length_take, length_drop; lia).
  pose proof (zlen_nonneg a). rewrite slice_in_range by lia. done.
Qed.

Lemma AddrText_enc host port : peer_host host -> 0 <= port < 65536 ->
  AddrText (Socks5.enc_host host ++ put16 port) = Ret (JoinHostPort host (Itoa port)).
Proof.
  intros Hh Hp. unfold AddrText, Valid. destruct Hh as [(a & Ha & Hu & ->)|(Hn & Hne & Hc & Hl)].
  - rewrite enc_host_addr by done. destruct Ha as [Hv Hz]. destruct a as [v|v z]; cbn [wire_addr].
    + rewrite (proj2 (Z.ltb_ge _ _)) by Socks5.zl.
      rewrite (idx_app _ [] (Socks5.bytes4 v ++ put16 port) AtypIPv4) by done. cbn [go_bind].
      change (AtypIPv4 =? AtypDomainName) with false. change (AtypIPv4 =? AtypIPv4) with true. cbn iota.
      rewrite (proj2 (Z.ltb_ge _ _)) by Socks5.zl. cbn [negb go_bind].
      rewrite (slice_app _ [AtypIPv4] (Socks5.bytes4 v) (put16 port)) by done. cbn [go_bind].
      rewrite (be16_at_app _ (AtypIPv4 :: Socks5.bytes4 v) [] port) by done. cbn [go_bind].
      rewrite u16_small, Socks5.ip4_text_mapped by done. done.
    + rewrite (proj2 (Z.ltb_ge _ _)) by Socks5.zl.
      rewrite (idx_app _ [] (Socks5.bytes16 v ++ put16 port) AtypIPv6) by done. cbn [go_bind].
      change (AtypIPv6 =? AtypDomainName) with false. change (AtypIPv6 =? AtypIPv4) with false.
      change (AtypIPv6 =? AtypIPv6) with true. cbn iota.
      rewrite (proj2 (Z.ltb_ge _ _)) by Socks5.zl. cbn [negb go_bind].
      rewrite (slice_app _ [AtypIPv6] (Socks5.bytes16 v) (put16 port)) by done. cbn [go_bind].
      rewrite (be16_at_app _ (AtypIPv6 :: Socks5.bytes16 v) [] port) by done. cbn [go_bind].
      rewrite u16_small by done. unfold Socks5.ip16_text, IPString. rewrite Socks5.of_fields_bytes16 by done.
      cbn [Zone] in Hz. subst z. by rewrite Hu.
  - unfold Socks5.enc_host, ParseIP. rewrite Hn. cbn [mbind option_bind]. set (b := bytes_of_string host) in *.
    pose proof (zlen_nonneg b). rewrite (proj2 (Z.ltb_ge _ _)) by Socks5.zl.
    rewrite (idx_app _ [] (zlen b :: b ++ put16 port) AtypDomainName) by done. cbn [go_bind].
    change (AtypDomainName =? AtypDomainName) with true. cbn iota.
    rewrite (idx_app _ [AtypDomainName] (b ++ put16 port) (zlen b)) by done. cbn [go_bind].
    rewrite (proj2 (Z.ltb_ge _ _)) by Socks5.zl. cbn [negb go_bind].
    rewrite (slice_app _ [AtypDomainName; zlen b] b (put16 port)) by (done || Socks5.zl). cbn [go_bind].
    rewrite (be16_at_app _ (AtypDomainName :: zlen b :: b) [] port) by (done || Socks5.zl). cbn [go_bind].
    unfold b. by rewrite u16_small, string_of_bytes_of_string.
Qed.

(** C33: The two UDP codecs agree.  For every endpoint (an address of either family or a
    name) the client and the server write the same address bytes; each decodes the
    other's packets to the endpoint's text and the payload; and the client's decoder
    never panics.  But ReadFrom decodes its whole buffer instead of the datagram: for a
    datagram that ends inside the address it takes what an earlier one left there, and
    returns a negative count. *)
Theorem udp_interop {A} (resolve : string -> go A) :
  (forall host port payload, peer_host host -> 0 <= port < 65536 ->
     let addr := JoinHostPort host (Itoa port) in
     exists buf packet, ParseAddrString addr = Ret (Some buf) /\ Socks5.encodeSocksUDPAddr addr = Ret buf /\
       EncodeUDPPacket (Some buf) payload = Ret packet /\ packet = [0x00; 0x00; 0x00] ++ buf ++ payload /\
       Socks5.decodeSocksUDPPacket resolve packet = go_bind (resolve addr) (fun a => Ret (a, payload)) /\
       DecodeUDPPacket packet = Ret (buf, payload) /\ AddrText buf = Ret addr) /\
  (forall packet, bytes_ok packet -> DecodeUDPPacket packet <> Panic) /\
  (forall b t, 1 <= zlen t < 6 -> 10 <= zlen b ->
     exists sender b', packet_read b ([0x00; 0x00; 0x00; AtypIPv4] ++ t) = Ret (zlen t - 6, sender, b')).
Proof.
  split; [|split].
  - intros host port payload Hh Hp addr. destruct (enc_host_layout host Hh) as [n Hl].
    eexists _, _. split; [by apply ParseAddrString_enc|]. split; [apply Socks5.encode_host; [by apply peer_udp_host|done]|].
    split; [done|]. rewrite <- (app_assoc (Socks5.enc_host host)). split; [done|].
    split; [apply Socks5.decode_packet_enc; [by apply peer_udp_host|done]|].
    split; [by apply (DecodeUDPPacket_enc _ n)|by apply AddrText_enc].
  - apply DecodeUDPPacket_total.
  - intros b t Ht Hb. unfold packet_read. cbv zeta.
    set (d := [0; 0; 0; AtypIPv4] ++ t). assert (zlen d = 4 + zlen t) as Hd by (unfold d; Socks5.zl).
    rewrite Z.min_l by lia. rewrite (take_ge d) by (unfold zlen; lia).
    set (s := drop _ b). assert (6 <= zlen (t ++ s)) as Hs.
    { rewrite zlen_app. unfold s, zlen in *. rewrite length_drop. lia. }
    assert (exists ip p0 p1 rest, t ++ s = ip ++ p0 :: p1 :: rest /\ zlen ip = 4) as (ip & p0 & p1 & rest & Ets & Hip).
    { destruct (t ++ s) as [|a0 [|a1 [|a2 [|a3 [|p0 [|p1 rest]]]]]]; try (unfold zlen in Hs; simpl in Hs; lia).
      by exists [a0; a1; a2; a3], p0, p1, rest. }
    assert (DecodeUDPPacket (d ++ s) = Ret ((AtypIPv4 :: ip) ++ [p0; p1], rest)) as ->.
    { unfold d. rewrite <- app_assoc, Ets.
      change ([0; 0; 0; AtypIPv4] ++ ip ++ p0 :: p1 :: rest) with ([0; 0; 0] ++ (AtypIPv4 :: ip) ++ [p0; p1] ++ rest).
      apply (DecodeUDPPacket_enc _ 4); [by constructor|done]. }
    cbn [go_bind]. unfold UDPAddr, Valid. rewrite (proj2 (Z.ltb_ge _ _)) by Socks5.zl.
    rewrite (idx_app _ [] (ip ++ [p0; p1]) AtypIPv4) by done. cbn [go_bind].
    change (AtypIPv4 =? AtypDomainName) with false. change (AtypIPv4 =? AtypIPv4) with true. cbn iota.
    rewrite (proj2 (Z.ltb_ge _ _)) by Socks5.zl. cbn [negb go_bind].
    rewrite (slice_app _ [AtypIPv4] ip [p0; p1]) by (done || Socks5.zl). cbn [go_bind]. unfold be16_at.
    rewrite (idx_app _ (AtypIPv4 :: ip) [p1] p0) by (done || Socks5.zl). cbn [go_bind].
    rewrite (idx_app _ ((AtypIPv4 :: ip) ++ [p0]) [] p1) by (Socks5.zl || (by rewrite <- app_assoc)). cbn [go_bind].
    eexists _, _. do 3 f_equal. Socks5.zl.
Qed.

(** ** Witnesses *)

Definition w_session (d : string) : go bytes * client :=
  let said := [Version; 0x01; MethodNoAuth] ++ [Version; CmdConnect; 0x00] ++ SerializeAddr d None 443 in
  let server := Socks5.socks5Handler (L := map_lru) (names := Dns.w_names) (env := reliable) w_block_cfg (Dns.w_world 0)
                  (fun _ _ => None) None (None, 0) (Socks5.mkSession (said ++ [1; 2]) [] Dns.w_core) in
  ClientHandshake (env := reliable) (SerializeAddr d None 443) CmdConnect None
    (mkClient (delivered (Socks5.cli (snd server)) ++ [8; 9]) []).
Definition w_made (d : string) : go DialPlan * core (L := map_lru) :=
  PlanRequest (names := Dns.w_names) w_block_cfg (Dns.w_world 0) (mkRequest "socks5" d 443 ResolveDomainTarget) true Dns.w_core.

Definition w_blocked : go DialPlan := Eval vm_compute in fst (w_made "x.ads.example").
Definition w_allowed : go DialPlan := Eval vm_compute in fst (w_made "ok.example").

Lemma w_made_eq d r : fst (w_made d) = r ->
  PlanRequest (names := Dns.w_names) w_block_cfg (Dns.w_world 0) (mkRequest "socks5" d 443 ResolveDomainTarget) true Dns.w_core =
  (r, snd (w_made d)).
Proof. intros <-. apply surjective_pairing. Qed.

Lemma socks_interop_witness :
  fst (w_session "x.ads.example") = Err "CONNECT: connection not allowed by ruleset" /\
  fst (w_session "ok.example") = Ret [1; 0; 0; 0; 0; 0; 0] /\ inp (snd (w_session "ok.example")) = [8; 9].
Proof.
  split.
  - destruct (socks_interop (L := map_lru) (names := Dns.w_names) w_block_cfg (Dns.w_world 0) (fun _ _ => None) None (None, 0)
      "x.ads.example" None "x.ads.example" 443 [1; 2] [8; 9] Dns.w_core w_blocked (snd (w_made "x.ads.example")))
      as [_ H].
    + left. split; [discriminate|]. split; [vm_compute; discriminate|reflexivity].
    + lia.
    + apply w_made_eq. vm_compute. reflexivity.
    + discriminate.
    + transitivity (Err (A := bytes) ("CONNECT: " +:+ ReplyString 2)); [exact H|reflexivity].
  - destruct (socks_interop (L := map_lru) (names := Dns.w_names) w_block_cfg (Dns.w_world 0) (fun _ _ => None) None (None, 0)
      "ok.example" None "ok.example" 443 [1; 2] [8; 9] Dns.w_core w_allowed (snd (w_made "ok.example")))
      as [_ H].
    + left. split; [discriminate|]. split; [vm_compute; discriminate|reflexivity].
    + lia.
    + apply w_made_eq. vm_compute. reflexivity.
    + discriminate.
    + destruct H as (_ & _ & H1 & H2). split; [exact H1|exact H2].
Defined.

Lemma udp_interop_witness :
  (exists packet, EncodeUDPPacket (Some [3; 2; 97; 98; 0; 53]) [7] = Ret packet /\
     Socks5.decodeSocksUDPPacket Ret packet = Ret ("ab:53"%string, [7])) /\
  exists sender b', packet_read (replicate 20 5) [0; 0; 0; 1; 9] = Ret (-5, sender, b').
Proof.
  destruct (udp_interop (A := string) Ret) as (H1 & _ & H3). split.
  - destruct (H1 "ab"%string 53 [7]) as (buf & packet & E & _ & E2 & _ & E3 & _).
    + right. split; [vm_compute; reflexivity|]. split; [discriminate|]. split; [by split|]. vm_compute. discriminate.
    + lia.
    + vm_compute in E. injection E as <-. exists packet. split; [exact E2|exact E3].
  - apply (H3 (replicate 20 5) [9]); [split; vm_compute; (reflexivity || discriminate)|vm_compute; discriminate].
Defined.

End SocksClient.
