(* ===== verification/Obfs.v ===== *)
(** * The TLS camouflage of shadowsocks connections
      (src/tun2socks/transport/simple-obfs/tls.go)

    The client end: what is written goes out as the session ticket of a ClientHello and
    then as application-data records; what comes back is unwrapped from records after a
    fixed number of handshake bytes.  The random bytes and the clock are parameters. *)

From S2P Require Import Prelude GoState Conn GoIO ClientHello.

Module Obfs.
Import ClientHello.

Definition chunkSize : Z := 2 ^ 14.

(** The connection: the segments still to arrive, what was sent, and the fields. *)
Record TLSObfs := mkObfs {
  oin : list bytes; otrace : list event;
  server : bytes; remain : Z; firstRequest : bool; firstResponse : bool
}.

Definition NewTLSObfs (segs : list bytes) (server : bytes) : TLSObfs := mkObfs segs [] server 0 true true.

Definition set_in (segs : list bytes) (o : TLSObfs) : TLSObfs :=
  mkObfs segs (otrace o) (server o) (remain o) (firstRequest o) (firstResponse o).
Definition set_remain (n : Z) (o : TLSObfs) : TLSObfs :=
  mkObfs (oin o) (otrace o) (server o) n (firstRequest o) (firstResponse o).
Definition set_firstResponse (b : bool) (o : TLSObfs) : TLSObfs :=
  mkObfs (oin o) (otrace o) (server o) (remain o) (firstRequest o) b.
Definition set_sent (tr : list event) (b : bool) (o : TLSObfs) : TLSObfs :=
  mkObfs (oin o) tr (server o) (remain o) b (firstResponse o).

(** ** Reading

    Read calls return the bytes put into the buffer and the error. *)

Definition result : Type := bytes * option string.

(** [io.ReadFull(to.Conn, buf)] with [n = len(buf)]: the bytes read come with the error. *)
Definition full (n : Z) (o : TLSObfs) : result * TLSObfs :=
  match seg_ReadFull n (oin o) with
  | (Ret b, segs) => ((b, None), set_in segs o)
  | (Err e, segs) => ((mjoin (oin o), Some e), set_in segs o)
  | (Panic, segs) => (([], None), set_in segs o)
  end.

(** [binary.BigEndian.Uint16(sizeBuf)]. *)
Definition size_of (sizeBuf : bytes) : Z := match sizeBuf with [a; b] => be16 a b | _ => 0 end.

(** TLSObfs.read into a buffer of length [k]. *)
Definition read (k discardN : Z) (o : TLSObfs) : result * TLSObfs :=
  match full discardN o with
  | ((_, Some e), o) => (([], Some e), o)
  | ((_, None), o) =>
    match full 2 o with
    | ((_, Some _), o) => (([], None), o)
    | ((sizeBuf, None), o) =>
      let length := size_of sizeBuf in
      if k <? length then
        match seg_read k (oin o) with
        | (Ret b, segs) => ((b, None), set_remain (length - zlen b) (set_in segs o))
        | (Err e, segs) => (([], Some e), set_in segs o)
        | (Panic, segs) => (([], None), set_in segs o)
        end
      else full length o
    end
  end.

(** TLSObfs.Read. *)
Definition Read (k : Z) (o : TLSObfs) : result * TLSObfs :=
  if 0 <? remain o then
    let (r, o) := full (Z.min (remain o) k) o in
    (r, set_remain (remain o - zlen (fst r)) o)
  else if firstResponse o then read k 105 (set_firstResponse false o)
  else read k 3 o.

(** A Read call whose caller stops at an error. *)
Definition Read_go (k : Z) : St TLSObfs bytes := fun o =>
  match Read k o with
  | ((b, None), o) => (Ret b, o)
  | ((_, Some e), o) => (Err e, o)
  end.

(** ** Writing *)

Section hello.
Context (now : Z) (random sessionID : bytes).

Definition put32 (z : Z) : bytes := put16 (z / 2 ^ 16) ++ put16 z.

Definition cipher_suites : bytes :=
  [0xc0; 0x2c; 0xc0; 0x30; 0x00; 0x9f; 0xcc; 0xa9; 0xcc; 0xa8; 0xcc; 0xaa; 0xc0; 0x2b; 0xc0; 0x2f;
   0x00; 0x9e; 0xc0; 0x24; 0xc0; 0x28; 0x00; 0x6b; 0xc0; 0x23; 0xc0; 0x27; 0x00; 0x67; 0xc0; 0x0a;
   0xc0; 0x14; 0x00; 0x39; 0xc0; 0x09; 0xc0; 0x13; 0x00; 0x33; 0x00; 0x9d; 0x00; 0x9c; 0x00; 0x3d;
   0x00; 0x3c; 0x00; 0x35; 0x00; 0x2f; 0x00; 0xff].

Definition ec_point : bytes := [0x00; 0x0b; 0x00; 0x04; 0x03; 0x01; 0x00; 0x02].
Definition groups : bytes := [0x00; 0x0a; 0x00; 0x0a; 0x00; 0x08; 0x00; 0x1d; 0x00; 0x17; 0x00; 0x19; 0x00; 0x18].
Definition signature : bytes :=
  [0x00; 0x0d; 0x00; 0x20; 0x00; 0x1e; 0x06; 0x01; 0x06; 0x02; 0x06; 0x03; 0x05;
   0x01; 0x05; 0x02; 0x05; 0x03; 0x04; 0x01; 0x04; 0x02; 0x04; 0x03; 0x03; 0x01;
   0x03; 0x02; 0x03; 0x03; 0x02; 0x01; 0x02; 0x02; 0x02; 0x03].
Definition encrypt_then_mac : bytes := [0x00; 0x16; 0x00; 0x00].
Definition extended_master_secret : bytes := [0x00; 0x17; 0x00; 0x00].

Definition makeClientHelloMsg (data server : bytes) : bytes :=
  let length := u16 (212 + zlen data + zlen server) in
  [22] ++ [0x03; 0x01] ++ [Z.shiftr length 8] ++ [Z.land length 0xff] ++
  [1] ++ [0] ++ put16 (208 + zlen data + zlen server) ++ [0x03; 0x03] ++
  put32 now ++ random ++ [32] ++ sessionID ++
  [0x00; 0x38] ++ cipher_suites ++
  [0x01; 0x00] ++
  put16 (79 + zlen data + zlen server) ++
  [0x00; 0x23] ++ put16 (zlen data) ++ data ++
  [0x00; 0x00] ++ put16 (zlen server + 5) ++ put16 (zlen server + 3) ++ [0] ++
    put16 (zlen server) ++ server ++
  ec_point ++ groups ++ signature ++ encrypt_then_mac ++ extended_master_secret.

Context {env : Env}.

(** One chunk: the error of the send. *)
Definition write (b : bytes) (o : TLSObfs) : (Z * option string) * TLSObfs :=
  let msg := if firstRequest o then makeClientHelloMsg b (server o)
             else [0x17; 0x03; 0x03] ++ put16 (zlen b) ++ b in
  let (r, tr) := Conn.write (fun e => e) msg (otrace o) in
  ((zlen b, match r with Err e => Some e | _ => None end), set_sent tr false o).

(** The loop of Write over what is left of [b]. *)
Fixpoint write_loop (fuel : nat) (b : bytes) (length : Z) (o : TLSObfs) : (Z * option string) * TLSObfs :=
  match fuel with
  | O => ((length, None), o)
  | S fuel =>
    if zlen b =? 0 then ((length, None), o)
    else
      match write (take (Z.to_nat chunkSize) b) o with
      | ((n, Some e), o) => ((n, Some e), o)
      | ((_, None), o) => write_loop fuel (drop (Z.to_nat chunkSize) b) length o
      end
  end.

(** TLSObfs.Write. *)
Definition Write (b : bytes) (o : TLSObfs) : (Z * option string) * TLSObfs :=
  write_loop (length b) b (zlen b) o.
End hello.

(** ** The ClientHello it sends *)

Definition hello_of (now : Z) (rnd sid data server : bytes) : hello_spec :=
  mkSpec 0x01 (0x03, 0x03) (put32 now ++ rnd) sid cipher_suites [0]
    [mkExt 0x23 data; sni_ext server; mkExt 0x0b (drop 4 ec_point); mkExt 0x0a (drop 4 groups);
     mkExt 0x0d (drop 4 signature); mkExt 0x16 []; mkExt 0x17 []].

Lemma u16_halves z : [Z.shiftr (u16 z) 8] ++ [Z.land (u16 z) 0xff] = put16 z.
Proof.
  unfold put16. rewrite Z.shiftr_div_pow2 by lia. change 0xff with (Z.ones 8). by rewrite Z.land_ones by lia.
Qed.

Lemma hello_exts_len now rnd sid data server :
  zlen (enc_exts (exts (hello_of now rnd sid data server))) = 79 + zlen data + zlen server.
Proof.
  unfold hello_of, enc_exts. cbn [exts fmap list_fmap mjoin list_join].
  rewrite !zlen_app, !zlen_enc_ext. unfold sni_ext. cbn [ebody].
  rewrite !zlen_app, !length_put16. change (zlen (drop 4 ec_point)) with 4.
  change (zlen (drop 4 groups)) with 10. change (zlen (drop 4 signature)) with 32.
  change (zlen (@nil Z)) with 0. change (zlen [0]) with 1. lia.
Qed.

Lemma hello_body_len now rnd sid data server : zlen rnd = 28 -> zlen sid = 32 ->
  zlen (enc_body (hello_of now rnd sid data server)) = 208 + zlen data + zlen server.
Proof.
  intros Hr Hs. unfold enc_body. rewrite !zlen_app, !length_put16, hello_exts_len.
  unfold hello_of, put32. cbn [ver random session_id ciphers compression fst snd].
  rewrite !zlen_app, !length_put16, Hr, Hs. change (zlen cipher_suites) with 56. change (zlen [0x03; 0x03]) with 2.
  change (zlen [32]) with 1. change (zlen [zlen [0]]) with 1. change (zlen [0]) with 1. lia.
Qed.

Lemma makeClientHelloMsg_enc now rnd sid data server : zlen rnd = 28 -> zlen sid = 32 ->
  makeClientHelloMsg now rnd sid data server = enc_record (hello_of now rnd sid data server).
Proof.
  intros Hr Hs. unfold enc_record. rewrite hello_body_len by done. unfold enc_body. rewrite hello_exts_len.
  unfold makeClientHelloMsg, hello_of. cbn [rec_minor ver random session_id ciphers compression exts fst snd].
  cbv zeta. rewrite (app_assoc [Z.shiftr _ 8]), u16_halves, Hs.
  replace (4 + (208 + zlen data + zlen server)) with (212 + zlen data + zlen server) by lia.
  unfold enc_exts, enc_ext, sni_ext. cbn [fmap list_fmap mjoin list_join etype ebody].
  rewrite !zlen_app, !length_put16. change (zlen [0]) with 1.
  replace (2 + (1 + (2 + zlen server))) with (zlen server + 5) by lia. rewrite (Z.add_comm 3).
  rewrite <- !app_assoc, !app_nil_r. reflexivity.
Qed.

Lemma hello_wf now rnd sid data server : zlen rnd = 28 -> zlen sid = 32 -> zlen data + zlen server < 65324 ->
  wf_spec (hello_of now rnd sid data server).
Proof.
  intros Hr Hs Hl. pose proof (zlen_nonneg data). pose proof (zlen_nonneg server). split; [|split].
  - unfold hello_of, put32. cbn [random]. rewrite !zlen_app, !length_put16. lia.
  - rewrite hello_body_len by done. lia.
  - unfold hello_of. cbn [exts]. repeat constructor; cbn [etype ebody]; try done; try lia.
    + unfold sni_ext. cbn [ebody]. rewrite !zlen_app, !length_put16. change (zlen [0]) with 1. lia.
    + by exists server.
Qed.

Lemma hello_name now rnd sid data server :
  first_name (exts (hello_of now rnd sid data server)) = Some (4 + zlen data + 9, server).
Proof. unfold hello_of. cbn [exts first_name]. by rewrite zlen_enc_ext. Qed.

(** ** Records as the reader finds them *)

(** A record: what the reader discards, the length, the payload. *)
Definition enc_rec (hp : bytes * bytes) : bytes := fst hp ++ put16 (zlen (snd hp)) ++ snd hp.
Definition enc_recs (hps : list (bytes * bytes)) : bytes := mjoin (enc_rec <$> hps).
Definition payloads (hps : list (bytes * bytes)) : bytes := mjoin (snd <$> hps).

Definition payload_ok (p : bytes) : Prop := p <> [] /\ zlen p < 65536.
Definition rec_ok (n : Z) (hp : bytes * bytes) : Prop := zlen (fst hp) = n /\ payload_ok (snd hp).
Definition recs_ok (first : bool) (hps : list (bytes * bytes)) : Prop :=
  match hps with
  | [] => True
  | hp :: hps => rec_ok (if first then 105 else 3) hp /\ Forall (rec_ok 3) hps
  end.

Lemma recs_ok_false hps : Forall (rec_ok 3) hps -> recs_ok false hps.
Proof. by destruct 1. Qed.

(** Part of a record and whole records are still to come. *)
Definition holds (left : bytes) (o : TLSObfs) : Prop :=
  exists cur hps, segs_ok (oin o) /\ mjoin (oin o) = cur ++ enc_recs hps /\ remain o = zlen cur /\
    left = cur ++ payloads hps /\ recs_ok (firstResponse o) hps.

Lemma full_app n o a b : segs_ok (oin o) -> mjoin (oin o) = a ++ b -> zlen a = n ->
  exists segs, full n o = ((a, None), set_in segs o) /\ segs_ok segs /\ mjoin segs = b.
Proof.
  intros Hs E Hn. destruct (seg_ReadFull_app n (oin o) a b Hs E Hn) as (segs & E' & H). exists segs.
  unfold full. by rewrite E'.
Qed.

Lemma full_eof n o : 0 < n -> mjoin (oin o) = [] -> full n o = (([], Some "EOF"%string), set_in [] o).
Proof. intros Hn E. unfold full. by rewrite seg_ReadFull_eof, E. Qed.

Lemma size_of_put16 z : size_of (put16 z) = u16 z.
Proof. by apply put16_be16. Qed.

Lemma zlen_ne (p : bytes) : p <> [] -> 1 <= zlen p.
Proof. destruct p; [done|]. rewrite zlen_cons. pose proof (zlen_nonneg p). lia. Qed.

Lemma zlen_take_min k (p : bytes) : 0 <= k -> zlen (take (Z.to_nat k) p) = Z.min (zlen p) k.
Proof. unfold zlen. rewrite length_take. lia. Qed.

Lemma read_spec k n hp hps o : 1 <= k -> segs_ok (oin o) -> mjoin (oin o) = enc_recs (hp :: hps) ->
  rec_ok n hp -> Forall (rec_ok 3) hps -> remain o = 0 -> firstResponse o = false ->
  exists out rest o', read k n o = ((out, None), o') /\ out <> [] /\ out ++ rest = snd hp ++ payloads hps /\ holds rest o'.
Proof.
  intros Hk Hs E (Hh & Hne & Hp) Hr Hrem Hf. destruct hp as [h p]. cbn [fst snd] in *.
  change (enc_recs ((h, p) :: hps)) with (enc_rec (h, p) ++ enc_recs hps) in E. unfold enc_rec in E. cbn [fst snd] in E.
  rewrite <- !app_assoc in E. destruct (full_app n o _ _ Hs E Hh) as (s1 & E1 & Hs1 & J1).
  unfold read. rewrite E1. destruct (full_app 2 (set_in s1 o) _ _ Hs1 J1 eq_refl) as (s2 & E2 & Hs2 & J2).
  rewrite E2. change (set_in s2 (set_in s1 o)) with (set_in s2 o). cbv zeta.
  rewrite size_of_put16, u16_small by (pose proof (zlen_nonneg p); lia).
  destruct (Z.ltb_spec k (zlen p)).
  - destruct (seg_read_spec k (oin (set_in s2 o)) Hk Hs2) as (b & s3 & E3 & Hb & Hbk & J3 & Hs3).
    { cbn [oin set_in]. rewrite J2. by destruct p. }
    rewrite E3. cbn [oin set_in] in J3. rewrite J2 in J3.
    assert (zlen b < zlen p) as Hlt by lia.
    apply app_eq_inv in J3 as [(k0 & E4 & E5)|(k0 & E4 & E5)].
    1:{ rewrite E4, zlen_app in Hlt. pose proof (zlen_nonneg k0). lia. }
    exists b, (k0 ++ payloads hps). eexists. split; [done|]. split; [done|]. split; [by rewrite E4, app_assoc|].
    exists k0, hps. cbn [oin remain firstResponse set_in set_remain]. rewrite Hf. split_and!; try done.
    + rewrite E4, zlen_app. lia.
    + by apply recs_ok_false.
  - destruct (full_app (zlen p) (set_in s2 o) _ _ Hs2 J2 eq_refl) as (s3 & E3 & Hs3 & J3). rewrite E3.
    exists p, (payloads hps). eexists. split; [done|]. split; [done|]. split; [done|].
    exists [], hps. cbn [oin remain firstResponse set_in]. rewrite Hf, Hrem. split_and!; try done. by apply recs_ok_false.
Qed.

Lemma tls_Read_step left k o : 1 <= k -> holds left o -> left <> [] ->
  exists out left' o', Read_go k o = (Ret out, o') /\ out <> [] /\ out ++ left' = left /\ holds left' o'.
Proof.
  intros Hk (cur & hps & Hs & E & Hr & -> & Hok) Hne. unfold Read_go, Read. rewrite Hr. destruct cur as [|c cur].
  - cbn [app] in *. destruct hps as [|hp hps]; [done|]. destruct Hok as [Hhp Hhps].
    change (0 <? zlen (@nil Z)) with false. change (zlen []) with 0 in Hr. cbv iota.
    change (payloads (hp :: hps)) with (snd hp ++ payloads hps).
    destruct (firstResponse o) eqn:Hf.
    + destruct (read_spec k 105 hp hps (set_firstResponse false o)) as (out & rest & o' & -> & H); try done. by exists out, rest, o'.
    + destruct (read_spec k 3 hp hps o) as (out & rest & o' & -> & H); try done. by exists out, rest, o'.
  - pose proof (zlen_nonneg cur). rewrite (proj2 (Z.ltb_lt _ _)) by (rewrite zlen_cons; lia).
    set (p := c :: cur) in *. set (n := Z.min (zlen p) k). assert (1 <= zlen p) by (by apply zlen_ne).
    rewrite <- (take_drop (Z.to_nat k) p), <- app_assoc in E.
    destruct (full_app n o _ _ Hs E) as (segs & -> & Hs' & J); [by rewrite zlen_take_min by lia|].
    exists (take (Z.to_nat k) p), (drop (Z.to_nat k) p ++ payloads hps). eexists. split; [done|].
    split; [intros En%(f_equal zlen); rewrite zlen_take_min in En by lia; change (zlen (@nil Z)) with 0 in En; lia|].
    split; [by rewrite app_assoc, take_drop|]. exists (drop (Z.to_nat k) p), hps.
    cbn [oin remain firstResponse set_in set_remain fst]. split_and!; try done. rewrite zlen_take_min, Hr by lia.
    unfold zlen. rewrite length_drop. lia.
Qed.

Lemma tls_Read_end k o : 1 <= k -> holds [] o -> fst (Read_go k o) = Err "EOF".
Proof.
  intros Hk (cur & hps & Hs & E & Hr & El & Hok). symmetry in El. apply app_eq_nil in El as [-> Ep].
  destruct hps as [|[h p] hps]; [|destruct Hok as [(_ & Hne & _) _]; by destruct p].
  unfold Read_go, Read. rewrite Hr. change (0 <? zlen (@nil Z)) with false. cbv iota.
  destruct (firstResponse o); unfold read; by rewrite full_eof.
Qed.

#[export] Instance Read_delivers : Delivers Read_go holds "EOF".
Proof. constructor; [intros left k o; apply tls_Read_step|intros k o; apply tls_Read_end]. Qed.

(** ** What the writer puts on the wire *)

Definition app_data : bytes := [0x17; 0x03; 0x03].

Section writes.
Context (now : Z) (rnd sid : bytes) (Hrnd : zlen rnd = 28) (Hsid : zlen sid = 32).

Definition chunk_ok (c : bytes) : Prop := c <> [] /\ zlen c <= chunkSize.

Lemma first_chunk b : b <> [] -> chunk_ok (take (Z.to_nat chunkSize) b).
Proof.
  intros Hb%zlen_ne. assert (zlen (take (Z.to_nat chunkSize) b) = Z.min (zlen b) chunkSize) as E by (by apply zlen_take_min).
  assert (1 <= chunkSize) by done. split; [|lia]. intros En. rewrite En in E. change (zlen (@nil Z)) with 0 in E. lia.
Qed.

Lemma write_record b o : firstRequest o = false ->
  write (env := reliable) now rnd sid b o =
  ((zlen b, None), set_sent (otrace o ++ [EvWrite (enc_rec (app_data, b))]) false o).
Proof. intros Hf. unfold write. by rewrite Hf. Qed.

Lemma tls_write_loop_spec fuel : forall b n o, firstRequest o = false -> (length b <= fuel)%nat ->
  exists cs evs, mjoin cs = b /\ Forall chunk_ok cs /\ existsb is_oob evs = false /\
    delivered evs = enc_recs (pair app_data <$> cs) /\
    write_loop (env := reliable) now rnd sid fuel b n o = ((n, None), set_sent (otrace o ++ evs) false o).
Proof.
  induction fuel as [|fuel IH]; intros b n o Hf Hl; cbn [write_loop].
  all: destruct (decide (b = [])) as [->|Hb]; [exists [], []; rewrite app_nil_r; destruct o; cbn in Hf; by subst|].
  { destruct b; [done|simpl in Hl; lia]. }
  pose proof (zlen_ne b Hb). rewrite (proj2 (Z.eqb_neq _ _)) by lia. rewrite write_record by done.
  destruct (first_chunk b Hb) as [Hc1 Hc2]. assert (1 <= chunkSize) by done.
  edestruct (IH (drop (Z.to_nat chunkSize) b) n) as (cs & evs & Ej & Hcs & Hs & Hd & E); [|shelve|].
  2:{ exists (take (Z.to_nat chunkSize) b :: cs), (EvWrite (enc_rec (app_data, take (Z.to_nat chunkSize) b)) :: evs).
      rewrite E, mjoin_cons, Ej, take_drop. split_and!; try done.
      - by constructor.
      - cbn [delivered]. by rewrite Hd.
      - unfold set_sent. cbn [oin otrace server remain firstResponse]. by rewrite <- app_assoc. }
  done.
  Unshelve. rewrite length_drop. unfold zlen in *. lia.
Qed.

(** Consecutive Write calls: the sizes they return. *)
Fixpoint writes (bs : list bytes) (o : TLSObfs) : list (Z * option string) * TLSObfs :=
  match bs with
  | [] => ([], o)
  | b :: bs =>
    let (r, o) := Write (env := reliable) now rnd sid b o in
    let (rs, o) := writes bs o in (r :: rs, o)
  end.

Lemma tls_writes_spec bs : forall o, firstRequest o = false ->
  exists cs evs, mjoin cs = mjoin bs /\ Forall chunk_ok cs /\ existsb is_oob evs = false /\
    delivered evs = enc_recs (pair app_data <$> cs) /\
    writes bs o = ((fun b => (zlen b, None)) <$> bs, set_sent (otrace o ++ evs) false o).
Proof.
  induction bs as [|b bs IH]; intros o Hf; cbn [writes].
  { exists [], []. rewrite app_nil_r. destruct o; cbn in Hf; by subst. }
  unfold Write. destruct (tls_write_loop_spec (length b) b (zlen b) o Hf) as (cs & evs & Ej & Hc & Hs & Hd & ->); [done|].
  destruct (IH (set_sent (otrace o ++ evs) false o) eq_refl) as (cs' & evs' & Ej' & Hc' & Hs' & Hd' & ->).
  exists (cs ++ cs'), (evs ++ evs'). rewrite join_app, mjoin_cons, Ej, Ej', existsb_app, Hs, Hs'. split_and!; try done.
  - by apply Forall_app.
  - rewrite delivered_no_oob, Hd, Hd' by done. unfold enc_recs. by rewrite !fmap_app, join_app.
  - unfold set_sent. cbn [oin otrace server remain firstResponse]. by rewrite <- app_assoc.
Qed.

(** The first write that has bytes sends the ClientHello. *)
Lemma Write_first b o : b <> [] -> firstRequest o = true ->
  exists cs evs, chunk_ok (take (Z.to_nat chunkSize) b) /\ mjoin cs = drop (Z.to_nat chunkSize) b /\ Forall chunk_ok cs /\
    existsb is_oob evs = false /\ delivered evs = enc_recs (pair app_data <$> cs) /\
    Write (env := reliable) now rnd sid b o = ((zlen b, None), set_sent (otrace o ++
      EvWrite (makeClientHelloMsg now rnd sid (take (Z.to_nat chunkSize) b) (server o)) :: evs) false o).
Proof.
  intros Hb Hf. unfold Write. destruct (length b) as [|fuel] eqn:El; [by destruct b|]. cbn [write_loop].
  pose proof (zlen_ne b Hb). rewrite (proj2 (Z.eqb_neq _ _)) by lia.
  unfold write at 1. rewrite Hf. cbn [Conn.write perform env_fail reliable].
  assert (1 <= chunkSize) by done.
  edestruct (tls_write_loop_spec fuel (drop (Z.to_nat chunkSize) b) (zlen b)) as (cs & evs & Ej & Hcs & Hs & Hd & E);
    [|shelve|]. 2: exists cs, evs.
  2:{ split; [by apply first_chunk|]. split_and!; try done. etransitivity; [exact E|].
      unfold set_sent. cbn [oin otrace server remain firstResponse]. by rewrite <- app_assoc. }
  done.
  Unshelve. rewrite length_drop. unfold zlen in *. lia.
Qed.
End writes.

(** The program's own inspection of that ClientHello finds the server name. *)
Lemma hello_inspected now rnd sid data server : zlen rnd = 28 -> zlen sid = 32 -> zlen data + zlen server < 65324 ->
  exists pos, parseClientHello (makeClientHelloMsg now rnd sid data server) =
      Ret (mkHello (Some [0x03; 0x03]) pos (zlen server) false None) /\
    slice (makeClientHelloMsg now rnd sid data server) pos (pos + zlen server) = Ret server.
Proof.
  intros Hr Hs Hl. pose proof (hello_wf now rnd sid data server Hr Hs Hl) as Hwf.
  rewrite makeClientHelloMsg_enc by done. rewrite parseClientHello_enc, hello_name by done.
  eexists. split; [reflexivity|]. destruct Hwf as (Hrl & _ & Hext).
  destruct (enc_record_exts _ Hrl) as (pre & -> & Hpre).
  destruct (first_name_split _ _ _ Hext (hello_name now rnd sid data server)) as (mid & post & -> & Hm).
  apply (slice_app _ (pre ++ mid) server post); [by rewrite <- app_assoc|rewrite zlen_app; lia..].
Qed.


(** The camouflaged connection carries the bytes.  The writes of a new connection go
    out as one ClientHello whose session ticket is the first chunk, laid out so that the
    program's own parser finds exactly the configured server name in it, and then as
    application-data records of at most 16 KiB whose payloads are the rest, in order; each
    Write reports its whole length.  A reader given those records in any segmentation, with
    buffers of any positive sizes, returns the payloads in order and then EOF; so does a
    new connection for any response of 105 handshake bytes and records.  A response that
    ends inside a length field is reported as an empty read without an error. *)
Theorem obfs_stream now rnd sid server b bs :
  zlen rnd = 28 -> zlen sid = 32 -> zlen server < 48940 -> b <> [] ->
  (exists c0 cs o, writes now rnd sid (b :: bs) (NewTLSObfs [] server) =
       ((fun b => (zlen b, None)) <$> b :: bs, o) /\
     c0 ++ mjoin cs = mjoin (b :: bs) /\ chunk_ok c0 /\ Forall chunk_ok cs /\
     delivered (otrace o) = makeClientHelloMsg now rnd sid c0 server ++ enc_recs (pair app_data <$> cs) /\
     (exists s pos, makeClientHelloMsg now rnd sid c0 server = enc_record s /\ wf_spec s /\
        head (exts s) = Some (mkExt 0x23 c0) /\
        parseClientHello (enc_record s) = Ret (mkHello (Some [0x03; 0x03]) pos (zlen server) false None) /\
        slice (enc_record s) pos (pos + zlen server) = Ret server) /\
     (forall segs ks, segs_ok segs -> mjoin segs = enc_recs (pair app_data <$> cs) -> Forall (fun k => 1 <= k) ks ->
        let (outs, e) := reads Read_go ks (mkObfs segs [] server 0 false false) in
        mjoin outs `prefix_of` mjoin cs /\
        (zlen (mjoin cs) < zlen ks -> mjoin outs = mjoin cs /\ e = Failed "EOF"))) /\
  (forall segs hps ks, segs_ok segs -> mjoin segs = enc_recs hps -> recs_ok true hps -> Forall (fun k => 1 <= k) ks ->
     let (outs, e) := reads Read_go ks (NewTLSObfs segs server) in
     mjoin outs `prefix_of` payloads hps /\
     (zlen (payloads hps) < zlen ks -> mjoin outs = payloads hps /\ e = Failed "EOF")) /\
  (forall h x k, zlen h = 105 -> fst (Read k (NewTLSObfs [h ++ [x]] server)) = ([], None)).
Proof.
  intros Hr Hs Hsv Hb. split; [|split].
  - destruct (Write_first now rnd sid b (NewTLSObfs [] server) Hb eq_refl) as (cs & evs & Hc0 & Ej & Hcs & Ho & Hd & E).
    destruct (tls_writes_spec now rnd sid bs (set_sent (otrace (NewTLSObfs [] server) ++
      EvWrite (makeClientHelloMsg now rnd sid (take (Z.to_nat chunkSize) b) server) :: evs) false (NewTLSObfs [] server)) eq_refl)
      as (cs' & evs' & Ej' & Hcs' & Ho' & Hd' & E').
    cbn [writes]. rewrite E. cbn [Obfs.server NewTLSObfs] in *. rewrite E'.
    exists (take (Z.to_nat chunkSize) b), (cs ++ cs'). eexists. split; [done|].
    assert (Forall chunk_ok (cs ++ cs')) as Hall by (by apply Forall_app).
    split; [by rewrite mjoin_cons, join_app, Ej, Ej', app_assoc, take_drop|]. split; [done|]. split; [done|].
    split; [cbn [otrace set_sent NewTLSObfs app delivered]; rewrite delivered_no_oob, Hd, Hd' by done;
            unfold enc_recs; by rewrite fmap_app, fmap_app, join_app|].
    destruct Hc0 as [_ Hc0]. assert (zlen (take (Z.to_nat chunkSize) b) + zlen server < 65324) as Hl
      by (change chunkSize with 16384 in *; lia).
    split.
    + destruct (hello_inspected now rnd sid _ server Hr Hs Hl) as (pos & Hp & Hsl).
      rewrite makeClientHelloMsg_enc in Hp, Hsl |- * by done. exists (hello_of now rnd sid (take (Z.to_nat chunkSize) b) server), pos.
      split_and!; try done. by apply hello_wf.
    + intros segs ks Hsg Em Hks.
      destruct (reads_deliver Read_go holds "EOF" ks Hks (mjoin (cs ++ cs')) (mkObfs segs [] server 0 false false)) as [H1 H2].
      { exists [], (pair app_data <$> cs ++ cs'). cbn [oin remain firstResponse app]. split_and!; try done.
        - unfold payloads. rewrite <- list_fmap_compose. by rewrite list_fmap_id.
        - apply recs_ok_false, Forall_fmap. eapply Forall_impl; [exact Hall|]. intros c [Hn Hc]. split; [done|].
          split; [done|]. cbn [snd]. change chunkSize with 16384 in Hc. lia. }
      by destruct (reads Read_go ks _).
  - intros segs hps ks Hsg Em Hok Hks.
    destruct (reads_deliver Read_go holds "EOF" ks Hks (payloads hps) (NewTLSObfs segs server)) as [H1 H2]; [by exists [], hps|].
    by destruct (reads Read_go ks _).
  - intros h x k Hh. unfold Read. cbn [remain NewTLSObfs firstResponse]. change (0 <? 0) with false. cbv iota. unfold read.
    destruct (full_app 105 (set_firstResponse false (NewTLSObfs [h ++ [x]] server)) h [x]) as (segs & -> & Hsg & Em); [|cbn; by rewrite app_nil_r|done|].
    { repeat constructor. by destruct h. }
    unfold full, seg_ReadFull, ReadFull. cbn [oin set_in]. by rewrite Em.
Qed.

(** Two writes, and a response of one record in two segments, read two bytes at a time. *)
Lemma obfs_stream_witness :
  (exists o, fst (writes 7 (replicate 28 1) (replicate 32 2) [[1; 2; 3]; [4]] (NewTLSObfs [] [101; 120])) = [(3, None); (1, None)] /\
     delivered o = makeClientHelloMsg 7 (replicate 28 1) (replicate 32 2) [1; 2; 3] [101; 120] ++ [0x17; 0x03; 0x03; 0; 1; 4]) /\
  mjoin (fst (reads Read_go (replicate 6 2) (NewTLSObfs [replicate 105 0 ++ [0; 5; 8]; [9; 10; 11; 12]] [101; 120]))) = [8; 9; 10; 11; 12].
Proof.
  destruct (obfs_stream 7 (replicate 28 1) (replicate 32 2) [101; 120] [1; 2; 3] [[4]] eq_refl eq_refl eq_refl ltac:(discriminate))
    as ((c0 & cs & o & E & _) & HR & _).
  split.
  - exists (otrace o). rewrite E. split; [reflexivity|]. apply (f_equal (fun r => delivered (otrace (snd r)))) in E.
    cbn [snd] in E. rewrite <- E. vm_compute. reflexivity.
  - specialize (HR [replicate 105 0 ++ [0; 5; 8]; [9; 10; 11; 12]] [(replicate 105 0, [8; 9; 10; 11; 12])] (replicate 6 2)).
    destruct (reads Read_go (replicate 6 2) _) as [outs e]. cbn [fst].
    destruct HR as [_ HR]; [repeat constructor; discriminate|reflexivity| | |].
    + split; [split; [reflexivity|split; [discriminate|reflexivity]]|constructor].
    + repeat constructor; vm_compute; discriminate.
    + apply HR. vm_compute. reflexivity.
Defined.

End Obfs.
