(* ===== verification/HttpObfs.v ===== *)
(** * The HTTP camouflage of shadowsocks connections
      (src/tun2socks/transport/simple-obfs/http.go)

    What is written first goes out as the body of a GET request, the rest as it is; what
    comes back is handed out after the first empty line of the first read.  The random
    numbers and whether http.NewRequest accepts the host are parameters. *)

From S2P Require Import Prelude GoStrings GoState Conn GoIO.

Module HttpObfs.

(** [buf] is what is left of the first read: [ho.buf[ho.offset:]], [None] for nil. *)
Record HTTPObfs := mkHttp {
  hin : list bytes; htrace : list event;
  host : string; port : string; buf : option bytes;
  firstRequest : bool; firstResponse : bool
}.
Definition NewHTTPObfs (segs : list bytes) (tr : list event) (host port : string) : HTTPObfs :=
  mkHttp segs tr host port None true true.

Definition RelayBufferSize : Z := Z.shiftl 20 10.

(** [bytes.Index(b, sep)]; [None] is -1. *)
Fixpoint Index (b sep : bytes) : option nat :=
  if decide (take (length sep) b = sep) then Some O
  else match b with
       | [] => None
       | _ :: b => S <$> Index b sep
       end.
Definition blank_line : bytes := [13; 10; 13; 10].

(** The state after a read, or after a request. *)
Definition received (segs : list bytes) (b : option bytes) (first : bool) (o : HTTPObfs) : HTTPObfs :=
  mkHttp segs (htrace o) (host o) (port o) b (firstRequest o) first.
Definition requested (tr : list event) (o : HTTPObfs) : HTTPObfs :=
  mkHttp (hin o) tr (host o) (port o) (buf o) false (firstResponse o).

(** HTTPObfs.Read into a buffer of length [k]. *)
Definition Read (k : Z) : St HTTPObfs bytes := fun o =>
  match buf o with
  | Some rest =>
    (Ret (take (Z.to_nat k) rest),
     received (hin o) (if zlen rest <=? k then None else Some (drop (Z.to_nat k) rest)) (firstResponse o) o)
  | None =>
    if firstResponse o then
      match seg_read RelayBufferSize (hin o) with
      | (Ret b, segs) =>
        match Index b blank_line with
        | None => (Err "EOF", received segs None true o)
        | Some idx =>
          let body := drop (idx + 4) b in
          (Ret (take (Z.to_nat k) body),
           received segs (if k <? zlen body then Some (drop (Z.to_nat k) body) else None) false o)
        end
      | (Err e, segs) => (Err e, received segs None true o)
      | (Panic, segs) => (Panic, received segs None true o)
      end
    else
      let (r, segs) := seg_read k (hin o) in
      (r, received segs None false o)
  end.

(** [base64.URLEncoding.EncodeToString]. *)
Definition b64char (v : Z) : Z :=
  if v <? 26 then v + 65 else if v <? 52 then v + 71 else if v <? 62 then v - 4 else if v =? 62 then 45 else 95.
Definition b64quad (a b c : Z) : bytes :=
  b64char <$> [a / 4; (a mod 4) * 16 + b / 16; (b mod 16) * 4 + c / 64; c mod 64].
Fixpoint URLEncode (b : bytes) : bytes :=
  match b with
  | [] => []
  | [a] => take 2 (b64quad a 0 0) ++ [61; 61]
  | [a; b] => take 3 (b64quad a b 0) ++ [61]
  | a :: b :: c :: rest => b64quad a b c ++ URLEncode rest
  end.

Section write.
Context (NewRequest_ok : string -> bool) (randBytes : bytes) (minor patch : Z) {env : Env}.

Definition crlf : bytes := [13; 10].
Definition line (s : string) : bytes := bytes_of_string s ++ crlf.

(** What [req.Write] puts on the connection: the header lines net/http writes first, then
    the others in the order of their canonical names, then the body. *)
Definition request_head (host port : string) (len : Z) : bytes :=
  let hostHeader := if decide (port = "80")%string then host else (host +:+ ":" +:+ port)%string in
  line "GET / HTTP/1.1" ++
  line ("Host: " +:+ hostHeader) ++
  line ("User-Agent: curl/7." +:+ Itoa (minor mod 54) +:+ "." +:+ Itoa (patch mod 2)) ++
  (if len =? 0 then [] else line ("Content-Length: " +:+ Itoa len)) ++
  line "Connection: Upgrade" ++
  line ("Sec-Websocket-Key: " +:+ string_of_bytes (URLEncode randBytes)) ++
  line "Upgrade: websocket" ++
  crlf.

(** HTTPObfs.Write.  The error of http.NewRequest is dropped, and the nil request used. *)
Definition Write (b : bytes) : St HTTPObfs (Z * option string) := fun o =>
  if firstRequest o then
    if negb (NewRequest_ok (host o)) then (Panic, o)
    else
      let (r, tr) := write (fun e => e) (request_head (host o) (port o) (zlen b) ++ b) (htrace o) in
      (Ret (zlen b, match r with Err e => Some e | _ => None end), requested tr o)
  else
    let (r, tr) := write (fun e => e) b (htrace o) in
    (Ret (match r with Err _ => 0 | _ => zlen b end, match r with Err e => Some e | _ => None end),
     mkHttp (hin o) tr (host o) (port o) (buf o) false (firstResponse o)).

(** Consecutive Write calls. *)
Fixpoint writes (bs : list bytes) : St HTTPObfs (list (Z * option string)) :=
  match bs with
  | [] => stret []
  | b :: bs => r <~ Write b ; rs <~ writes bs ; stret (r :: rs)
  end.
End write.

(** ** Reading *)

(** [head] ends with its first empty line. *)
Definition header_block (head : bytes) : Prop :=
  exists h, head = h ++ blank_line /\ Index head blank_line = Some (length h).

Lemma Index_app b sep x n : sep <> [] -> Index b sep = Some n -> Index (b ++ x) sep = Some n.
Proof.
  intros Hs. revert n. induction b as [|c b IH]; intros n.
  { cbn [Index]. rewrite decide_False; [done|]. destruct sep; [done|discriminate]. }
  cbn [Index app]. destruct (decide (take (length sep) (c :: b) = sep)) as [E|E].
  - intros [= <-]. rewrite decide_True; [done|]. rewrite app_comm_cons, take_app_le; [done|].
    apply (f_equal length) in E. rewrite length_take in E. lia.
  - destruct (Index b sep) as [m|] eqn:Em; [|done]. cbn. intros [= <-]. rewrite decide_False.
    + by rewrite (IH m).
    + intros E'. apply E. rewrite app_comm_cons in E'.
      assert (length sep <= length (c :: b))%nat as Hl.
      2:{ by rewrite take_app_le in E'. }
      clear -Em. revert m Em. induction b as [|d b IHb]; intros m; cbn [Index].
      * destruct (decide _) as [E|]; [|done]. intros _. rewrite take_nil in E. rewrite <- E. simpl. lia.
      * destruct (decide _) as [E|].
        -- intros _. apply (f_equal length) in E. rewrite length_take in E. cbn [length] in *. lia.
        -- destruct (Index b sep); [|done]. intros _. specialize (IHb _ eq_refl). cbn [length] in *. lia.
Qed.

(** The connection will still hand out [left]. *)
Definition holds (left : bytes) (o : HTTPObfs) : Prop :=
  firstResponse o = false /\ segs_ok (hin o) /\ buf o <> Some [] /\ left = default [] (buf o) ++ mjoin (hin o).

#[local] Instance http_delivers : Delivers Read holds "EOF".
Proof.
  split.
  - intros left k [segs tr hh pp [rest|] fr fp] Hk (Hf & Hs & Hb & ->) Hne; unfold Read; cbn in *; subst fp.
    + assert (take (Z.to_nat k) rest <> []) as Ht.
      { destruct rest; [done|]. by destruct (Z.to_nat k) eqn:E; [lia|]. }
      exists (take (Z.to_nat k) rest), (drop (Z.to_nat k) rest ++ mjoin segs). eexists. split; [done|].
      split; [done|]. split; [by rewrite app_assoc, take_drop|]. unfold holds, received. cbn [firstResponse hin buf].
      destruct (Z.leb_spec (zlen rest) k) as [Hl|Hl]; unfold zlen in Hl; split_and!; try done.
      * by rewrite drop_ge by lia.
      * intros [= E%(f_equal length)].
        rewrite length_drop in E. simpl in E. lia.
    + destruct (seg_read_spec k segs Hk Hs Hne) as (b & segs' & E & Hb' & _ & Ej & Hs'). rewrite E.
      exists b, (mjoin segs'). eexists. split; [done|]. split; [done|]. split; [done|]. by split_and!.
  - intros k [segs tr hh pp [rest|] fr fp] Hk (Hf & Hs & Hb & Hl); unfold Read; cbn in *; subst fp.
    + destruct rest; [done|]. discriminate.
    + destruct Hs as [|s ss Hs' _]; [done|]. destruct s; [done|discriminate].
Qed.

(** The first read, of a segment that starts with the whole header. *)
Lemma first_read head x ss k tr hh pp : header_block head -> zlen head <= RelayBufferSize -> segs_ok ss -> 1 <= k ->
  exists out left o, Read k (NewHTTPObfs ((head ++ x) :: ss) tr hh pp) = (Ret out, o) /\
    out ++ left = x ++ mjoin ss /\ holds left o.
Proof.
  intros (h & -> & Hi) Hl Hs Hk. unfold Read, NewHTTPObfs. cbn [buf firstResponse hin seg_read].
  assert (0 <= RelayBufferSize) as HB by done. revert Hl HB. generalize RelayBufferSize. intros RB Hl HB.
  set (R := Z.to_nat RB).
  assert (length (h ++ blank_line) <= R)%nat as HR by (unfold R, zlen in *; lia).
  rewrite take_app_ge by done. rewrite (Index_app _ _ _ (length h)) by done.
  replace (length h + 4)%nat with (length (h ++ blank_line)) by (rewrite length_app; done).
  rewrite drop_app_length. set (y := take (R - length (h ++ blank_line)) x).
  set (segs' := if zlen ((h ++ blank_line) ++ x) <=? RB then ss else drop R ((h ++ blank_line) ++ x) :: ss).
  assert (y ++ mjoin segs' = x ++ mjoin ss /\ segs_ok segs') as [Hj Hs'].
  { unfold segs', y. destruct (Z.leb_spec (zlen ((h ++ blank_line) ++ x)) RB) as [Hc|Hc].
    - split; [|done]. rewrite take_ge; [done|]. unfold zlen in Hc. rewrite length_app in Hc. unfold R. lia.
    - rewrite mjoin_cons, drop_app_ge, app_assoc, take_drop by done. split; [done|]. constructor; [|done].
      intros E%(f_equal length). rewrite length_drop in E. unfold zlen in Hc. rewrite length_app in Hc. cbn [length] in E. assert (Z.of_nat R = RB) by (unfold R; by rewrite Z2Nat.id). lia. }
  exists (take (Z.to_nat k) y), (drop (Z.to_nat k) y ++ mjoin segs'). eexists. split; [done|].
  split; [by rewrite app_assoc, take_drop|]. unfold holds, received. cbn [firstResponse hin buf].
  destruct (Z.ltb_spec k (zlen y)) as [Hc|Hc]; unfold zlen in Hc; split_and!; try done.
  - intros [= E%(f_equal length)]. rewrite length_drop in E. simpl in E. lia.
  - by rewrite drop_ge by lia.
Qed.

(** ** The connection *)

(** The writes of a new connection. *)
Lemma http_writes ok rnd mi pa hh pp b bs : ok hh = true ->
  exists o, writes ok rnd mi pa (env := reliable) (b :: bs) (NewHTTPObfs [] [] hh pp) =
      (Ret ((fun b => (zlen b, None)) <$> b :: bs), o) /\
    delivered (htrace o) = request_head rnd mi pa hh pp (zlen b) ++ mjoin (b :: bs).
Proof.
  intros Hok. cbn [writes]. unfold stbind at 1. unfold Write at 1. cbn [firstRequest NewHTTPObfs host]. rewrite Hok.
  cbn [negb htrace NewHTTPObfs write perform env_fail reliable port app]. unfold stbind at 1.
  set (o1 := requested _ _).
  assert (forall bs o, firstRequest o = false -> existsb is_oob (htrace o) = false ->
    exists o', writes ok rnd mi pa (env := reliable) bs o = (Ret ((fun b => (zlen b, None)) <$> bs), o') /\
      delivered (htrace o') = delivered (htrace o) ++ mjoin bs) as HW.
  { clear. induction bs as [|b bs IH]; intros o Hf Ho; cbn [writes].
    { exists o. by rewrite app_nil_r. }
    unfold stbind at 1. unfold Write at 1. rewrite Hf. cbn [write perform env_fail reliable].
    destruct (IH (mkHttp (hin o) (htrace o ++ [EvWrite b]) (host o) (port o) (buf o) false (firstResponse o)) eq_refl)
      as (o' & E & Hd). { cbn. by rewrite existsb_app, Ho. }
    unfold stbind. rewrite E. exists o'. split; [done|]. rewrite Hd. cbn [htrace].
    rewrite delivered_no_oob by done. rewrite mjoin_cons, app_assoc. cbn. by rewrite app_nil_r. }
  destruct (HW bs o1 eq_refl eq_refl) as (o' & -> & Hd). exists o'. split; [done|].
  rewrite Hd, mjoin_cons. cbn. by rewrite app_nil_r, <- !app_assoc.
Qed.

(** The HTTP camouflage carries the bytes.  The writes of a new connection go out as
    one request, with the length of the first write as its Content-Length, whose body is
    the first write, followed by the rest as it is; each Write reports its whole length.
    When a response's header arrives whole in the first segment, Read calls with buffers of
    any positive sizes return a prefix of what follows the first empty line, in order, and
    enough of them return all of it and then EOF.  When the first segment does not hold the
    whole header the first Read fails with EOF, although the rest of the stream is still
    there.  A host that http.NewRequest does not accept makes the first Write panic. *)
Theorem http_obfs ok rnd mi pa hh pp b bs :
  (ok hh = true -> exists o, writes ok rnd mi pa (env := reliable) (b :: bs) (NewHTTPObfs [] [] hh pp) =
       (Ret ((fun b => (zlen b, None)) <$> b :: bs), o) /\
     delivered (htrace o) = request_head rnd mi pa hh pp (zlen b) ++ mjoin (b :: bs)) /\
  (forall head x ss tr k ks, header_block head -> zlen head <= RelayBufferSize -> segs_ok ss ->
     1 <= k -> Forall (fun k => 1 <= k) ks ->
     let (outs, e) := reads Read (k :: ks) (NewHTTPObfs ((head ++ x) :: ss) tr hh pp) in
     mjoin outs `prefix_of` x ++ mjoin ss /\
     (zlen (x ++ mjoin ss) < zlen ks -> mjoin outs = x ++ mjoin ss /\ e = Failed "EOF")) /\
  (forall s ss tr k, Index s blank_line = None -> zlen s <= RelayBufferSize ->
     exists o, Read k (NewHTTPObfs (s :: ss) tr hh pp) = (Err "EOF", o) /\ hin o = ss) /\
  (forall segs tr, ok hh = false -> fst (Write ok rnd mi pa (env := reliable) b (NewHTTPObfs segs tr hh pp)) = Panic).
Proof.
  split; [|split; [|split]].
  - apply http_writes.
  - intros head x ss tr k ks Hh Hl Hs Hk Hks. cbn [reads].
    destruct (first_read head x ss k tr hh pp Hh Hl Hs Hk) as (out & left & o & -> & <- & Ho).
    destruct (reads_deliver Read holds "EOF" ks Hks left o Ho) as [H1 H2]. destruct (reads Read ks o) as [outs e].
    cbn [fst snd] in *. rewrite mjoin_cons. split; [by apply prefix_app|]. rewrite zlen_app. pose proof (zlen_nonneg out).
    intros Hlt. destruct H2 as [-> ->]; [lia|done].
  - intros s ss tr k Hi Hl. unfold Read, NewHTTPObfs. cbn [buf firstResponse hin seg_read].
    rewrite take_ge by (unfold zlen in Hl; lia). rewrite Hi, (proj2 (Z.leb_le _ _) Hl). by eexists.
  - intros segs tr Hok. unfold Write. cbn [firstRequest NewHTTPObfs host]. by rewrite Hok.
Qed.

(** A response whose header arrives whole, and the same response with its header cut. *)
Lemma http_obfs_witness :
  let head := bytes_of_string "HTTP/1.1 101" ++ blank_line in
  reads Read [2; 9; 9; 9; 9] (NewHTTPObfs [head ++ [7; 8; 9]; [10]] [] "h" "80") = ([[7; 8]; [9]; [10]], Failed "EOF") /\
  fst (Read 9 (NewHTTPObfs [take 5 head; drop 5 head ++ [7; 8; 9]] [] "h" "80")) = Err "EOF" /\
  exists o, writes (fun _ => true) [] 0 0 (env := reliable) [[1; 2]; [3]] (NewHTTPObfs [] [] "h" "80") = (Ret [(2, None); (1, None)], o) /\
    delivered (htrace o) = request_head [] 0 0 "h" "80" 2 ++ [1; 2; 3].
Proof.
  intros head. destruct (http_obfs (fun _ => true) [] 0 0 "h" "80" [1; 2] [[3]]) as (HW & HR & HE & _).
  destruct (HW eq_refl) as (o & EW & Hd). split; [|split].
  - destruct (HR head [7; 8; 9] [[10]] [] 2 [9; 9; 9; 9]) as [_ _]; [|vm_compute; discriminate|by repeat constructor|lia|by repeat constructor|].
    { exists (bytes_of_string "HTTP/1.1 101"). split; [done|]. vm_compute. reflexivity. }
    vm_compute. reflexivity.
  - destruct (HE (take 5 head) [drop 5 head ++ [7; 8; 9]] [] 9) as (o' & E & _); [vm_compute; reflexivity|vm_compute; discriminate|].
    by rewrite E.
  - by exists o.
Defined.

End HttpObfs.
