(* ===== verification/Shadowsocks.v ===== *)
(** * The shadowsocks proxy (src/tun2socks/proxy/shadowsocks.go)

    A connection to the server: the camouflage over TCP, the cipher over the camouflage, and
    the destination as the first thing written.  Each layer's writes are the writes of the
    layer above; the cipher sees the errors of the camouflage below it.  Datagrams carry
    their destination in front of the payload. *)

From S2P Require Import Prelude GoStrings GoState Conn GoIO NetIP GoNet FakeIP Socks5 Aead ShadowStream Ciphers SocksClient Obfs HttpObfs.

From Stdlib Require Import FunctionalExtensionality.

Module Shadowsocks.

(** ** Connections with a cipher *)

(** The net.Conn that cipher.StreamConn returns, over the trace of the layer below: the
    connection itself, an AEAD connection with its writer's AEAD and nonce once there is
    one, a stream connection. *)
Inductive ssconn :=
| PlainConn (tr : list event)
| AeadConn (c : Aead.metaCipher) (w : option (Aead.AEAD * bytes)) (tr : list event)
| StreamConn (c : ShadowStream.Cipher) (s : ShadowStream.Conn).

Definition NewStreamConn (c : Ciphers.cipher) : ssconn :=
  match c with
  | Ciphers.dummy => PlainConn []
  | Ciphers.AeadCipher c _ => AeadConn c None []
  | Ciphers.StreamCipher c _ => StreamConn c (ShadowStream.NewConn [] [])
  end.

Definition trace_of (c : ssconn) : list event :=
  match c with
  | PlainConn tr | AeadConn _ _ tr => tr
  | StreamConn _ s => ShadowStream.ctrace s
  end.

Section writing.
Context {env : Env}.

(** A Write call of the AEAD connection once it has a writer. *)
Definition aead_write (c : Aead.metaCipher) (a : Aead.AEAD) (nonce b : bytes) (tr : list event) :
    go (Z * option string) * ssconn :=
  let (r, w) := Aead.Write a b (Aead.mkWriter nonce tr) in
  (r, AeadConn c (Some (a, Aead.wnonce w)) (Aead.wire w)).

(** [c.Write(b)], with the random bytes a new writer would draw. *)
Definition conn_write (rand b : bytes) : St ssconn (Z * option string) := fun c =>
  match c with
  | PlainConn tr =>
    let (r, tr) := write (fun e => e) b tr in
    (Ret (match r with Err e => (0, Some e) | _ => (zlen b, None) end), PlainConn tr)
  | AeadConn c None tr =>
    match Aead.initWriter c rand tr with
    | (Ret a, tr) => aead_write c a (Aead.wnonce (Aead.NewWriter tr)) b tr
    | (Err e, tr) => (Ret (0, Some e), AeadConn c None tr)
    | (Panic, tr) => (Panic, AeadConn c None tr)
    end
  | AeadConn c (Some (a, nonce)) tr => aead_write c a nonce b tr
  | StreamConn ciph s =>
    match ShadowStream.conn_Write ciph rand b s with
    | (Err e, s) => (Ret (0, Some e), StreamConn ciph s)
    | (r, s) => (r, StreamConn ciph s)
    end
  end.
End writing.

(** ** Layers *)

(** A connection written to by the layer above: its state, a Write call's error, and what
    it has put on the TCP connection. *)
Record layer := mkLayer {
  lstate : Type;
  linit : lstate;
  lwrite : bytes -> lstate -> option string * lstate;
  ltrace : lstate -> list event
}.

(** The state after the writes that succeeded. *)
Definition replay (l : layer) (tr : list event) : lstate l :=
  foldl (fun s ev => match ev with EvWrite b => snd (lwrite l b s) | _ => s end) (linit l) tr.

(** The errors the layer above sees. *)
Definition layer_env (l : layer) : Env := fun tr ev =>
  match ev with EvWrite b => fst (lwrite l b (replay l tr)) | _ => None end.

(** The runtime error of using the nil request. *)
Definition nil_deref : string := "invalid memory address or nil pointer dereference".

Section dial.
Context (now : Z) (rnd sid : bytes) (NewRequest_ok : string -> bool) (key : bytes) (minor patch : Z) {env : Env}.

Definition tcp_layer : layer :=
  mkLayer (list event) []
    (fun b tr => let (r, tr) := write (fun e => e) b tr in (match r with Err e => Some e | _ => None end, tr))
    (fun tr => tr).
Definition tls_layer (host : string) : layer :=
  mkLayer Obfs.TLSObfs (Obfs.NewTLSObfs [] (bytes_of_string host))
    (fun b o => let '((_, e), o) := Obfs.Write now rnd sid b o in (e, o)) Obfs.otrace.
Definition http_layer (host port : string) : layer :=
  mkLayer HttpObfs.HTTPObfs (HttpObfs.NewHTTPObfs [] [] host port)
    (fun b o => match HttpObfs.Write NewRequest_ok key minor patch b o with
                | (Ret (_, e), o) => (e, o)
                | (Err e, o) => (Some e, o)
                | (Panic, o) => (Some nil_deref, o)
                end) HttpObfs.htrace.

(** ** The proxy *)

Record Shadowsocks := mkSS { addr : string; cipher : Ciphers.cipher; obfsMode : string; obfsHost : string }.

Definition NewShadowsocks `{Ciphers.Primitives} (addr method password obfsMode obfsHost : string) : go Shadowsocks :=
  match Ciphers.PickCipher method [] password with
  | Ret c => Ret (mkSS addr c obfsMode obfsHost)
  | Err e => Err ("ss initialize: " +:+ e)
  | Panic => Panic
  end.

(** The switch on the camouflage. *)
Definition obfs_layer (ss : Shadowsocks) : layer :=
  if decide (obfsMode ss = "tls")%string then tls_layer (obfsHost ss)
  else if decide (obfsMode ss = "http")%string then
    http_layer (obfsHost ss) (match SplitHostPort (addr ss) with Ret (_, port) => port | _ => "" end)
  else tcp_layer.

Definition serializeSocksAddr (dstIP : option Addr) (dstPort : Z) : bytes := SocksClient.SerializeAddr "" dstIP dstPort.

(** DialContext, given how dialling the server ends: the connection, and what the TCP
    connection to the server got. *)
Definition DialContext (dialed : option string) (rand : bytes) (ss : Shadowsocks) (dstIP : option Addr) (dstPort : Z) :
    go ssconn * list event :=
  match dialed with
  | Some e => (Err ("connect to " +:+ addr ss +:+ ": " +:+ e), [])
  | None =>
    let l := obfs_layer ss in
    let (r, c) := conn_write (env := layer_env l) rand (serializeSocksAddr dstIP dstPort) (NewStreamConn (cipher ss)) in
    let tcp := ltrace l (replay l (trace_of c)) in
    match r with
    | Ret (_, None) => (Ret c, tcp)
    | Ret (_, Some e) => if decide (e = nil_deref) then (Panic, tcp) else (Err e, tcp ++ [EvClose])
    | Err e => (Err e, tcp ++ [EvClose])
    | Panic => (Panic, tcp)
    end
  end.
End dial.

(** ** Datagrams *)

(** DialUDP, given how listening and resolving the server end: the address of the server,
    and whether a packet socket is left open. *)
Definition DialUDP (ss : Shadowsocks) (listen : option string) (ResolveUDPAddr : string -> go bytes) : go bytes * bool :=
  match listen with
  | Some e => (Err ("listen packet: " +:+ e), false)
  | None =>
    match ResolveUDPAddr (addr ss) with
    | Ret a => (Ret a, true)
    | Err e => (Err ("resolve udp address " +:+ addr ss +:+ ": " +:+ e), true)
    | Panic => (Panic, true)
    end
  end.

(** cipher.PacketConn's WriteTo and ReadFrom. *)
Definition packet_write (c : Ciphers.cipher) (rand b : bytes) : go (Z * bytes) :=
  match c with
  | Ciphers.dummy => Ret (zlen b, b)
  | Ciphers.AeadCipher c _ => let! d := Aead.packet_write rand b c in Ret (zlen b, d)
  | Ciphers.StreamCipher c _ => let! d := ShadowStream.packet_write rand b c in Ret (zlen b, d)
  end.
Definition packet_read (c : Ciphers.cipher) (len : Z) (datagram : bytes) : go bytes :=
  match c with
  | Ciphers.dummy => Ret (take (Z.to_nat len) datagram)
  | Ciphers.AeadCipher c _ => Aead.packet_read len datagram c
  | Ciphers.StreamCipher c _ => ShadowStream.packet_read len datagram c
  end.

(** ssPacketConn.WriteTo to an encoded address, [None] for nil: the count it returns and the
    datagram. *)
Definition WriteTo (c : Ciphers.cipher) (rand : bytes) (to : option bytes) (b : bytes) : go (Z * bytes) :=
  let! packet := SocksClient.EncodeUDPPacket to b in
  let! p := slice_from packet 3 in
  packet_write c rand p.

(** ssPacketConn.ReadFrom of a datagram into a buffer of length [len]: the count it returns,
    the sender, and the bytes at the start of the buffer. *)
Definition ReadFrom (c : Ciphers.cipher) (len : Z) (datagram : bytes) : go (Z * (bytes * Z) * bytes) :=
  let! b := packet_read c len datagram in
  let! addr := SocksClient.SplitAddr b in
  match addr with
  | None => Err "parse addr error"
  | Some addr =>
    let! udpAddr := SocksClient.UDPAddr addr in
    match udpAddr with
    | None => Err "parse addr error"
    | Some udpAddr =>
      let! payload := slice_from b (zlen addr) in
      Ret (zlen b - zlen addr, udpAddr, payload)
    end
  end.

(** ** What the cipher writes *)

(** The bytes of each write. *)
Definition writes_of (tr : list event) : list bytes :=
  omap (fun ev => match ev with EvWrite b => Some b | _ => None end) tr.

Lemma writes_of_delivered tr : existsb is_oob tr = false -> mjoin (writes_of tr) = delivered tr.
Proof.
  induction tr as [|[b|b o|d|] tr IH]; cbn; intros H; try done; try (by apply IH). f_equal. by apply IH.
Qed.

(** What was sent so far starts with a write that is not empty. *)
Definition started (tr : list event) : Prop :=
  existsb is_oob tr = false /\ exists b bs, writes_of tr = b :: bs /\ b <> [].

Lemma started_more tr evs : started tr -> existsb is_oob evs = false -> started (tr ++ evs).
Proof.
  intros [Ho (b & bs & E & Hb)] He. split; [by rewrite existsb_app, Ho, He|].
  exists b, (bs ++ writes_of evs). unfold writes_of in *. by rewrite omap_app, E.
Qed.

Section stream.
Context `{Hp : Ciphers.PrimitivesOk} (rand : bytes).

Definition rand_size (c : Ciphers.cipher) : Z :=
  match c with
  | Ciphers.dummy => 0
  | Ciphers.AeadCipher c _ => Aead.SaltSize c
  | Ciphers.StreamCipher c _ => ShadowStream.IVSize c
  end.

(** The connection has sent the encryption of [h]. *)
Definition sent (c : Ciphers.cipher) (h : bytes) (cn : ssconn) : Prop :=
  started (trace_of cn) /\
  match c, cn with
  | Ciphers.dummy, PlainConn tr => delivered tr = h
  | Ciphers.AeadCipher c _, AeadConn c' w tr =>
    c' = c /\ exists a cs, Aead.Encrypter c rand = Ret a /\ Aead.aead_ok a /\ w = Some (a, Aead.nonce_array a (2 * zlen cs)) /\
      delivered tr = rand ++ Aead.frames a 0 cs /\ mjoin cs = h /\ Forall Aead.chunk_ok cs
  | Ciphers.StreamCipher c _, StreamConn c' s =>
    c' = c /\ exists enc dec, ShadowStream.cipher_ok c rand enc dec /\ ShadowStream.sent rand enc h s
  | _, _ => False
  end.

Lemma aead_write_sent c a cs p tr : Aead.aead_ok a -> p <> [] -> started tr ->
  delivered tr = rand ++ Aead.frames a 0 cs -> Forall Aead.chunk_ok cs ->
  exists cs' tr', aead_write (env := reliable) c a (Aead.nonce_array a (2 * zlen cs)) p tr =
      (Ret (zlen p, None), AeadConn c (Some (a, Aead.nonce_array a (2 * zlen cs'))) tr') /\ started tr' /\
    delivered tr' = rand ++ Aead.frames a 0 cs' /\ mjoin cs' = mjoin cs ++ p /\ Forall Aead.chunk_ok cs'.
Proof.
  intros Ha Hne Hst Hd Hc. destruct (Aead.Write_spec a Ha p (2 * zlen cs) tr Hne) as (cs2 & evs & Ej & Hc2 & Hs & Hd2 & E).
  exists (cs ++ cs2), (tr ++ evs). unfold aead_write. rewrite E. cbn [Aead.wnonce Aead.wire]. rewrite zlen_app.
  split; [do 4 f_equal; by rewrite Z.mul_add_distr_l|]. split; [by apply started_more|].
  split; [by rewrite delivered_no_oob, Hd, Hd2, Aead.frames_app, app_assoc|].
  split; [by rewrite join_app, Ej|]. by apply Forall_app.
Qed.

Lemma first_write_sent c p : Ciphers.cipher_ready c -> zlen rand = rand_size c -> p <> [] -> exists cn,
  conn_write (env := reliable) rand p (NewStreamConn c) = (Ret (zlen p, None), cn) /\ sent c p cn.
Proof.
  destruct c as [|c k|c k]; intros Hr Hs Hne; cbn [NewStreamConn conn_write].
  - eexists. split; [done|]. split; [split; [done|by exists p, []]|]. cbn. by rewrite app_nil_r.
  - destruct Hr as (_ & Hsz & Henc). destruct (Henc rand) as (a & Ea & Ha). unfold Aead.initWriter. rewrite Ea.
    cbn [write perform env_fail reliable app Aead.NewWriter Aead.wnonce]. rewrite (Aead.nonce_array_0 a Ha).
    destruct (aead_write_sent c a [] p [EvWrite rand] Ha Hne) as (cs' & tr' & E & Hst & Hd & Ej & Hc); try done.
    { split; [done|]. exists rand, []. split; [done|]. intros ->. cbn in Hs. change (zlen (@nil Z)) with 0 in Hs. lia. }
    change (2 * zlen []) with 0 in E. rewrite E. eexists. split; [done|]. split; [done|]. split; [done|]. by exists a, cs'.
  - destruct Hr as (Hsz & Henc). destruct (Henc rand Hs) as (enc & dec & Hok).
    destruct (ShadowStream.conn_Write_fresh c rand enc dec Hok p []) as (s & -> & Hsent).
    eexists. split; [done|]. split; [|split; [done|by exists enc, dec]]. pose proof Hsent as (_ & evs & E & Ho & _).
    cbn [trace_of]. rewrite E. split; [done|]. exists rand, (writes_of evs). split; [done|]. intros ->.
    cbn in Hs. change (zlen (@nil Z)) with 0 in Hs. lia.
Qed.

Lemma write_sent c h p cn : p <> [] -> sent c h cn -> exists cn',
  conn_write (env := reliable) rand p cn = (Ret (zlen p, None), cn') /\ sent c (h ++ p) cn'.
Proof.
  intros Hne [Hst Hm]. destruct c as [|c k|c k], cn as [tr|c' w tr|c' s]; try done; cbn [conn_write trace_of] in *.
  - eexists. split; [done|]. split; [by apply started_more|]. by rewrite delivered_no_oob, Hm; cbn; rewrite ?app_nil_r.
  - destruct Hm as (-> & a & cs & Ea & Ha & -> & Hd & <- & Hc).
    destruct (aead_write_sent c a cs p tr Ha Hne Hst Hd Hc) as (cs' & tr' & -> & Hst' & Hd' & Ej & Hc').
    eexists. split; [done|]. split; [done|]. split; [done|]. exists a, cs'. by rewrite Ej.
  - destruct Hm as (-> & enc & dec & Hok & Hs).
    destruct (ShadowStream.conn_Write_sent c rand enc dec Hok h p rand s Hs) as (s' & -> & Hs').
    eexists. split; [done|]. split; [|split; [done|by exists enc, dec]].
    pose proof Hs' as (_ & evs & E & Ho & _). destruct Hs as (_ & evs0 & E0 & _). cbn [trace_of]. rewrite E.
    destruct Hst as [_ (b & bs & Ew & Hb)]. rewrite E0 in Ew. injection Ew as <- _. split; [done|]. by exists rand, (writes_of evs).
Qed.

(** The first send fails. *)
Lemma first_write_fails (env : Env) c p e : Ciphers.cipher_ready c -> zlen rand = rand_size c -> p <> [] ->
  (forall b, b <> [] -> env_fail [] (EvWrite b) = Some e) ->
  exists cn, conn_write (env := env) rand p (NewStreamConn c) = (Ret (0, Some e), cn) /\ trace_of cn = [].
Proof.
  intros Hr Hs Hne He. assert (c <> Ciphers.dummy -> rand <> []) as Hrand.
  { intros Hc ->. change (zlen (@nil Z)) with 0 in Hs. destruct c; try done; cbn in *; lia. }
  destruct c as [|c k|c k]; cbn [NewStreamConn conn_write].
  - unfold write, perform. rewrite (He p Hne). by eexists.
  - destruct Hr as (_ & _ & Henc). destruct (Henc rand) as (a & Ea & _). unfold Aead.initWriter. rewrite Ea.
    unfold write, perform. rewrite (He rand (Hrand ltac:(done))). by eexists.
  - destruct Hr as [Hsz _]. unfold ShadowStream.conn_Write, ShadowStream.initWriter, ShadowStream.ObtainWriteIV, stbind, ShadowStream.NewConn.
    cbn [ShadowStream.cw ShadowStream.writeIV]. rewrite (proj2 (Z.eqb_neq _ _)) by (change (zlen (@nil Z)) with 0; lia).
    unfold write, perform. cbn [ShadowStream.ctrace]. rewrite (He rand (Hrand ltac:(done))). by eexists.
Qed.

(** The writes that follow. *)
Fixpoint conn_writes (ps : list bytes) : St ssconn (list (Z * option string)) :=
  match ps with
  | [] => stret []
  | p :: ps => r <~ conn_write (env := reliable) rand p ; rs <~ conn_writes ps ; stret (r :: rs)
  end.

Lemma writes_sent c ps : Forall (fun p => p <> []) ps -> forall h cn, sent c h cn -> exists cn',
  conn_writes ps cn = (Ret ((fun p => (zlen p, None)) <$> ps), cn') /\ sent c (h ++ mjoin ps) cn'.
Proof.
  induction 1 as [|p ps Hp' _ IH]; intros h cn Hs; cbn [conn_writes].
  { exists cn. by rewrite app_nil_r. }
  destruct (write_sent c h p cn Hp' Hs) as (cn1 & E1 & H1). destruct (IH _ _ H1) as (cn2 & E2 & H2).
  unfold stbind. rewrite E1, E2. exists cn2. by rewrite mjoin_cons, app_assoc.
Qed.

(** ** What the peer reads *)

(** The same package's reader at the other end: the connection itself, or the reader that
    takes the salt or the vector first. *)
Definition peer_reads (c : Ciphers.cipher) (segs : list bytes) (ks : list Z) : list bytes * ending :=
  match c with
  | Ciphers.dummy => reads (fun k => seg_read k : St (list bytes) bytes) ks segs
  | Ciphers.AeadCipher c _ =>
    match Aead.initReader c (mjoin segs) with
    | (Ret a, s) => reads (Aead.Read a) ks (Aead.NewReader s)
    | (Err e, _) => ([], Failed e)
    | (Panic, _) => ([], Panicked)
    end
  | Ciphers.StreamCipher c _ => reads (ShadowStream.conn_Read c) ks (ShadowStream.NewConn segs [])
  end.

Lemma seg_delivers : Delivers (fun k => seg_read k : St (list bytes) bytes) (fun left segs => segs_ok segs /\ mjoin segs = left) "EOF".
Proof.
  split.
  - intros left k segs Hk [Hs <-] Hne. destruct (seg_read_spec k segs Hk Hs Hne) as (b & segs' & E & Hb & _ & Ej & Hs').
    by exists b, (mjoin segs'), segs'.
  - intros k segs Hk [Hs Hj]. destruct Hs as [|s ss Hs _]; [done|]. destruct s; [done|discriminate].
Qed.

Lemma sent_reads c h cn segs ks : zlen rand = rand_size c -> sent c h cn -> segs_ok segs -> mjoin segs = delivered (trace_of cn) ->
  Forall (fun k => 1 <= k) ks ->
  let (outs, e) := peer_reads c segs ks in
  mjoin outs `prefix_of` h /\ (zlen h < zlen ks -> mjoin outs = h /\ e = Failed "EOF").
Proof.
  intros Hr [_ Hm] Hs Hj Hks. destruct c as [|c k|c k], cn as [tr|c' w tr|c' s]; try done; cbn [trace_of peer_reads rand_size] in *.
  - assert (Hd := seg_delivers). destruct (reads_deliver _ _ "EOF" ks Hks h segs) as [H1 H2]; [by rewrite Hj, Hm|]. by destruct (reads _ ks segs).
  - destruct Hm as (-> & a & cs & Ea & Ha & _ & Hd & <- & Hc). rewrite Hj, Hd. unfold Aead.initReader.
    rewrite ReadFull_app by done. change (Aead.Decrypter c rand) with (Aead.Encrypter c rand). rewrite Ea.
    assert (Delivers (Aead.Read a) (fun left => Aead.holds a left [] (2 * zlen cs)) "EOF") as HD
      by (apply Aead.Read_delivers; [done|]; intros; by apply Aead.read_eof).
    destruct (reads_deliver (Aead.Read a) _ "EOF" ks Hks (mjoin cs) (Aead.NewReader (Aead.frames a 0 cs))) as [H1 H2].
    { exists 0, cs, None. unfold Aead.NewReader. rewrite app_nil_r, <- (Aead.nonce_array_0 a Ha). by split_and!. }
    by destruct (reads (Aead.Read a) ks _).
  - destruct Hm as (-> & enc & dec & Hok & [_ Hd]%ShadowStream.sent_delivered).
    assert (HD := ShadowStream.conn_delivers c rand enc dec Hok).
    destruct (reads_deliver _ _ "EOF" ks Hks h (ShadowStream.NewConn segs [])) as [H1 H2]; [|by destruct (reads _ ks _)].
    left. eexists. do 3 (split; [done|]). cbn [ShadowStream.csegs ShadowStream.NewConn]. rewrite Hj. split; [exact Hd|]. apply (ShadowStream.dec_enc _ _ _ _ Hok).
Qed.
End stream.

(** ** The layers below *)

Section layers.
Context (now : Z) (rnd sid : bytes) (NewRequest_ok : string -> bool) (key : bytes) (minor patch : Z).
Notation tls := (tls_layer now rnd sid (env := reliable)).
Notation http := (http_layer NewRequest_ok key minor patch (env := reliable)).

Lemma tls_write_ok b o : snd (fst (Obfs.Write now rnd sid (env := reliable) b o)) = None.
Proof.
  unfold Obfs.Write. generalize (zlen b) as n. remember (length b) as fuel eqn:Hf. clear Hf. revert b o.
  induction fuel as [|fuel IH]; intros b o n; cbn [Obfs.write_loop]; [done|].
  destruct (zlen b =? 0); [done|]. unfold Obfs.write. cbn [Conn.write perform env_fail reliable]. apply IH.
Qed.
Lemma tls_reliable host : layer_env (tls host) = reliable.
Proof.
  apply functional_extensionality. intros tr. apply functional_extensionality. intros [b|b o|d|]; try done. cbn.
  pose proof (tls_write_ok b (replay (tls host) tr)) as E. by destruct (Obfs.Write now rnd sid (env := reliable) b _) as [[n e] o].
Qed.
Lemma tls_replay host tr : replay (tls host) tr =
  snd (Obfs.writes now rnd sid (writes_of tr) (Obfs.NewTLSObfs [] (bytes_of_string host))).
Proof.
  unfold replay. cbn [linit tls_layer]. generalize (Obfs.NewTLSObfs [] (bytes_of_string host)).
  induction tr as [|[b|b x|d|] tr IH]; intros o; try done; try apply IH.
  cbn [foldl writes_of omap list_omap lwrite tls_layer Obfs.writes]. destruct (Obfs.Write now rnd sid (env := reliable) b o) as [[n e] o1]. cbn [snd].
  rewrite IH. unfold writes_of. by destruct (Obfs.writes _ _ _ _ o1).
Qed.

Lemma http_write_ok hh pp b o : NewRequest_ok hh = true -> HttpObfs.host o = hh -> HttpObfs.port o = pp ->
  exists o', HttpObfs.Write NewRequest_ok key minor patch (env := reliable) b o = (Ret (zlen b, None), o') /\
    HttpObfs.host o' = hh /\ HttpObfs.port o' = pp.
Proof.
  intros Hok Hh Hp. unfold HttpObfs.Write. rewrite Hh, Hok. destruct (HttpObfs.firstRequest o); by eexists.
Qed.
Lemma http_replay_host hh pp tr : NewRequest_ok hh = true ->
  HttpObfs.host (replay (http hh pp) tr) = hh /\ HttpObfs.port (replay (http hh pp) tr) = pp.
Proof.
  intros Hok. unfold replay. assert (forall o, HttpObfs.host o = hh -> HttpObfs.port o = pp ->
    let o' := foldl (fun s ev => match ev with EvWrite b => snd (lwrite (http hh pp) b s) | _ => s end) o tr in
    HttpObfs.host o' = hh /\ HttpObfs.port o' = pp) as H; [|by apply H].
  induction tr as [|[b|b x|d|] tr IH]; intros o Hh Hp; try done; try (by apply IH). cbn [foldl].
  destruct (http_write_ok hh pp b o Hok Hh Hp) as (o' & E & Hh' & Hp'). cbn [lwrite http_layer]. rewrite E. by apply IH.
Qed.
Lemma http_reliable hh pp : NewRequest_ok hh = true -> layer_env (http hh pp) = reliable.
Proof.
  intros Hok. apply functional_extensionality. intros tr. apply functional_extensionality. intros [b|b o|d|]; try done.
  destruct (http_replay_host hh pp tr Hok) as [Hh Hp]. destruct (http_write_ok hh pp b _ Hok Hh Hp) as (o' & E & _).
  cbn. by rewrite E.
Qed.
Lemma tcp_reliable : layer_env (tcp_layer (env := reliable)) = reliable.
Proof. apply functional_extensionality. intros tr. apply functional_extensionality. by intros []. Qed.

(** What a layer puts on the wire for the writes above it. *)
Lemma tcp_carries tr : existsb is_oob tr = false -> delivered (replay (tcp_layer (env := reliable)) tr) = delivered tr.
Proof.
  unfold replay. cbn [linit tcp_layer]. assert (forall acc, existsb is_oob tr = false ->
    delivered (foldl (fun s ev => match ev with EvWrite b => snd (lwrite (tcp_layer (env := reliable)) b s) | _ => s end) acc tr) =
    delivered acc ++ delivered tr) as H; [|apply (H [])].
  induction tr as [|[b|b x|d|] tr IH]; intros acc Ho; cbn [foldl]; try discriminate; try (by rewrite IH).
  - by rewrite app_nil_r.
  - rewrite IH by done. cbn. rewrite delivered_no_oob by done. cbn. by rewrite app_nil_r, app_assoc.
Qed.
Lemma tls_carries host tr : started tr -> exists c0 cs, c0 ++ mjoin cs = delivered tr /\ Obfs.chunk_ok c0 /\ Forall Obfs.chunk_ok cs /\
  delivered (Obfs.otrace (replay (tls host) tr)) =
  Obfs.makeClientHelloMsg now rnd sid c0 (bytes_of_string host) ++ Obfs.enc_recs (pair Obfs.app_data <$> cs).
Proof.
  intros [Ho (b & bs & E & Hb)]. rewrite tls_replay, <- writes_of_delivered, E by done. cbn [Obfs.writes].
  destruct (Obfs.Write_first now rnd sid b (Obfs.NewTLSObfs [] (bytes_of_string host)) Hb eq_refl) as (cs & evs & Hc0 & Ej & Hcs & Ho1 & Hd & ->).
  match goal with |- context [Obfs.writes now rnd sid bs ?o] => destruct (Obfs.tls_writes_spec now rnd sid bs o eq_refl)
    as (cs' & evs' & Ej' & Hcs' & Ho' & Hd' & ->) end.
  exists (take (Z.to_nat Obfs.chunkSize) b), (cs ++ cs').
  split; [by rewrite mjoin_cons, join_app, Ej, Ej', app_assoc, take_drop|]. split; [done|]. split; [by apply Forall_app|].
  cbn [snd Obfs.otrace Obfs.set_sent Obfs.NewTLSObfs Obfs.server app delivered].
  rewrite delivered_no_oob, Hd, Hd' by done. unfold Obfs.enc_recs. by rewrite fmap_app, fmap_app, join_app.
Qed.
Lemma http_carries hh pp tr : NewRequest_ok hh = true -> started tr -> exists n,
  delivered (HttpObfs.htrace (replay (http hh pp) tr)) = HttpObfs.request_head key minor patch hh pp n ++ delivered tr.
Proof.
  intros Hok [Ho (b & bs & E & Hb)]. exists (zlen b). rewrite <- (writes_of_delivered tr), E by done.
  assert (forall tr o, HttpObfs.host o = hh -> HttpObfs.port o = pp ->
    exists r, HttpObfs.writes NewRequest_ok key minor patch (env := reliable) (writes_of tr) o =
      (Ret r, foldl (fun s ev => match ev with EvWrite b => snd (lwrite (http hh pp) b s) | _ => s end) o tr)) as H.
  { clear -Hok. induction tr as [|[b|b x|d|] tr IH]; intros o Hh Hp; try (by apply IH); [by eexists|].
    cbn [foldl writes_of omap list_omap HttpObfs.writes]. destruct (http_write_ok hh pp b o Hok Hh Hp) as (o' & E & Hh' & Hp').
    unfold stbind at 1. cbn [lwrite http_layer]. rewrite E. cbn [snd]. destruct (IH o' Hh' Hp') as [r Er].
    unfold writes_of in Er. unfold stbind. rewrite Er. by eexists. }
  destruct (H tr (HttpObfs.NewHTTPObfs [] [] hh pp) eq_refl eq_refl) as [r Er].
  destruct (HttpObfs.http_writes NewRequest_ok key minor patch hh pp b bs Hok) as (o & EW & Hd).
  rewrite E, EW in Er. injection Er as _ Er. rewrite <- Hd, Er. reflexivity.
Qed.

(** Every camouflage passes on the error of its first send. *)
Lemma below_fails (env : Env) ss e b : (obfsMode ss = "http"%string -> NewRequest_ok (obfsHost ss) = true) ->
  (forall tr b, env_fail tr (EvWrite b) = Some e) -> b <> [] ->
  let l := obfs_layer now rnd sid NewRequest_ok key minor patch (env := env) ss in
  env_fail (Env := layer_env l) [] (EvWrite b) = Some e /\ ltrace l (linit l) = [].
Proof.
  intros Hh He Hb. unfold obfs_layer, env_fail, layer_env.
  destruct (decide (obfsMode ss = "tls")%string); [|destruct (decide (obfsMode ss = "http")%string)]; cbn.
  - unfold Obfs.Write. destruct b as [|x b]; [done|]. cbn [length Obfs.write_loop].
    rewrite (proj2 (Z.eqb_neq _ _)) by (rewrite zlen_cons; pose proof (zlen_nonneg b); lia).
    unfold Obfs.write, Conn.write, perform. by rewrite He.
  - unfold HttpObfs.Write. cbn [HttpObfs.firstRequest HttpObfs.NewHTTPObfs HttpObfs.host]. rewrite (Hh e0).
    unfold Conn.write, perform. by rewrite He.
  - unfold write, perform. by rewrite He.
Qed.

(** What the TCP connection carries for the bytes [W] of the cipher. *)
Definition carried (ss : Shadowsocks) (W tcp : bytes) : Prop :=
  if decide (obfsMode ss = "tls")%string then
    exists c0 cs, c0 ++ mjoin cs = W /\ Obfs.chunk_ok c0 /\ Forall Obfs.chunk_ok cs /\
      tcp = Obfs.makeClientHelloMsg now rnd sid c0 (bytes_of_string (obfsHost ss)) ++ Obfs.enc_recs (pair Obfs.app_data <$> cs)
  else if decide (obfsMode ss = "http")%string then
    exists port n, tcp = HttpObfs.request_head key minor patch (obfsHost ss) port n ++ W
  else tcp = W.

Notation below := (obfs_layer now rnd sid NewRequest_ok key minor patch (env := reliable)).

Lemma below_carries ss : (obfsMode ss = "http"%string -> NewRequest_ok (obfsHost ss) = true) ->
  layer_env (below ss) = reliable /\
  forall tr, started tr -> carried ss (delivered tr) (delivered (ltrace (below ss) (replay (below ss) tr))).
Proof.
  intros Hh. unfold obfs_layer, carried. destruct (decide (obfsMode ss = "tls")%string); [|destruct (decide (obfsMode ss = "http")%string)].
  - split; [apply tls_reliable|]. intros tr Hs. destruct (tls_carries (obfsHost ss) tr Hs) as (c0 & cs & H1 & H2 & H3 & H4).
    by exists c0, cs.
  - split; [apply http_reliable; auto|]. intros tr Hs.
    destruct (http_carries (obfsHost ss) (match SplitHostPort (addr ss) with Ret (_, port) => port | _ => "" end) tr) as (m & E); [auto|done|].
    by eexists _, m.
  - split; [apply tcp_reliable|]. intros tr [Ho _]. by apply tcp_carries.
Qed.

Lemma serialize_layout a port : exists n enc, serializeSocksAddr (Some a) port = enc ++ put16 port /\ SocksClient.layout enc n /\
  enc = SocksClient.wire_addr a.
Proof. destruct a as [v|v z]; [exists 4|exists 16]; eexists; (split; [|split; [|done]]); try done; by constructor. Qed.

Lemma NewShadowsocks_ready `{Hp : Ciphers.PrimitivesOk} server method password mode host ss :
  NewShadowsocks server method password mode host = Ret ss -> Ciphers.cipher_ready (cipher ss).
Proof.
  unfold NewShadowsocks. destruct (Ciphers.PickCipher method [] password) as [c|e|] eqn:E; try discriminate.
  intros [= <-]. by apply Ciphers.PickCipher_ready in E.
Qed.

(** C38: A shadowsocks connection tells the server its destination and then carries the
    client's bytes.  For every method that NewShadowsocks accepts, every
    destination and every camouflage, DialContext succeeds, and the writes that follow
    report their lengths; the cipher's bytes go out in order, as they are, as the session
    ticket and application-data records of a TLS connection, or after the header of an
    HTTP request.  A peer that reads those bytes with the same cipher, in any segmentation
    and with buffers of any positive sizes, gets the destination and then the writes, in
    order, and then EOF, and SplitAddr finds the destination in front.  A server that
    cannot be dialled, and a first send that fails, give that error, the latter after the
    connection was closed; a host that cannot be put into a request panics. *)
Theorem shadowsocks_stream `{Hp : Ciphers.PrimitivesOk} server method password mode host rand ss a port ps :
  NewShadowsocks server method password mode host = Ret ss -> zlen rand = rand_size (cipher ss) -> Forall (fun p => p <> []) ps ->
  (obfsMode ss = "http"%string -> NewRequest_ok (obfsHost ss) = true) ->
  let D := serializeSocksAddr (Some a) port in
  let dial := fun env : Env => DialContext now rnd sid NewRequest_ok key minor patch (env := env) in
  (exists cn cn' tcp, dial reliable None rand ss (Some a) port = (Ret cn, tcp) /\
     conn_writes rand ps cn = (Ret ((fun p => (zlen p, None)) <$> ps), cn') /\
     carried ss (delivered (trace_of cn')) (delivered (ltrace (below ss) (replay (below ss) (trace_of cn')))) /\
     carried ss (delivered (trace_of cn)) (delivered tcp) /\
     forall segs ks, segs_ok segs -> mjoin segs = delivered (trace_of cn') -> Forall (fun k => 1 <= k) ks ->
       let (outs, e) := peer_reads (cipher ss) segs ks in
       mjoin outs `prefix_of` D ++ mjoin ps /\
       (zlen (D ++ mjoin ps) < zlen ks -> mjoin outs = D ++ mjoin ps /\ e = Failed "EOF")) /\
  SocksClient.SplitAddr (D ++ mjoin ps) = Ret (Some D) /\
  (forall env e, dial env (Some e) rand ss (Some a) port = (Err ("connect to " +:+ addr ss +:+ ": " +:+ e), [])) /\
  (forall env e, (forall tr b, env_fail tr (EvWrite b) = Some e) -> e <> nil_deref ->
     dial env None rand ss (Some a) port = (Err e, [EvClose])).
Proof.
  intros Hnew Hsz Hps Hh D dial. pose proof (NewShadowsocks_ready _ _ _ _ _ _ Hnew) as Hr. destruct (serialize_layout a port) as (n & enc & ED & Hlay & _).
  assert (D <> []) as HD by (unfold D; rewrite ED; by destruct enc).
  destruct (below_carries ss Hh) as [Henv Hcar]. split_and!.
  - destruct (first_write_sent rand (cipher ss) D Hr Hsz HD) as (cn & E1 & Hs1).
    destruct (writes_sent rand (cipher ss) ps Hps D cn Hs1) as (cn' & E2 & Hs2).
    exists cn, cn'. eexists. split; [unfold dial, DialContext; rewrite Henv; fold D; by rewrite E1|].
    split; [done|]. split; [apply Hcar, Hs2|]. split; [apply Hcar, Hs1|].
    intros segs ks Hsg Hj Hks. by apply (sent_reads rand (cipher ss) (D ++ mjoin ps) cn').
  - unfold D. rewrite ED, <- app_assoc. by apply (SocksClient.SplitAddr_enc enc n).
  - done.
  - intros env e He Hne. unfold dial, DialContext. cbv zeta. fold D.
    set (l := obfs_layer now rnd sid NewRequest_ok key minor patch (env := env) ss).
    destruct (first_write_fails rand (layer_env l) (cipher ss) D e Hr Hsz HD) as (cn & -> & ->).
    { intros b Hb. by apply (below_fails env ss e b). }
    cbn [replay foldl]. destruct (below_fails env ss e D Hh He HD) as [_ Hl]. fold l in Hl.
    rewrite decide_False by done. change (replay l []) with (linit l). by rewrite Hl.
Qed.
End layers.

(** ** Datagrams come back *)

Lemma UDPAddr_wire a port : 0 <= port < 65536 ->
  SocksClient.UDPAddr (SocksClient.wire_addr a ++ put16 port) = Ret (Some (tail (SocksClient.wire_addr a), port)).
Proof.
  intros Hp. assert (u16 port = port) as Hu by (by apply u16_small).
  unfold SocksClient.UDPAddr, SocksClient.Valid. destruct a as [v|v z]; cbn [SocksClient.wire_addr tail].
  - rewrite (proj2 (Z.ltb_ge _ _)) by Socks5.zl. rewrite (idx_app _ [] (Socks5.bytes4 v ++ put16 port) SocksClient.AtypIPv4) by done.
    cbn [go_bind]. change (SocksClient.AtypIPv4 =? SocksClient.AtypDomainName) with false.
    change (SocksClient.AtypIPv4 =? SocksClient.AtypIPv4) with true. cbn iota.
    rewrite (proj2 (Z.ltb_ge _ _)) by Socks5.zl. cbn [negb go_bind].
    rewrite (slice_app _ [SocksClient.AtypIPv4] (Socks5.bytes4 v) (put16 port)) by done. cbn [go_bind].
    rewrite (be16_at_app _ (SocksClient.AtypIPv4 :: Socks5.bytes4 v) [] port) by done. by rewrite Hu.
  - rewrite (proj2 (Z.ltb_ge _ _)) by Socks5.zl. rewrite (idx_app _ [] (Socks5.bytes16 v ++ put16 port) SocksClient.AtypIPv6) by done.
    cbn [go_bind]. change (SocksClient.AtypIPv6 =? SocksClient.AtypDomainName) with false.
    change (SocksClient.AtypIPv6 =? SocksClient.AtypIPv4) with false. change (SocksClient.AtypIPv6 =? SocksClient.AtypIPv6) with true. cbn iota.
    rewrite (proj2 (Z.ltb_ge _ _)) by Socks5.zl. cbn [negb go_bind].
    rewrite (slice_app _ [SocksClient.AtypIPv6] (Socks5.bytes16 v) (put16 port)) by done. cbn [go_bind].
    rewrite (be16_at_app _ (SocksClient.AtypIPv6 :: Socks5.bytes16 v) [] port) by done. by rewrite Hu.
Qed.

Section packets.
Context `{Hp : Ciphers.PrimitivesOk} (c : Ciphers.cipher) (rand : bytes).
Context (Hr : Ciphers.cipher_ready c) (Hsz : zlen rand = rand_size c).

(** Any cipher's packets. *)
Lemma cipher_packets p : rand_size c + 511 + zlen p <= 65536 ->
  exists d, packet_write c rand p = Ret (zlen p, d) /\ zlen p <= zlen d /\ forall len, zlen d <= len -> packet_read c len d = Ret p.
Proof.
  intros Hf. pose proof (zlen_nonneg p). pose proof (zlen_nonneg rand). destruct c as [|c' k|c' k]; cbn [packet_write packet_read rand_size] in *.
  - exists p. split; [done|]. split; [done|]. intros len Hl. by rewrite take_ge by (unfold zlen in Hl; lia).
  - destruct Hr as (_ & _ & Henc). destruct (Henc rand) as (a & Ea & Ha). destruct (Aead.overhead_range a Ha).
    destruct (Aead.aead_packets c' rand a p Hsz Ea Ha) as (HP & _). destruct HP as (d & -> & Hd & HR); [unfold Aead.maxPacketSize; lia|].
    exists d. split; [done|]. split; [lia|done].
  - destruct Hr as (_ & Henc). destruct (Henc rand Hsz) as (enc & dec & Hok).
    destruct (ShadowStream.packet_roundtrip c' rand enc dec Hok p) as (d & -> & Hd & HR); [unfold ShadowStream.maxPacketSize; lia|].
    exists d. split; [done|]. split; [lia|done].
Qed.

(** Datagrams through shadowsocks come back with their address.  For every cipher that
    works, every address and every payload that fits, WriteTo's datagram, read back into
    any buffer that holds it, gives the payload, its exact length and the address it was
    sent with; the count WriteTo itself returns is that of the payload with the address in
    front, which is more than it was given.  An address that could not be encoded and a
    sender named by a domain are errors. *)
Theorem shadowsocks_packets a port b :
  0 <= port < 65536 ->
  let D := serializeSocksAddr (Some a) port in
  rand_size c + 511 + zlen D + zlen b <= 65536 ->
  (exists d, WriteTo c rand (Some D) b = Ret (zlen D + zlen b, d) /\ zlen b < zlen D + zlen b /\
     forall len, zlen d <= len -> ReadFrom c len d = Ret (zlen b, (tail (SocksClient.wire_addr a), port), b)) /\
  WriteTo c rand None b = Err "address is invalid" /\
  (forall name d len, 0 < zlen (bytes_of_string name) <= 255 ->
     packet_read c len d = Ret (SocksClient.SerializeAddr name None port ++ b) -> ReadFrom c len d = Err "parse addr error").
Proof.
  intros Hport D Hf. pose proof (zlen_nonneg b). destruct (serialize_layout a port) as (n & enc & ED & Hlay & Ee).
  assert (3 <= zlen D) as HD3 by (unfold D; rewrite ED, zlen_app, length_put16; destruct Hlay as [x|x|x]; pose proof (zlen_nonneg x); Socks5.zl).
  split; [|split; [done|]].
  - assert (slice_from ([0; 0; 0] ++ D ++ b) 3 = Ret (D ++ b)) as ES.
    { unfold slice_from. apply (slice_app _ [0; 0; 0] (D ++ b) []); [by rewrite app_nil_r|done|Socks5.zl]. }
    destruct (cipher_packets (D ++ b)) as (d & Ew & Hd & HR); [rewrite zlen_app; lia|].
    exists d. unfold WriteTo, SocksClient.EncodeUDPPacket. cbn [go_bind]. rewrite ES. cbn [go_bind]. rewrite Ew, zlen_app.
    split; [done|]. split; [lia|]. intros len Hlen. unfold ReadFrom. rewrite HR by done. cbn [go_bind].
    assert (SocksClient.SplitAddr (D ++ b) = Ret (Some D)) as ->.
    { unfold D. rewrite ED, <- app_assoc. by apply (SocksClient.SplitAddr_enc enc n). }
    cbn [go_bind]. assert (SocksClient.UDPAddr D = Ret (Some (tail (SocksClient.wire_addr a), port))) as ->.
    { unfold D. rewrite ED, Ee. by apply UDPAddr_wire. }
    cbn [go_bind]. unfold slice_from. rewrite (slice_app _ D b []); [|by rewrite app_nil_r|done|by rewrite zlen_app].
    cbn [go_bind]. rewrite zlen_app. do 3 f_equal. lia.
  - intros name d len Hn Hd. unfold ReadFrom. rewrite Hd. cbn [go_bind]. set (nb := bytes_of_string name) in *.
    assert (SocksClient.SerializeAddr name None port = (SocksClient.AtypDomainName :: zlen nb :: nb) ++ put16 port) as EN.
    { unfold SocksClient.SerializeAddr. rewrite bool_decide_eq_false_2.
      - cbn [negb]. fold nb. unfold u8. by rewrite Z.mod_small by lia.
      - intros ->. unfold nb in Hn. change (zlen (bytes_of_string "")) with 0 in Hn. lia. }
    rewrite EN, <- app_assoc. rewrite (SocksClient.SplitAddr_enc _ _ _ _ (SocksClient.layname nb ltac:(lia))) by done. cbn [go_bind].
    unfold SocksClient.UDPAddr, SocksClient.Valid.
    rewrite (proj2 (Z.ltb_ge _ _)) by Socks5.zl.
    rewrite (idx_app _ [] (zlen nb :: nb ++ put16 port) SocksClient.AtypDomainName) by done. cbn [go_bind].
    change (SocksClient.AtypDomainName =? SocksClient.AtypDomainName) with true. cbn iota.
    rewrite (idx_app _ [SocksClient.AtypDomainName] (nb ++ put16 port) (zlen nb)) by done. cbn [go_bind].
    rewrite (proj2 (Z.ltb_ge _ _)) by Socks5.zl. done.
Qed.
End packets.

(** ** Witnesses *)

#[local] Existing Instance Ciphers.toy_primitives.
#[local] Existing Instance Ciphers.toy_primitives_ok.

Definition w_cipher : Ciphers.cipher :=
  Ciphers.AeadCipher (Aead.mkCipher (default [] (match Ciphers.Kdf (bytes_of_string "pw") 16 with Ret k => Some k | _ => None end))
    Ciphers.hkdfSHA1 Ciphers.aesGCM) (default [] (match Ciphers.Kdf (bytes_of_string "pw") 16 with Ret k => Some k | _ => None end)).
Definition w_ss (mode : string) : Shadowsocks := mkSS "server:8388" w_cipher mode "example.com".

Lemma w_new mode : NewShadowsocks "server:8388" "aes-128-gcm" "pw" mode "example.com" = Ret (w_ss mode).
Proof. vm_compute. reflexivity. Qed.

(** A toy cipher under TLS camouflage: the peer reads the address and two writes. *)
Lemma shadowsocks_stream_witness :
  exists cn tcp, DialContext 0 (replicate 28 1) (replicate 32 2) (fun _ => true) [] 0 0 (env := reliable) None (replicate 16 9) (w_ss "tls")
      (Some (Addr4 0x01020304)) 443 = (Ret cn, tcp) /\
    SocksClient.SplitAddr ([1; 1; 2; 3; 4; 1; 187] ++ [5; 6; 7]) = Ret (Some [1; 1; 2; 3; 4; 1; 187]).
Proof.
  destruct (shadowsocks_stream 0 (replicate 28 1) (replicate 32 2) (fun _ => true) [] 0 0 "server:8388" "aes-128-gcm" "pw" "tls" "example.com"
    (replicate 16 9) (w_ss "tls") (Addr4 0x01020304) 443 [[5; 6]; [7]]) as ((cn & cn' & tcp & E & _) & HS & _).
  - exact (w_new "tls").
  - vm_compute. reflexivity.
  - repeat constructor; discriminate.
  - discriminate.
  - exists cn, tcp. split; [exact E|exact HS].
Defined.

(** A datagram to 1.2.3.4:443, sent and read back. *)
Lemma shadowsocks_packets_witness :
  exists d, WriteTo (cipher (w_ss "")) (replicate 16 9) (Some [1; 1; 2; 3; 4; 1; 187]) [5; 6] = Ret (9, d) /\
    ReadFrom (cipher (w_ss "")) 100 d = Ret (2, ([1; 2; 3; 4], 443), [5; 6]).
Proof.
  destruct (shadowsocks_packets (cipher (w_ss "")) (replicate 16 9) (NewShadowsocks_ready _ _ _ _ _ _ (w_new "")) eq_refl (Addr4 0x01020304) 443 [5; 6]) as ((d & E & _ & HR) & _).
  - lia.
  - vm_compute. discriminate.
  - exists d. split; [exact E|]. assert (zlen d = 27) as Hd; [|apply HR; rewrite Hd; lia].
    vm_compute in E. injection E as <-. reflexivity.
Defined.

(** A server that cannot be resolved leaves the packet socket open. *)
Lemma DialUDP_leaks ss resolve e : resolve (addr ss) = Err e ->
  exists m, DialUDP ss None resolve = (Err m, true).
Proof. intros E. unfold DialUDP. rewrite E. by eexists. Qed.

End Shadowsocks.
