(* ===== verification/Proxies.v ===== *)
(** * The other proxies of the TUN side (src/tun2socks/proxy, transport/socks4, engine/parse.go)

    Dialling through SOCKS5, SOCKS4(A) and HTTP CONNECT servers, and the construction of a
    proxy from its URL.  url.Parse, http.ReadResponse and the schema decoder are parameters. *)

From S2P Require Import Prelude GoStrings GoState Conn GoIO NetIP GoNet FakeIP Gfw Socks5 Ciphers SocksClient HttpObfs Shadowsocks.

Module Proxies.
Import SocksClient.

(** ** SOCKS4 (transport/socks4/socks4.go) *)

Module Socks4.
Definition Version : Z := 0x04.
Definition CmdConnect : Z := 0x01.
Definition CmdBind : Z := 0x02.
Definition RequestGranted : Z := 90.
Definition RequestRejected : Z := 91.
Definition RequestIdentdFailed : Z := 92.
Definition RequestIdentdMismatched : Z := 93.

Definition ErrRequestRejected : string := "request rejected or failed".
Definition ErrRequestIdentdFailed : string :=
  "request rejected because SOCKS server cannot connect to identd on the client".
Definition ErrRequestIdentdMismatched : string :=
  "request rejected because the client program and identd report different user-ids".
Definition ErrRequestUnknownCode : string := "request failed with unknown code".

(** The text of strconv's error is not followed. *)
Definition splitHostPort (addr : string) : go (string * Z) :=
  let! (host, portStr) := SplitHostPort addr in
  match ParseUint16 portStr with
  | Some port => Ret (host, port)
  | None => Err "strconv.ParseUint"
  end.

(** 0.0.0.x with x not zero. *)
Definition isReservedIP (v : Z) : bool := negb (v =? 0) && (Z.shiftr v 8 =? 0).

(** The switch on the parsed host: the IPv4 address of the request. *)
Definition request_ip (host : string) : go Z :=
  match ParseAddr host with
  | None => Ret 1
  | Some (Addr4 v) => Ret v
  | Some (Addr6 v _) => if is4in6 v then Ret (v mod 2 ^ 32) else Err "IPv6 not supported"
  end.

Definition request (command port ip : Z) (userID host : string) : bytes :=
  [Version] ++ [command] ++ put16 port ++ Socks5.bytes4 ip ++ bytes_of_string userID ++ [0x00] ++
  (if isReservedIP ip then bytes_of_string host ++ [0] else []).

(** The switch on the reply. *)
Definition reply (code : Z) : go unit :=
  if code =? RequestGranted then Ret tt
  else if code =? RequestRejected then Err ErrRequestRejected
  else if code =? RequestIdentdFailed then Err ErrRequestIdentdFailed
  else if code =? RequestIdentdMismatched then Err ErrRequestIdentdMismatched
  else Err ErrRequestUnknownCode.

Definition ClientHandshake {env : Env} (addr : string) (command : Z) (userID : string) : St client unit :=
  if command =? CmdBind then stfail "command not supported"
  else
    hp <~ stlift (splitHostPort addr) ;
    let '(host, port) := hp in
    ip <~ stlift (request_ip host) ;
    send (request command port ip userID host) ~;
    resp <~ read_full 8 ;
    ver <~ stlift (idx resp 0) ;
    if negb (ver =? 0x00) then stfail "version code mismatched"
    else
      code <~ stlift (idx resp 1) ;
      stlift (reply code).
End Socks4.

(** ** HTTP CONNECT (proxy/http.go) *)

(** base64.StdEncoding. *)
Definition StdEncode (b : bytes) : bytes :=
  (fun c => if c =? 45 then 43 else if c =? 95 then 47 else c) <$> HttpObfs.URLEncode b.

Definition basicAuth (username password : string) : string :=
  let auth := (username +:+ ":" +:+ password)%string in
  string_of_bytes (StdEncode (bytes_of_string auth)).

(** http.ReadResponse over a bufio.Reader: status code and text, and what is left on the
    connection when it returns. *)
Class HttpLib := ReadResponse : list bytes -> go (Z * string) * list bytes.

(** The connection to the proxy. *)
Record hconn := mkHC { hin : list bytes; hout : list event }.

(** What [req.Write] sends for a CONNECT request. *)
Definition connect_request (addr user pass : string) : bytes :=
  HttpObfs.line ("CONNECT " +:+ addr +:+ " HTTP/1.1") ++
  HttpObfs.line ("Host: " +:+ addr) ++
  HttpObfs.line "User-Agent: Go-http-client/1.1" ++
  (if bool_decide (user <> "")%string && bool_decide (pass <> "")%string
   then HttpObfs.line ("Proxy-Authorization: Basic " +:+ basicAuth user pass) else []) ++
  HttpObfs.line "Proxy-Connection: Keep-Alive" ++ HttpObfs.crlf.

Definition connect_verdict (code : Z) (status : string) : go unit :=
  if code =? 200 then Ret tt
  else if code =? 407 then Err "HTTP auth required by proxy"
  else if code =? 405 then Err "CONNECT method not allowed by proxy"
  else Err ("HTTP connect status: " +:+ status).

Definition shakeHand `{HttpLib} {env : Env} (addr user pass : string) : St hconn unit := fun c =>
  match write (fun e => e) (connect_request addr user pass) (hout c) with
  | (Ret _, tr) =>
    match ReadResponse (hin c) with
    | (Ret (code, status), segs) => (connect_verdict code status, mkHC segs tr)
    | (Err e, segs) => (Err e, mkHC segs tr)
    | (Panic, segs) => (Panic, mkHC segs tr)
    end
  | (Err e, tr) => (Err e, mkHC (hin c) tr)
  | (Panic, tr) => (Panic, mkHC (hin c) tr)
  end.

(** ** The proxies *)

Record Socks5Proxy := mkSocks5 { s5addr : string; s5user : string; s5pass : string; unix : bool }.

(** [len(addr) > 2 && addr[1] == '@' || addr[1] == 0x00]. *)
Definition abstract_name (addr : string) : go bool :=
  let b := bytes_of_string addr in
  let nul := let! c := idx b 1 in Ret (c =? 0) in
  if 2 <? zlen b then let! c := idx b 1 in if c =? 64 then Ret true else nul else nul.

Definition NewSocks5 (addr user pass : string) : go Socks5Proxy :=
  let b := bytes_of_string addr in
  let! slash := if 0 <? zlen b then let! c := idx b 0 in Ret (c =? 47) else Ret false in
  let! strip := abstract_name addr in
  let! b := if strip then slice_from b 1 else Ret b in
  Ret (mkSocks5 (string_of_bytes b) user pass slash).

(** The dial and the handshake of a proxy; an error closes the connection. *)
Definition with_handshake {T} (addr : string) (dialed : option string) (close : T -> T) (m : St T unit) (c : T) : go unit * T :=
  match dialed with
  | Some e => (Err ("connect to " +:+ addr +:+ ": " +:+ e), c)
  | None =>
    match m c with
    | (Ret _, c) => (Ret tt, c)
    | (Err e, c) => (Err e, close c)
    | (Panic, c) => (Panic, c)
    end
  end.

Definition close_client (c : client) : client := mkClient (inp c) (out c ++ [EvClose]).
Definition close_http (c : hconn) : hconn := mkHC (hin c) (hout c ++ [EvClose]).

Definition user_of (user pass : string) : option User := if decide (user = "")%string then None else Some (mkUser user pass).

Section dial.
Context {env : Env}.

Definition Socks5_DialContext (ss : Socks5Proxy) (dialed : option string) (dstIP : option Addr) (dstPort : Z) : client -> go unit * client :=
  with_handshake (s5addr ss) dialed close_client
    (ClientHandshake (Shadowsocks.serializeSocksAddr dstIP dstPort) CmdConnect (user_of (s5user ss) (s5pass ss)) ~; stret tt).
Definition Socks4_DialContext (addr userID destination : string) (dialed : option string) : client -> go unit * client :=
  with_handshake addr dialed close_client (Socks4.ClientHandshake destination Socks4.CmdConnect userID).
Definition HTTP_DialContext `{HttpLib} (addr user pass destination : string) (dialed : option string) : hconn -> go unit * hconn :=
  with_handshake addr dialed close_http (shakeHand destination user pass).

(** [IP.IsUnspecified] of an address in 4 or 16 bytes. *)
Definition IsUnspecified (ip : bytes) : bool := bool_decide (ip = replicate 4 0) || bool_decide (ip = replicate 16 0).

(** Socks5.DialUDP, given how dialling, listening and resolving the server end: the address
    datagrams are sent to. *)
Definition Socks5_DialUDP (ss : Socks5Proxy) (dialed listen : option string) (resolved : go bytes) (c : client) :
    go (bytes * Z) * client :=
  if unix ss then (Err "unsupported operation when unix domain socket is enabled", c)
  else
    match dialed with
    | Some e => (Err ("connect to " +:+ s5addr ss +:+ ": " +:+ e), c)
    | None =>
      match ClientHandshake [AtypIPv4; 0; 0; 0; 0; 0; 0] CmdUDPAssociate (user_of (s5user ss) (s5pass ss)) c with
      | (Ret addr, c) =>
        match listen with
        | Some e => (Err ("listen packet: " +:+ e), close_client c)
        | None =>
          match UDPAddr addr with
          | Ret (Some (ip, port)) =>
            if IsUnspecified ip then
              match resolved with
              | Ret ip' => (Ret (ip', port), c)
              | Err e => (Err ("resolve udp address " +:+ s5addr ss +:+ ": " +:+ e), close_client c)
              | Panic => (Panic, c)
              end
            else (Ret (ip, port), c)
          | Ret None => (Err "invalid UDP binding address", close_client c)
          | Err e => (Err e, close_client c)
          | Panic => (Panic, c)
          end
        end
      | (Err e, c) => (Err ("client handshake: " +:+ e), close_client c)
      | (Panic, c) => (Panic, c)
      end
    end.
End dial.

(** ** Proxies by URL (engine/parse.go) *)

Inductive Proxy :=
| Direct
| Reject
| HTTP (addr user pass : string)
| Socks4P (addr userID : string)
| Socks5P (p : Socks5Proxy)
| SS (p : Shadowsocks.Shadowsocks)
| RelayP (addr user pass : string) (noDelay : bool).

(** net/url's URL, as far as it is used; the user with the password if there is one. *)
Record URL := mkURL { Scheme : string; Host : string; Path : string; RawQuery : string; UserInfo : option (string * option string) }.

Class UrlLib := {
  url_Parse : string -> go URL;
  (* u.User.String() *)
  User_String : URL -> go string;
  (* what base64.RawURLEncoding.DecodeString returns besides its error *)
  RawURLDecode : string -> bytes;
  QueryUnescape : string -> go string;
  (* schema.NewDecoder().Decode(&opts, u.Query()): opts.NoDelay *)
  decode_NoDelay : string -> go bool
}.

(** [strings.SplitN(s, sep, 2)]. *)
Definition SplitN2 (s : string) (sep : Ascii.ascii) : list string :=
  match IndexByte s sep with
  | Some i => [stake i s; sdrop (S i) s]
  | None => [s]
  end.

Section parse.
Context `{UrlLib} `{Ciphers.Primitives}.

Definition Username (u : URL) : string := match UserInfo u with Some (n, _) => n | None => "" end.
Definition Password (u : URL) : option string := match UserInfo u with Some (_, p) => p | None => None end.

(** One element of the query. *)
Definition ss_option (s : string) (modeHost : string * string) : string * string :=
  match SplitN2 s "=" with
  | [key; value] =>
    if decide (key = "obfs")%string then (value, snd modeHost)
    else if decide (key = "obfs-host")%string then (fst modeHost, value)
    else modeHost
  | _ => modeHost
  end.

(** The method and the password. *)
Definition ss_credentials (u : URL) : go (string * string) :=
  let! ss := User_String u in
  if decide (ss = "")%string then Ret ("dummy", "")%string
  else match Password u with
       | Some pass => Ret (Username u, pass)
       | None =>
         match SplitN2 (string_of_bytes (RawURLDecode ss)) ":" with
         | [method; password] => Ret (method, password)
         | _ => Ret ("", "")%string
         end
       end.

Definition parseShadowsocks (u : URL) : go Proxy :=
  let! (method, password) := ss_credentials u in
  let rawQuery := match QueryUnescape (RawQuery u) with Ret q => q | _ => ""%string end in
  let '(obfsMode, obfsHost) := fold_left (fun acc s => ss_option s acc) (Split rawQuery ";") ("", "")%string in
  let! p := Shadowsocks.NewShadowsocks (Host u) method password obfsMode obfsHost in
  Ret (SS p).

Definition parseSocks5 (u : URL) : go Proxy :=
  let address := if decide (Host u = "")%string then Path u else Host u in
  let! p := NewSocks5 address (Username u) (default "" (Password u))%string in
  Ret (Socks5P p).

Definition parseRelay (u : URL) : go Proxy :=
  let! noDelay := decode_NoDelay (RawQuery u) in
  Ret (RelayP (Host u) (Username u) (default "" (Password u))%string noDelay).

Definition parseProxy (s : string) : go Proxy :=
  let s := if Contains s "://" then s else ("socks5://" +:+ s)%string in
  let! u := url_Parse s in
  let protocol := ToLower (Scheme u) in
  if decide (protocol = "direct")%string then Ret Direct
  else if decide (protocol = "reject")%string then Ret Reject
  else if decide (protocol = "http")%string then Ret (HTTP (Host u) (Username u) (default "" (Password u))%string)
  else if decide (protocol = "socks4")%string then Ret (Socks4P (Host u) (Username u))
  else if decide (protocol = "socks5")%string then parseSocks5 u
  else if decide (protocol = "ss")%string then parseShadowsocks u
  else if decide (protocol = "relay")%string then parseRelay u
  else Err ("unsupported protocol: " +:+ protocol).
End parse.

(** ** SOCKS4 requests as a server reads them *)

(** The bytes up to the first NUL, and those behind it. *)
Fixpoint until_nul (b : bytes) : option (bytes * bytes) :=
  match b with
  | [] => None
  | x :: b => if x =? 0 then Some ([], b) else '(s, r) ← until_nul b; Some (x :: s, r)
  end.
Inductive dst4 := IPDst (v : Z) | HostDst (host : bytes).
(** Command, port, destination, user and what follows; 0.0.0.x announces a host name. *)
Definition parse4 (b : bytes) : option (Z * Z * dst4 * bytes * bytes) :=
  match b with
  | v :: cmd :: p1 :: p2 :: a1 :: a2 :: a3 :: a4 :: b =>
    if negb (v =? 4) then None
    else
      '(user, b) ← until_nul b;
      if (a1 =? 0) && (a2 =? 0) && (a3 =? 0) && negb (a4 =? 0) then
        '(host, b) ← until_nul b; Some (cmd, be16 p1 p2, HostDst host, user, b)
      else Some (cmd, be16 p1 p2, IPDst (of_fields 8 [a1; a2; a3; a4]), user, b)
  | _ => None
  end.

Definition no_nul (s : string) : Prop := Forall (fun x => x <> 0) (bytes_of_string s).

Lemma until_nul_app s rest : Forall (fun x => x <> 0) s -> until_nul (s ++ 0 :: rest) = Some (s, rest).
Proof.
  induction 1 as [|x s Hx _ IH]; [done|]. cbn [app until_nul]. rewrite (proj2 (Z.eqb_neq _ _) Hx), IH. done.
Qed.

Lemma reserved_octets v : 0 <= v < 2 ^ 32 -> exists a1 a2 a3 a4, Socks5.bytes4 v = [a1; a2; a3; a4] /\
  of_fields 8 [a1; a2; a3; a4] = v /\ ((a1 =? 0) && (a2 =? 0) && (a3 =? 0) && negb (a4 =? 0)) = Socks4.isReservedIP v.
Proof.
  intros Hv. pose proof (of_fields_octets v Hv) as Ho. pose proof (octets_byte v) as Hb. unfold Socks5.bytes4.
  assert (exists a1 a2 a3 a4, octets v = [a1; a2; a3; a4]) as (a1 & a2 & a3 & a4 & E) by (by eexists _, _, _, _).
  rewrite E in Ho, Hb. exists a1, a2, a3, a4. split; [done|]. split; [done|].
  repeat (apply Forall_cons in Hb as [? Hb]). unfold is_byte in *.
  assert (v = ((a1 * 256 + a2) * 256 + a3) * 256 + a4) as Ev by (rewrite <- Ho; unfold of_fields; cbn; change (Z.pow_pos 2 8) with 256; lia).
  unfold Socks4.isReservedIP. rewrite Z.shiftr_div_pow2 by lia. change (2 ^ 8) with 256.
  assert (v / 256 = (a1 * 256 + a2) * 256 + a3) as -> by (symmetry; apply (Z.div_unique_pos v 256 _ a4); lia).
  destruct (Z.eqb_spec a1 0), (Z.eqb_spec a2 0), (Z.eqb_spec a3 0), (Z.eqb_spec a4 0), (Z.eqb_spec v 0),
    (Z.eqb_spec ((a1 * 256 + a2) * 256 + a3) 0); cbn; try done; lia.
Qed.

(** A request reads back. *)
Lemma request_parse cmd port ip userID host rest : 0 <= port < 65536 -> 0 <= ip < 2 ^ 32 -> no_nul userID ->
  (Socks4.isReservedIP ip = true -> no_nul host) ->
  parse4 (Socks4.request cmd port ip userID host ++ rest) =
  Some (cmd, port, if Socks4.isReservedIP ip then HostDst (bytes_of_string host) else IPDst ip, bytes_of_string userID, rest).
Proof.
  intros Hp Hi Hu Hh. unfold Socks4.request. destruct (reserved_octets ip Hi) as (a1 & a2 & a3 & a4 & E & Ef & Er). rewrite E.
  unfold put16. cbn [app parse4]. change (negb (Socks4.Version =? 4)) with false. cbn iota. rewrite <- app_assoc. cbn [app].
  rewrite until_nul_app by done. cbn [mbind option_bind]. rewrite Er.
  assert (be16 (u16 port / 256) (u16 port mod 256) = port) as ->.
  { rewrite (put16_be16 port) by done. by apply u16_small. }
  destruct (Socks4.isReservedIP ip) eqn:Eri.
  - rewrite <- app_assoc. cbn [app]. by rewrite (until_nul_app _ _ (Hh eq_refl)).
  - by rewrite Ef.
Qed.

(** The text of a reserved address has no NUL. *)
Lemma reserved_text v : Socks4.isReservedIP v = true -> 0 <= v -> no_nul (AddrString (Addr4 v)).
Proof.
  unfold Socks4.isReservedIP. intros [_ Hs%Z.eqb_eq]%andb_true_iff Hv. rewrite Z.shiftr_div_pow2 in Hs by lia. change (2 ^ 8) with 256 in Hs.
  pose proof (Z.div_mod v 256 ltac:(lia)). pose proof (Z.mod_pos_bound v 256 ltac:(lia)).
  assert (forallb (fun n => forallb (fun x => negb (x =? 0)) (bytes_of_string (AddrString (Addr4 (Z.of_nat n))))) (seq 0 256) = true) as HA
    by (vm_compute; reflexivity).
  rewrite forallb_forall in HA. specialize (HA (Z.to_nat v)). rewrite Z2Nat.id in HA by done. unfold no_nul. apply Forall_forall.
  intros x Hx%list_elem_of_In. specialize (HA ltac:(apply in_seq; lia)). rewrite forallb_forall in HA. specialize (HA x Hx).
  apply negb_true_iff, Z.eqb_neq in HA. done.
Qed.

(** The handshake for a destination that can be asked for. *)
Lemma handshake4_run addr host port ip userID r inp0 :
  Socks4.splitHostPort addr = Ret (host, port) -> Socks4.request_ip host = Ret ip ->
  ReadFull 8 inp0 = r ->
  Socks4.ClientHandshake (env := reliable) addr Socks4.CmdConnect userID (mkClient inp0 []) =
  match r with
  | (Ret resp, rest) =>
    ((let! ver := idx resp 0 in if negb (ver =? 0) then Err "version code mismatched" else let! code := idx resp 1 in Socks4.reply code),
     mkClient rest [EvWrite (Socks4.request Socks4.CmdConnect port ip userID host)])
  | (Err e, rest) => (Err e, mkClient rest [EvWrite (Socks4.request Socks4.CmdConnect port ip userID host)])
  | (Panic, rest) => (Panic, mkClient rest [EvWrite (Socks4.request Socks4.CmdConnect port ip userID host)])
  end.
Proof.
  intros Es Ei Er. unfold Socks4.ClientHandshake. change (Socks4.CmdConnect =? Socks4.CmdBind) with false. cbn iota.
  unfold stbind at 1, stlift at 1. rewrite Es. unfold stbind at 1, stlift at 1. rewrite Ei. unfold stbind at 1, send. cbn [write perform env_fail reliable out inp app].
  unfold stbind at 1, read_full. cbn [inp out]. rewrite Er. destruct r as [[resp|e|] rest]; try done.
  unfold stbind, stlift. destruct (idx resp 0) as [ver|e|]; try done. cbn [go_bind]. destruct (negb (ver =? 0)); [done|].
  by destruct (idx resp 1).
Qed.

(** SOCKS4 requests say what was asked for.  For every IPv4 destination, and every
    IPv6 form of one, the client sends one request that a server reads back as CONNECT to
    that address and port with the configured user; an address 0.0.0.x is sent as the text
    of the address, as SOCKS4A demands, and a name is sent as the name.  The client
    succeeds exactly when the reply says granted, with the bytes behind the reply left for
    the connection, and fails with the text of the code otherwise, closing the connection.
    Other IPv6 destinations and BIND are refused before anything is sent. *)
Theorem socks4_request addr userID port : no_nul userID -> 0 <= port < 65536 ->
  (forall a v code rest later, plain a -> (a = Addr4 v \/ exists w, a = Addr6 w "" /\ is4in6 w = true /\ v = w mod 2 ^ 32) ->
     length rest = 6%nat ->
     let destination := JoinHostPort (AddrString a) (Itoa port) in
     (Socks4.isReservedIP v = true -> no_nul (AddrString a)) ->
     exists c, Socks4_DialContext (env := reliable) addr userID destination None (mkClient (0 :: code :: rest ++ later) []) =
         (Socks4.reply code, if code =? Socks4.RequestGranted then c else close_client c) /\ inp c = later /\
       parse4 (delivered (out c)) = Some (Socks4.CmdConnect, port,
         if Socks4.isReservedIP v then HostDst (bytes_of_string (AddrString a)) else IPDst v, bytes_of_string userID, [])) /\
  (forall host code rest later, ParseAddr host = None -> clean host -> no_nul host -> length rest = 6%nat ->
     exists c, Socks4_DialContext (env := reliable) addr userID (JoinHostPort host (Itoa port)) None (mkClient (0 :: code :: rest ++ later) []) =
         (Socks4.reply code, if code =? Socks4.RequestGranted then c else close_client c) /\ inp c = later /\
       parse4 (delivered (out c)) = Some (Socks4.CmdConnect, port, HostDst (bytes_of_string host), bytes_of_string userID, [])) /\
  (forall code, Socks4.reply code = Ret tt <-> code = Socks4.RequestGranted) /\
  (forall w c, plain (Addr6 w "") -> is4in6 w = false ->
     Socks4_DialContext (env := reliable) addr userID (JoinHostPort (AddrString (Addr6 w "")) (Itoa port)) None c =
     (Err "IPv6 not supported", close_client c)) /\
  (forall destination c, Socks4.ClientHandshake (env := reliable) destination Socks4.CmdBind userID c = (Err "command not supported", c)).
Proof.
  intros Hu Hp. destruct (Itoa_clean port) as [C1 C2]; [lia|].
  assert (forall host, clean host -> Socks4.splitHostPort (JoinHostPort host (Itoa port)) = Ret (host, port)) as Hsplit.
  { intros host Hc. unfold Socks4.splitHostPort. rewrite SplitHostPort_Join by done. cbn [go_bind]. by rewrite ParseUint16_Itoa. }
  assert (forall code, Socks4.reply code = Ret tt <-> code = Socks4.RequestGranted) as Hrep.
  { intros code. unfold Socks4.reply. destruct (Z.eqb_spec code Socks4.RequestGranted); [naive_solver|].
    split; [|done]. repeat (destruct (_ =? _)); discriminate. }
  assert (forall host ip code rest later, clean host -> Socks4.request_ip host = Ret ip -> 0 <= ip < 2 ^ 32 ->
    (Socks4.isReservedIP ip = true -> no_nul host) -> length rest = 6%nat ->
    exists c, Socks4_DialContext (env := reliable) addr userID (JoinHostPort host (Itoa port)) None (mkClient (0 :: code :: rest ++ later) []) =
      (Socks4.reply code, if code =? Socks4.RequestGranted then c else close_client c) /\ inp c = later /\
      parse4 (delivered (out c)) = Some (Socks4.CmdConnect, port,
        if Socks4.isReservedIP ip then HostDst (bytes_of_string host) else IPDst ip, bytes_of_string userID, [])) as Hgo.
  { intros host ip code rest later Hc Hi Hr Hn Hl. unfold Socks4_DialContext, with_handshake.
    assert (ReadFull 8 (0 :: code :: rest ++ later) = (Ret (0 :: code :: rest), later)) as ER.
    { apply (ReadFull_app 8 (0 :: code :: rest) later). rewrite !zlen_cons. unfold zlen. lia. }
    rewrite (handshake4_run _ host port ip userID _ _ (Hsplit host Hc) Hi ER). cbn iota beta.
    exists (mkClient later [EvWrite (Socks4.request Socks4.CmdConnect port ip userID host)]). split; [|split; [done|]].
    - rewrite (idx_app _ [] (code :: rest) 0) by done. cbn [go_bind]. change (negb (0 =? 0)) with false. cbn iota.
      rewrite (idx_app _ [0] rest code) by done. cbn [go_bind]. unfold Socks4.reply.
      destruct (code =? Socks4.RequestGranted); [done|]. by repeat (destruct (_ =? _)).
    - cbn. by apply request_parse. }
  split_and!; try done.
  - intros a v code rest later Ha Hav Hl dst Hn. apply Hgo; try done; [by apply AddrString_clean| |].
    + unfold Socks4.request_ip. rewrite ParseAddr_String by done. destruct Hav as [-> |(w & -> & Hm & ->)]; [done|]. by rewrite Hm.
    + destruct Hav as [-> |(w & -> & Hm & ->)]; [apply Ha|]. apply Z.mod_pos_bound. lia.
  - intros host code rest later Hpa Hc Hn Hl. apply (Hgo host 1 code rest later); try done.
    unfold Socks4.request_ip. by rewrite Hpa.
  - intros w c Ha Hm. unfold Socks4_DialContext, with_handshake, Socks4.ClientHandshake.
    change (Socks4.CmdConnect =? Socks4.CmdBind) with false. cbn iota. unfold stbind at 1, stlift at 1.
    rewrite Hsplit by (by apply AddrString_clean). unfold stbind at 1, stlift at 1. unfold Socks4.request_ip.
    rewrite ParseAddr_String by done. by rewrite Hm.
Qed.

(** 1.2.3.4:80, granted with a byte behind the reply, and 0.0.0.7:80, rejected. *)
Lemma socks4_request_witness :
  (exists c, Socks4_DialContext (env := reliable) "s:1" "me" "1.2.3.4:80" None (mkClient (0 :: 90 :: replicate 6 0 ++ [9]) []) = (Ret tt, c) /\
     inp c = [9] /\ parse4 (delivered (out c)) = Some (1, 80, IPDst 0x01020304, bytes_of_string "me", [])) /\
  (exists c, Socks4_DialContext (env := reliable) "s:1" "me" "0.0.0.7:80" None (mkClient (0 :: 91 :: replicate 6 0 ++ []) []) =
       (Err "request rejected or failed", close_client c) /\
     parse4 (delivered (out c)) = Some (1, 80, HostDst (bytes_of_string "0.0.0.7"), bytes_of_string "me", [])).
Proof.
  destruct (socks4_request "s:1" "me" 80) as (HA & _).
  - repeat constructor; vm_compute; discriminate.
  - lia.
  - split.
    + destruct (HA (Addr4 0x01020304) 0x01020304 90 (replicate 6 0) [9]) as (c & E & Hi & HP).
      * split; [split; [vm_compute; discriminate|reflexivity]|reflexivity].
      * by left.
      * reflexivity.
      * vm_compute. discriminate.
      * exists c. split; [exact E|]. split; [exact Hi|exact HP].
    + destruct (HA (Addr4 7) 7 91 (replicate 6 0) []) as (c & E & Hi & HP).
      * split; [split; [vm_compute; discriminate|reflexivity]|reflexivity].
      * by left.
      * reflexivity.
      * intros _. by apply reserved_text.
      * exists c. split; [exact E|exact HP].
Defined.

(** ** Basic authentication *)

(** The standard alphabet. *)
Definition std (v : Z) : Z := let c := HttpObfs.b64char v in if c =? 45 then 43 else if c =? 95 then 47 else c.

Lemma six_bits v : 0 <= v < 64 -> Gfw.b64val (std v) = Some v /\ std v <> 61.
Proof.
  intros Hv. assert (In v (Z.of_nat <$> seq 0 64)) as Hi.
  { apply list_elem_of_In, list_elem_of_fmap. exists (Z.to_nat v). split; [lia|]. apply elem_of_seq. lia. }
  assert (forallb (fun v => bool_decide (Gfw.b64val (std v) = Some v) && negb (std v =? 61)) (Z.of_nat <$> seq 0 64) = true) as HA by (vm_compute; reflexivity).
  rewrite forallb_forall in HA. specialize (HA v Hi). apply andb_true_iff in HA as [H1%bool_decide_eq_true H2%negb_true_iff%Z.eqb_neq].
  done.
Qed.

(** Four characters that are not padding. *)
Lemma decode_quad a b c d s : 0 <= a < 64 -> 0 <= b < 64 -> 0 <= c < 64 -> 0 <= d < 64 ->
  Gfw.b64decode (std a :: std b :: std c :: std d :: s) = (r ← Gfw.b64decode s; Some (Gfw.quantum a b c d ++ r)).
Proof.
  intros Ha Hb Hc Hd. destruct (six_bits a Ha) as [Ea _], (six_bits b Hb) as [Eb _], (six_bits c Hc) as [Ec _].
  destruct (six_bits d Hd) as (Ed & Hi). cbn [Gfw.b64decode].
  set (go := (a0 ← Gfw.b64val (std a); b0 ← Gfw.b64val (std b); c0 ← Gfw.b64val (std c); d0 ← Gfw.b64val (std d); r ← Gfw.b64decode s;
    Some (Gfw.quantum a0 b0 c0 d0 ++ r))).
  assert (go = (r ← Gfw.b64decode s; Some (Gfw.quantum a b c d ++ r))) as Hgo by (unfold go; by rewrite Ea, Eb, Ec, Ed).
  rewrite <- Hgo. unfold go. clear -Hi. revert Hi. generalize (std d) as x, (std c) as y. intros x y Hi.
  destruct s; repeat match goal with |- context [match ?z with _ => _ end] => is_var z; destruct z end; (reflexivity || done).
Qed.

Lemma decode_pad1 a b c : 0 <= a < 64 -> 0 <= b < 64 -> 0 <= c < 64 ->
  Gfw.b64decode [std a; std b; std c; 61] = Some (take 2 (Gfw.quantum a b c 0)).
Proof.
  intros Ha Hb Hc. destruct (six_bits a Ha) as [Ea _], (six_bits b Hb) as [Eb _], (six_bits c Hc) as [Ec Hi].
  transitivity (a0 ← Gfw.b64val (std a); b0 ← Gfw.b64val (std b); c0 ← Gfw.b64val (std c); Some (take 2 (Gfw.quantum a0 b0 c0 0)));
    [|by rewrite Ea, Eb, Ec].
  clear -Hi. revert Hi. generalize (std c) as y. intros y Hi. cbn [Gfw.b64decode].
  repeat match goal with |- context [match ?z with _ => _ end] => is_var z; destruct z end; (reflexivity || done).
Qed.

(** Three bytes and their four characters. *)
Lemma quad_quantum a b c : is_byte a -> is_byte b -> is_byte c ->
  let q := [a / 4; (a mod 4) * 16 + b / 16; (b mod 16) * 4 + c / 64; c mod 64] in
  Forall (fun v => 0 <= v < 64) q /\
  Gfw.quantum (a / 4) ((a mod 4) * 16 + b / 16) ((b mod 16) * 4 + c / 64) (c mod 64) = [a; b; c].
Proof.
  intros Ha Hb Hc. unfold is_byte in *. cbv zeta. pose proof (Z.div_mod a 4 ltac:(lia)). pose proof (Z.mod_pos_bound a 4 ltac:(lia)).
  pose proof (Z.div_mod b 16 ltac:(lia)). pose proof (Z.mod_pos_bound b 16 ltac:(lia)).
  pose proof (Z.div_mod c 64 ltac:(lia)). pose proof (Z.mod_pos_bound c 64 ltac:(lia)).
  split; [repeat constructor; lia|]. unfold Gfw.quantum. cbv zeta. set (v := (_ * 64 + c mod 64)).
  assert (v = a * 65536 + b * 256 + c) as -> by (unfold v; lia).
  assert ((a * 65536 + b * 256 + c) / 65536 = a) as -> by (symmetry; apply (Z.div_unique_pos _ 65536 a (b * 256 + c)); lia).
  assert ((a * 65536 + b * 256 + c) / 256 = a * 256 + b) as -> by (symmetry; apply (Z.div_unique_pos _ 256 _ c); lia).
  assert ((a * 256 + b) mod 256 = b) as -> by (symmetry; apply (Z.mod_unique_pos _ 256 a b); lia).
  assert ((a * 65536 + b * 256 + c) mod 256 = c) as -> by (symmetry; apply (Z.mod_unique_pos _ 256 (a * 256 + b) c); lia). done.
Qed.

(** The program's decoder (of the GFW list) undoes the encoding. *)
Lemma StdEncode_decode n : forall b, (length b <= n)%nat -> bytes_ok b -> Gfw.b64decode (StdEncode b) = Some b.
Proof.
  induction n as [|n IH]; intros b Hl Hb; [destruct b; [done|simpl in Hl; lia]|].
  destruct b as [|x [|y [|z b]]]; [done|..]; repeat (apply Forall_cons in Hb as [? Hb]).
  - destruct (quad_quantum x 0 0) as [Hq Eq]; [done|done|done|]. cbv zeta in Hq. repeat (apply Forall_cons in Hq as [? Hq]).
    change (0 / 16) with 0 in *. rewrite Z.add_0_r in *. change (Gfw.b64decode [std (x / 4); std (x mod 4 * 16 + 0); 61; 61] = Some [x]).
    rewrite Z.add_0_r. destruct (six_bits (x / 4)) as [E1 _], (six_bits (x mod 4 * 16)) as [E2 _]; try done.
    cbn [Gfw.b64decode]. rewrite E1, E2. cbn [mbind option_bind]. change (0 mod 16 * 4 + 0 / 64) with 0 in Eq. change (0 mod 64) with 0 in Eq. by rewrite Eq.
  - destruct (quad_quantum x y 0) as [Hq Eq]; [done|done|done|]. cbv zeta in Hq. repeat (apply Forall_cons in Hq as [? Hq]).
    change (Gfw.b64decode [std (x / 4); std (x mod 4 * 16 + y / 16); std (y mod 16 * 4 + 0 / 64); 61] = Some [x; y]).
    rewrite decode_pad1 by done. change (0 mod 64) with 0 in Eq. by rewrite Eq.
  - destruct (quad_quantum x y z) as [Hq Eq]; [done|done|done|]. cbv zeta in Hq. repeat (apply Forall_cons in Hq as [? Hq]).
    change (Gfw.b64decode (std (x / 4) :: std (x mod 4 * 16 + y / 16) :: std (y mod 16 * 4 + z / 64) :: std (z mod 64) :: StdEncode b) = Some (x :: y :: z :: b)).
    rewrite decode_quad by done. rewrite IH by (done || simpl in Hl; lia). cbn [mbind option_bind]. by rewrite Eq.
Qed.

Lemma b64char_ok v : 0 <= v -> is_byte (HttpObfs.b64char v).
Proof.
  intros Hv. unfold HttpObfs.b64char, is_byte.
  destruct (Z.ltb_spec v 26), (Z.ltb_spec v 52), (Z.ltb_spec v 62), (Z.eqb_spec v 62); lia.
Qed.
Lemma b64quad_ok x y z : is_byte x -> is_byte y -> is_byte z -> bytes_ok (HttpObfs.b64quad x y z).
Proof.
  unfold is_byte. intros Hx Hy Hz. unfold HttpObfs.b64quad. repeat (constructor; [apply b64char_ok|]); try constructor;
    try apply Z.add_nonneg_nonneg; try apply Z.mul_nonneg_nonneg; try apply Z.div_pos; try apply Z.mod_pos_bound; lia.
Qed.
Lemma URLEncode_ok n : forall b, (length b <= n)%nat -> bytes_ok b -> bytes_ok (HttpObfs.URLEncode b).
Proof.
  induction n as [|n IH]; intros b Hl Hb; [destruct b; [constructor|simpl in Hl; lia]|].
  destruct b as [|x [|y [|z b]]]; cbn [HttpObfs.URLEncode]; [constructor|..]; repeat (apply Forall_cons in Hb as [? Hb]); apply Forall_app; split.
  1: apply Forall_take. 3: apply Forall_take. 1,3,5: apply b64quad_ok; done.
  - by repeat constructor.
  - by repeat constructor.
  - apply IH; [simpl in Hl; lia|done].
Qed.

Lemma basicAuth_decodes user pass : Gfw.DecodeString (basicAuth user pass) = Ret (user +:+ ":" +:+ pass)%string.
Proof.
  unfold Gfw.DecodeString, basicAuth. cbv zeta. set (b := bytes_of_string (user +:+ ":" +:+ pass)).
  assert (bytes_ok b) as Hb by apply bytes_of_string_ok.
  assert (bytes_ok (StdEncode b)) as Hok.
  { unfold StdEncode. apply Forall_fmap, Forall_forall. intros c Hc. unfold compose.
    pose proof (URLEncode_ok (length b) b (le_n _) Hb) as HF. unfold bytes_ok in HF. rewrite Forall_forall in HF.
    specialize (HF c Hc). unfold is_byte in *. destruct (c =? 45), (c =? 95); lia. }
  rewrite bytes_of_string_of_bytes by done. rewrite (StdEncode_decode (length b)) by done.
  unfold b. by rewrite string_of_bytes_of_string.
Qed.

(** ** CONNECT through an HTTP proxy *)

(** CONNECT asks for the destination and acts on the status.  The request names
    it; with a user and a password it carries an authorization that decodes to them.  The
    dial succeeds exactly for 200 and otherwise closes the connection with the error of the
    status.  What the proxy sends in one segment with its response is read ahead by the
    bufio.Reader and dropped with it: the connection goes on with the next segment. *)
Lemma http_connect `{HttpLib} addr user pass destination s ss code status :
  (forall ss, ReadResponse (s :: ss) = (Ret (code, status), ss)) ->
  let sent := [EvWrite (connect_request destination user pass)] in
  HTTP_DialContext (env := reliable) addr user pass destination None (mkHC (s :: ss) []) =
    (connect_verdict code status, mkHC ss (if code =? 200 then sent else sent ++ [EvClose])) /\
  (connect_verdict code status = Ret tt <-> code = 200) /\
  (user <> ""%string -> pass <> ""%string -> exists before after cred,
     connect_request destination user pass = before ++ HttpObfs.line ("Proxy-Authorization: Basic " +:+ cred) ++ after /\
     Gfw.DecodeString cred = Ret (user +:+ ":" +:+ pass)%string).
Proof.
  intros HR sent. split_and!.
  - unfold HTTP_DialContext, with_handshake, shakeHand. cbn [write perform env_fail reliable hout hin app]. rewrite HR.
    unfold connect_verdict. destruct (code =? 200); [done|]. by repeat (destruct (_ =? _)).
  - unfold connect_verdict. destruct (Z.eqb_spec code 200); [naive_solver|]. split; [|done]. repeat (destruct (_ =? _)); discriminate.
  - intros Hu Hp. unfold connect_request. rewrite !bool_decide_eq_true_2 by done. cbn [andb].
    exists (HttpObfs.line ("CONNECT " +:+ destination +:+ " HTTP/1.1") ++ HttpObfs.line ("Host: " +:+ destination) ++
              HttpObfs.line "User-Agent: Go-http-client/1.1"),
      (HttpObfs.line "Proxy-Connection: Keep-Alive" ++ HttpObfs.crlf), (basicAuth user pass).
    split; [|apply basicAuth_decodes]. by rewrite <- !app_assoc.
Qed.

(** ** Proxy URLs *)

Lemma Split_sep a b c : IndexByte a c = None -> Split (a +:+ String c b) c = a :: Split b c.
Proof.
  induction a as [|d a IH]; cbn [IndexByte].
  - intros _. rewrite sapp_nil. cbn [Split]. by rewrite Ascii.eqb_refl.
  - rewrite sapp_cons. cbn [Split]. destruct (Ascii.eqb c d); [done|]. destruct (IndexByte a c); [done|]. intros _. by rewrite IH.
Qed.
Lemma Split_none a c : IndexByte a c = None -> Split a c = [a].
Proof.
  induction a as [|d a IH]; cbn [IndexByte Split]; [done|]. destruct (Ascii.eqb c d); [done|]. destruct (IndexByte a c); [done|].
  intros _. by rewrite IH.
Qed.
Lemma SplitN2_sep a b c : IndexByte a c = None -> SplitN2 (a +:+ String c b) c = [a; b].
Proof. intros Ha. unfold SplitN2. rewrite IndexByte_here by done. by rewrite stake_length_app, sdrop_sep. Qed.

Lemma NewSocks5_panics addr user pass : is_panic (NewSocks5 addr user pass) = (zlen (bytes_of_string addr) <? 2).
Proof.
  unfold NewSocks5, abstract_name. set (b := bytes_of_string addr). destruct b as [|x [|y b]]; try done.
  rewrite !zlen_cons. pose proof (zlen_nonneg b). rewrite (proj2 (Z.ltb_lt 0 _)), (proj2 (Z.ltb_ge _ 2)) by lia.
  rewrite (idx_app _ [] (y :: b) x) by done. cbn [go_bind]. rewrite (idx_app _ [x] b y) by done. cbn [go_bind].
  assert (slice_from (x :: y :: b) 1 = Ret (y :: b)) as HS.
  { unfold slice_from. apply (slice_app _ [x] (y :: b) []); [by rewrite app_nil_r|done|rewrite !zlen_cons; done]. }
  destruct (2 <? 1 + (1 + zlen b)); cbn [go_bind]; [destruct (y =? 64); cbn [go_bind]; [by rewrite HS|]|].
  all: destruct (y =? 0); cbn [go_bind]; [by rewrite HS|done].
Qed.

Lemma NewShadowsocks_no_panic `{Ciphers.PrimitivesOk} addr method password mode host :
  Shadowsocks.NewShadowsocks addr method password mode host <> Panic.
Proof.
  unfold Shadowsocks.NewShadowsocks. destruct (decide (ToUpper method = "DUMMY"%string)) as [Hd|Hd].
  { unfold Ciphers.PickCipher. by rewrite decide_True. }
  pose proof (Ciphers.PickCipher_spec method [] password Hd) as HP. destruct (Ciphers.key_size _).
  - destruct HP as [_ HP]. change (zlen (@nil Z) =? 0) with true in HP. cbn iota in HP. destruct HP as (c & -> & _). done.
  - by rewrite HP.
Qed.

Definition protocols : list string := ["direct"; "reject"; "http"; "socks4"; "socks5"; "ss"; "relay"]%string.

Section urls.
Context `{HU : UrlLib} `{HP : Ciphers.PrimitivesOk}.

(** A proxy URL gives the proxy it names.  Without "://" a URL is taken as a socks5
    address; a scheme that is not one of the seven protocols, in any case of letters, is
    refused by name.  A shadowsocks URL with a method and password builds exactly that
    cipher for the URL's host, whatever the order in which the query names the camouflage
    and its host; without user information it uses no cipher.  When url.Parse and the
    decoders return, parseProxy panics exactly for a socks5 address of less than two bytes,
    such as that of "socks5://", on which NewSocks5 looks at the second byte. *)
Theorem parse_proxy s u :
  let s' := if Contains s "://" then s else ("socks5://" +:+ s)%string in
  url_Parse s' = Ret u -> is_panic (User_String u) = false -> is_panic (decode_NoDelay (RawQuery u)) = false ->
  (ToLower (Scheme u) ∉ protocols -> parseProxy s = Err ("unsupported protocol: " +:+ ToLower (Scheme u))) /\
  (ToLower (Scheme u) = "ss"%string ->
   forall text method password mode host, User_String u = Ret text -> text <> ""%string -> UserInfo u = Some (method, Some password) ->
     IndexByte mode ";" = None -> IndexByte host ";" = None ->
     QueryUnescape (RawQuery u) = Ret ("obfs=" +:+ mode +:+ ";obfs-host=" +:+ host)%string \/
     QueryUnescape (RawQuery u) = Ret ("obfs-host=" +:+ host +:+ ";obfs=" +:+ mode)%string ->
     parseProxy s = (let! p := Shadowsocks.NewShadowsocks (Host u) method password mode host in Ret (SS p))) /\
  (ToLower (Scheme u) = "ss"%string -> User_String u = Ret ""%string -> exists mode host,
     parseProxy s = Ret (SS (Shadowsocks.mkSS (Host u) Ciphers.dummy mode host))) /\
  (is_panic (parseProxy s) = true <->
     ToLower (Scheme u) = "socks5"%string /\
     zlen (bytes_of_string (if decide (Host u = "")%string then Path u else Host u)) < 2).
Proof.
  intros s' Hparse HpU HpD.
  assert (parseProxy s = let protocol := ToLower (Scheme u) in
    if decide (protocol = "direct")%string then Ret Direct else if decide (protocol = "reject")%string then Ret Reject
    else if decide (protocol = "http")%string then Ret (HTTP (Host u) (Username u) (default "" (Password u))%string)
    else if decide (protocol = "socks4")%string then Ret (Socks4P (Host u) (Username u))
    else if decide (protocol = "socks5")%string then parseSocks5 u else if decide (protocol = "ss")%string then parseShadowsocks u
    else if decide (protocol = "relay")%string then parseRelay u else Err ("unsupported protocol: " +:+ protocol)) as Hgo.
  { unfold parseProxy. fold s'. by rewrite Hparse. }
  cbv zeta in Hgo. set (p := ToLower (Scheme u)) in *. split_and!.
  - intros Hn. rewrite Hgo. unfold protocols in Hn. repeat (apply not_elem_of_cons in Hn as [? Hn]). by rewrite !decide_False by done.
  - intros Ep text method password mode host Ht Hte Hui Hm Hh Hq. rewrite Hgo, Ep. do 5 (rewrite decide_False by done). rewrite decide_True by done. unfold parseShadowsocks, ss_credentials.
    rewrite Ht. cbn [go_bind]. rewrite decide_False by done. unfold Password, Username. rewrite Hui. cbn [go_bind].
    assert (forall key v, IndexByte key ";" = None -> IndexByte v ";" = None -> IndexByte (key +:+ String "=" v) ";" = None) as Hkv.
    { intros key v Hk Hv. rewrite IndexByte_app by done. cbn [IndexByte]. by rewrite Hv. }
    assert (forall v acc, ss_option ("obfs" +:+ String "=" v) acc = (v, snd acc)) as Ho1 by (intros; unfold ss_option; by rewrite SplitN2_sep).
    assert (forall v acc, ss_option ("obfs-host" +:+ String "=" v) acc = (fst acc, v)) as Ho2 by (intros; unfold ss_option; by rewrite SplitN2_sep).
    destruct Hq as [-> | ->].
    + assert ((("obfs=" +:+ mode +:+ ";obfs-host=" +:+ host) = ("obfs" +:+ String "=" mode) +:+ String ";" ("obfs-host" +:+ String "=" host))%string) as ->
        by (by rewrite sapp_assoc).
      rewrite Split_sep by (by apply Hkv). rewrite Split_none by (by apply Hkv). cbn [fold_left]. rewrite Ho1, Ho2. cbn [fst snd]. reflexivity.
    + assert ((("obfs-host=" +:+ host +:+ ";obfs=" +:+ mode) = ("obfs-host" +:+ String "=" host) +:+ String ";" ("obfs" +:+ String "=" mode))%string) as ->
        by (by rewrite sapp_assoc).
      rewrite Split_sep by (by apply Hkv). rewrite Split_none by (by apply Hkv). cbn [fold_left]. rewrite Ho2, Ho1. cbn [fst snd]. reflexivity.
  - intros Ep Ht. rewrite Hgo, Ep. do 5 (rewrite decide_False by done). rewrite decide_True by done. unfold parseShadowsocks, ss_credentials. rewrite Ht. cbn [go_bind].
    rewrite decide_True by done. cbn [go_bind]. destruct (fold_left _ _ _) as [mode host]. exists mode, host.
    unfold Shadowsocks.NewShadowsocks, Ciphers.PickCipher. by rewrite decide_True.
  - rewrite Hgo. destruct (decide (p = "socks5"%string)) as [E5|E5].
    + rewrite E5. do 4 (rewrite decide_False by done). cbn iota. unfold parseSocks5. set (address := if decide _ then _ else _).
      pose proof (NewSocks5_panics address (Username u) (default "" (Password u))%string) as HN.
      destruct (NewSocks5 address _ _) as [x|x|]; cbn in *; symmetry in HN; [apply Z.ltb_ge in HN|apply Z.ltb_ge in HN|apply Z.ltb_lt in HN];
        (split; [done|]); intros; try lia; done.
    + split; [intros HH; exfalso; revert HH|by intros [? _]]. clear Hgo. repeat case_decide; try done.
      * unfold parseShadowsocks, ss_credentials. destruct (User_String u) as [t|t|]; [|done|done]. cbn [go_bind].
        destruct (if decide (t = ""%string) then _ else _) as [[me pa]|e|] eqn:Ec; [|done|].
        -- cbn [go_bind]. destruct (fold_left _ _ _) as [mo ho].
           pose proof (NewShadowsocks_no_panic (Host u) me pa mo ho). by destruct (Shadowsocks.NewShadowsocks _ _ _ _ _).
        -- exfalso. destruct (decide (t = ""%string)); [done|]. destruct (Password u); [done|]. by destruct (SplitN2 _ _) as [|? [|? []]].
      * unfold parseRelay. revert HpD. destruct (decode_NoDelay (RawQuery u)); cbn; done.
Qed.
End urls.

(** A parser that knows two URLs. *)
Definition w_ss_url : string := "SS://aes-128-gcm:pw@h:1/?obfs-host=x;obfs=tls".
#[local] Instance toy_url : UrlLib := {|
  url_Parse s :=
    if decide (s = "socks5://")%string then Ret (mkURL "socks5" "" "" "" None)
    else if decide (s = w_ss_url) then Ret (mkURL "SS" "h:1" "/" "obfs-host=x;obfs=tls" (Some ("aes-128-gcm", Some "pw")%string))
    else Err "parse error";
  User_String u := Ret (match UserInfo u with Some (n, Some p) => n +:+ ":" +:+ p | Some (n, None) => n | None => "" end)%string;
  RawURLDecode s := bytes_of_string s;
  QueryUnescape s := Ret s;
  decode_NoDelay _ := Ret false
|}.
#[local] Existing Instance Ciphers.toy_primitives.
#[local] Existing Instance Ciphers.toy_primitives_ok.

Lemma parse_proxy_witness :
  is_panic (parseProxy "socks5://") = true /\
  parseProxy w_ss_url = (let! p := Shadowsocks.NewShadowsocks "h:1" "aes-128-gcm" "pw" "tls" "x" in Ret (SS p)).
Proof.
  destruct (parse_proxy "socks5://" (mkURL "socks5" "" "" "" None)) as (_ & _ & _ & HP); [reflexivity|reflexivity|reflexivity|].
  destruct (parse_proxy w_ss_url (mkURL "SS" "h:1" "/" "obfs-host=x;obfs=tls" (Some ("aes-128-gcm", Some "pw")%string)))
    as (_ & HS & _); [reflexivity|reflexivity|reflexivity|].
  split.
  - apply HP. split; [reflexivity|]. vm_compute. reflexivity.
  - eapply (HS eq_refl); [reflexivity|discriminate|reflexivity|reflexivity|reflexivity|]. right. reflexivity.
Defined.

End Proxies.
