(* ===== verification/Upstream.v ===== *)
(** * The upstream DNS transports (src/internal/dns.go, dns_patch.go)

    do53Exchange asks a server of port 53, dohExchange asks with an HTTP GET request whose
    parameter is the query in base64 (RFC 8484); dns_patch.go replaces the resolver's dialer
    in builds for systems without a list of servers.  The message codec and client of
    miekg/dns and the client of net/http are parameters. *)

From S2P Require Import Prelude GoStrings Conn Core Gfw HttpObfs Proxies.

Module Upstream.

(** [base64.RawURLEncoding]: without padding. *)
Definition RawURLEncode (b : bytes) : bytes := filter (fun c => c <> 61) (HttpObfs.URLEncode b).

(** What httpCli.Do returns: the status code, the status line and what reading the body
    gives. *)
Record response := mkResponse { StatusCode : Z; Status : string; Body : go bytes }.

Section exchange.
Context (Pack : Msg -> go bytes) (Unpack : bytes -> go Msg) (dnsAddr : string).

Definition do53Exchange (Exchange : Msg -> string -> go Msg) (req : Msg) : go Msg := Exchange req dnsAddr.

(** [return nil, wrap(msg, err)] *)
Definition wrapping {A B} (msg : string) (m : go A) (k : A -> go B) : go B :=
  match m with
  | Ret a => k a
  | Err e => Err (wrap msg e)
  | Panic => Panic
  end.

(** The GET request of [url] is made by [NewRequest] and sent with [Do]. *)
Definition dohExchange (NewRequest : string -> go unit) (Do : string -> go response) (req : Msg) : go Msg :=
  wrapping "pack dns request" (Pack req) (fun wire =>
  let b64 := string_of_bytes (RawURLEncode wire) in
  let u := (dnsAddr +:+ "?dns=" +:+ b64)%string in
  wrapping "build http request" (NewRequest u) (fun _ =>
  wrapping "http request" (Do u) (fun httpResp =>
  if negb (StatusCode httpResp =? 200) then Err ("bad http status: " +:+ Status httpResp)
  else
    wrapping "read http body" (Body httpResp) (fun respWire =>
    wrapping "unpack dns response" (Unpack respWire) (fun resp => Ret resp))))).
End exchange.

(** ** dns_patch.go *)

Definition dns1 : string := "8.8.8.8:53".
Definition dns2 : string := "1.1.1.1:53".

(** The Dial function of the resolver: the connection it returns, [None] for nil, and the
    connections it opened. *)
Definition Dial {C} (DialContext : string -> go C) : go (option C) * list C :=
  match DialContext dns1 with
  | Err _ => (Ret None, [])                     (* err != nil: return conn, nil *)
  | Ret c1 =>
    match DialContext dns2 with
    | Ret c2 => (Ret (Some c2), [c1; c2])
    | Err e => (Err e, [c1])
    | Panic => (Panic, [c1])
    end
  | Panic => (Panic, [])
  end.

(** ** The query in the URL *)

(** A server's reading of the parameter: the standard alphabet, padded. *)
Definition pad (s : bytes) : bytes := match (length s mod 4)%nat with 2%nat => s ++ [61; 61] | 3%nat => s ++ [61] | _ => s end.
Definition read_param (s : bytes) : option bytes :=
  Gfw.b64decode ((fun c => if c =? 45 then 43 else if c =? 95 then 47 else c) <$> pad s).

Lemma char_plain v : 0 <= v < 64 -> HttpObfs.b64char v <> 61.
Proof. intros H. unfold HttpObfs.b64char. repeat case_match; lia. Qed.

Lemma filter_quad l : Forall (fun v => 0 <= v < 64) l -> filter (fun c => c <> 61) (HttpObfs.b64char <$> l) = HttpObfs.b64char <$> l.
Proof.
  induction 1 as [|v l Hv _ IH]; [done|]. cbn [fmap list_fmap]. rewrite filter_cons, decide_True by (by apply char_plain).
  f_equal. exact IH.
Qed.

Lemma pad_app (q s : bytes) : length q = 4%nat -> pad (q ++ s) = q ++ pad s.
Proof.
  intros H. unfold pad. rewrite length_app, H. replace ((4 + length s) mod 4)%nat with (length s mod 4)%nat.
  - repeat case_match; by rewrite ?app_assoc.
  - rewrite Nat.add_comm. symmetry. exact (Nat.Div0.mod_add (length s) 1 4).
Qed.

Lemma pad_raw n : forall b, (length b <= n)%nat -> bytes_ok b -> pad (RawURLEncode b) = HttpObfs.URLEncode b.
Proof.
  unfold RawURLEncode. induction n as [|n IH]; intros b Hl Hb; [destruct b; [done|simpl in Hl; lia]|].
  destruct b as [|x [|y [|z b]]]; [done|..]; repeat (apply Forall_cons in Hb as [? Hb]); cbn [HttpObfs.URLEncode]; rewrite filter_app.
  - destruct (Proxies.quad_quantum x 0 0) as [Hq _]; [done..|]. cbv zeta in Hq.
    unfold HttpObfs.b64quad. rewrite <- fmap_take. rewrite filter_quad by (by apply Forall_take). done.
  - destruct (Proxies.quad_quantum x y 0) as [Hq _]; [done..|]. cbv zeta in Hq.
    unfold HttpObfs.b64quad. rewrite <- fmap_take. rewrite filter_quad by (by apply Forall_take). done.
  - destruct (Proxies.quad_quantum x y z) as [Hq _]; [done..|]. cbv zeta in Hq.
    unfold HttpObfs.b64quad at 1. rewrite filter_quad by done.
    rewrite pad_app by done. f_equal. apply IH; [simpl in Hl; lia|done].
Qed.

Lemma param_reads b : bytes_ok b -> read_param (RawURLEncode b) = Some b.
Proof.
  intros Hb. unfold read_param. rewrite (pad_raw (length b)) by (done || lia).
  apply (Proxies.StdEncode_decode (length b)); [lia|done].
Qed.

(** The parameter of a URL made by dohExchange. *)
Definition param_of (dnsAddr url : string) : bytes := drop (length (bytes_of_string dnsAddr) + 5) (bytes_of_string url).

(** ** The theorem *)

(** Asking over HTTPS.  If the HTTP client reaches a server that reads the parameter and
    answers with [serve], then dohExchange returns what [serve] makes of exactly the packed
    query: its unpacked body when the status is 200, an error that names the step that
    failed otherwise. *)
Theorem doh_exchange Pack Unpack dnsAddr NewRequest Do serve req q :
  Pack req = Ret q -> bytes_ok q -> (forall u, NewRequest u = Ret tt) ->
  (forall u q, read_param (param_of dnsAddr u) = Some q -> Do u = serve q) ->
  dohExchange Pack Unpack dnsAddr NewRequest Do req =
  match serve q with
  | Ret (mkResponse code status body) =>
    if code =? 200 then
      match body with
      | Ret b => match Unpack b with Ret m => Ret m | Err e => Err (wrap "unpack dns response" e) | Panic => Panic end
      | Err e => Err (wrap "read http body" e)
      | Panic => Panic
      end
    else Err ("bad http status: " +:+ status)%string
  | Err e => Err (wrap "http request" e)
  | Panic => Panic
  end.
Proof.
  intros Ep Hq Hn Hd. unfold dohExchange, wrapping. rewrite Ep, Hn. cbv zeta. rewrite (Hd _ q).
  - destruct (serve q) as [[code status body]|e|]; [|done|done]. cbn [StatusCode Status Body]. destruct (code =? 200); [|done].
    cbn [negb]. destruct body as [b|e|]; [|done|done]. by destruct (Unpack b).
  - unfold param_of. rewrite !bytes_of_string_app, app_assoc.
    rewrite drop_app_length' by (rewrite length_app; done).
    rewrite bytes_of_string_of_bytes; [by apply param_reads|].
    apply Forall_forall. intros c [_ Hc]%list_elem_of_filter.
    pose proof (Proxies.URLEncode_ok (length q) q (le_n _) Hq) as HF. unfold bytes_ok in HF. rewrite Forall_forall in HF. by apply HF.
Qed.

(** A server that echoes queries of three bytes. *)
Lemma doh_exchange_witness :
  let echo q := Ret (mkResponse 200 "200 OK" (Ret q)) in
  let m := mkMsg 0 [] [] [] [] in
  dohExchange (fun _ => Ret [0; 62; 255]) (fun b => if decide (b = [0; 62; 255]) then Ret m else Err "other") "https://d/q"
    (fun _ => Ret tt) (fun u => match read_param (param_of "https://d/q" u) with Some q => echo q | None => Err "bad parameter" end) m = Ret m.
Proof.
  cbv zeta. rewrite (doh_exchange _ _ _ _ _ (fun q => Ret (mkResponse 200 "200 OK" (Ret q))) _ [0; 62; 255]);
    [reflexivity|reflexivity|by repeat constructor|done|by intros u q ->].
Defined.

(** The dialer of dns_patch.go never returns a connection to its first server: it leaves it
    open and dials the second, and when the first cannot be reached it returns a nil
    connection without an error. *)
Lemma Dial_inverted {C} (DialContext : string -> go C) :
  (forall e, DialContext dns1 = Err e -> Dial DialContext = (Ret None, [])) /\
  (forall c1 c2, DialContext dns1 = Ret c1 -> DialContext dns2 = Ret c2 -> Dial DialContext = (Ret (Some c2), [c1; c2])).
Proof. unfold Dial. split; [by intros e ->|by intros c1 c2 -> ->]. Qed.

End Upstream.
