(* ===== verification/Queue.v ===== *)
(** * The queue of packets a mobile UDP session reads from
      (src/mobile/queued_packet_conn.go)

    A packet connection whose reads come from a channel of 32 packets.  A goroutine pumps
    the packets of the socket into it, EnqueuePacket adds replies made locally, and any
    number of readers take packets out.  The goroutines interleave at their channel
    operations: the state says where each of them stands, and a step is one channel
    operation of one goroutine (the choice a [select] with several ready cases makes is
    the choice of the step). *)

From S2P Require Import Prelude.

Module Queue.

Record queuedPacket := mkPacket { payload : bytes; addr : string }.
#[export] Instance queuedPacket_eq_dec : EqDecision queuedPacket.
Proof. solve_decision. Defined.

Definition capacity : nat := 32.

(** Where the goroutine of pumpBaseReads stands. *)
Inductive pump :=
| Reading                        (* in pc.base.ReadFrom *)
| Sending (p : queuedPacket)     (* at the select that sends p *)
| Stopped.

(** A ReadFrom call at its select: the length of its buffer and its timer. *)
Record reader := mkReader { rlen : Z; rtimer : option Z }.

Record queuedPacketConn := mkConn {
  packets : list queuedPacket;   (* the buffer of the channel *)
  closed : bool;                 (* the channel [closed] is closed *)
  readDeadline : option Z;       (* None: the zero time *)
  pumping : pump;
  readers : list reader;         (* the pending ReadFrom calls *)
  closers : nat;                 (* Close calls that saw [closed] open *)
  panicked : bool                (* a closed channel was closed *)
}.

Definition newQueuedPacketConn : queuedPacketConn := mkConn [] false None Reading [] 0 false.

Definition set_packets (ps : list queuedPacket) (c : queuedPacketConn) : queuedPacketConn :=
  mkConn ps (closed c) (readDeadline c) (pumping c) (readers c) (closers c) (panicked c).
Definition set_pumping (p : pump) (c : queuedPacketConn) : queuedPacketConn :=
  mkConn (packets c) (closed c) (readDeadline c) p (readers c) (closers c) (panicked c).
Definition set_readers (rs : list reader) (c : queuedPacketConn) : queuedPacketConn :=
  mkConn (packets c) (closed c) (readDeadline c) (pumping c) rs (closers c) (panicked c).
Definition set_deadline (t : option Z) (c : queuedPacketConn) : queuedPacketConn :=
  mkConn (packets c) (closed c) t (pumping c) (readers c) (closers c) (panicked c).
Definition set_closing (b : bool) (n : nat) (bad : bool) (c : queuedPacketConn) : queuedPacketConn :=
  mkConn (packets c) b (readDeadline c) (pumping c) (readers c) n bad.

(** ** Steps *)

(** One channel operation.  [now] is the clock where the code reads it. *)
Inductive action :=
| BaseRead (data : bytes) (from : string)   (* base.ReadFrom returned a packet *)
| BaseFailed                                (* base.ReadFrom returned an error *)
| PumpSend                                  (* case pc.packets <- packet, in pumpBaseReads *)
| PumpClosed                                (* case <-pc.closed, in pumpBaseReads *)
| Enqueue (data : bytes) (to : string)      (* case pc.packets <- packet, in EnqueuePacket *)
| EnqueueClosed                             (* case <-pc.closed, in EnqueuePacket *)
| ReadStart (len now : Z)                   (* ReadFrom up to its select *)
| ReadPacket (i : nat)                      (* case packet := <-pc.packets *)
| ReadTimeout (i : nat) (now : Z)           (* case <-deadline *)
| ReadClosed (i : nat)                      (* case <-pc.closed, in ReadFrom *)
| CloseCheck                                (* the select of Close *)
| CloseDo                                   (* close(pc.closed) *)
| SetReadDeadline (t : option Z).

(** What the caller of the operation sees. *)
Inductive outcome :=
| Silent
| Accepted (p : queuedPacket)               (* the packet is in the channel; EnqueuePacket returns nil *)
| Delivered (p : queuedPacket) (b : bytes)  (* ReadFrom returns b and the packet's address *)
| TimedOut                                  (* timeoutError *)
| ErrClosed                                 (* net.ErrClosed *)
| BaseClosed.                               (* pc.base.Close() is called *)

(** [pc.packets <- p]: possible when the buffer has room. *)
Definition chan_send (p : queuedPacket) (c : queuedPacketConn) : option queuedPacketConn :=
  if (length (packets c) <? capacity)%nat then Some (set_packets (packets c ++ [p]) c) else None.

Definition drop_reader (i : nat) (c : queuedPacketConn) : queuedPacketConn :=
  set_readers (delete i (readers c)) c.

(** [None]: the operation is not ready. *)
Definition exec (a : action) (c : queuedPacketConn) : option (outcome * queuedPacketConn) :=
  match a with
  | BaseRead data from =>
    match pumping c with
    | Reading => Some (Silent, set_pumping (Sending (mkPacket data from)) c)
    | _ => None
    end
  | BaseFailed =>
    match pumping c with
    | Reading => Some (Silent, set_pumping Stopped c)
    | _ => None
    end
  | PumpSend =>
    match pumping c with
    | Sending p => c' ← chan_send p c; Some (Accepted p, set_pumping Reading c')
    | _ => None
    end
  | PumpClosed =>
    match pumping c with
    | Sending _ => if closed c then Some (Silent, set_pumping Stopped c) else None
    | _ => None
    end
  | Enqueue data to =>
    let p := mkPacket data to in
    c' ← chan_send p c; Some (Accepted p, c')
  | EnqueueClosed => if closed c then Some (ErrClosed, c) else None
  | ReadStart len now =>
    match readDeadline c with
    | Some t => if t - now <=? 0 then Some (TimedOut, c)
                else Some (Silent, set_readers (readers c ++ [mkReader len (Some t)]) c)
    | None => Some (Silent, set_readers (readers c ++ [mkReader len None]) c)
    end
  | ReadPacket i =>
    r ← readers c !! i;
    match packets c with
    | p :: ps => Some (Delivered p (take (Z.to_nat (rlen r)) (payload p)), drop_reader i (set_packets ps c))
    | [] => None
    end
  | ReadTimeout i now =>
    r ← readers c !! i;
    t ← rtimer r;
    if t <=? now then Some (TimedOut, drop_reader i c) else None
  | ReadClosed i =>
    r ← readers c !! i;
    if closed c then Some (ErrClosed, drop_reader i c) else None
  | CloseCheck =>
    Some (if closed c then (BaseClosed, c) else (Silent, set_closing false (S (closers c)) (panicked c) c))
  | CloseDo =>
    match closers c with
    | O => None
    | S n => Some (if closed c then (Silent, set_closing true n true c)
                   else (BaseClosed, set_closing true n (panicked c) c))
    end
  | SetReadDeadline t => Some (Silent, set_deadline t c)
  end.

(** Runs of a new connection under the schedules [sched] allows, with what was seen. *)
Inductive reachable (sched : queuedPacketConn -> action -> Prop) : list outcome -> queuedPacketConn -> Prop :=
| reach_new : reachable sched [] newQueuedPacketConn
| reach_step tr c a o c' :
    reachable sched tr c -> sched c a -> exec a c = Some (o, c') -> reachable sched (tr ++ [o]) c'.

Definition any (_ : queuedPacketConn) (_ : action) : Prop := True.
(** Close calls that do not overlap. *)
Definition serial (c : queuedPacketConn) (a : action) : Prop := a = CloseCheck -> closers c = 0%nat.

(** The same as a function of the schedule. *)
Fixpoint run (acts : list action) (c : queuedPacketConn) : option (list outcome * queuedPacketConn) :=
  match acts with
  | [] => Some ([], c)
  | a :: acts => '(o, c) ← exec a c; '(os, c) ← run acts c; Some (o :: os, c)
  end.

Lemma run_reachable acts : forall tr c os c', reachable any tr c -> run acts c = Some (os, c') -> reachable any (tr ++ os) c'.
Proof.
  induction acts as [|a acts IH]; intros tr c os c' Hc E; simpl in E.
  { simplify_eq. by rewrite app_nil_r. }
  destruct (exec a c) as [[o c1]|] eqn:Ea; [|done]. simpl in E.
  destruct (run acts c1) as [[os1 c2]|] eqn:Er; [|done]. simplify_eq/=.
  rewrite cons_middle, app_assoc. eapply IH; [|exact Er]. by eapply reach_step.
Qed.

(** ** First in, first out *)

Definition accepted (tr : list outcome) : list queuedPacket :=
  omap (fun o => match o with Accepted p => Some p | _ => None end) tr.
Definition delivered (tr : list outcome) : list queuedPacket :=
  omap (fun o => match o with Delivered p _ => Some p | _ => None end) tr.

Definition copied (o : outcome) : Prop :=
  match o with Delivered p b => b `prefix_of` payload p | _ => True end.

(** What every reachable state keeps. *)
Record inv (tr : list outcome) (c : queuedPacketConn) : Prop := {
  inv_fifo : delivered tr ++ packets c = accepted tr;
  inv_room : (length (packets c) <= capacity)%nat;
  inv_copied : Forall copied tr;
  inv_panic : panicked c = true -> closed c = true
}.

Lemma accepted_app tr o : accepted (tr ++ [o]) = accepted tr ++ accepted [o].
Proof. unfold accepted. by rewrite omap_app. Qed.
Lemma delivered_app tr o : delivered (tr ++ [o]) = delivered tr ++ delivered [o].
Proof. unfold delivered. by rewrite omap_app. Qed.

Lemma chan_send_inv p c c' : chan_send p c = Some c' -> c' = set_packets (packets c ++ [p]) c /\ (length (packets c) < capacity)%nat.
Proof. unfold chan_send. destruct (Nat.ltb_spec (length (packets c)) capacity); [|done]. by intros [= <-]. Qed.

(** Steps that leave the channel alone. *)
Lemma inv_quiet tr c o c' : inv tr c -> packets c' = packets c -> (panicked c' = true -> closed c' = true) ->
  (forall p, o <> Accepted p) -> (forall p b, o <> Delivered p b) -> inv (tr ++ [o]) c'.
Proof.
  intros [Hf Hr Hc Hp] E HP Ha Hd. constructor; [|by rewrite E| |done].
  - rewrite accepted_app, delivered_app, E. destruct o; try (by rewrite !app_nil_r); naive_solver.
  - apply Forall_app. split; [done|]. repeat constructor. destruct o; try done. naive_solver.
Qed.

Lemma inv_accept tr c p : inv tr c -> (length (packets c) < capacity)%nat ->
  inv (tr ++ [Accepted p]) (set_packets (packets c ++ [p]) c).
Proof.
  intros [Hf Hr Hc Hp] Hl. constructor; cbn [packets set_packets panicked closed]; [| | |done].
  - rewrite accepted_app, delivered_app, <- Hf. by rewrite app_nil_r, app_assoc.
  - rewrite length_app. simpl. lia.
  - apply Forall_app. split; [done|]. by repeat constructor.
Qed.

Lemma inv_deliver tr c p ps k : inv tr c -> packets c = p :: ps ->
  inv (tr ++ [Delivered p (take k (payload p))]) (set_packets ps c).
Proof.
  intros [Hf Hr Hc Hp] E. rewrite E in *. constructor; cbn [packets set_packets panicked closed]; [| | |done].
  - rewrite accepted_app, delivered_app, <- Hf. rewrite app_nil_r, <- app_assoc. done.
  - simpl in Hr. lia.
  - apply Forall_app. split; [done|]. repeat constructor. simpl. exists (drop k (payload p)). by rewrite take_drop.
Qed.

(** Fields the invariant does not look at. *)
Lemma inv_frame tr c c' : inv tr c -> packets c' = packets c -> panicked c' = panicked c -> closed c' = closed c -> inv tr c'.
Proof. intros [Hf Hr Hc Hp] E1 E2 E3. constructor; rewrite ?E1, ?E2, ?E3; done. Qed.

Ltac quiet := eapply inv_quiet; [eassumption|reflexivity|simpl; eauto using inv_panic|discriminate..].

Lemma inv_exec tr c a o c' : inv tr c -> exec a c = Some (o, c') -> inv (tr ++ [o]) c'.
Proof.
  intros H E. pose proof (inv_panic _ _ H) as Hp. destruct a; cbn [exec] in E; simplify_option_eq; try quiet.
  all: try match goal with H : chan_send _ _ = Some _ |- _ => apply chan_send_inv in H as [-> ?] end.
  all: try by eapply inv_frame; [by apply inv_accept|..].
  all: repeat case_match; simplify_option_eq; try quiet.
  all: try match goal with H : chan_send _ _ = Some _ |- _ => apply chan_send_inv in H as [-> ?] end.
  all: try by eapply inv_frame; [by apply inv_accept|..].
  all: try by eapply inv_frame; [by eapply inv_deliver|..].
Qed.

Lemma inv_reachable sched tr c : reachable sched tr c -> inv tr c.
Proof.
  induction 1; [|by eapply inv_exec]. constructor; try done. simpl. lia.
Qed.

Lemma fifo tr c : reachable any tr c ->
  delivered tr ++ packets c = accepted tr /\ (length (packets c) <= 32)%nat /\
  (forall p b, Delivered p b ∈ tr -> b `prefix_of` payload p).
Proof.
  intros [Hf Hr Hc _]%inv_reachable. split; [done|]. split; [done|].
  intros p b Hin. by apply (proj1 (Forall_forall _ _) Hc _ Hin).
Qed.

(** *** Nothing is lost *)

(** What a schedule hands to the queue: the packets base.ReadFrom returned to the pump, and
    those EnqueuePacket was called with and returned nil. *)
Definition from_socket (acts : list action) : list queuedPacket :=
  omap (fun a => match a with BaseRead data from => Some (mkPacket data from) | _ => None end) acts.
Definition from_callers (acts : list action) : list queuedPacket :=
  omap (fun a => match a with Enqueue data to => Some (mkPacket data to) | _ => None end) acts.

(** [m] has the elements of [l] and of [r], each in its order. *)
Inductive merges {A} : list A -> list A -> list A -> Prop :=
| merges_nil : merges [] [] []
| merges_left l r m x : merges l r m -> merges (l ++ [x]) r (m ++ [x])
| merges_right l r m x : merges l r m -> merges l (r ++ [x]) (m ++ [x]).

(** What the pump has read and not put into the channel: the packet it is about to send or,
    once it has stopped, at most one, which it gave up because the channel was closed. *)
Definition in_hand (c : queuedPacketConn) (h : list queuedPacket) : Prop :=
  match pumping c with
  | Reading => h = []
  | Sending p => h = [p]
  | Stopped => h = [] \/ closed c = true /\ exists p, h = [p]
  end.

Definition lossless (sock call out : list queuedPacket) (c : queuedPacketConn) : Prop :=
  exists pumped h, sock = pumped ++ h /\ in_hand c h /\ merges pumped call (out ++ packets c).

(** A step that neither reads from the socket nor touches the channel. *)
Lemma lossless_quiet sock call out c c' : lossless sock call out c -> packets c' = packets c ->
  (forall h, in_hand c h -> in_hand c' h) -> lossless sock call out c'.
Proof. intros (pu & h & E & Hh & Hm) Ep Hi. exists pu, h. rewrite Ep. eauto. Qed.

Lemma lossless_exec sock call out c a o c' : lossless sock call out c -> exec a c = Some (o, c') ->
  lossless (sock ++ from_socket [a]) (call ++ from_callers [a]) (out ++ delivered [o]) c'.
Proof.
  intros H E. destruct a; cbn [exec] in E; cbn [from_socket from_callers omap list_omap]; rewrite ?app_nil_r.
  - destruct (pumping c) eqn:Ep; try done. simplify_eq. destruct H as (pu & h & -> & Hh & Hm). unfold in_hand in Hh.
    rewrite Ep in Hh. subst h. exists pu, [mkPacket data from]. by rewrite !app_nil_r.
  - destruct (pumping c) eqn:Ep; try done. simplify_eq. rewrite app_nil_r. eapply lossless_quiet; [done..|].
    unfold in_hand. rewrite Ep. cbn. auto.
  - destruct (pumping c) eqn:Ep; try done. destruct (chan_send p c) as [c1|] eqn:Es; [|done]. simplify_eq/=.
    apply chan_send_inv in Es as [-> _]. destruct H as (pu & h & -> & Hh & Hm). unfold in_hand in Hh. rewrite Ep in Hh. subst h.
    exists (pu ++ [p]), []. cbn. rewrite !app_nil_r. split_and!; try done. rewrite app_assoc. by apply merges_left.
  - destruct (pumping c) eqn:Ep; try done. destruct (closed c) eqn:Ec; [|done]. simplify_eq. rewrite app_nil_r.
    eapply lossless_quiet; [done..|]. unfold in_hand. rewrite Ep. cbn. intros h ->. eauto.
  - destruct (chan_send _ c) as [c1|] eqn:Es; [|done]. simplify_eq/=. apply chan_send_inv in Es as [-> _].
    destruct H as (pu & h & -> & Hh & Hm). exists pu, h. split_and!; try done. cbn. rewrite app_nil_r, app_assoc. by apply merges_right.
  - destruct (closed c); [|done]. simplify_eq. by rewrite app_nil_r.
  - repeat case_match; simplify_eq; rewrite app_nil_r; (eapply lossless_quiet; [done..|]); by intros h.
  - destruct (readers c !! i); [|done]. cbn in E. destruct (packets c) as [|p ps] eqn:Ep; [done|]. simplify_eq.
    destruct H as (pu & h & -> & Hh & Hm). exists pu, h. split_and!; try done. rewrite Ep in Hm. cbn. by rewrite <- app_assoc.
  - destruct (readers c !! i) as [r|]; [|done]. cbn in E. destruct (rtimer r); [|done]. cbn in E. case_match; [|done]. simplify_eq.
    rewrite app_nil_r. by eapply lossless_quiet.
  - destruct (readers c !! i); [|done]. cbn in E. destruct (closed c); [|done]. simplify_eq. rewrite app_nil_r. by eapply lossless_quiet.
  - destruct (closed c) eqn:Ec; simplify_eq; rewrite app_nil_r; [done|]. eapply lossless_quiet; [done..|].
    unfold in_hand. cbn. rewrite Ec. done.
  - destruct (closers c); [done|]. destruct (closed c) eqn:Ec; simplify_eq; rewrite app_nil_r; (eapply lossless_quiet; [done..|]);
      unfold in_hand; cbn; rewrite Ec; [done|]. intros h Hh. destruct (pumping c); try done. destruct Hh as [|[? _]]; [by left|done].
  - simplify_eq. rewrite app_nil_r. by eapply lossless_quiet.
Qed.

Lemma lossless_run acts : forall sock call out c tr c', lossless sock call out c -> run acts c = Some (tr, c') ->
  lossless (sock ++ from_socket acts) (call ++ from_callers acts) (out ++ delivered tr) c'.
Proof.
  induction acts as [|a acts IH]; intros sock call out c tr c' H E; cbn [run] in E; [simplify_eq; by rewrite !app_nil_r|].
  destruct (exec a c) as [[o c1]|] eqn:Ea; [|done]. cbn in E. destruct (run acts c1) as [[os c2]|] eqn:Er; [|done]. simplify_eq/=.
  apply (lossless_exec _ _ _ _ _ _ _ H) in Ea. apply (IH _ _ _ _ _ _ Ea) in Er. rewrite <- !app_assoc in Er.
  unfold from_socket, from_callers, delivered in *. rewrite <- !omap_app in Er. exact Er.
Qed.

Lemma no_loss acts tr c : run acts newQueuedPacketConn = Some (tr, c) ->
  exists pumped h, from_socket acts = pumped ++ h /\ in_hand c h /\ merges pumped (from_callers acts) (delivered tr ++ packets c).
Proof. apply (lossless_run acts [] [] []). exists [], []. split_and!; try done. constructor. Qed.

(** A packet of the socket and a local reply; the first is read into a short buffer. *)
Example run_example :
  exists c, run [Enqueue [1; 2; 3] "a"; BaseRead [4] "b"; PumpSend; ReadStart 2 0; ReadPacket 0] newQueuedPacketConn =
    Some ([Accepted (mkPacket [1; 2; 3] "a"); Silent; Accepted (mkPacket [4] "b"); Silent;
           Delivered (mkPacket [1; 2; 3] "a") [1; 2]], c) /\ packets c = [mkPacket [4] "b"].
Proof. eexists. split; vm_compute; reflexivity. Qed.

(** ** Closing *)

Lemma serial_no_panic tr c : reachable serial tr c ->
  panicked c = false /\ (closers c <= 1)%nat /\ (closed c = true -> closers c = 0%nat).
Proof.
  induction 1 as [|tr c a o c' _ (Hp & Hc & Hcl) Hs E]; [simpl; split_and!; [done|lia|done]|].
  destruct a; cbn [exec] in E; unfold chan_send in E; repeat (case_match || simplify_option_eq); try done.
  all: unfold serial in Hs; try specialize (Hcl eq_refl); try (rewrite Hs by done); split_and!; simpl; try congruence; lia.
Qed.

(** Close releases every pending reader. *)
Lemma readers_released n : forall c, closed c = true -> length (readers c) = n ->
  run (replicate n (ReadClosed 0)) c = Some (replicate n ErrClosed, set_readers [] c).
Proof.
  induction n as [|n IH]; intros c Hc Hl; cbn [replicate run].
  { destruct c as [ps cl dl pu rs cs pa]; simpl in *. by destruct rs. }
  cbn [exec]. destruct (readers c) as [|r rs] eqn:Er; [done|]. cbn. rewrite Hc. cbn.
  unfold drop_reader. rewrite Er. cbn [delete list_delete]. by rewrite IH by (done || simpl in *; lia).
Qed.

(** No step of the [i]-th reader is ready. *)
Definition waiting (i : nat) (c : queuedPacketConn) : Prop :=
  exec (ReadPacket i) c = None /\ exec (ReadClosed i) c = None /\ forall now, exec (ReadTimeout i now) c = None.

Lemma waiting_spec i r c : readers c !! i = Some r ->
  waiting i c <-> packets c = [] /\ closed c = false /\ rtimer r = None.
Proof.
  intros Hr. unfold waiting. cbn [exec]. rewrite Hr. cbn [mbind option_bind].
  split; [|intros (Hp & Hc & Ht); by rewrite Hp, Hc, Ht].
  intros (Hp & Hc & Ht). destruct (packets c); [|done]. destruct (closed c); [done|]. split_and!; try done.
  destruct (rtimer r) as [t|]; [|done]. specialize (Ht t). cbn in Ht. by rewrite Z.leb_refl in Ht.
Qed.

Lemma panic_reachable : exists tr c, reachable any tr c /\ panicked c = true.
Proof.
  eexists _, _. split.
  - eapply (run_reachable [CloseCheck; CloseCheck; CloseDo; CloseDo] []); [apply reach_new|vm_compute; reflexivity].
  - reflexivity.
Qed.

Lemma accepted_after_close : exists tr tr' c p, reachable any (tr ++ BaseClosed :: tr') c /\ Accepted p ∈ tr'.
Proof.
  eexists [Silent], [Accepted _], _, _. split.
  - eapply (run_reachable [CloseCheck; CloseDo; Enqueue [1] "a"] []); [apply reach_new|vm_compute; reflexivity].
  - by left.
Qed.

(** A base socket that fails leaves the readers waiting. *)
Lemma failed_base_hangs : exists tr c, reachable any tr c /\ pumping c = Stopped /\ waiting 0 c.
Proof.
  eexists _, _. split; [|split].
  - eapply (run_reachable [BaseFailed; ReadStart 100 0] []); [apply reach_new|vm_compute; reflexivity].
  - reflexivity.
  - by apply (waiting_spec 0 (mkReader 100 None)).
Qed.

(** C30: The queue is first in, first out, and closing releases everyone.  However the
    pump, EnqueuePacket calls, readers and Close calls interleave, the packets ReadFrom
    returned followed by those still queued are exactly the packets accepted, in order; they
    are the packets the pump read from the socket and those EnqueuePacket accepted, each
    kind in its order, and none is missing but the one the pump is about to send, or has
    given up because the queue was closed.  At most 32 are queued; every ReadFrom returned the beginning of its packet.  When Close
    calls do not overlap the channel is never closed twice; two overlapping calls can close
    it twice, which panics.  With the channel closed every pending ReadFrom can return
    net.ErrClosed, the pump can stop, and EnqueuePacket can return net.ErrClosed (or still
    accept the packet if there is room).  A pending ReadFrom cannot move exactly when
    nothing is queued, the channel is open and it started without a deadline; a failure of
    the socket stops the pump without telling such a reader, which then waits for Close. *)
Theorem queue_correct :
  (forall tr c, reachable any tr c ->
     delivered tr ++ packets c = accepted tr /\ (length (packets c) <= 32)%nat /\
     (forall p b, Delivered p b ∈ tr -> b `prefix_of` payload p)) /\
  (forall acts tr c, run acts newQueuedPacketConn = Some (tr, c) ->
     exists pumped h, from_socket acts = pumped ++ h /\
       match pumping c with
       | Reading => h = []
       | Sending p => h = [p]
       | Stopped => h = [] \/ closed c = true /\ exists p, h = [p]
       end /\
       merges pumped (from_callers acts) (delivered tr ++ packets c)) /\
  (forall tr c, reachable serial tr c -> panicked c = false) /\
  (exists tr c, reachable any tr c /\ panicked c = true) /\
  (forall tr c, reachable any tr c -> closed c = true ->
     run (replicate (length (readers c)) (ReadClosed 0)) c =
       Some (replicate (length (readers c)) ErrClosed, set_readers [] c) /\
     exec EnqueueClosed c = Some (ErrClosed, c) /\
     (forall p, pumping c = Sending p -> exec PumpClosed c = Some (Silent, set_pumping Stopped c))) /\
  (exists tr tr' c p, reachable any (tr ++ BaseClosed :: tr') c /\ Accepted p ∈ tr') /\
  (forall i r c, readers c !! i = Some r ->
     waiting i c <-> packets c = [] /\ closed c = false /\ rtimer r = None) /\
  (exists tr c, reachable any tr c /\ pumping c = Stopped /\ waiting 0 c).
Proof.
  split; [exact fifo|]. split; [exact no_loss|]. split; [intros tr c H; by apply (serial_no_panic tr c)|]. split; [exact panic_reachable|]. split.
  - intros tr c _ Hc. split; [by apply readers_released|]. cbn [exec]. rewrite Hc. split; [done|]. intros p Hp. by rewrite Hp.
  - split; [exact accepted_after_close|]. split; [exact waiting_spec|exact failed_base_hangs].
Qed.

End Queue.
