(* ===== verification/Mobile.v ===== *)
(** * The Android binding (src/mobile/dns_tcp_conn.go, bill_proxy.go, mobile_api.go)

    The proxy the embedded tun2socks engine dials through: TCP connections are planned,
    dialled and wrapped, UDP packets are planned one by one, and DNS traffic to the VPN's
    resolver address is answered locally, over UDP through the packet queue and over TCP
    with length-prefixed frames.  The log buffer the app polls is here too. *)

From S2P Require Import Prelude GoStrings GoState Conn GoIO NetIP GoNet FakeIP Patterns Policy Route IPPool Core Dns Plan Bridge Queue.

Module Mobile.
Import FakeIP Policy Route Dns Plan Bridge.

(** ** The log buffer (mobile_api.go) *)

Definition maxLogs : nat := 500.

Definition pushLog (logEntries : list string) (msg : string) : list string :=
  let logEntries := logEntries ++ [msg] in
  if (maxLogs <? length logEntries)%nat then drop 1 logEntries else logEntries.

(** LogWriter.Write and GetLogs. *)
Definition LogWriter_Write (logEntries : list string) (p : string) : (Z * option string) * list string :=
  ((Z.of_nat (String.length p), None), pushLog logEntries p).
Definition GetLogs (logEntries : list string) : string * list string :=
  match logEntries with
  | [] => ("", [])
  | _ => (foldl String.app "" logEntries, [])
  end.

Definition RequestSourceMobile : string := "mobile_tun".

(** ** Session numbers (bill_proxy.go) *)

(** nextID: the number returned and the counter left behind. *)
Definition nextID (counter : Z) : Z * Z :=
  let id := u32 (counter + 1) in
  if 0xFFFFF <? id then (0, 0) else (id, id).

Section proxy.
Context {L : LRU} {ord : RangeOrder} {names : DNSNames} {env : Env} (cfg : config).
Context (Unpack : bytes -> go Msg) (Pack : Msg -> go bytes).

(** ** DNS over TCP (dns_tcp_conn.go) *)

(** The server end of the pipe: the proxy core, the bytes the client will still send, and
    what went back. *)
Record tcpdns := mkTcp { tkern : core; tin : bytes; ttrace : list event }.

(** Why serveLocalDNSTCP returned. *)
Inductive stop :=
| LengthError (e : string)     (* end of the stream, or a failed read *)
| EmptyMessage
| PayloadError (e : string)
| QueryError (e : string)
| WriteError (e : string)
| Crashed.

(** [frame]: the length and the response. *)
Definition dns_frame (resp : bytes) : bytes := put16 (zlen resp) ++ resp.

(** The loop of serveLocalDNSTCP; [ws i] is what the clock and the network say when the
    [i]-th query is handled. *)
Fixpoint serve_loop (fuel : nat) (ws : nat -> world) (s : tcpdns) : stop * tcpdns :=
  match fuel with
  | O => (Crashed, s)
  | S fuel =>
    match ReadFull 2 (tin s) with
    | (Ret [a; b], rest) =>
      let msgLen := be16 a b in
      if msgLen <=? 0 then (EmptyMessage, mkTcp (tkern s) rest (ttrace s))
      else
        match ReadFull msgLen rest with
        | (Ret payload, rest) =>
          match HandleDNSQueryPacket cfg (ws 0%nat) Unpack Pack payload (tkern s) with
          | (Ret resp, k) =>
            match write (fun e => e) (dns_frame resp) (ttrace s) with
            | (Ret _, tr) => serve_loop fuel (fun i => ws (S i)) (mkTcp k rest tr)
            | (Err e, tr) => (WriteError e, mkTcp k rest tr)
            | (Panic, tr) => (Crashed, mkTcp k rest tr)
            end
          | (Err e, k) => (QueryError e, mkTcp k rest (ttrace s))
          | (Panic, k) => (Crashed, mkTcp k rest (ttrace s))
          end
        | (Err e, rest) => (PayloadError e, mkTcp (tkern s) rest (ttrace s))
        | (Panic, rest) => (Crashed, mkTcp (tkern s) rest (ttrace s))
        end
    | (Err e, rest) => (LengthError e, mkTcp (tkern s) rest (ttrace s))
    | (_, rest) => (Crashed, mkTcp (tkern s) rest (ttrace s))
    end
  end.

(** serveLocalDNSTCP, with its deferred Close. *)
Definition serveLocalDNSTCP (ws : nat -> world) (s : tcpdns) : stop * tcpdns :=
  let (r, s) := serve_loop (S (length (tin s))) ws s in
  (r, mkTcp (tkern s) (tin s) (snd (perform (fun e => e) EvClose (ttrace s)))).

(** ** Dialling (bill_proxy.go) *)

(** tun2socks metadata, as far as it is used; an invalid netip.Addr is [None]. *)
Record Metadata := mkMeta { DstIP : option Addr; DstPort : Z }.

(** The connection DialContext hands back. *)
Inductive dialed :=
| LocalDNS                          (* newLocalDNSTCPConn *)
| RawConn (target : string)         (* the connection to target itself *)
| PolicyConn (target : string) (plan : DialPlan).   (* WrapTCPConn *)

Record bill := mkBill { bkern : core; tcpDialID : Z; udpDialID : Z }.

(** What DialContext does with its plan: refuse, dial, and wrap. *)
Definition dial_planned (dial : string -> Z -> go unit) (originHost : string) (plan : DialPlan) : go dialed :=
  if Blocked plan then Err ("blocked by policy: " +:+ originHost)
  else
    let target := TargetAddress plan in
    let! _ := dial target (DefaultDialTimeout (plPolicy plan)) in
    Ret match pMode (plPolicy plan) with
        | ModeTTLD => RawConn target
        | _ => PolicyConn target plan
        end.

(** BillProxy.DialContext; the message of an invalid address is given without the dump of
    the metadata; [dial addr timeout] is net.Dialer.DialContext. *)
Definition DialContext (dial : string -> Z -> go unit) (w : world) (m : option Metadata) : St bill dialed := fun s =>
  match m with
  | Some (mkMeta (Some ip) port) =>
    let originHost := AddrString ip in
    let s := mkBill (bkern s) (snd (nextID (tcpDialID s))) (udpDialID s) in
    if IsVPNDNSAddress originHost port then (Ret LocalDNS, s)
    else
      let (r, k) := PlanRequest cfg w (mkRequest RequestSourceMobile originHost port ResolveDomainTarget) true (bkern s) in
      (go_bind r (dial_planned dial originHost), mkBill k (tcpDialID s) (udpDialID s))
  | _ => (Err "invalid tcp metadata", s)
  end.

(** ** UDP packets (bill_proxy.go)

    A session's packet connection: the queue its reads come from, and the datagrams its
    socket sent. *)
Record packetConn := mkPC { pkern : core; queue : Queue.queuedPacketConn; sent : list (bytes * string) }.

(** BillProxy.DialUDP; [listen] is net.ListenPacket. *)
Definition DialUDP (listen : go unit) (m : option Metadata) : St bill packetConn := fun s =>
  let s := mkBill (bkern s) (tcpDialID s) (snd (nextID (udpDialID s))) in
  match m with
  | Some (mkMeta (Some _) _) =>
    (go_bind listen (fun _ => Ret (mkPC (bkern s) Queue.newQueuedPacketConn [])), s)
  | _ => (Err "invalid udp metadata", s)
  end.

(** The destination of a write: a *net.UDPAddr, or another net.Addr, known by its text. *)
Inductive dest :=
| UDPDest (ip : option Z) (port : Z)
| TextDest (s : string).

(** [addr.String()]. *)
Definition dest_string (d : dest) : string :=
  match d with
  | UDPDest ip port => JoinHostPort (match ip with Some z => IPString z | None => "" end) (Itoa port)
  | TextDest s => s
  end.

(** [net.ResolveUDPAddr("udp", s)]: an address and a port. *)
Context (ResolveUDPAddr : string -> go (option Z * Z)).

(** The socket's WriteTo. *)
Context (sendto : bytes -> string -> go Z).

(** A write that returned its count, or one that waits in EnqueuePacket for room for a
    packet and will then return the count. *)
Inductive wrote :=
| Wrote (n : Z)
| Waits (p : Queue.queuedPacket) (n : Z).

(** billPacketConn.handleDNSQuery.  [closing]: the select of EnqueuePacket takes the closed
    case when both are ready. *)
Definition udp_dns (w : world) (closing : bool) (payload : bytes) (addr : string) : St packetConn wrote := fun s =>
  match HandleDNSQueryPacket cfg w Unpack Pack payload (pkern s) with
  | (Ret resp, k) =>
    let s := mkPC k (queue s) (sent s) in
    if closing && Queue.closed (queue s) then (Err "use of closed network connection", s)
    else
      match Queue.exec (Queue.Enqueue resp addr) (queue s) with
      | Some (_, q) => (Ret (Wrote (zlen payload)), mkPC k q (sent s))
      | None => if Queue.closed (queue s) then (Err "use of closed network connection", s)
                else (Ret (Waits (Queue.mkPacket resp addr) (zlen payload)), s)
      end
  | (Err e, k) => (Err e, mkPC k (queue s) (sent s))
  | (Panic, k) => (Panic, mkPC k (queue s) (sent s))
  end.

(** The address to route by: the numeric address in the text, if there is one. *)
Definition dest_ip (addr : dest) (ip : option Z) : option Z :=
  match ParseAddrPort (dest_string addr) with
  | Some (a, _) => Some (As16 a)
  | None => ip
  end.

(** billPacketConn.WriteTo; the text of [*net.UDPAddr] names the client of a DNS reply. *)
Definition WriteTo (w : world) (closing : bool) (b : bytes) (addr : dest) : St packetConn wrote := fun s =>
  match (match addr with UDPDest ip port => Ret (ip, port) | TextDest t => ResolveUDPAddr t end) with
  | Ret (ip, port) =>
    match dest_ip addr ip with
    | None => (Err "invalid udp destination", s)
    | Some dstIP =>
      let originHost := IPString dstIP in
      if IsVPNDNSAddress originHost port then udp_dns w closing b (dest_string (UDPDest ip port)) s
      else
        match PlanRequest cfg w (mkRequest RequestSourceMobile originHost port ResolveDomainTarget) true (pkern s) with
        | (Ret plan, k) =>
          let s := mkPC k (queue s) (sent s) in
          if Blocked plan then (Err ("blocked by policy: " +:+ originHost), s)
          else
            match ResolveUDPAddr (TargetAddress plan) with
            | Ret (ip, port) =>
              let dst := dest_string (UDPDest ip port) in
              match sendto b dst with
              | Ret n => (Ret (Wrote n), mkPC k (queue s) (sent s ++ [(b, dst)]))
              | Err e => (Err e, s)
              | Panic => (Panic, s)
              end
            | Err e => (Err e, s)
            | Panic => (Panic, s)
            end
        | (Err e, k) => (Err e, mkPC k (queue s) (sent s))
        | (Panic, k) => (Panic, mkPC k (queue s) (sent s))
        end
    end
  | Err e => (Err e, s)
  | Panic => (Panic, s)
  end.
End proxy.

(** ** Queries over TCP, one after the other *)

Section tcp.
Context {L : LRU} {ord : RangeOrder} {names : DNSNames} (cfg : config).
Context (Unpack : bytes -> go Msg) (Pack : Msg -> go bytes).

(** The answers to [qs] up to the first failure, and the state they leave. *)
Fixpoint answer_all (ws : nat -> world) (qs : list bytes) (k : core) : list bytes * option stop * core :=
  match qs with
  | [] => ([], None, k)
  | q :: qs =>
    match HandleDNSQueryPacket cfg (ws 0%nat) Unpack Pack q k with
    | (Ret r, k) => let '(rs, e, k) := answer_all (fun i => ws (S i)) qs k in (r :: rs, e, k)
    | (Err e, k) => ([], Some (QueryError e), k)
    | (Panic, k) => ([], Some Crashed, k)
    end
  end.

Definition query_ok (q : bytes) : Prop := 0 < zlen q < 65536.

(** How the server ends on bytes that do not start with a complete query; [None] if they
    do. *)
Definition tail_stop (t : bytes) : option stop :=
  match t with
  | [] => Some (LengthError "EOF")
  | [_] => Some (LengthError "unexpected EOF")
  | a :: b :: p =>
    if be16 a b <=? 0 then Some EmptyMessage
    else if zlen p <? be16 a b then Some (PayloadError (if zlen p =? 0 then "EOF" else "unexpected EOF"))
    else None
  end.

Lemma ReadFull_2 a b rest : ReadFull 2 (a :: b :: rest) = (Ret [a; b], rest).
Proof. by apply (ReadFull_app 2 [a; b] rest). Qed.

Lemma dns_frame_cons q rest : query_ok q ->
  exists a b, dns_frame q ++ rest = a :: b :: q ++ rest /\ be16 a b = zlen q.
Proof.
  intros [H1 H2]. unfold dns_frame, put16. eexists _, _. split; [reflexivity|].
  rewrite (put16_be16 (zlen q) _ _ eq_refl). by rewrite u16_small by lia.
Qed.

(** The end of the loop. *)
Lemma serve_tail {env : Env} fuel ws k t tr st : tail_stop t = Some st ->
  exists rest, serve_loop cfg Unpack Pack (S fuel) ws (mkTcp k t tr) = (st, mkTcp k rest tr).
Proof.
  intros H. cbn [serve_loop tin tkern ttrace]. destruct t as [|a [|b p]].
  - injection H as <-. by eexists.
  - injection H as <-. by eexists.
  - cbn [tail_stop] in H. rewrite ReadFull_2. destruct (be16 a b <=? 0) eqn:E; [injection H as <-; by eexists|].
    apply Z.leb_gt in E. destruct (Z.ltb_spec (zlen p) (be16 a b)); [|done]. injection H as <-.
    unfold ReadFull. rewrite (proj2 (Z.leb_gt _ _)) by done. by eexists.
Qed.

(** One query of the loop. *)
Lemma serve_query fuel ws k q rest tr : query_ok q ->
  serve_loop (env := reliable) cfg Unpack Pack (S fuel) ws (mkTcp k (dns_frame q ++ rest) tr) =
  match HandleDNSQueryPacket cfg (ws 0%nat) Unpack Pack q k with
  | (Ret resp, k) => serve_loop (env := reliable) cfg Unpack Pack fuel (fun i => ws (S i))
                       (mkTcp k rest (tr ++ [EvWrite (dns_frame resp)]))
  | (Err e, k) => (QueryError e, mkTcp k rest tr)
  | (Panic, k) => (Crashed, mkTcp k rest tr)
  end.
Proof.
  intros Hq. destruct (dns_frame_cons q rest Hq) as (a & b & -> & E). cbn [serve_loop tin tkern ttrace].
  rewrite ReadFull_2. cbv zeta. rewrite E, (proj2 (Z.leb_gt _ _)) by apply Hq. rewrite ReadFull_app by done.
  by destruct (HandleDNSQueryPacket _ _ _ _ _ _) as [[] ?].
Qed.

Lemma serve_loop_spec qs : Forall query_ok qs -> forall fuel ws k t tr st, (length qs < fuel)%nat -> tail_stop t = Some st ->
  let '(rs, e, k') := answer_all ws qs k in
  exists rest, serve_loop (env := reliable) cfg Unpack Pack fuel ws (mkTcp k (mjoin (dns_frame <$> qs) ++ t) tr) =
    (default st e, mkTcp k' rest (tr ++ ((fun r => EvWrite (dns_frame r)) <$> rs))).
Proof.
  induction 1 as [|q qs Hq _ IH]; intros [|fuel] ws k t tr st Hf Ht; simpl in Hf; try lia.
  - cbn [answer_all fmap list_fmap mjoin list_join app default]. destruct (serve_tail (env := reliable) fuel ws k t tr st Ht) as [rest E].
    exists rest. by rewrite E, app_nil_r.
  - cbn [answer_all]. rewrite fmap_cons, mjoin_cons, <- app_assoc, serve_query by done.
    destruct (HandleDNSQueryPacket _ _ _ _ _ _) as [[r|e|] k']; try (eexists; by rewrite app_nil_r).
    specialize (IH fuel (fun i => ws (S i)) k' t (tr ++ [EvWrite (dns_frame r)]) st ltac:(lia) Ht).
    destruct (answer_all _ qs k') as [[rs e] k2]. destruct IH as [rest ->]. exists rest. by rewrite <- app_assoc.
Qed.

Lemma frames_count qs : Forall query_ok qs -> (length qs <= length (mjoin (dns_frame <$> qs)))%nat.
Proof.
  induction 1 as [|q qs Hq _ IH]; [done|]. rewrite fmap_cons, mjoin_cons, length_app. unfold dns_frame at 1.
  rewrite length_app. simpl. lia.
Qed.

(** Any input is complete queries and an end. *)
Lemma split_queries n : forall t, (length t <= n)%nat -> bytes_ok t ->
  exists qs t', t = mjoin (dns_frame <$> qs) ++ t' /\ Forall query_ok qs /\ is_Some (tail_stop t').
Proof.
  induction n as [|n IH]; intros t Hl Hok.
  { exists [], t. split_and!; [done|done|]. destruct t; [by eexists|simpl in Hl; lia]. }
  destruct (tail_stop t) as [st|] eqn:E; [by exists [], t; rewrite E|].
  destruct t as [|a [|b p]]; [done|done|]. cbn [tail_stop] in E.
  destruct (Z.leb_spec (be16 a b) 0); [done|]. destruct (Z.ltb_spec (zlen p) (be16 a b)) as [|Hp]; [done|].
  unfold bytes_ok in Hok. apply Forall_cons in Hok as [Ha Hok]. apply Forall_cons in Hok as [Hb Hok].
  set (m := be16 a b) in *. assert (zlen (take (Z.to_nat m) p) = m) as Hm by (unfold zlen in *; rewrite length_take; lia).
  destruct (IH (drop (Z.to_nat m) p)) as (qs & t' & E' & Hqs & Ht').
  { rewrite length_drop. simpl in Hl. lia. }
  { by apply Forall_drop. }
  unfold is_byte in Ha, Hb. assert (m < 65536) by (unfold m, be16; lia).
  exists (take (Z.to_nat m) p :: qs), t'. split_and!; [|constructor; [unfold query_ok; lia|done]|done].
  rewrite fmap_cons, mjoin_cons, <- app_assoc, <- E'. unfold dns_frame at 1. rewrite Hm.
  assert (put16 m = [a; b]) as ->.
  { unfold put16. rewrite u16_small by lia. unfold m, be16.
    rewrite Z.div_add_l, Z.div_small, Z.add_0_r by lia. rewrite Z.add_comm, Z.mod_add, Z.mod_small by lia. done. }
  rewrite <- app_assoc, take_drop. done.
Qed.

(** The local DNS server over TCP answers every complete query in order.  Any bytes a
    client sends are complete length-prefixed queries and an end; the server writes one
    length-prefixed answer per query, what HandleDNSQueryPacket gives in the state the
    previous query left, stops at the first query that fails without answering it or any
    later one, otherwise reports how the stream ended (a clean end, a cut length, an empty
    message, a cut payload), and closes the connection; it always returns. *)
Theorem dns_tcp_server ws input k : bytes_ok input ->
  exists qs t st, input = mjoin (dns_frame <$> qs) ++ t /\ Forall query_ok qs /\ tail_stop t = Some st /\
    let '(rs, e, k') := answer_all ws qs k in
    exists rest, serveLocalDNSTCP (env := reliable) cfg Unpack Pack ws (mkTcp k input []) =
      (default st e, mkTcp k' rest (((fun r => EvWrite (dns_frame r)) <$> rs) ++ [EvClose])).
Proof.
  intros Hok. destruct (split_queries (length input) input) as (qs & t & E & Hq & [st Ht]); [done|done|].
  exists qs, t, st. split_and!; try done. unfold serveLocalDNSTCP. cbn [tin]. rewrite E.
  pose proof (serve_loop_spec qs Hq (S (length (mjoin (dns_frame <$> qs) ++ t))) ws k t [] st) as HS.
  pose proof (frames_count qs Hq). rewrite length_app in HS.
  destruct (answer_all ws qs k) as [[rs e] k']. destruct HS as [rest HS]; [lia|done|].
  exists rest. by rewrite length_app, HS.
Qed.
End tcp.

(** ** Packets and sessions *)

Section sessions.
Context {L : LRU} {ord : RangeOrder} {names : DNSNames} (cfg : config).
Context (Unpack : bytes -> go Msg) (Pack : Msg -> go bytes).
Context (ResolveUDPAddr : string -> go (option Z * Z)) (sendto : bytes -> string -> go Z).

Notation WriteTo := (WriteTo cfg Unpack Pack ResolveUDPAddr sendto).

(** Numeric text names its own address (net.ResolveUDPAddr). *)
Definition resolves_numeric : Prop :=
  forall a p, plain a -> 0 <= p < 65536 -> ResolveUDPAddr (JoinHostPort (AddrString a) (Itoa p)) = Ret (Some (As16 a), p).

Lemma Unmap_plain ip : 0 <= ip < 2 ^ 128 -> plain (Unmap (Addr6 ip "")) /\ As16 (Unmap (Addr6 ip "")) = ip.
Proof.
  intros H. unfold Unmap. destruct (is4in6 ip) eqn:E; [|done]. pose proof (is4in6_spec ip H E) as Hs. split; [|by symmetry].
  split; [|done]. unfold addr_ok. cbn [addr_val BitLen]. apply Z.mod_pos_bound. lia.
Qed.

Lemma As16_range a : plain a -> 0 <= As16 a < 2 ^ 128.
Proof.
  intros [H _]. destruct a as [v|v z]; unfold addr_ok in H; cbn [addr_val BitLen As16] in *; [|done].
  assert (0xffff * 2 ^ 32 + 2 ^ 32 < 2 ^ 128) by done. lia.
Qed.

(** A numeric destination is routed by its address, however it is given. *)
Lemma dest_ip_numeric a port ip : plain a -> 0 <= port < 65536 ->
  dest_ip (TextDest (JoinHostPort (AddrString a) (Itoa port))) ip = Some (As16 a) /\
  dest_ip (UDPDest (Some (As16 a)) port) ip = Some (As16 a).
Proof.
  intros Ha Hp. unfold dest_ip. cbn [dest_string]. rewrite ParseAddrPort_String by done. split; [done|].
  destruct (Unmap_plain (As16 a) (As16_range a Ha)) as [Hu E]. unfold IPString. by rewrite ParseAddrPort_String, E.
Qed.

Lemma WriteTo_text w closing b a port s : resolves_numeric -> plain a -> 0 <= port < 65536 ->
  WriteTo w closing b (TextDest (JoinHostPort (AddrString a) (Itoa port))) s =
  WriteTo w closing b (UDPDest (Some (As16 a)) port) s.
Proof.
  intros Hn Ha Hp. unfold Mobile.WriteTo. rewrite Hn by done.
  by rewrite !(proj1 (dest_ip_numeric a port (Some (As16 a)) Ha Hp)), !(proj2 (dest_ip_numeric a port (Some (As16 a)) Ha Hp)).
Qed.

(** A reply is queued for the address the query was sent to, or not at all. *)
Lemma udp_dns_spec w closing b addr s r s' : udp_dns cfg Unpack Pack w closing b addr s = (r, s') ->
  sent s' = sent s /\
  (forall n, r = Ret (Wrote n) -> n = zlen b /\ exists resp, HandleDNSQueryPacket cfg w Unpack Pack b (pkern s) = (Ret resp, pkern s') /\
     Queue.packets (queue s') = Queue.packets (queue s) ++ [Queue.mkPacket resp addr]).
Proof.
  unfold udp_dns. destruct (HandleDNSQueryPacket _ _ _ _ _ _) as [[resp|e|] k]; try (intros [= <- <-]; by split).
  cbv zeta. cbn [pkern queue sent]. destruct (closing && _); [intros [= <- <-]; by split|].
  destruct (Queue.exec _ _) as [[o q]|] eqn:E.
  - intros [= <- <-]. split; [done|]. intros n [= <-]. split; [done|]. exists resp. split; [done|]. cbn [queue].
    cbn in E. destruct (Queue.chan_send _ _) as [q'|] eqn:Ec; [|done]. cbn in E. simplify_eq.
    by apply Queue.chan_send_inv in Ec as [-> _].
  - destruct (Queue.closed _); intros [= <- <-]; by split.
Qed.

(** What a write does to the queue: nothing, or it puts in the local reply to the
    resolver's client; a reply that waits found the queue full. *)
Lemma WriteTo_queue w closing b a port s r s' : plain a -> 0 <= port < 65536 ->
  WriteTo w closing b (UDPDest (Some (As16 a)) port) s = (r, s') ->
  let from := dest_string (UDPDest (Some (As16 a)) port) in
  (queue s' = queue s /\ (forall p n, r = Ret (Waits p n) ->
     Queue.addr p = from /\ Queue.closed (queue s) = false /\ (Queue.capacity <= length (Queue.packets (queue s)))%nat)) \/
  (exists p n, r = Ret (Wrote n) /\ Queue.addr p = from /\
     Queue.exec (Queue.Enqueue (Queue.payload p) from) (queue s) = Some (Queue.Accepted p, queue s')).
Proof.
  intros Ha Hp H. cbv zeta. unfold Mobile.WriteTo in H.
  rewrite (proj2 (dest_ip_numeric a port (Some (As16 a)) Ha Hp)) in H. cbv zeta in H.
  destruct (IsVPNDNSAddress _ _).
  - unfold udp_dns in H. destruct (HandleDNSQueryPacket _ _ _ _ _ _) as [[resp|e|] k]; [|simplify_eq; by left..].
    cbv zeta in H. cbn [pkern queue sent] in H. destruct (closing && _); [simplify_eq; by left|].
    cbn [Queue.exec] in *. unfold Queue.chan_send in *.
    destruct (Nat.ltb_spec (length (Queue.packets (queue s))) Queue.capacity) as [Hl|Hl]; cbn [mbind option_bind] in *.
    + simplify_eq. right. eexists (Queue.mkPacket resp _), _. split; [done|]. split; [done|]. done.
    + left. destruct (Queue.closed (queue s)) eqn:Ec; simplify_eq; split; try done. intros p n [= <- <-]. done.
  - left. destruct (PlanRequest _ _ _ _ _) as [[plan|e|] k]; [|by simplify_eq..].
    cbn [pkern queue sent] in H. destruct (Blocked plan); [by simplify_eq|].
    destruct (ResolveUDPAddr (TargetAddress plan)) as [[ip' p']|e|]; [|by simplify_eq..].
    cbv zeta in H. by destruct (sendto _ _) as [n|e|]; simplify_eq.
Qed.

(** A UDP session sends only what its plans allow.  A numeric destination is handled
    the same whether it comes as a UDP address or as text.  Datagrams to the VPN's
    resolver never leave: a successful write queued exactly one reply, addressed from the
    resolver.  Any other datagram leaves the queue alone and either is not sent, or is
    sent once, unchanged, to the resolved target of a plan for that address that is not
    blocked. *)
Theorem mobile_udp w closing b a port s r s' :
  resolves_numeric -> plain a -> 0 <= port < 65536 ->
  WriteTo w closing b (UDPDest (Some (As16 a)) port) s = (r, s') ->
  WriteTo w closing b (TextDest (JoinHostPort (AddrString a) (Itoa port))) s = (r, s') /\
  (IsVPNDNSAddress (IPString (As16 a)) port = true ->
     sent s' = sent s /\
     (forall n, r = Ret (Wrote n) -> n = zlen b /\ exists resp,
        Queue.packets (queue s') = Queue.packets (queue s) ++ [Queue.mkPacket resp "172.19.0.2:53"])) /\
  (IsVPNDNSAddress (IPString (As16 a)) port = false ->
     queue s' = queue s /\
     (sent s' = sent s \/
      exists plan dst n, fst (PlanRequest cfg w (mkRequest RequestSourceMobile (IPString (As16 a)) port ResolveDomainTarget)
          true (pkern s)) = Ret plan /\ Blocked plan = false /\ ResolveUDPAddr (TargetAddress plan) = Ret dst /\
        r = Ret (Wrote n) /\ sent s' = sent s ++ [(b, dest_string (UDPDest (fst dst) (snd dst)))])).
Proof.
  intros Hn Ha Hp H. split; [by rewrite WriteTo_text|]. unfold Mobile.WriteTo in H.
  rewrite (proj2 (dest_ip_numeric a port (Some (As16 a)) Ha Hp)) in H. cbv zeta in H. split.
  - intros Hd. rewrite Hd in H. apply udp_dns_spec in H as [Hs Hr]. split; [done|]. intros n ->.
    destruct (Hr n eq_refl) as (-> & resp & _ & E). split; [done|]. exists resp. rewrite E.
    unfold IsVPNDNSAddress in Hd. apply andb_prop in Hd as [Hh%bool_decide_eq_true_1 Hpt%Z.eqb_eq].
    cbn [dest_string]. rewrite Hh, Hpt. do 3 f_equal.
  - intros Hd. rewrite Hd in H. destruct (PlanRequest _ _ _ _ _) as [[plan|e|] k]; [|simplify_eq; by split; [|left]..].
    cbn [pkern queue sent] in H. destruct (Blocked plan) eqn:Hb; [simplify_eq; by split; [|left]|].
    destruct (ResolveUDPAddr (TargetAddress plan)) as [[ip' p']|e|] eqn:ER; [|simplify_eq; by split; [|left]..].
    cbv zeta in H. destruct (sendto _ _) as [n|e|]; simplify_eq; split; try done; [|by left..].
    right. exists plan, (ip', p'), n. done.
Qed.

(** C26: A name asked through the VPN's resolver and then connected to.  After a hijacked
    UDP query for a domain a rule matches was answered, exactly one packet is queued for
    the client: the packed reply, from the resolver's address.  Until the binding's
    lifetime has passed, a TCP connection to any address of the asked type in that reply
    is planned, refused, dialled and wrapped as one to the domain, with the address as its
    origin, and is never taken for DNS traffic. *)
Theorem mobile_session w later payload req q resp s n s' :
  Unpack payload = Ret req -> hijacked cfg w req q resp (pkern s) ->
  not_ip (ToLower (TrimSuffix1 (qName q) ".")) = true ->
  WriteTo w false payload (UDPDest (Some (As16 (Addr4 0xac130002))) 53) s = (Ret (Wrote n), s') ->
  exists reply rb, Pack reply = Ret rb /\ n = zlen payload /\ sent s' = sent s /\
    Queue.packets (queue s') = Queue.packets (queue s) ++ [Queue.mkPacket rb "172.19.0.2:53"] /\
    forall rr ip dial port b, rr ∈ Answer reply -> of_type (Qtype q) rr -> rr_addr rr = Some ip ->
      now later < now w + fakeIPLifetime (dnsCacheTTL cfg) (binding_ttl (Qtype q) resp) ->
      bkern b = pkern s' ->
      let d := ToLower (TrimSuffix1 (qName q) ".") in
      let host := ip_string (Some ip) in
      DialContext cfg dial later (Some (mkMeta (Some (Unmap (Addr6 ip ""))) port)) b =
      let (r, k) := PlanRequest cfg later (mkRequest RequestSourceMobile d port ResolveDomainTarget) true (pkern s') in
      (go_bind r (fun plan => dial_planned dial host (via host d plan)),
       mkBill k (snd (nextID (tcpDialID b))) (udpDialID b)).
Proof.
  intros HU Hj Hnd H. unfold Mobile.WriteTo in H.
  rewrite (proj2 (dest_ip_numeric (Addr4 0xac130002) 53 (Some (As16 (Addr4 0xac130002))) ltac:(split; [split; [vm_compute; discriminate|reflexivity]|reflexivity]) ltac:(lia))) in H.
  cbv zeta in H. change (IsVPNDNSAddress (IPString (As16 (Addr4 0xac130002))) 53) with true in H.
  apply udp_dns_spec in H as [Hs Hr]. destruct (Hr n eq_refl) as (Hn & rb & HQ & Hp). clear Hr.
  unfold HandleDNSQueryPacket in HQ. rewrite HU in HQ. apply bind_Ret in HQ as (req' & c1 & E1 & HQ).
  cbn in E1. injection E1 as <- <-. apply bind_Ret in HQ as (reply & c2 & E2 & HQ).
  unfold mapErr, lift in HQ. destruct (Pack reply) as [rb'|e|] eqn:EP; try done. injection HQ as -> <-.
  exists reply, rb. split_and!; try done. intros rr ip dial port b Hin Hty Hip Hlt Hb.
  destruct (reply_address_bound cfg w req q resp (pkern s) reply c2 rr ip Hj E2 Hin Hty Hip) as (Hg & Hd & a & Ha & Eh & Hbd).
  cbv zeta. unfold DialContext. change (AddrString (Unmap (Addr6 ip ""))) with (ip_string (Some ip)).
  rewrite Eh, (fake_addr_not_dns _ _ _ Ha). cbn [bkern tcpDialID udpDialID]. rewrite Hb.
  rewrite (plan_bound cfg later c2 _ a _ RequestSourceMobile port ResolveDomainTarget true Hg (proj1 Ha) Hbd Hlt Hd Hnd).
  destruct (PlanRequest _ _ _ _ c2) as [[plan|e|] k]; done.
Qed.
End sessions.

(** ** The log buffer and the session numbers *)

Lemma pushLog_suffix all l m : l `suffix_of` all -> length l = Nat.min maxLogs (length all) ->
  pushLog l m `suffix_of` all ++ [m] /\ length (pushLog l m) = Nat.min maxLogs (length (all ++ [m])).
Proof.
  intros [pre ->] Hl. unfold pushLog. rewrite !length_app in *. cbn [length] in *.
  destruct (Nat.ltb_spec maxLogs (length l + 1)).
  - destruct l as [|x l]; [unfold maxLogs in *; cbn [length] in *; lia|]. split; [exists (pre ++ [x]); by rewrite <- !app_assoc|].
    cbn [app drop]. rewrite drop_0, length_app. cbn [length] in *. lia.
  - split; [exists pre; by rewrite app_assoc|]. rewrite length_app. cbn [length]. lia.
Qed.

Lemma pushLogs_suffix ms : forall all l, l `suffix_of` all -> length l = Nat.min maxLogs (length all) ->
  foldl pushLog l ms `suffix_of` all ++ ms /\ length (foldl pushLog l ms) = Nat.min maxLogs (length (all ++ ms)).
Proof.
  induction ms as [|m ms IH]; intros all l Hs Hl; cbn [foldl].
  { by rewrite app_nil_r. }
  destruct (pushLog_suffix all l m Hs Hl) as [Hs' Hl']. destruct (IH _ _ Hs' Hl') as [H1 H2].
  by rewrite <- app_assoc in H1, H2.
Qed.

Lemma suffix_drop {A} (l k : list A) : l `suffix_of` k -> l = drop (length k - length l) k.
Proof.
  intros [pre ->]. rewrite length_app. replace (length pre + length l - length l)%nat with (length pre) by lia.
  by rewrite drop_app_length.
Qed.

(** The log buffer and the session numbers stay bounded.  A poll returns the last 500
    of the messages written since the previous poll, joined in order, and empties the
    buffer, which never held more; session numbers count up from the one before and wrap
    to 0 after 0xFFFFF, so the prefix [T%05x] always has five digits. *)
Theorem log_and_numbers (ms : list string) c :
  GetLogs (foldl pushLog [] ms) = (foldl String.app "" (drop (length ms - 500) ms), []) /\
  (length (foldl pushLog [] ms) <= 500)%nat /\
  (0 <= c <= 0xFFFFF -> nextID c = ((c + 1) mod 2 ^ 20, (c + 1) mod 2 ^ 20)).
Proof.
  destruct (pushLogs_suffix ms [] []) as [Hs Hl]; [by exists []|done|]. cbn [app] in Hs, Hl. split; [|split].
  - pose proof (suffix_drop _ _ Hs) as E. rewrite Hl in E. unfold maxLogs in E.
    assert (drop (length ms - 500) ms = foldl pushLog [] ms) as ->.
    { rewrite E. f_equal. lia. }
    unfold GetLogs. by destruct (foldl pushLog [] ms).
  - rewrite Hl. unfold maxLogs. lia.
  - intros Hc. unfold nextID. unfold u32. rewrite (Z.mod_small (c + 1)) by lia. destruct (Z.ltb_spec 0xFFFFF (c + 1)).
    + by replace (c + 1) with (2 ^ 20) by lia.
    + rewrite Z.mod_small by lia. done.
Qed.

(** ** Witnesses *)

Definition w_unpack (b : bytes) : go Msg :=
  match b with [1] => Ret (w_query TypeA) | _ => Err "bad message" end.
Definition w_pack (m : Msg) : go bytes := Ret [Z.of_nat (length (Answer m))].
Definition w_resolve (s : string) : go (option Z * Z) :=
  match ParseAddrPort s with Some (a, p) => Ret (Some (As16 a), p) | None => Err "no such host" end.
Definition w_sendto (b : bytes) (_ : string) : go Z := Ret (zlen b).

Lemma w_resolve_numeric : resolves_numeric w_resolve.
Proof. intros a p Ha Hp. unfold w_resolve. by rewrite ParseAddrPort_String. Qed.

Definition w_pc : packetConn (L := map_lru) := mkPC w_core Queue.newQueuedPacketConn [].

Definition w_write (d : dest) :=
  WriteTo (L := map_lru) (ord := sorted_order) (names := w_names) w_cfg w_unpack w_pack w_resolve w_sendto (w_world 0) false [1] d w_pc.

(** One good query, one bad one, and bytes that are never read. *)
Lemma dns_tcp_server_witness :
  exists qs t st, [0; 1; 1; 0; 1; 2; 0; 1; 1] = mjoin (dns_frame <$> qs) ++ t /\ tail_stop t = Some st /\
    fst (serveLocalDNSTCP (L := map_lru) (ord := sorted_order) (env := reliable) w_cfg w_unpack w_pack (fun _ => w_world 0)
      (mkTcp w_core [0; 1; 1; 0; 1; 2; 0; 1; 1] [])) = QueryError "unpack hijacked dns request: bad message" /\
    ttrace (snd (serveLocalDNSTCP (L := map_lru) (ord := sorted_order) (env := reliable) w_cfg w_unpack w_pack (fun _ => w_world 0)
      (mkTcp w_core [0; 1; 1; 0; 1; 2; 0; 1; 1] []))) = [EvWrite [0; 1; 2]; EvClose].
Proof.
  destruct (dns_tcp_server (L := map_lru) (ord := sorted_order) w_cfg w_unpack w_pack (fun _ => w_world 0)
    [0; 1; 1; 0; 1; 2; 0; 1; 1] w_core) as (qs & t & st & E & _ & Ht & _).
  { repeat constructor; vm_compute; congruence. }
  exists qs, t, st. split; [exact E|]. split; [exact Ht|]. split; vm_compute; reflexivity.
Defined.

(** The query of a client, from both forms of the resolver's address. *)
Lemma mobile_udp_witness :
  fst (w_write (UDPDest (Some (As16 (Addr4 0xac130002))) 53)) = Ret (Wrote 1) /\
  w_write (TextDest "172.19.0.2:53") = w_write (UDPDest (Some (As16 (Addr4 0xac130002))) 53) /\
  exists resp, Queue.packets (queue (snd (w_write (UDPDest (Some (As16 (Addr4 0xac130002))) 53)))) =
    [Queue.mkPacket resp "172.19.0.2:53"].
Proof.
  assert (fst (w_write (UDPDest (Some (As16 (Addr4 0xac130002))) 53)) = Ret (Wrote 1)) as E by (vm_compute; reflexivity).
  destruct (mobile_udp (L := map_lru) (ord := sorted_order) (names := w_names) w_cfg w_unpack w_pack w_resolve w_sendto (w_world 0) false [1]
    (Addr4 0xac130002) 53 w_pc _ _ w_resolve_numeric
    ltac:(split; [split; [vm_compute; discriminate|reflexivity]|reflexivity]) ltac:(lia)
    (surjective_pairing (w_write (UDPDest (Some (As16 (Addr4 0xac130002))) 53)))) as (HT & HD & _).
  split; [exact E|]. split; [rewrite (surjective_pairing (w_write (UDPDest _ _))); exact HT|].
  destruct (HD eq_refl) as [_ HD']. destruct (HD' 1 E) as (_ & resp & HQ). exists resp. exact HQ.
Defined.

Definition w_asked := snd (w_write (UDPDest (Some (As16 (Addr4 0xac130002))) 53)).

Lemma mobile_session_witness :
  exists reply rb, w_pack reply = Ret rb /\ Queue.packets (queue w_asked) = [Queue.mkPacket rb "172.19.0.2:53"].
Proof.
  assert (w_write (UDPDest (Some (As16 (Addr4 0xac130002))) 53) = (Ret (Wrote 1), w_asked)) as E.
  { unfold w_asked. rewrite (surjective_pairing (w_write _)) at 1. f_equal. }
  destruct (mobile_session (L := map_lru) (ord := sorted_order) (names := w_names) w_cfg w_unpack w_pack w_resolve w_sendto
    (w_world 0) (w_world (599 * second)) [1] (w_query TypeA) (mkQuestion "WWW.example.com." TypeA ClassINET) w_resp w_pc 1 w_asked)
    as (reply & rb & HP & _ & _ & HQ & _).
  - reflexivity.
  - constructor.
    + exact w_stores_ok.
    + reflexivity.
    + reflexivity.
    + left. reflexivity.
    + vm_compute. reflexivity.
    + split; reflexivity.
    + split_and!; repeat constructor; vm_compute; (congruence || reflexivity).
  - vm_compute. reflexivity.
  - exact E.
  - exists reply, rb. split; [exact HP|exact HQ].
Defined.

End Mobile.
