(* ===== verification/TunTunnel.v ===== *)
(** * The tunnel between the device's netstack and the proxy
      (src/tun2socks/tunnel, tunnel/statistic, metadata)

    A UDP session of the netstack is handed to handleUDPConn, which dials through the
    proxy (here BillProxy of [Mobile]), counts the traffic, and copies datagrams both ways
    with two goroutines until both have ended.  The session is a system of steps: the two
    copy loops, the pump of the packet queue, the application and the network interleave
    in any order, each step at a time of a clock that does not go back.  Setting a read
    deadline on the netstack's connection applies to a pending read, as net.Conn
    documents; on the packet queue of the proxy it does not ([Queue]). *)

From S2P Require Import Prelude GoStrings GoState NetIP GoNet FakeIP Patterns Policy Route IPPool Core Dns Plan Queue Mobile.

Module TunTunnel.

(** ** Addresses (metadata.go, network.go, addr.go) *)

Inductive Network := TCP | UDP | OtherNetwork (n : Z).

Definition NetworkString (n : Network) : string :=
  match n with
  | TCP => "tcp"
  | UDP => "udp"
  | OtherNetwork n => "network(" +:+ Itoa n +:+ ")"
  end.

(** An invalid netip.Addr is [None]. *)
Record Metadata := mkMetadata {
  network : Network;
  SrcIP : option Addr; MidIP : option Addr; DstIP : option Addr;
  SrcPort : Z; MidPort : Z; DstPort : Z
}.

(** [netip.AddrPort.String]. *)
Definition AddrPortString (ip : option Addr) (port : Z) : string :=
  match ip with
  | Some a => JoinHostPort (AddrString a) (Itoa port)
  | None => "invalid AddrPort"
  end.

Definition DestinationAddress (m : Metadata) : string := AddrPortString (DstIP m) (DstPort m).
Definition SourceAddress (m : Metadata) : string := AddrPortString (SrcIP m) (SrcPort m).

(** Metadata.UDPAddr: the address in 16 bytes and the port; [None] is nil. *)
Definition UDPAddr (m : Metadata) : option (Z * Z) :=
  match network m, DstIP m with
  | UDP, Some a => Some (As16 a, DstPort m)
  | _, _ => None
  end.
Definition TCPAddr (m : Metadata) : option (Z * Z) :=
  match network m, DstIP m with
  | TCP, Some a => Some (As16 a, DstPort m)
  | _, _ => None
  end.

(** A net.Addr, by what the code can ask of it. *)
Inductive netAddr :=
| NilAddr
| WithAddrPort (ip : option Addr) (port : Z)
| WithText (s : string).

Definition parseAddrString (s : string) : option Addr * Z :=
  match ParseAddrPort s with
  | Some (a, p) => (Some a, p)
  | None => (None, 0)
  end.
Definition parseNetAddr (a : netAddr) : option Addr * Z :=
  match a with
  | NilAddr => (None, 0)
  | WithAddrPort ip port => (ip, port)
  | WithText s => parseAddrString s
  end.

(** [netip.AddrFromSlice] of the bytes of a tcpip.Address. *)
Definition parseTCPIPAddress (b : bytes) : option Addr :=
  if zlen b =? 4 then Some (Addr4 (of_fields 8 b))
  else if zlen b =? 16 then Some (Addr6 (of_fields 8 b) "")
  else None.

(** The netstack's identification of a session: the application is the remote side. *)
Record EndpointID := mkID { RemoteAddress : bytes; RemotePort : Z; LocalAddress : bytes; LocalPort : Z }.

Definition metadata_of (n : Network) (id : EndpointID) : Metadata :=
  mkMetadata n (parseTCPIPAddress (RemoteAddress id)) None (parseTCPIPAddress (LocalAddress id))
    (RemotePort id) 0 (LocalPort id).
Definition set_mid (mid : option Addr * Z) (m : Metadata) : Metadata :=
  mkMetadata (network m) (SrcIP m) (fst mid) (DstIP m) (SrcPort m) (snd mid) (DstPort m).

(** ** Statistics (manager.go, tracker.go) *)

Record Manager := mkManager {
  connections : gset string;
  uploadTemp : Z; downloadTemp : Z; uploadBlip : Z; downloadBlip : Z; uploadTotal : Z; downloadTotal : Z
}.
Definition newManager : Manager := mkManager ∅ 0 0 0 0 0 0.

Definition Join (id : string) (m : Manager) : Manager :=
  mkManager ({[id]} ∪ connections m) (uploadTemp m) (downloadTemp m) (uploadBlip m) (downloadBlip m) (uploadTotal m) (downloadTotal m).
Definition Leave (id : string) (m : Manager) : Manager :=
  mkManager (connections m ∖ {[id]}) (uploadTemp m) (downloadTemp m) (uploadBlip m) (downloadBlip m) (uploadTotal m) (downloadTotal m).
Definition PushUploaded (size : Z) (m : Manager) : Manager :=
  mkManager (connections m) (i64 (uploadTemp m + size)) (downloadTemp m) (uploadBlip m) (downloadBlip m)
    (i64 (uploadTotal m + size)) (downloadTotal m).
Definition PushDownloaded (size : Z) (m : Manager) : Manager :=
  mkManager (connections m) (uploadTemp m) (i64 (downloadTemp m + size)) (uploadBlip m) (downloadBlip m)
    (uploadTotal m) (i64 (downloadTotal m + size)).
Definition Now (m : Manager) : Z * Z := (uploadBlip m, downloadBlip m).
Definition ResetStatistic (m : Manager) : Manager := mkManager (connections m) 0 0 0 0 0 0.

(** The body of Manager.handle for one tick: what it loads, and the stores that follow. *)
Definition store_upload (v : Z) (m : Manager) : Manager :=
  mkManager (connections m) 0 (downloadTemp m) v (downloadBlip m) (uploadTotal m) (downloadTotal m).
Definition store_download (v : Z) (m : Manager) : Manager :=
  mkManager (connections m) (uploadTemp m) 0 (uploadBlip m) v (uploadTotal m) (downloadTotal m).
Definition handle_tick (m : Manager) : Manager :=
  let m := store_upload (uploadTemp m) m in
  store_download (downloadTemp m) m.

(** Bytes counted between the load and the store of a tick are in no rate. *)
Lemma rate_lost n m :
  let m' := store_upload (uploadTemp m) (PushUploaded n m) in
  uploadBlip m' = uploadTemp m /\ uploadTemp m' = 0 /\ uploadTotal m' = i64 (uploadTotal m + n).
Proof. done. Qed.

(** trackerInfo, as far as it counts. *)
Record trackerInfo := mkInfo { UUID : string; UploadTotal : Z; DownloadTotal : Z }.

(** ** A UDP session (udp.go) *)

(** [buffer.MaxSegmentSize]. *)
Definition MaxSegmentSize : Z := 2 ^ 16 - 1.

Section udp.
Context {L : LRU} {ord : RangeOrder} {names : DNSNames} (cfg : config).
Context (Unpack : bytes -> go Msg) (Pack : Msg -> go bytes).
Context (ResolveUDPAddr : string -> go (option Z * Z)) (sendto : bytes -> string -> go Z).
Context (timeout : Z) (m : Metadata).

(** Where the goroutine "origin->remote" stands in copyPacketData. *)
Inductive upload :=
| UpArm                                       (* before src.SetReadDeadline *)
| UpRead                                      (* in src.ReadFrom *)
| UpWrite (b : bytes)                         (* before dst.WriteTo *)
| UpWait (p : Queue.queuedPacket) (n : Z)     (* in dst.WriteTo, waiting for room in the queue *)
| UpRearm                                     (* before dst.SetReadDeadline *)
| UpDone (e : option string).

(** Where the goroutine "remote->origin" stands. *)
Inductive download :=
| DnArm
| DnCall                                      (* in symmetricNATPacketConn.ReadFrom, before the inner ReadFrom *)
| DnWait                                      (* at the select of queuedPacketConn.ReadFrom *)
| DnWrite (b : bytes)
| DnRearm
| DnDone (e : option string).

Record session := mkSession {
  clock : Z;
  pc : Mobile.packetConn;            (* billPacketConn *)
  originDeadline : option Z;         (* the read deadline of the netstack's connection *)
  up : upload;
  down : download;
  toOrigin : list bytes;             (* the datagrams written to the application *)
  info : trackerInfo;
  stats : Manager;
  crashed : bool;
  finished : bool                    (* pipePacket returned and the deferred calls ran *)
}.

Definition set_clock (t : Z) (s : session) : session :=
  mkSession t (pc s) (originDeadline s) (up s) (down s) (toOrigin s) (info s) (stats s) (crashed s) (finished s).
Definition set_pc (c : Mobile.packetConn) (s : session) : session :=
  mkSession (clock s) c (originDeadline s) (up s) (down s) (toOrigin s) (info s) (stats s) (crashed s) (finished s).
Definition set_queue (q : Queue.queuedPacketConn) (s : session) : session :=
  set_pc (Mobile.mkPC (Mobile.pkern (pc s)) q (Mobile.sent (pc s))) s.
Definition set_originDeadline (t : option Z) (s : session) : session :=
  mkSession (clock s) (pc s) t (up s) (down s) (toOrigin s) (info s) (stats s) (crashed s) (finished s).
Definition set_up (u : upload) (s : session) : session :=
  mkSession (clock s) (pc s) (originDeadline s) u (down s) (toOrigin s) (info s) (stats s) (crashed s) (finished s).
Definition set_down (d : download) (s : session) : session :=
  mkSession (clock s) (pc s) (originDeadline s) (up s) d (toOrigin s) (info s) (stats s) (crashed s) (finished s).
Definition push_origin (b : bytes) (s : session) : session :=
  mkSession (clock s) (pc s) (originDeadline s) (up s) (down s) (toOrigin s ++ [b]) (info s) (stats s) (crashed s) (finished s).
Definition set_crashed (s : session) : session :=
  mkSession (clock s) (pc s) (originDeadline s) (up s) (down s) (toOrigin s) (info s) (stats s) true (finished s).

(** What the trackers do after a WriteTo and after a ReadFrom that moved [n] bytes. *)
Definition count_up (n : Z) (s : session) : session :=
  mkSession (clock s) (pc s) (originDeadline s) (up s) (down s) (toOrigin s)
    (mkInfo (UUID (info s)) (i64 (UploadTotal (info s) + n)) (DownloadTotal (info s))) (PushUploaded n (stats s))
    (crashed s) (finished s).
Definition count_down (n : Z) (s : session) : session :=
  mkSession (clock s) (pc s) (originDeadline s) (up s) (down s) (toOrigin s)
    (mkInfo (UUID (info s)) (UploadTotal (info s)) (i64 (DownloadTotal (info s) + n))) (PushDownloaded n (stats s))
    (crashed s) (finished s).

Definition q (s : session) : Queue.queuedPacketConn := Mobile.queue (pc s).

(** Where datagrams of the application are sent. *)
Definition remote : Mobile.dest :=
  match UDPAddr m with
  | Some (ip, port) => Mobile.UDPDest (Some ip) port
  | None => Mobile.TextDest (DestinationAddress m)
  end.

(** newSymmetricNATPacketConn: the source that is let through. *)
Definition nat_dst : string := DestinationAddress m.

(** One step of one goroutine, or of the world around; [now] is when. *)
Inductive action :=
| UArm (now : Z)                     (* src.SetReadDeadline(time.Now().Add(timeout)) *)
| URecv (b : bytes)                  (* the application sent a datagram *)
| UTimeout (now : Z)                 (* the read of the netstack's connection timed out *)
| UFail (e : option string)          (* it failed; None for io.EOF *)
| UWrite (w : world) (closing : bool)   (* dst.WriteTo *)
| UEnqueue                           (* the queue had room *)
| UEnqueueClosed
| URearm (now : Z)                   (* dst.SetReadDeadline *)
| DArm (now : Z)
| DCall (now : Z)                    (* the inner ReadFrom up to its select *)
| DPacket                            (* it returned a packet *)
| DTimeout (now : Z)
| DClosed
| DWrite (e : option string)         (* dst.WriteTo to the application, and its error *)
| DRearm (now : Z)
| Net (a : Queue.action)             (* the socket and the pump *)
| Finish.                            (* wg.Wait returned; the deferred Close calls *)

(** The steps of the pump. *)
Definition pump_action (a : Queue.action) : bool :=
  match a with Queue.BaseRead _ _ | Queue.BaseFailed | Queue.PumpSend | Queue.PumpClosed => true | _ => false end.

(** Passing the time. *)
Definition at_time (now : Z) (s : session) : option session :=
  if clock s <=? now then Some (set_clock now s) else None.

(** symmetricNATPacketConn.ReadFrom after the inner ReadFrom returned a packet. *)
Definition nat_filter (from : string) (b : bytes) : download :=
  if decide (from = nat_dst) then DnWrite b else DnCall.

Definition exec (a : action) (s : session) : option session :=
  if crashed s || finished s then None
  else
    match a, up s, down s with
    | UArm now, UpArm, _ =>
      s ← at_time now s; Some (set_up UpRead (set_originDeadline (Some (now + timeout)) s))
    | URecv b, UpRead, _ => Some (set_up (UpWrite (take (Z.to_nat MaxSegmentSize) b)) s)
    | UTimeout now, UpRead, _ =>
      s ← at_time now s;
      d ← originDeadline s;
      if d <=? now then Some (set_up (UpDone None) s) else None
    | UFail e, UpRead, _ => Some (set_up (UpDone e) s)
    | UWrite w closing, UpWrite b, _ =>
      s ← at_time (now w) s;
      let (r, c) := Mobile.WriteTo cfg Unpack Pack ResolveUDPAddr sendto w closing b remote (pc s) in
      let s := set_pc c s in
      Some (match r with
            | Ret (Mobile.Wrote n) => set_up UpRearm (count_up n s)
            | Ret (Mobile.Waits p n) => set_up (UpWait p n) s
            | Err e => set_up (UpDone (Some e)) (count_up 0 s)
            | Panic => set_crashed s
            end)
    | UEnqueue, UpWait p n, _ =>
      '(_, c) ← Queue.exec (Queue.Enqueue (Queue.payload p) (Queue.addr p)) (q s);
      Some (set_up UpRearm (count_up n (set_queue c s)))
    | UEnqueueClosed, UpWait _ _, _ =>
      '(_, c) ← Queue.exec Queue.EnqueueClosed (q s);
      Some (set_up (UpDone (Some "use of closed network connection"%string)) (count_up 0 (set_queue c s)))
    | URearm now, UpRearm, _ =>
      s ← at_time now s;
      '(_, c) ← Queue.exec (Queue.SetReadDeadline (Some (now + timeout))) (q s);
      Some (set_up UpArm (set_queue c s))
    | DArm now, _, DnArm =>
      s ← at_time now s;
      '(_, c) ← Queue.exec (Queue.SetReadDeadline (Some (now + timeout))) (q s);
      Some (set_down DnCall (set_queue c s))
    | DCall now, _, DnCall =>
      s ← at_time now s;
      '(o, c) ← Queue.exec (Queue.ReadStart MaxSegmentSize now) (q s);
      let s := set_queue c s in
      Some (match o with
            | Queue.TimedOut => set_down (DnDone None) (count_down 0 s)
            | _ => set_down DnWait s
            end)
    | DPacket, _, DnWait =>
      '(o, c) ← Queue.exec (Queue.ReadPacket 0) (q s);
      match o with
      | Queue.Delivered p b => Some (set_down (nat_filter (Queue.addr p) b) (count_down (zlen b) (set_queue c s)))
      | _ => None
      end
    | DTimeout now, _, DnWait =>
      s ← at_time now s;
      '(_, c) ← Queue.exec (Queue.ReadTimeout 0 now) (q s);
      Some (set_down (DnDone None) (count_down 0 (set_queue c s)))
    | DClosed, _, DnWait =>
      '(_, c) ← Queue.exec (Queue.ReadClosed 0) (q s);
      Some (set_down (DnDone (Some "use of closed network connection"%string)) (count_down 0 (set_queue c s)))
    | DWrite None, _, DnWrite b => Some (set_down DnRearm (push_origin b s))
    | DWrite (Some e), _, DnWrite b => Some (set_down (DnDone (Some e)) s)
    | DRearm now, _, DnRearm =>
      s ← at_time now s; Some (set_down DnArm (set_originDeadline (Some (now + timeout)) s))
    | Net a, _, _ =>
      if pump_action a then '(_, c) ← Queue.exec a (q s); Some (set_queue c s) else None
    | Finish, UpDone _, DnDone _ =>
      '(_, c) ← Queue.exec Queue.CloseCheck (q s);
      '(_, c) ← Queue.exec Queue.CloseDo c;
      let s := set_queue c s in
      Some (mkSession (clock s) (pc s) (originDeadline s) (up s) (down s) (toOrigin s) (info s)
              (Leave (UUID (info s)) (stats s)) (crashed s) true)
    | _, _, _ => None
    end.

(** handleUDPConn up to pipePacket, for the proxy of the mobile binding: the session it
    runs, or none when dialling failed. *)
Definition new_session (now : Z) (id : string) (c : Mobile.packetConn) (stats : Manager) : session :=
  mkSession now c None UpArm DnArm [] (mkInfo id 0 0) (Join id stats) false false.

Definition handleUDPConn (now : Z) (listen : go unit) (id : string) (stats : Manager) : St Mobile.bill session := fun b =>
  let (r, b) := Mobile.DialUDP listen (Some (Mobile.mkMeta (DstIP m) (DstPort m))) b in
  (go_bind r (fun c => Ret (new_session now id c stats)), b).

Fixpoint run (acts : list action) (s : session) : option session :=
  match acts with
  | [] => Some s
  | a :: acts => s ← exec a s; run acts s
  end.

(** The states of a session whose packet connection was just dialled. *)
Inductive reachable : session -> Prop :=
| reach_new now id k stats :
    reachable (new_session now id (Mobile.mkPC k Queue.newQueuedPacketConn []) stats)
| reach_step a s s' : reachable s -> exec a s = Some s' -> reachable s'.
End udp.

(** ** What a session delivers *)

Section spec.
Context {L : LRU} {ord : RangeOrder} {names : DNSNames} (cfg : config).
Context (Unpack : bytes -> go Msg) (Pack : Msg -> go bytes).
Context (ResolveUDPAddr : string -> go (option Z * Z)) (sendto : bytes -> string -> go Z).
Context (timeout : Z) (m : Metadata) (a : Addr).
Context (Hnet : network m = UDP) (Hdst : DstIP m = Some a) (Ha : plain a) (Hport : 0 <= DstPort m < 65536).

Notation exec := (exec cfg Unpack Pack ResolveUDPAddr sendto timeout m).
Notation run := (run cfg Unpack Pack ResolveUDPAddr sendto timeout m).
Notation reachable := (reachable cfg Unpack Pack ResolveUDPAddr sendto timeout m).
Notation WriteTo := (Mobile.WriteTo cfg Unpack Pack ResolveUDPAddr sendto).

(** The payload of a packet as ReadFrom returns it. *)
Definition cut (p : Queue.queuedPacket) : bytes := take (Z.to_nat MaxSegmentSize) (Queue.payload p).

(** The datagrams among those read that come from the session's destination. *)
Definition passed (tr : list Queue.outcome) : list bytes :=
  cut <$> filter (fun p => Queue.addr p = nat_dst m) (Queue.delivered tr).
Definition received (tr : list Queue.outcome) : Z := zlen (mjoin (cut <$> Queue.delivered tr)).

Definition hand (d : download) : list bytes := match d with DnWrite b => [b] | _ => [] end.
Definition pending (d : download) : list Queue.reader -> Prop :=
  match d with
  | DnWait => fun rs => exists t, rs = [Queue.mkReader MaxSegmentSize (Some t)]
  | _ => fun rs => rs = []
  end.

Definition armed (d : download) : Prop := d = DnCall \/ d = DnWait.

Record inv (tr : list Queue.outcome) (s : session) : Prop := mkInv {
  inv_queue : Queue.reachable Queue.any tr (q s);
  inv_prefix : (toOrigin s ++ hand (down s)) `prefix_of` passed tr;
  inv_stream : (forall e, down s <> DnDone (Some e)) -> toOrigin s ++ hand (down s) = passed tr;
  inv_readers : pending (down s) (Queue.readers (q s));
  inv_deadline : armed (down s) -> is_Some (Queue.readDeadline (q s));
  inv_open : finished s = false -> Queue.closed (q s) = false /\ Queue.closers (q s) = 0%nat;
  inv_count : DownloadTotal (info s) = i64 (received tr)
}.

Lemma remote_eq : remote m = Mobile.UDPDest (Some (As16 a)) (DstPort m).
Proof. unfold remote, UDPAddr. by rewrite Hnet, Hdst. Qed.

(** The queue outside of its two ends. *)
Definition quiet (c c' : Queue.queuedPacketConn) : Prop :=
  Queue.readers c' = Queue.readers c /\ (is_Some (Queue.readDeadline c) -> is_Some (Queue.readDeadline c')) /\
  Queue.closed c' = Queue.closed c /\ Queue.closers c' = Queue.closers c.

(** Steps of the upload, the pump and the clock. *)
Lemma udp_side tr s s' tr' : inv tr s -> Queue.reachable Queue.any tr' (q s') -> Queue.delivered tr' = Queue.delivered tr ->
  quiet (q s) (q s') -> down s' = down s -> toOrigin s' = toOrigin s ->
  DownloadTotal (info s') = DownloadTotal (info s) -> finished s' = finished s -> inv tr' s'.
Proof.
  intros [] Hq Ed (Er & Edl & Ec & Eo) E1 E2 E3 E4.
  constructor; unfold passed, received in *; rewrite ?E1, ?E2, ?E3, ?E4, ?Er, ?Ec, ?Eo, ?Ed; auto.
Qed.

(** The same without a step of the queue. *)
Lemma udp_upload tr s s' : inv tr s -> q s' = q s -> down s' = down s -> toOrigin s' = toOrigin s ->
  DownloadTotal (info s') = DownloadTotal (info s) -> finished s' = finished s -> inv tr s'.
Proof. intros H Eq. intros. eapply udp_side; try done; rewrite Eq; [apply H|done]. Qed.

(** A step of the download that reads no packet. *)
Lemma udp_move tr s s' tr' : inv tr s -> Queue.reachable Queue.any tr' (q s') -> Queue.delivered tr' = Queue.delivered tr ->
  toOrigin s' ++ hand (down s') = toOrigin s ++ hand (down s) -> (forall e, down s <> DnDone (Some e)) ->
  pending (down s') (Queue.readers (q s')) -> (armed (down s') -> is_Some (Queue.readDeadline (q s'))) ->
  Queue.closed (q s') = Queue.closed (q s) -> Queue.closers (q s') = Queue.closers (q s) ->
  (DownloadTotal (info s') = DownloadTotal (info s) \/ DownloadTotal (info s') = i64 (DownloadTotal (info s) + 0)) ->
  finished s' = finished s -> inv tr' s'.
Proof.
  intros [] Hq Ed Es Hd Hp Hdl Ec Eo Et Ef.
  constructor; unfold passed, received in *; rewrite ?Es, ?Ed, ?Ec, ?Eo, ?Ef; auto.
  destruct Et as [-> | ->]; [done|]. rewrite inv_count0, i64_add_l. f_equal. lia.
Qed.

Lemma at_time_spec t s s' : at_time t s = Some s' -> clock s <= t /\ s' = set_clock t s.
Proof. unfold at_time. destruct (Z.leb_spec (clock s) t); [|done]. by intros [= <-]. Qed.

(** A write of the upload. *)
Lemma udp_write tr s w closing b r c : inv tr s -> WriteTo w closing b (remote m) (pc s) = (r, c) ->
  forall s', q s' = Mobile.queue c -> down s' = down s -> toOrigin s' = toOrigin s ->
  DownloadTotal (info s') = DownloadTotal (info s) -> finished s' = finished s -> exists tr', inv tr' s'.
Proof.
  intros H E s' Eq E1 E2 E3 E4. rewrite remote_eq in E. apply Mobile.WriteTo_queue in E; [|done..]. cbv zeta in E.
  destruct E as [[E _]|(p & n & _ & _ & E)].
  - exists tr. apply (udp_upload tr s); try done. by rewrite Eq.
  - exists (tr ++ [Queue.Accepted p]). apply (udp_side tr s); try done.
    + rewrite Eq. eapply Queue.reach_step; [apply H|done|exact E].
    + by rewrite Queue.delivered_app, app_nil_r.
    + rewrite Eq. cbn [Queue.exec] in E. destruct (Queue.chan_send _ _) as [c'|] eqn:Ec; [|done]. cbn in E.
      apply Queue.chan_send_inv in Ec as [-> _]. by injection E as _ <-.
Qed.

(** A step of the queue that neither delivers nor takes a packet in, as the session's
    invariant sees it. *)
Lemma queue_step tr s act o c : inv tr s -> Queue.exec act (q s) = Some (o, c) -> (forall p b, o <> Queue.Delivered p b) ->
  Queue.reachable Queue.any (tr ++ [o]) c /\ Queue.delivered (tr ++ [o]) = Queue.delivered tr.
Proof.
  intros H E Ho. split; [eapply Queue.reach_step; [apply H|done|exact E]|].
  rewrite Queue.delivered_app. destruct o; try (by rewrite app_nil_r). exfalso. by eapply Ho.
Qed.

Lemma pump_quiet act c o c' : pump_action act = true -> Queue.exec act c = Some (o, c') ->
  quiet c c' /\ forall p b, o <> Queue.Delivered p b.
Proof.
  intros Hp E. destruct act; try done; cbn [Queue.exec] in E; repeat case_match; simplify_option_eq; try done.
  all: try match goal with H : Queue.chan_send _ _ = Some _ |- _ => apply Queue.chan_send_inv in H as [-> _] end; done.
Qed.

Ltac step_time :=
  repeat match goal with
  | H : at_time _ _ = Some _ |- _ => apply at_time_spec in H as [? ->]
  end.

Lemma udp_pump tr s act s' : inv tr s -> exec (Net act) s = Some s' -> exists tr', inv tr' s'.
Proof.
  intros H E. unfold TunTunnel.exec in E. destruct (_ || _); [done|].
  assert ((if pump_action act then '(_, c) ← Queue.exec act (q s); Some (set_queue c s) else None) = Some s') as E'
    by (by destruct (up s), (down s)). clear E.
  destruct (pump_action act) eqn:Ep; [|done]. destruct (Queue.exec act (q s)) as [[o c]|] eqn:Eq; [|done].
  cbn in E'. injection E' as <-. destruct (pump_quiet _ _ _ _ Ep Eq) as [Hc Ho].
  destruct (queue_step tr s _ _ _ H Eq Ho) as [Hr Hd]. exists (tr ++ [o]). by apply (udp_side tr s).
Qed.

(** The equations of [exec] on a running session, one goroutine at a time. *)
Ltac open_step E :=
  unfold TunTunnel.exec in E; destruct (_ || _); [done|];
  match type of E with
  | context [match up ?s with _ => _ end] => destruct (up s) eqn:?; try done
  | _ => idtac
  end;
  match type of E with
  | context [match down ?s with _ => _ end] => destruct (down s) eqn:?; try done
  | _ => idtac
  end.

Lemma udp_upload_step tr s act s' : inv tr s -> exec act s = Some s' ->
  match act with UArm _ | URecv _ | UTimeout _ | UFail _ | UWrite _ _ | UEnqueue | UEnqueueClosed | URearm _ => True | _ => False end ->
  exists tr', inv tr' s'.
Proof.
  intros H E Hu. destruct act; try done; open_step E; simplify_option_eq; step_time.
  - exists tr. by apply (udp_upload tr s).
  - exists tr. by apply (udp_upload tr s).
  - case_match; simplify_eq. exists tr. by apply (udp_upload tr s).
  - exists tr. by apply (udp_upload tr s).
  - destruct (WriteTo _ _ _ _ _) as [r c] eqn:EW. injection E as <-. eapply (udp_write tr s); [done|exact EW|..];
      by destruct r as [[]| |].
  - match goal with Hc : Queue.chan_send _ _ = Some ?c |- _ => rename Hc into Ec, c into c' end.
    exists (tr ++ [Queue.Accepted p]). apply (udp_side tr s); try done.
    + eapply (Queue.reach_step _ _ _ (Queue.Enqueue (Queue.payload p) (Queue.addr p))); [apply H|done|]. cbn [Queue.exec].
      rewrite Ec. cbn. by destruct p.
    + by rewrite Queue.delivered_app, app_nil_r.
    + by apply Queue.chan_send_inv in Ec as [-> _].
  - destruct (Queue.closed (q s)); simplify_eq. exists tr. by apply (udp_upload tr s).
  - destruct (queue_step tr s (Queue.SetReadDeadline (Some (now + timeout))) Queue.Silent
      (Queue.set_deadline (Some (now + timeout)) (q s)) H eq_refl ltac:(done)) as [Hr Hd].
    exists (tr ++ [Queue.Silent]). by apply (udp_side tr s).
Qed.

Lemma passed_app tr o : passed (tr ++ [o]) = passed tr ++ passed [o].
Proof. unfold passed. by rewrite Queue.delivered_app, filter_app, fmap_app. Qed.
Lemma received_app tr o : received (tr ++ [o]) = received tr + received [o].
Proof. unfold received. by rewrite Queue.delivered_app, fmap_app, join_app, zlen_app. Qed.

(** [exec] of a download step: the clock, and the queue operation it makes. *)
Ltac open_queue E :=
  try (destruct (at_time _ _) eqn:? in E; [|done]; step_time; cbn [mbind option_bind] in E);
  match type of E with
  | context [Queue.exec ?x ?c] => destruct (Queue.exec x c) as [[o c']|] eqn:Eq; [|done]; cbn [mbind option_bind] in E
  end.

Lemma udp_packet tr s s' : inv tr s -> exec DPacket s = Some s' -> exists tr', inv tr' s'.
Proof.
  intros H E. open_step E. pose proof (inv_readers _ _ H) as Hp. rewrite Heqd in Hp. destruct Hp as [t Er].
  open_queue E. assert (Queue.reachable Queue.any (tr ++ [o]) c') as Hr by (eapply Queue.reach_step; [apply H|done|exact Eq]).
  cbn [Queue.exec] in Eq. rewrite Er in Eq. cbn in Eq. destruct (Queue.packets (q s)) as [|p ps] eqn:Ep; [done|].
  injection Eq as <- <-. cbv beta iota in E. injection E as <-. set (s' := set_down _ _).
  assert (down s' = nat_filter m (Queue.addr p) (cut p)) as Ed by done.
  assert (toOrigin s' ++ hand (down s') = toOrigin s ++ hand (down s) ++ passed [Queue.Delivered p (cut p)]) as Es.
  { rewrite Ed, Heqd. unfold passed, nat_filter. cbn [Queue.delivered omap list_omap filter list_filter].
    by destruct (decide _). }
  destruct H as [HQ HP HS HR HD HO HC]. specialize (HS ltac:(by rewrite Heqd)).
  exists (tr ++ [Queue.Delivered p (cut p)]). constructor.
  - exact Hr.
  - by rewrite Es, passed_app, app_assoc, HS.
  - intros _. by rewrite Es, passed_app, app_assoc, HS.
  - rewrite Ed. unfold nat_filter. unfold q, Queue.drop_reader. cbn. rewrite Er. by destruct (decide _).
  - intros _. cbn. apply HD. by right.
  - exact HO.
  - rewrite received_app. change (DownloadTotal (info s')) with (i64 (DownloadTotal (info s) + zlen (cut p))).
    rewrite HC, i64_add_l. do 2 f_equal.
    unfold received. cbn. by rewrite app_nil_r.
Qed.

(** The download moves on after the queue operation with outcome [o]. *)
Ltac moved tr s o :=
  exists (tr ++ [o]); apply (udp_move tr s); try done; try congruence; try (by left); try (by right);
  try (intros [?|?]; done); try (match goal with E : down s = _ |- _ => by rewrite E end).

Lemma udp_call tr s now s' : inv tr s -> exec (DCall now) s = Some s' -> exists tr', inv tr' s'.
Proof.
  intros H E. open_step E. pose proof (inv_readers _ _ H) as Hp. rewrite Heqd in Hp. cbn [pending] in Hp.
  pose proof (inv_deadline _ _ H) as [t Ht]; [rewrite Heqd; by left|].
  open_queue E. change (q (set_clock now s)) with (q s) in Eq.
  assert (forall p b, o <> Queue.Delivered p b) as Ho by (cbn [Queue.exec] in Eq; repeat case_match; by simplify_eq).
  destruct (queue_step tr s _ _ _ H Eq Ho) as [Hr Hd].
  cbn [Queue.exec] in Eq. rewrite Ht, Hp in Eq. destruct (t - now <=? 0); simplify_eq/=.
  - moved tr s Queue.TimedOut.
  - moved tr s Queue.Silent. by exists t.
Qed.

Lemma udp_arm tr s now s' : inv tr s -> exec (DArm now) s = Some s' -> exists tr', inv tr' s'.
Proof.
  intros H E. open_step E. pose proof (inv_readers _ _ H) as Hp. rewrite Heqd in Hp. open_queue E.
  change (q (set_clock now s)) with (q s) in Eq. cbn [Queue.exec] in Eq. injection Eq as <- <-. injection E as <-.
  destruct (queue_step tr s (Queue.SetReadDeadline (Some (now + timeout))) Queue.Silent _ H eq_refl ltac:(done)) as [Hr Hd].
  moved tr s Queue.Silent.
Qed.

(** The pending read ends without a packet. *)
Lemma udp_ended tr s act o c : inv tr s -> down s = DnWait -> Queue.exec act (q s) = Some (o, c) ->
  (forall p b, o <> Queue.Delivered p b) -> c = Queue.drop_reader 0 (q s) ->
  forall t e, inv (tr ++ [o]) (set_down (DnDone e) (count_down 0 (set_queue c (set_clock t s)))).
Proof.
  intros H Ed Eq Ho -> t e. destruct (queue_step tr s _ _ _ H Eq Ho) as [Hr Hd].
  pose proof (inv_readers _ _ H) as Hp. rewrite Ed in Hp. destruct Hp as [t' Er].
  apply (udp_move tr s); try done; try (by right); try (by intros [?|?]).
  - by rewrite Ed.
  - by rewrite Ed.
  - change (delete 0%nat (Queue.readers (q s)) = []). by rewrite Er.
Qed.

Lemma udp_timeout tr s now s' : inv tr s -> exec (DTimeout now) s = Some s' -> exists tr', inv tr' s'.
Proof.
  intros H E. open_step E. open_queue E. change (q (set_clock now s)) with (q s) in Eq. injection E as <-.
  eexists. eapply udp_ended; [done|done|exact Eq|..]; cbn [Queue.exec] in Eq; simplify_option_eq; repeat case_match; by simplify_eq.
Qed.

Lemma udp_closed tr s s' : inv tr s -> exec DClosed s = Some s' -> exists tr', inv tr' s'.
Proof.
  intros H E. open_step E. open_queue E. injection E as <-.
  destruct s as [ck c0 od u d to i st cr fi]. eexists.
  eapply (udp_ended tr _ (Queue.ReadClosed 0) o c' H Heqd Eq); cbn [Queue.exec] in Eq; simplify_option_eq; repeat case_match; by simplify_eq.
Qed.

Lemma udp_deliver tr s e s' : inv tr s -> exec (DWrite e) s = Some s' -> exists tr', inv tr' s'.
Proof.
  intros H E. exists tr. destruct e as [e|]; open_step E; injection E as <-; pose proof (inv_readers _ _ H) as Hp;
    rewrite Heqd in Hp; destruct H as [HQ HP HS HR HD HO HC]; rewrite Heqd in HP, HS; cbn [hand] in *.
  - constructor; try done.
    + cbn. rewrite app_nil_r. etrans; [|exact HP]. by exists [b].
    + intros Hd. by specialize (Hd e).
    + by intros [?|?].
  - constructor; try done.
    + cbn. by rewrite app_nil_r.
    + intros _. cbn. rewrite app_nil_r. by apply HS.
    + by intros [?|?].
Qed.

Lemma udp_rearm tr s now s' : inv tr s -> exec (DRearm now) s = Some s' -> exists tr', inv tr' s'.
Proof.
  intros H E. exists tr. open_step E. simplify_option_eq. step_time. pose proof (inv_readers _ _ H) as Hp. rewrite Heqd in Hp.
  apply (udp_move tr s); try done; [apply H|by rewrite Heqd|by rewrite Heqd|by intros [?|?]|by left].
Qed.

Lemma udp_finish tr s s' : inv tr s -> exec Finish s = Some s' -> exists tr', inv tr' s'.
Proof.
  intros H E. pose proof E as E0. open_step E. open_queue E.
  destruct (Queue.exec Queue.CloseDo c') as [[o2 c2]|] eqn:Eq2; [|done]. cbn in E. injection E as <-.
  exists ((tr ++ [o]) ++ [o2]).
  assert (forall p b, o <> Queue.Delivered p b) as Ho by (cbn in Eq; repeat case_match; by simplify_eq).
  assert (forall p b, o2 <> Queue.Delivered p b) as Ho2 by (cbn in Eq2; repeat case_match; by simplify_eq).
  destruct (queue_step tr s _ _ _ H Eq Ho) as [Hr Hd].
  assert (Queue.reachable Queue.any ((tr ++ [o]) ++ [o2]) c2) as Hr2 by (by eapply Queue.reach_step).
  assert (Queue.delivered ((tr ++ [o]) ++ [o2]) = Queue.delivered tr) as Hd2.
  { rewrite Queue.delivered_app, Hd. destruct o2; try (by rewrite app_nil_r). exfalso. by eapply Ho2. }
  assert (Queue.readers c2 = Queue.readers (q s)) as Er.
  { cbn in Eq, Eq2. repeat case_match; by simplify_eq. }
  destruct H as [HQ HP HS HR HD HO HC]. constructor; unfold passed, received in *; rewrite ?Hd2; try done.
  - cbn. by rewrite Er.
  - cbn. rewrite Heqd. by intros [?|?].
Qed.

Lemma udp_exec tr s act s' : inv tr s -> exec act s = Some s' -> exists tr', inv tr' s'.
Proof.
  intros H E. destruct act; eauto using udp_packet, udp_call, udp_arm, udp_timeout, udp_closed, udp_deliver, udp_rearm, udp_finish, udp_pump;
    by eapply udp_upload_step.
Qed.

Lemma session_inv s : reachable s -> exists tr, inv tr s.
Proof.
  induction 1 as [now id k st|act s s' _ [tr H] E]; [|by eapply udp_exec].
  exists []. constructor; try done; [apply Queue.reach_new|by intros [?|?]].
Qed.

(** ** What a run moves *)

(** What an action brings in and takes out: a packet of the socket, a reply made locally
    that was put into the queue, and the packet the download takes from its front. *)
Definition socket_packet (act : action) : list Queue.queuedPacket :=
  match act with Net (Queue.BaseRead data from) => [Queue.mkPacket data from] | _ => [] end.
Definition reply (act : action) (s s' : session) : list Queue.queuedPacket :=
  match act with
  | UWrite _ _ | UEnqueue => drop (length (Queue.packets (q s))) (Queue.packets (q s'))
  | _ => []
  end.
Definition taken (act : action) (s : session) : list Queue.queuedPacket :=
  match act with DPacket => take 1 (Queue.packets (q s)) | _ => [] end.

Definition from_socket (acts : list action) : list Queue.queuedPacket := mjoin (socket_packet <$> acts).
Fixpoint replies (acts : list action) (s : session) : list Queue.queuedPacket :=
  match acts with
  | [] => []
  | act :: acts => match exec act s with Some s' => reply act s s' ++ replies acts s' | None => [] end
  end.
Fixpoint read_packets (acts : list action) (s : session) : list Queue.queuedPacket :=
  match acts with
  | [] => []
  | act :: acts => taken act s ++ match exec act s with Some s' => read_packets acts s' | None => [] end
  end.

(** The operation of the queue behind an action. *)
Definition moves (act : action) (s s' : session) : Prop :=
  exists qa tr, Queue.run qa (q s) = Some (tr, q s') /\ Queue.from_socket qa = socket_packet act /\
    Queue.from_callers qa = reply act s s' /\ Queue.delivered tr = taken act s.

Lemma moves_none act s s' : q s' = q s -> socket_packet act = [] -> taken act s = [] -> moves act s s'.
Proof.
  intros E E1 E2. exists [], []. rewrite E, E1, E2. split_and!; try done. destruct act; try done; cbn; rewrite E; by rewrite drop_all.
Qed.
Lemma moves_one act s s' qa o : Queue.exec qa (q s) = Some (o, q s') -> Queue.from_socket [qa] = socket_packet act ->
  Queue.from_callers [qa] = reply act s s' -> Queue.delivered [o] = taken act s -> moves act s s'.
Proof. intros E ? ? ?. exists [qa], [o]. split; [|done]. cbn [Queue.run]. rewrite E. done. Qed.

Lemma enqueued p c o c' : Queue.exec (Queue.Enqueue (Queue.payload p) (Queue.addr p)) c = Some (o, c') ->
  Queue.packets c' = Queue.packets c ++ [p] /\ o = Queue.Accepted p.
Proof.
  cbn [Queue.exec]. destruct (Queue.chan_send _ _) as [c1|] eqn:Ec; [|done]. cbn. intros [= <- <-].
  apply Queue.chan_send_inv in Ec as [-> _]. by destruct p.
Qed.

Lemma upload_moves act s s' : exec act s = Some s' ->
  match act with UArm _ | URecv _ | UTimeout _ | UFail _ | UWrite _ _ | UEnqueue | UEnqueueClosed | URearm _ => True | _ => False end ->
  moves act s s'.
Proof.
  intros E Hu. destruct act; try done; open_step E.
  - simplify_option_eq. step_time. by apply moves_none.
  - simplify_option_eq. by apply moves_none.
  - simplify_option_eq. step_time. case_match; simplify_eq. by apply moves_none.
  - simplify_option_eq. by apply moves_none.
  - destruct (at_time _ _) eqn:? in E; [|done]. step_time. cbn [mbind option_bind] in E.
    destruct (WriteTo _ _ _ _ _) as [r c] eqn:EW. injection E as <-.
    rewrite remote_eq in EW. apply Mobile.WriteTo_queue in EW; [|done..]. cbv zeta in EW.
    set (s' := match r with Ret _ => _ | _ => _ end). assert (q s' = Mobile.queue c) as Eq by (by destruct r as [[]| |]).
    destruct EW as [[Ec _]|(p & n & _ & Hp & Ec)]; [apply moves_none; [by rewrite Eq, Ec|done..]|].
    rewrite <- Hp in Ec. destruct (enqueued _ _ _ _ Ec) as [Ek _]. rewrite <- Eq in Ec, Ek. change (Mobile.queue (pc (set_clock (now w) s))) with (q s) in *.
    eapply moves_one; [exact Ec|done| |done]. cbn. rewrite Ek, drop_app_length. by destruct p.
  - open_queue E. injection E as <-. destruct (enqueued _ _ _ _ Eq) as [Ek ->].
    eapply moves_one; [exact Eq|done| |done].
    unfold reply. change (q (set_up UpRearm (count_up n (set_queue c' s)))) with c'. rewrite Ek, drop_app_length. by destruct p.
  - open_queue E. injection E as <-. eapply moves_one; [exact Eq|done..|]. cbn in Eq. case_match; by simplify_eq.
  - open_queue E. injection E as <-. change (q (set_clock now s)) with (q s) in Eq. eapply moves_one; [exact Eq|done..|].
    cbn in Eq. by simplify_eq.
Qed.

Lemma download_moves act s s' : exec act s = Some s' ->
  match act with DArm _ | DCall _ | DPacket | DTimeout _ | DClosed | DWrite _ | DRearm _ | Finish | Net _ => True | _ => False end ->
  moves act s s'.
Proof.
  intros E Hu. destruct act as [| | | | | | | |now|now| |now| |e|now|act|]; try done.
  - open_step E. open_queue E. injection E as <-. change (q (set_clock now s)) with (q s) in Eq. eapply moves_one; [exact Eq|done..|].
    cbn in Eq. by simplify_eq.
  - open_step E. open_queue E. injection E as <-. change (q (set_clock now s)) with (q s) in Eq.
    match goal with |- moves _ _ ?x => assert (q x = c') as Ex by (by destruct o) end.
    eapply (moves_one _ _ _ (Queue.ReadStart MaxSegmentSize now) o); [by rewrite Ex|done..|].
    cbn in Eq. repeat case_match; by simplify_eq.
  - open_step E. open_queue E. destruct o as [| |p b| | |]; try done. injection E as <-. eapply moves_one; [exact Eq|done..|].
    unfold taken. cbn in Eq. destruct (Queue.readers (q s)); [done|]. cbn in Eq. by destruct (Queue.packets (q s)); simplify_eq.
  - open_step E. open_queue E. injection E as <-. change (q (set_clock now s)) with (q s) in Eq. eapply moves_one; [exact Eq|done..|].
    cbn in Eq. simplify_option_eq. repeat case_match; by simplify_eq.
  - open_step E. open_queue E. injection E as <-. eapply moves_one; [exact Eq|done..|].
    cbn in Eq. simplify_option_eq. repeat case_match; by simplify_eq.
  - destruct e; open_step E; injection E as <-; by apply moves_none.
  - open_step E. simplify_option_eq. step_time. by apply moves_none.
  - unfold TunTunnel.exec in E. destruct (_ || _); [done|].
    assert ((if pump_action act then '(_, c) ← Queue.exec act (q s); Some (set_queue c s) else None) = Some s') as E'
      by (by destruct (up s), (down s)). clear E.
    destruct (pump_action act) eqn:Ep; [|done]. destruct (Queue.exec act (q s)) as [[o c]|] eqn:Eq; [|done]. cbn in E'. injection E' as <-.
    destruct (pump_quiet _ _ _ _ Ep Eq) as [_ Ho]. eapply moves_one; [exact Eq|by destruct act|by destruct act|].
    destruct o; try done. by destruct (Ho p b).
  - open_step E. open_queue E. destruct (Queue.exec Queue.CloseDo c') as [[o2 c2]|] eqn:Eq2; [|done]. cbn in E. injection E as <-.
    exists [Queue.CloseCheck; Queue.CloseDo], [o; o2]. split_and!; try done.
    + cbn [Queue.run]. rewrite Eq. cbn [mbind option_bind]. rewrite Eq2. done.
    + cbn in Eq, Eq2. repeat case_match; by simplify_eq.
Qed.

Lemma exec_moves act s s' : exec act s = Some s' -> moves act s s'.
Proof. intros E. destruct act; try (by apply (upload_moves _ _ _ E)); by apply (download_moves _ _ _ E). Qed.

Lemma run_lossless acts : forall sock call out s s', Queue.lossless sock call out (q s) -> run acts s = Some s' ->
  Queue.lossless (sock ++ from_socket acts) (call ++ replies acts s) (out ++ read_packets acts s) (q s').
Proof.
  induction acts as [|act acts IH]; intros sock call out s s' H E; cbn [TunTunnel.run] in E.
  { simplify_eq. cbn. by rewrite !app_nil_r. }
  destruct (exec act s) as [s1|] eqn:E1; [|done]. cbn [mbind option_bind] in E.
  destruct (exec_moves _ _ _ E1) as (qa & tr & Eq & E2 & E3 & E4).
  apply (Queue.lossless_run _ _ _ _ _ _ _ H) in Eq. rewrite E2, E3, E4 in Eq. apply (IH _ _ _ _ _ Eq) in E.
  cbn [replies read_packets]. rewrite E1. rewrite <- !app_assoc in E. exact E.
Qed.

(** What the application has received of the packets [R] the download has read. *)
Definition from_dst (R : list Queue.queuedPacket) : list bytes := cut <$> filter (fun p => Queue.addr p = nat_dst m) R.
Record reads_ok (R : list Queue.queuedPacket) (s : session) : Prop := mkReads {
  ro_prefix : (toOrigin s ++ hand (down s)) `prefix_of` from_dst R;
  ro_all : (forall e, down s <> DnDone (Some e)) -> toOrigin s ++ hand (down s) = from_dst R;
  ro_count : DownloadTotal (info s) = i64 (zlen (mjoin (cut <$> R)))
}.

Lemma reads_same R s s' : reads_ok R s -> toOrigin s' ++ hand (down s') = toOrigin s ++ hand (down s) ->
  ((forall e, down s' <> DnDone (Some e)) -> forall e, down s <> DnDone (Some e)) ->
  (DownloadTotal (info s') = DownloadTotal (info s) \/ DownloadTotal (info s') = i64 (DownloadTotal (info s) + 0)) ->
  reads_ok R s'.
Proof.
  intros [H1 H2 H3] E Hd Ht. constructor; rewrite ?E; auto.
  destruct Ht as [-> | ->]; [done|]. rewrite H3, i64_add_l. f_equal. lia.
Qed.

Lemma reads_upload act s s' R : reads_ok R s -> exec act s = Some s' ->
  match act with UArm _ | URecv _ | UTimeout _ | UFail _ | UWrite _ _ | UEnqueue | UEnqueueClosed | URearm _ | Net _ | Finish => True | _ => False end ->
  reads_ok R s'.
Proof.
  intros H E Hu. unfold TunTunnel.exec in E. destruct (_ || _); [done|].
  assert (toOrigin s' = toOrigin s /\ down s' = down s /\ DownloadTotal (info s') = DownloadTotal (info s)) as (E1 & E2 & E3).
  { destruct act as [| | | |w cl| | | | | | | | | | |a0|]; try done; destruct (up s) eqn:Eu; try done.
    5:{ destruct (at_time _ _) eqn:? in E; [|done]. step_time. cbn [mbind option_bind] in E.
        destruct (WriteTo _ _ _ _ _) as [[[]| |] c]; by injection E as <-. }
    all: destruct (down s) eqn:Ed; try done; simplify_option_eq; step_time; repeat case_match; simplify_option_eq; try done.
    all: repeat match goal with x : (Queue.outcome * Queue.queuedPacketConn)%type |- _ => destruct x end; simplify_option_eq; done. }
  eapply reads_same; [done|by rewrite E1, E2|by rewrite E2|by left].
Qed.

Lemma reads_step act s s' R tr : inv tr s -> reads_ok R s -> exec act s = Some s' -> reads_ok (R ++ taken act s) s'.
Proof.
  intros Hi H E. destruct act as [now|b|now|e|w cl| | |now|now|now| |now| |e|now|act|]; cbn [taken]; rewrite ?app_nil_r;
    try (by apply (reads_upload _ s s' R H E)).
  - open_step E. open_queue E. injection E as <-. apply (reads_same R s); [done|by rewrite Heqd|by rewrite Heqd|by left].
  - open_step E. open_queue E. injection E as <-. cbn in Eq. repeat case_match; simplify_eq;
      (apply (reads_same R s); [done|by rewrite Heqd|by rewrite Heqd|first [by left|by right]]).
  - open_step E. pose proof (inv_readers _ _ Hi) as Hp. rewrite Heqd in Hp. destruct Hp as [t Er].
    open_queue E. cbn [Queue.exec] in Eq. rewrite Er in Eq. cbn in Eq. destruct (Queue.packets (q s)) as [|p ps] eqn:Ep; [done|].
    injection Eq as <- <-. cbv beta iota in E. injection E as <-. fold (cut p). set (s' := set_down _ _). change (take 1 (p :: ps)) with [p].
    assert (toOrigin s' ++ hand (down s') = toOrigin s ++ hand (down s) ++ from_dst [p]) as Es.
    { change (down s') with (nat_filter m (Queue.addr p) (cut p)). rewrite Heqd. unfold from_dst, nat_filter. cbn. by destruct (decide _). }
    assert (from_dst (R ++ [p]) = from_dst R ++ from_dst [p]) as Ef by (unfold from_dst; by rewrite filter_app, fmap_app).
    destruct H as [_ H2 H3]. specialize (H2 ltac:(by rewrite Heqd)). constructor.
    + by rewrite Es, Ef, app_assoc, H2.
    + intros _. by rewrite Es, Ef, app_assoc, H2.
    + change (DownloadTotal (info s')) with (i64 (DownloadTotal (info s) + zlen (cut p))). rewrite H3, i64_add_l. f_equal.
      rewrite fmap_app, join_app, zlen_app. cbn. by rewrite app_nil_r.
  - open_step E. open_queue E. injection E as <-. apply (reads_same R s); [done|by rewrite Heqd|by rewrite Heqd|by right].
  - open_step E. open_queue E. injection E as <-. apply (reads_same R s); [done|by rewrite Heqd|by rewrite Heqd|by right].
  - destruct e as [e|]; open_step E; injection E as <-.
    + destruct H as [H1 H2 H3]. rewrite Heqd in H1, H2. constructor; try done; [|by intros Hd; destruct (Hd e)].
      cbn. rewrite app_nil_r. etrans; [|exact H1]. by eexists.
    + apply (reads_same R s); [done| |by rewrite Heqd|by left]. rewrite Heqd. cbn. by rewrite app_nil_r.
  - open_step E. simplify_option_eq. step_time. apply (reads_same R s); [done|by rewrite Heqd|by rewrite Heqd|by left].
Qed.

Lemma run_reads acts : forall R s s', reachable s -> reads_ok R s -> run acts s = Some s' -> reads_ok (R ++ read_packets acts s) s'.
Proof.
  induction acts as [|act acts IH]; intros R s s' Hs H E; cbn [TunTunnel.run read_packets] in *.
  { simplify_eq. by rewrite app_nil_r. }
  destruct (exec act s) as [s1|] eqn:E1; [|done]. cbn [mbind option_bind] in E. destruct (session_inv s Hs) as [tr Hi].
  rewrite app_assoc. apply (IH _ s1); [by eapply reach_step|by eapply reads_step|done].
Qed.

(** A new session has moved nothing. *)
Lemma new_moved now id k st : let s := new_session now id (Mobile.mkPC k Queue.newQueuedPacketConn []) st in
  reads_ok [] s /\ Queue.lossless [] [] [] (q s).
Proof. split; [by constructor|]. exists [], []. split_and!; try done. constructor. Qed.

(** ** How a session ends *)

Definition running (s : session) : Prop := crashed s = false /\ finished s = false.

(** Some schedule leads from [s] to a state with [P]. *)
Definition leads (s : session) (P : session -> Prop) : Prop := exists acts s', run acts s = Some s' /\ P s'.

Lemma leads_here s (P : session -> Prop) : P s -> leads s P.
Proof. by exists [], s. Qed.
Lemma leads_step act s s1 (P : session -> Prop) : exec act s = Some s1 -> leads s1 P -> leads s P.
Proof. intros E (acts & s' & Er & HP). exists (act :: acts), s'. split; [|done]. cbn [TunTunnel.run]. by rewrite E. Qed.
Lemma leads_trans s (P Q : session -> Prop) : leads s P -> (forall s', P s' -> leads s' Q) -> leads s Q.
Proof.
  intros (acts & s1 & Er & HP) HQ. destruct (HQ s1 HP) as (acts' & s2 & Er' & H2).
  exists (acts ++ acts'), s2. split; [|done]. clear HQ HP H2. revert s Er. induction acts as [|act acts IH]; intros s Er.
  { cbn in Er. by simplify_eq. }
  cbn [TunTunnel.run app] in *. destruct (exec act s) as [s3|]; [|done]. cbn [mbind option_bind] in *. by apply IH.
Qed.

(** The parts of a state that matter for the end of the session. *)
Record ending (s : session) : Prop := mkEnding {
  end_running : running s;
  end_readers : pending (down s) (Queue.readers (q s));
  end_deadline : armed (down s) -> is_Some (Queue.readDeadline (q s));
  end_open : Queue.closed (q s) = false /\ Queue.closers (q s) = 0%nat;
  end_origin : up s = UpRead -> is_Some (originDeadline s)
}.

Lemma origin_step act s s' : exec act s = Some s' ->
  (up s = UpRead -> is_Some (originDeadline s)) -> up s' = UpRead -> is_Some (originDeadline s').
Proof.
  intros E H. unfold TunTunnel.exec in E. destruct (_ || _); [done|].
  destruct act; destruct (up s) eqn:Eu; try done; destruct (down s) eqn:Ed; try done; simplify_option_eq; step_time; try done;
    repeat case_match; simplify_option_eq; cbn; rewrite ?Eu; eauto; try done.
  all: match goal with x : (Queue.outcome * Queue.queuedPacketConn)%type |- _ => destruct x; simplify_eq; cbn; by rewrite Eu end.
Qed.

Lemma reachable_ending s : reachable s -> running s -> ending s.
Proof.
  intros Hs Hr. destruct (session_inv s Hs) as [tr H]. constructor; [done|apply (inv_readers _ _ H)|apply (inv_deadline _ _ H)| |].
  - by apply (inv_open _ _ H), Hr.
  - clear H Hr tr. induction Hs as [|act s s' _ IH E]; [done|]. by eapply origin_step.
Qed.

(** The download is over, and the upload where it was. *)
Definition halfway (s s' : session) : Prop := (exists e, down s' = DnDone e) /\ up s' = up s /\ ending s'.

Lemma at_now t s : clock s <= t -> at_time t s = Some (set_clock t s).
Proof. intros H. unfold at_time. by rewrite (proj2 (Z.leb_le _ _)). Qed.

Lemma call_ends s : ending s -> down s = DnCall -> leads s (halfway s).
Proof.
  intros [[Hc Hf] HR HD HO HU] Ed. destruct (HD ltac:(rewrite Ed; by left)) as [d Hd]. rewrite Ed in HR. cbn [pending] in HR.
  set (t := Z.max (clock s) d).
  apply (leads_step (DCall t) s (set_down (DnDone None) (count_down 0 (set_queue (q s) (set_clock t s))))).
  - unfold TunTunnel.exec. rewrite Hc, Hf, Ed, at_now by lia. cbn [orb mbind option_bind].
    change (q (set_clock t s)) with (q s). cbn [Queue.exec]. rewrite Hd. rewrite (proj2 (Z.leb_le _ _)) by lia. by destruct (up s).
  - apply leads_here. split; [by eexists|]. split; [done|]. constructor; try done; by intros [?|?].
Qed.

Lemma wait_ends s : ending s -> down s = DnWait -> leads s (halfway s).
Proof.
  intros [[Hc Hf] HR HD HO HU] Ed. rewrite Ed in HR. destruct HR as [d Hd].
  set (t := Z.max (clock s) d).
  apply (leads_step (DTimeout t) s
    (set_down (DnDone None) (count_down 0 (set_queue (Queue.drop_reader 0 (q s)) (set_clock t s))))).
  - unfold TunTunnel.exec. rewrite Hc, Hf, Ed, at_now by lia. cbn [orb mbind option_bind].
    change (q (set_clock t s)) with (q s). cbn [Queue.exec]. rewrite Hd. cbn. rewrite (proj2 (Z.leb_le _ _)) by lia. by destruct (up s).
  - apply leads_here. split; [by eexists|]. split; [done|]. constructor; try done; [|by intros [?|?]].
    change (delete 0%nat (Queue.readers (q s)) = []). by rewrite Hd.
Qed.

Lemma arm_ends s : ending s -> down s = DnArm -> leads s (halfway s).
Proof.
  intros [[Hc Hf] HR HD HO HU] Ed. rewrite Ed in HR.
  set (s1 := set_down DnCall (set_queue (Queue.set_deadline (Some (clock s + timeout)) (q s)) (set_clock (clock s) s))).
  apply (leads_step (DArm (clock s)) s s1).
  - unfold TunTunnel.exec. rewrite Hc, Hf, Ed, at_now by lia. cbn. by destruct (up s).
  - assert (ending s1) as H1 by (constructor; try done; by eexists).
    exact (call_ends s1 H1 eq_refl).
Qed.

Lemma rearm_ends s : ending s -> down s = DnRearm -> leads s (halfway s).
Proof.
  intros [[Hc Hf] HR HD HO HU] Ed. rewrite Ed in HR.
  set (s1 := set_down DnArm (set_originDeadline (Some (clock s + timeout)) (set_clock (clock s) s))).
  apply (leads_step (DRearm (clock s)) s s1).
  - unfold TunTunnel.exec. rewrite Hc, Hf, Ed, at_now by lia. by destruct (up s).
  - assert (ending s1) as H1 by (constructor; try done; by intros [?|?]). exact (arm_ends s1 H1 eq_refl).
Qed.

Lemma download_ends s : ending s -> leads s (halfway s).
Proof.
  intros H. destruct (down s) as [| | |b| |e] eqn:Ed; eauto using arm_ends, call_ends, wait_ends, rearm_ends.
  - destruct H as [[Hc Hf] HR HD HO HU]. rewrite Ed in HR. set (s1 := set_down DnRearm (push_origin b s)).
    apply (leads_step (DWrite None) s s1).
    + unfold TunTunnel.exec. rewrite Hc, Hf, Ed. by destruct (up s).
    + assert (ending s1) as H1 by (constructor; try done; by intros [?|?]). exact (rearm_ends s1 H1 eq_refl).
  - apply leads_here. split; [by eexists|done].
Qed.

(** The upload is not in the middle of a write. *)
Definition between_writes (u : upload) : Prop :=
  match u with UpWrite _ | UpWait _ _ => False | _ => True end.

Definition over (s : session) : Prop := (exists e, down s = DnDone e) /\ (exists e, up s = UpDone e) /\ ending s.

Lemma read_ends s e : ending s -> down s = DnDone e -> up s = UpRead -> leads s over.
Proof.
  intros [[Hc Hf] HR HD HO HU] Ed Eu. destruct (HU Eu) as [d Hd]. set (t := Z.max (clock s) d).
  apply (leads_step (UTimeout t) s (set_up (UpDone None) (set_clock t s))).
  - unfold TunTunnel.exec. rewrite Hc, Hf, Eu, at_now by lia. cbn. rewrite Hd. cbn. by rewrite (proj2 (Z.leb_le _ _)) by lia.
  - apply leads_here. split; [by exists e|]. split; [by eexists|]. by constructor.
Qed.

Lemma upload_ends s e : ending s -> down s = DnDone e -> between_writes (up s) -> leads s over.
Proof.
  intros H Ed Hu.
  assert (forall s1, ending s1 -> down s1 = DnDone e -> up s1 = UpArm -> leads s1 over) as Harm.
  { intros s1 [[Hc Hf] HR HD HO HU] Ed1 Eu. set (s2 := set_up UpRead (set_originDeadline (Some (clock s1 + timeout)) (set_clock (clock s1) s1))).
    apply (leads_step (UArm (clock s1)) s1 s2).
    - unfold TunTunnel.exec. by rewrite Hc, Hf, Eu, at_now by lia.
    - by apply (read_ends s2 e). }
  destruct (up s) as [| |b|p n| |e'] eqn:Eu; try done.
  - by apply Harm.
  - by apply (read_ends s e).
  - destruct H as [[Hc Hf] HR HD HO HU]. set (s1 := set_up UpArm (set_queue (Queue.set_deadline (Some (clock s + timeout)) (q s)) (set_clock (clock s) s))).
    apply (leads_step (URearm (clock s)) s s1).
    + unfold TunTunnel.exec. rewrite Hc, Hf, Eu, at_now by lia. done.
    + by apply Harm.
  - apply leads_here. split; [by exists e|]. split; [by exists e'|done].
Qed.

Lemma session_ends s : reachable s -> running s -> between_writes (up s) ->
  leads s (fun s' => finished s' = true /\ Queue.closed (q s') = true /\ UUID (info s') ∉ connections (stats s')).
Proof.
  intros Hs Hr Hu. apply (leads_trans _ (halfway s)); [by apply download_ends, reachable_ending|].
  intros s1 ([e Ed] & Eu & H1). apply (leads_trans _ over); [by apply (upload_ends s1 e); rewrite ?Eu|].
  intros s2 ([e1 Ed1] & [e2 Eu2] & [[Hc Hf] HR HD [HO1 HO2] HU]). eapply (leads_step Finish).
  - unfold TunTunnel.exec. rewrite Hc, Hf, Eu2, Ed1. cbn. rewrite HO1. cbn. rewrite HO2. cbn. reflexivity.
  - apply leads_here. split_and!; try done. cbn. set_solver.
Qed.

(** A session that cannot end: nobody reads the full queue the upload waits for. *)
Definition stuck (s : session) : Prop :=
  running s /\ (exists e, down s = DnDone e) /\ (exists p n, up s = UpWait p n) /\
  Queue.closed (q s) = false /\ (Queue.capacity <= length (Queue.packets (q s)))%nat.

Lemma stuck_step act s s' : stuck s -> exec act s = Some s' -> stuck s'.
Proof.
  intros ([Hc Hf] & [e Ed] & (p & n & Eu) & Hcl & Hl) E. unfold TunTunnel.exec in E. rewrite Hc, Hf, Eu, Ed in E. cbn [orb] in E.
  destruct act as [| | | | | | | | | | | | | [x|]| |act|]; try done.
  - cbn [Queue.exec] in E. unfold Queue.chan_send in E. by rewrite (proj2 (Nat.ltb_ge _ _)) in E.
  - cbn [Queue.exec] in E. by rewrite Hcl in E.
  - destruct (pump_action act) eqn:Ep; [|done].
    destruct act; try done; cbn [Queue.exec] in E; destruct (Queue.pumping (q s)); try done.
    + injection E as <-. split_and!; try done; [by exists e|by exists p, n].
    + injection E as <-. split_and!; try done; [by exists e|by exists p, n].
    + unfold Queue.chan_send in E. by rewrite (proj2 (Nat.ltb_ge _ _)) in E.
    + by rewrite Hcl in E.
Qed.

(** Local replies come from the session's destination. *)
Lemma reply_source : Unmap (Addr6 (As16 a) "") = a ->
  Mobile.dest_string (Mobile.UDPDest (Some (As16 a)) (DstPort m)) = nat_dst m.
Proof.
  intros Hu. unfold nat_dst, DestinationAddress. rewrite Hdst. cbn [AddrPortString Mobile.dest_string]. unfold IPString.
  by rewrite Hu.
Qed.

End spec.

(** ** Concrete sessions *)

Definition w_meta (a : Addr) (port : Z) : Metadata := mkMetadata UDP None None (Some a) 0 0 port.
Definition w_timeout : Z := 60 * 10 ^ 9.
Definition w_run (m : Metadata) :=
  run (L := map_lru) (ord := sorted_order) (names := Dns.w_names) Dns.w_cfg Mobile.w_unpack Mobile.w_pack Mobile.w_resolve Mobile.w_sendto
    w_timeout m.
Definition w_session (k : core (L := map_lru)) : session := new_session 0 "id" (Mobile.mkPC k Queue.newQueuedPacketConn []) newManager.

Definition w_reachable (m : Metadata) :=
  reachable (L := map_lru) (ord := sorted_order) (names := Dns.w_names) Dns.w_cfg Mobile.w_unpack Mobile.w_pack Mobile.w_resolve Mobile.w_sendto
    w_timeout m.

Lemma w_run_reachable m acts : forall s s', w_reachable m s -> w_run m acts s = Some s' -> w_reachable m s'.
Proof.
  induction acts as [|act acts IH]; intros s s' Hs E; cbn [w_run run] in E; [by simplify_eq|].
  destruct (exec _ _ _ _ _ _ _ act s) as [s1|] eqn:E1; [|done]. cbn [mbind option_bind] in E.
  apply (IH s1); [|done]. by eapply reach_step.
Qed.

(** A run of a new session to a state with [P]. *)
Lemma w_reach m acts k (P : session -> Prop) :
  match w_run m acts (w_session k) with Some s => P s | None => False end -> exists s, w_reachable m s /\ P s.
Proof.
  destruct (w_run m acts (w_session k)) as [s|] eqn:E; [|done]. intros HP. exists s. split; [|done].
  eapply w_run_reachable; [apply reach_new|exact E].
Qed.

(** One query of the application, answered locally. *)
Definition w_query (t : Z) : list action := [UArm t; URecv [1]; UWrite (Dns.w_world t) false; URearm t].

(** The first query is answered; while the second is being answered the pending read times
    out; then the application repeats it. *)
Definition w_resolver : Metadata := w_meta (Addr4 0xac130002) 53.
Definition w_stuck_run : list action :=
  [DArm 0; DCall 0; UArm 0; URecv [1]; UWrite (Dns.w_world 0) false; DPacket; DWrite None; DRearm 0; URearm 0; DArm 0; DCall 0;
   UArm 0; URecv [1]; DTimeout w_timeout; UWrite (Dns.w_world w_timeout) false; URearm w_timeout]
  ++ mjoin (replicate 31 (w_query w_timeout)) ++ [UArm w_timeout; URecv [1]; UWrite (Dns.w_world w_timeout) false].

(** A datagram to the fake address of a name asked for before, and the reply. *)
Definition w_fake : Metadata := w_meta (Addr4 0xc6120001) 443.
Definition w_fake_run : list action :=
  [DArm 0; DCall 0; UArm 0; URecv [7]; UWrite (Dns.w_world 0) false; URearm 0;
   Net (Queue.BaseRead [8] "203.0.113.11:443"); Net Queue.PumpSend; DPacket].

(** A datagram sent after half of the timeout. *)
Definition w_late_run : list action :=
  [DArm 0; DCall 0; UArm 0; URecv [7]; UWrite (Dns.w_world (w_timeout / 2)) false; URearm (w_timeout / 2); UArm (w_timeout / 2);
   DTimeout w_timeout].

(** What sessions lose.  Three runs of concrete sessions, each allowed by the code:
    datagrams to a fake address are sent to the address behind it, whose replies the
    symmetric NAT then drops, because they do not come from the fake address; a pending
    read of the packet queue keeps the deadline it started with, so the download ends 60
    seconds after its last packet although later uploads had extended the deadline, and
    the session goes on one-way; and a session to the resolver whose download has ended
    that way fills the queue with replies nobody reads, after which it is stuck for good,
    its goroutines and its socket with it. *)
Theorem tun_udp_losses :
  (exists s, w_reachable w_fake s /\ Mobile.sent (pc s) = [([7], "203.0.113.11:443"%string)] /\
     nat_dst w_fake = "198.18.0.1:443"%string /\ DownloadTotal (info s) = 1 /\ Queue.packets (q s) = [] /\
     toOrigin s = [] /\ down s = DnCall) /\
  (exists s d, w_reachable w_fake s /\ down s = DnDone None /\ up s = UpRead /\ Queue.readDeadline (q s) = Some d /\ clock s < d) /\
  (exists s, w_reachable w_resolver s /\ stuck s /\ toOrigin s = [[2]]).
Proof.
  split; [|split].
  - apply (w_reach w_fake w_fake_run (Mobile.pkern Mobile.w_asked)). vm_compute. by split_and!.
  - destruct (w_reach w_fake w_late_run (Mobile.pkern Mobile.w_asked) (fun s => down s = DnDone None /\ up s = UpRead /\
      Queue.readDeadline (q s) = Some (90 * 10 ^ 9) /\ clock s < 90 * 10 ^ 9)) as (s & Hs & HP); [vm_compute; by split_and!|].
    by exists s, (90 * 10 ^ 9).
  - apply (w_reach w_resolver w_stuck_run Dns.w_core). vm_compute. split; [|done]. split_and!; try done.
    + by eexists.
    + by eexists _, _.
Qed.

(** A query of the application and its reply, in a session that was dialled. *)
Definition w_dialed : go session * Mobile.bill (L := map_lru) :=
  handleUDPConn w_resolver 0 (Ret tt) "id" newManager (Mobile.mkBill Dns.w_core 0 0).
Definition w_reply_run : list action :=
  [DArm 0; DCall 0; UArm 0; URecv [1]; UWrite (Dns.w_world 0) false; DPacket; DWrite None].
Definition w_reads :=
  read_packets (L := map_lru) (ord := sorted_order) (names := Dns.w_names) Dns.w_cfg Mobile.w_unpack Mobile.w_pack Mobile.w_resolve Mobile.w_sendto
    w_timeout w_resolver.

Lemma w_computed :
  match w_dialed with
  | (Ret s0, _) => match w_run w_resolver w_reply_run s0 with Some s => toOrigin s = [[2]] /\ down s = DnRearm | None => False end
  | _ => False
  end.
Proof. vm_compute. by split. Qed.
Lemma w_replied : exists s0 b' s, w_dialed = (Ret s0, b') /\ w_run w_resolver w_reply_run s0 = Some s /\ toOrigin s = [[2]] /\ down s = DnRearm.
Proof.
  pose proof w_computed as H. destruct w_dialed as [[s0|e|] b']; [|done..]. exists s0, b'.
  destruct (w_run w_resolver w_reply_run s0) as [s|]; [|done]. exists s. destruct H. by split_and!.
Qed.


End TunTunnel.
