(* ===== verification/TunTcp.v ===== *)
(** * TCP connections of the tunnel (src/tun2socks/tunnel/tcp.go, tunnel/statistic/tracker.go)

    A connection of the netstack is handed to handleTCPConn, which dials through the proxy
    (here BillProxy of [Mobile]), counts the traffic and copies both ways with two
    goroutines, each of which half-closes and sets a read deadline on its destination when
    it ends.  A session is a system of steps: the two copy loops, the application and the
    target interleave in any order, each step at a time of a clock that does not go back.
    A peer may never close after what it sends, and may never take what is written to it. *)

From S2P Require Import Prelude GoStrings GoState Conn GoIO NetIP GoNet FakeIP Patterns Policy Route IPPool Core Dns Plan Queue Mobile TunTunnel.

Module TunTcp.
Import TunTunnel.

Definition RelayBufferSize : Z := Z.shiftl 20 10.
Definition tcpWaitTimeout : Z := 60 * 10 ^ 9.

(** Where unidirectionalStream stands: in src.Read, in dst.Write, after io.CopyBuffer
    returned with its error, and at its end. *)
Inductive pos :=
| Reading
| Writing (b : bytes)
| Copied (e : option string)
| Done (e : option string).

(** The session; the read deadlines are those of the two connections, and [finRemote] and
    [finOrigin] say that their CloseWrite was called. *)
Record tcp := mkTcp {
  clock : Z;
  closable : bool;                   (* the connection to the target has CloseRead and CloseWrite *)
  upPos : pos; downPos : pos;
  fromOrigin : bytes; fromRemote : bytes;        (* what the two peers still have to send *)
  toRemote : list bytes; toOrigin : list bytes;  (* what was written *)
  remoteDeadline : option Z; originDeadline : option Z;
  finRemote : bool; finOrigin : bool;
  info : trackerInfo; stats : Manager;
  finished : bool
}.

Inductive dir := Up | Down.
Definition pos_of (d : dir) (s : tcp) : pos := match d with Up => upPos s | Down => downPos s end.
Definition source (d : dir) (s : tcp) : bytes := match d with Up => fromOrigin s | Down => fromRemote s end.
(** The read deadline of the direction's source. *)
Definition deadline (d : dir) (s : tcp) : option Z := match d with Up => originDeadline s | Down => remoteDeadline s end.

Definition set_clock (t : Z) (s : tcp) : tcp :=
  mkTcp t (closable s) (upPos s) (downPos s) (fromOrigin s) (fromRemote s) (toRemote s) (toOrigin s)
    (remoteDeadline s) (originDeadline s) (finRemote s) (finOrigin s) (info s) (stats s) (finished s).
Definition set_pos (d : dir) (p : pos) (s : tcp) : tcp :=
  mkTcp (clock s) (closable s) (match d with Up => p | Down => upPos s end) (match d with Up => downPos s | Down => p end)
    (fromOrigin s) (fromRemote s) (toRemote s) (toOrigin s)
    (remoteDeadline s) (originDeadline s) (finRemote s) (finOrigin s) (info s) (stats s) (finished s).
Definition set_source (d : dir) (b : bytes) (s : tcp) : tcp :=
  mkTcp (clock s) (closable s) (upPos s) (downPos s) (match d with Up => b | Down => fromOrigin s end)
    (match d with Up => fromRemote s | Down => b end) (toRemote s) (toOrigin s)
    (remoteDeadline s) (originDeadline s) (finRemote s) (finOrigin s) (info s) (stats s) (finished s).
Definition push (d : dir) (b : bytes) (s : tcp) : tcp :=
  mkTcp (clock s) (closable s) (upPos s) (downPos s) (fromOrigin s) (fromRemote s)
    (match d with Up => toRemote s ++ [b] | Down => toRemote s end) (match d with Up => toOrigin s | Down => toOrigin s ++ [b] end)
    (remoteDeadline s) (originDeadline s) (finRemote s) (finOrigin s) (info s) (stats s) (finished s).

(** tcpTracker.Write and tcpTracker.Read, after [n] bytes went up or came down. *)
Definition tracker_Write (n : Z) (s : tcp) : tcp :=
  mkTcp (clock s) (closable s) (upPos s) (downPos s) (fromOrigin s) (fromRemote s) (toRemote s) (toOrigin s)
    (remoteDeadline s) (originDeadline s) (finRemote s) (finOrigin s)
    (mkInfo (UUID (info s)) (i64 (UploadTotal (info s) + n)) (DownloadTotal (info s))) (PushUploaded n (stats s)) (finished s).
Definition tracker_Read (n : Z) (s : tcp) : tcp :=
  mkTcp (clock s) (closable s) (upPos s) (downPos s) (fromOrigin s) (fromRemote s) (toRemote s) (toOrigin s)
    (remoteDeadline s) (originDeadline s) (finRemote s) (finOrigin s)
    (mkInfo (UUID (info s)) (UploadTotal (info s)) (i64 (DownloadTotal (info s) + n))) (PushDownloaded n (stats s)) (finished s).

(** The end of unidirectionalStream at [now]: CloseRead of the source, CloseWrite of the
    destination where they exist, and the deadline of the destination.  CloseRead shows in
    no later step: the direction reads no more. *)
Definition half_close (d : dir) (e : option string) (now : Z) (s : tcp) : tcp :=
  mkTcp (clock s) (closable s) (match d with Up => Done e | Down => upPos s end) (match d with Up => downPos s | Down => Done e end)
    (fromOrigin s) (fromRemote s) (toRemote s) (toOrigin s)
    (match d with Up => Some (now + tcpWaitTimeout) | Down => remoteDeadline s end)
    (match d with Up => originDeadline s | Down => Some (now + tcpWaitTimeout) end)
    (match d with Up => finRemote s || closable s | Down => finRemote s end)
    (match d with Up => finOrigin s | Down => true end)
    (info s) (stats s) (finished s).

(** One step of one goroutine; [now] is when. *)
Inductive action :=
| Read (d : dir) (n now : Z)         (* src.Read returned n bytes *)
| ReadEOF (d : dir)                  (* the peer has sent everything and closed *)
| ReadFail (d : dir) (e : string)
| ReadTimeout (d : dir) (now : Z)
| Write (d : dir)                    (* dst.Write took everything *)
| WriteFail (d : dir) (e : string)
| HalfClose (d : dir) (now : Z)
| Finish.                            (* wg.Wait returned; the deferred Close calls *)

Definition at_time (now : Z) (s : tcp) : option tcp := if clock s <=? now then Some (set_clock now s) else None.

(** The counting of a read that returned [n] bytes, and of a write. *)
Definition after_read (d : dir) (n : Z) (s : tcp) : tcp := match d with Up => s | Down => tracker_Read n s end.
Definition after_write (d : dir) (n : Z) (s : tcp) : tcp := match d with Up => tracker_Write n s | Down => s end.

Definition expired (d : dir) (now : Z) (s : tcp) : bool :=
  match deadline d s with Some t => t <=? now | None => false end.

Section peers.
(** Whether the peer a direction reads from closes once it has sent everything; one that
    does not stays silent for ever. *)
Context (closes : dir -> bool).

Definition exec (a : action) (s : tcp) : option tcp :=
  if finished s then None
  else
    match a with
    | Read d n now =>
      s ← at_time now s;
      match pos_of d s with
      | Reading =>
        if expired d now s || negb ((1 <=? n) && (n <=? RelayBufferSize) && (n <=? zlen (source d s))) then None
        else
          let b := take (Z.to_nat n) (source d s) in
          Some (set_pos d (Writing b) (after_read d n (set_source d (drop (Z.to_nat n) (source d s)) s)))
      | _ => None
      end
    | ReadEOF d =>
      match pos_of d s with
      | Reading => if closes d && (zlen (source d s) =? 0) then Some (set_pos d (Copied None) (after_read d 0 s)) else None
      | _ => None
      end
    | ReadFail d e =>
      match pos_of d s with
      | Reading => Some (set_pos d (Copied (Some e)) (after_read d 0 s))
      | _ => None
      end
    | ReadTimeout d now =>
      s ← at_time now s;
      match pos_of d s with
      | Reading => if expired d now s then Some (set_pos d (Copied (Some "i/o timeout"%string)) (after_read d 0 s)) else None
      | _ => None
      end
    | Write d =>
      match pos_of d s with
      | Writing b => Some (set_pos d Reading (after_write d (zlen b) (push d b s)))
      | _ => None
      end
    | WriteFail d e =>
      match pos_of d s with
      | Writing b => Some (set_pos d (Copied (Some e)) (after_write d 0 s))
      | _ => None
      end
    | HalfClose d now =>
      s ← at_time now s;
      match pos_of d s with
      | Copied e => Some (half_close d e now s)
      | _ => None
      end
    | Finish =>
      match upPos s, downPos s with
      | Done _, Done _ =>
        Some (mkTcp (clock s) (closable s) (upPos s) (downPos s) (fromOrigin s) (fromRemote s) (toRemote s) (toOrigin s)
                (remoteDeadline s) (originDeadline s) (finRemote s) (finOrigin s) (info s) (Leave (UUID (info s)) (stats s)) true)
      | _, _ => None
      end
    end.

Fixpoint run (acts : list action) (s : tcp) : option tcp :=
  match acts with
  | [] => Some s
  | a :: acts => s ← exec a s; run acts s
  end.
End peers.

(** ** Sessions *)

(** Which of BillProxy's connections have CloseRead and CloseWrite: only the TCP connection
    itself, not the wrapper of [Bridge] and not the pipe to the resolver. *)
Definition can_half_close (c : Mobile.dialed) : bool :=
  match c with Mobile.RawConn _ => true | _ => false end.

(** NewTCPTracker and pipe: what the two peers will send is known from the start. *)
Definition new_tcp (now : Z) (id : string) (c : Mobile.dialed) (app target : bytes) (stats : Manager) : tcp :=
  mkTcp now (can_half_close c) Reading Reading app target [] [] None None false false (mkInfo id 0 0) (Join id stats) false.

Section handle.
Context {L : LRU} {ord : RangeOrder} {names : DNSNames} (cfg : config).

(** handleTCPConn up to pipe; the error is logged and the connection closed. *)
Definition handleTCPConn (dial : string -> Z -> go unit) (w : world) (id : EndpointID) (uuid : string) (app target : bytes)
    (stats : Manager) : St Mobile.bill (Mobile.dialed * tcp) := fun b =>
  let m := metadata_of TCP id in
  let (r, b) := Mobile.DialContext cfg dial w (Some (Mobile.mkMeta (DstIP m) (DstPort m))) b in
  (go_bind r (fun c => Ret (c, new_tcp (now w) uuid c app target stats)), b).
End handle.

(** ** What a session does *)

Section spec.
Context (closes : dir -> bool) (app target : bytes) (id : string).
Notation exec := (exec closes).
Notation run := (run closes).

Definition stream_of (d : dir) : bytes := match d with Up => app | Down => target end.
Definition out_of (d : dir) (s : tcp) : list bytes := match d with Up => toRemote s | Down => toOrigin s end.

(** One direction: the bytes written, in flight and still to come make up the stream; an
    end without an error comes after all of it; the deadline it sets is there once it has
    ended, at most the timeout away. *)
Definition half_inv (stream : bytes) (out : list bytes) (src : bytes) (p : pos) (set : option Z) (c : Z) : Prop :=
  (exists lost, mjoin out ++ lost ++ src = stream /\
     match p with Reading => lost = [] | Writing b => lost = b | _ => True end) /\
  match p with Copied None | Done None => mjoin out = stream | _ => True end /\
  match p, set with
  | Done _, Some t => t <= c + tcpWaitTimeout
  | Done _, None => False
  | _, None => True
  | _, Some _ => False
  end.
Definition half_ok (d : dir) (s : tcp) : Prop :=
  half_inv (stream_of d) (out_of d s) (source d s) (pos_of d s)
    match d with Up => remoteDeadline s | Down => originDeadline s end (clock s).

Record tcp_ok (s : tcp) : Prop := {
  ok_up : half_ok Up s;
  ok_down : half_ok Down s;
  ok_uuid : UUID (info s) = id;
  ok_uploaded : UploadTotal (info s) = i64 (zlen (mjoin (toRemote s)));
  ok_downloaded : DownloadTotal (info s) = i64 (zlen target - zlen (fromRemote s));
  ok_fin : finRemote s = true -> closable s = true /\ exists e, upPos s = Done e;
  ok_joined : finished s = false <-> id ∈ connections (stats s);
  ok_over : finished s = true -> exists e e', upPos s = Done e /\ downPos s = Done e'
}.

Lemma i64_push x n : i64 (i64 x + n) = i64 (x + n).
Proof. apply i64_add_l. Qed.

Lemma hi_clock st out src p set c c' : c <= c' -> half_inv st out src p set c -> half_inv st out src p set c'.
Proof. intros Hc (H1 & H2 & H3). split_and!; try done. destruct p; try done. destruct set; try done. lia. Qed.
Lemma hi_read st out src set c n : 1 <= n -> half_inv st out src Reading set c ->
  half_inv st out (drop (Z.to_nat n) src) (Writing (take (Z.to_nat n) src)) set c.
Proof.
  intros Hn ((lost & E & ->) & _ & H3). split_and!; try done. exists (take (Z.to_nat n) src). split; [|done]. by rewrite take_drop.
Qed.
Lemma hi_write st out src b set c : half_inv st out src (Writing b) set c -> half_inv st (out ++ [b]) src Reading set c.
Proof.
  intros ((lost & E & ->) & _ & H3). split_and!; try done. exists []. split; [|done].
  rewrite join_app. cbn. by rewrite app_nil_r, <- app_assoc.
Qed.
Lemma hi_eof st out set c : half_inv st out [] Reading set c -> half_inv st out [] (Copied None) set c.
Proof.
  intros ((lost & E & ->) & _ & H3). rewrite app_nil_r in E. split_and!; try done. exists []. by rewrite app_nil_r.
Qed.
Lemma hi_fail st out src p set c e : match p with Reading | Writing _ => True | _ => False end ->
  half_inv st out src p set c -> half_inv st out src (Copied (Some e)) set c.
Proof. intros Hp ((lost & E & _) & _ & H3). split_and!; try done; [by exists lost|]. by destruct p. Qed.
Lemma hi_done st out src e set c : half_inv st out src (Copied e) set c ->
  half_inv st out src (Done e) (Some (c + tcpWaitTimeout)) c.
Proof. intros (H1 & H2 & _). by split_and!. Qed.

Lemma new_tcp_ok now c stats : tcp_ok (new_tcp now id c app target stats).
Proof.
  split; cbn; try done.
  - split_and!; [exists []|..]; done.
  - split_and!; [exists []|..]; done.
  - by rewrite Z.sub_diag.
  - set_solver.
Qed.

(** The steps taken so far are bounded by what is left to do. *)
Definition rank (p : pos) : Z := match p with Writing _ => 4 | Reading => 3 | Copied _ => 2 | Done _ => 1 end.
Definition left (s : tcp) : Z :=
  3 * (zlen (fromOrigin s) + zlen (fromRemote s)) + rank (upPos s) + rank (downPos s) + (if finished s then 0 else 1).

Lemma out_prefix d s : half_ok d s -> mjoin (out_of d s) `prefix_of` stream_of d.
Proof. intros ((lost & E & _) & _). rewrite <- E. by eexists. Qed.

(** What the invariant says that is not about one direction. *)
Ltac frame := split_and!; [constructor; unfold half_ok; cbn; try done; try (eapply hi_clock; [|eassumption]; lia)|unfold left; cbn; try lia|cbn; lia].

(** A step keeps the invariant, uses up some of what is left and does not go back in time. *)
Definition advances (s s' : tcp) : Prop := tcp_ok s' /\ left s' < left s /\ clock s <= clock s'.

Ltac opened s s' :=
  intros [Hu Hd Hid Hul Hdl Hf Hj Ho] E; unfold exec in E; destruct (finished s) eqn:Ef; [done|];
  assert (forall tm (k : tcp -> option tcp), (s1 ← at_time tm s; k s1) = Some s' -> clock s <= tm /\ k (set_clock tm s) = Some s') as HT
    by (intros tm k; unfold at_time; by destruct (Z.leb_spec (clock s) tm));
  destruct s as [ck cl up dn fo fr tr tor rd od fi fio inf st fin]; unfold half_ok in Hu, Hd; cbn in *;
  subst fin; destruct inf as [u ut dt]; cbn in *; subst u.

Lemma read_ok d n now s s' : tcp_ok s -> exec (Read d n now) s = Some s' -> advances s s'.
Proof.
  opened s s'.
  apply HT in E as [Hc E]. destruct d; cbn in E.
  + destruct up; try done. destruct (expired _ _ _); [done|]. cbn in E.
    destruct (Z.leb_spec 1 n); [|done]. destruct (n <=? RelayBufferSize); [|done]. destruct (Z.leb_spec n (zlen fo)); [|done].
    injection E as <-. frame.
    * apply hi_read; [done|]. by eapply hi_clock.
    * intros H1. destruct (Hf H1) as [_ [e [=]]].
    * pose proof (zlen_nonneg fo). unfold zlen in *. rewrite length_drop. lia.
  + destruct dn; try done. destruct (expired _ _ _); [done|]. cbn in E.
    destruct (Z.leb_spec 1 n); [|done]. destruct (n <=? RelayBufferSize); [|done]. destruct (Z.leb_spec n (zlen fr)); [|done].
    injection E as <-. frame.
    * apply hi_read; [done|]. by eapply hi_clock.
    * rewrite Hdl, i64_push. f_equal. unfold zlen in *. rewrite length_drop. lia.
    * unfold zlen in *. rewrite length_drop. lia.
Qed.

Lemma read_eof_ok d s s' : tcp_ok s -> exec (ReadEOF d) s = Some s' -> advances s s'.
Proof.
  opened s s'.
  destruct d; cbn in E.
  + destruct up; try done. destruct (closes Up); [|done]. cbn in E. destruct (Z.eqb_spec (zlen fo) 0) as [E0|]; [|done]. injection E as <-.
    destruct fo; [|rewrite zlen_cons in E0; pose proof (zlen_nonneg fo); lia]. frame; [by apply hi_eof|].
    intros H1. destruct (Hf H1) as [_ [e [=]]].
  + destruct dn; try done. destruct (closes Down); [|done]. cbn in E. destruct (Z.eqb_spec (zlen fr) 0) as [E0|]; [|done]. injection E as <-.
    destruct fr; [|rewrite zlen_cons in E0; pose proof (zlen_nonneg fr); lia]. frame; [by apply hi_eof|].
    by rewrite Hdl, i64_push, Z.add_0_r.
Qed.
Lemma read_fail_ok d e s s' : tcp_ok s -> exec (ReadFail d e) s = Some s' -> advances s s'.
Proof.
  opened s s'.
  destruct d; cbn in E.
  + destruct up; try done. injection E as <-. frame; [by eapply hi_fail; [|exact Hu]|].
    intros H1. destruct (Hf H1) as [_ [e' [=]]].
  + destruct dn; try done. injection E as <-. frame; [by eapply hi_fail; [|exact Hd]|]. by rewrite Hdl, i64_push, Z.add_0_r.
Qed.
Lemma read_timeout_ok d now s s' : tcp_ok s -> exec (ReadTimeout d now) s = Some s' -> advances s s'.
Proof.
  opened s s'.
  apply HT in E as [Hc E]. destruct d; cbn in E.
  + destruct up; try done. destruct (expired _ _ _); [|done]. injection E as <-. frame.
    * eapply hi_fail; [|eapply hi_clock; [|exact Hu]]; done.
    * intros H1. destruct (Hf H1) as [_ [e' [=]]].
  + destruct dn; try done. destruct (expired _ _ _); [|done]. injection E as <-. frame.
    * eapply hi_fail; [|eapply hi_clock; [|exact Hd]]; done.
    * by rewrite Hdl, i64_push, Z.add_0_r.
Qed.

Lemma write_ok d s s' : tcp_ok s -> exec (Write d) s = Some s' -> advances s s'.
Proof.
  opened s s'.
  destruct d; cbn in E.
  + destruct up as [|b|e|e]; try done. injection E as <-. frame; [by apply hi_write| |].
    * rewrite Hul, i64_push, join_app, zlen_app. cbn. by rewrite app_nil_r.
    * intros H1. destruct (Hf H1) as [_ [e' [=]]].
  + destruct dn as [|b|e|e]; try done. injection E as <-. frame. by apply hi_write.
Qed.
Lemma write_fail_ok d e s s' : tcp_ok s -> exec (WriteFail d e) s = Some s' -> advances s s'.
Proof.
  opened s s'.
  destruct d; cbn in E.
  + destruct up as [|b|e0|e0]; try done. injection E as <-. frame; [by eapply hi_fail; [|exact Hu]| |].
    * by rewrite Hul, i64_push, Z.add_0_r.
    * intros H1. destruct (Hf H1) as [_ [e' [=]]].
  + destruct dn as [|b|e0|e0]; try done. injection E as <-. frame. by eapply hi_fail; [|exact Hd].
Qed.
Lemma half_close_ok d now s s' : tcp_ok s -> exec (HalfClose d now) s = Some s' -> advances s s'.
Proof.
  opened s s'.
  apply HT in E as [Hc E]. destruct d; cbn in E.
  + destruct up as [|b|e|e]; try done. injection E as <-. frame.
    * eapply hi_done, hi_clock; [|exact Hu]. done.
    * destruct fi; [destruct (Hf eq_refl) as [_ [e' [=]]]|]. cbn. intros ->. eauto.
  + destruct dn as [|b|e|e]; try done. injection E as <-. frame. eapply hi_done, hi_clock; [|exact Hd]. done.
Qed.
Lemma finish_ok  s s' : tcp_ok s -> exec (Finish) s = Some s' -> advances s s'.
Proof.
  opened s s'.
  destruct up as [| | |e]; try done. destruct dn as [| | |e']; try done. injection E as <-. frame.
  + split; [done|]. set_solver.
  + eauto.
Qed.

Lemma tcp_exec_ok a s s' : tcp_ok s -> exec a s = Some s' -> advances s s'.
Proof.
  destruct a; [apply read_ok|apply read_eof_ok|apply read_fail_ok|apply read_timeout_ok|apply write_ok|apply write_fail_ok|apply half_close_ok|apply finish_ok].
Qed.

Lemma run_ok acts : forall s s', tcp_ok s -> run acts s = Some s' -> tcp_ok s' /\ left s' + zlen acts <= left s.
Proof.
  induction acts as [|a acts IH]; intros s s' Hs E; cbn [run] in E.
  { injection E as <-. split; [done|]. rewrite zlen_nil. lia. }
  destruct (exec a s) as [s1|] eqn:E1; [|done]. destruct (tcp_exec_ok a s s1 Hs E1) as (H1 & Hl & _).
  destruct (IH s1 s' H1 E) as [H2 Hl2]. split; [done|]. rewrite zlen_cons. lia.
Qed.

(** A step that no failure of a peer or of the network causes. *)
Definition benign (a : action) : bool :=
  match a with ReadFail _ _ | WriteFail _ _ => false | _ => true end.

Lemma clock_only d t s : pos_of d (set_clock t s) = pos_of d s /\ source d (set_clock t s) = source d s /\
  forall now, expired d now (set_clock t s) = expired d now s.
Proof. by destruct d. Qed.

(** The other direction, and waiting for a silent peer without a deadline. *)
Definition other (d : dir) : dir := match d with Up => Down | Down => Up end.
Definition waiting (d : dir) (s : tcp) : Prop :=
  pos_of d s = Reading /\ source d s = [] /\ closes d = false /\ deadline d s = None.

(** A direction that has not ended has a step, unless it waits for a silent peer. *)
Lemma copy_progress d s : finished s = false -> match pos_of d s with Done _ => False | _ => True end ->
  waiting d s \/ exists a s', benign a = true /\ exec a s = Some s'.
Proof.
  intros Hf Hp. destruct (clock_only d (clock s) s) as (Hcp & Hcs & Hce). destruct (pos_of d s) as [|b|e|e] eqn:Ep; try done.
  - destruct (deadline d s) as [t|] eqn:Et.
    { right. destruct (clock_only d (Z.max t (clock s)) s) as (Hmp & _ & Hme).
      assert (expired d (Z.max t (clock s)) s = true) as Hx by (unfold expired; rewrite Et; apply Z.leb_le; lia).
      eexists (ReadTimeout d (Z.max t (clock s))), _. split; [done|]. unfold TunTcp.exec, at_time.
      rewrite Hf, (proj2 (Z.leb_le (clock s) (Z.max t (clock s)))) by lia. cbn [mbind option_bind]. by rewrite Hmp, Ep, Hme, Hx. }
    assert (expired d (clock s) s = false) as Ex by (unfold expired; by rewrite Et).
    destruct (Z.eq_dec (zlen (source d s)) 0) as [E0|E0].
    + destruct (closes d) eqn:Ec.
      * right. eexists (ReadEOF d), _. split; [done|]. unfold TunTcp.exec. rewrite Hf, Ep, Ec, (proj2 (Z.eqb_eq _ _) E0). done.
      * left. split_and!; try done. by apply nil_length_inv, Nat2Z.inj.
    + right. eexists (Read d 1 (clock s)), _. split; [done|]. pose proof (zlen_nonneg (source d s)).
      assert ((1 <=? zlen (source d s)) = true) as E1 by (apply Z.leb_le; lia). assert ((1 <=? RelayBufferSize) = true) as E2 by done.
      unfold TunTcp.exec, at_time. rewrite Hf, (Z.leb_refl (clock s)). cbn [mbind option_bind].
      rewrite Hcp, Hce, Ex, Hcs, E1, E2. done.
  - right. eexists (Write d), _. split; [done|]. unfold TunTcp.exec. rewrite Hf, Ep. done.
  - right. eexists (HalfClose d (clock s)), _. split; [done|]. unfold TunTcp.exec, at_time. rewrite Hf, (Z.leb_refl (clock s)). cbn [mbind option_bind].
    by rewrite Hcp.
Qed.

(** A direction that has ended has set the deadline the other one reads under. *)
Lemma done_deadline d e s : tcp_ok s -> pos_of d s = Done e -> exists t, deadline (other d) s = Some t /\ t <= clock s + tcpWaitTimeout.
Proof.
  intros Hs Ep. destruct d; [pose proof (ok_up _ Hs) as (_ & _ & H)|pose proof (ok_down _ Hs) as (_ & _ & H)];
    cbn in Ep, H |- *; rewrite Ep in H; [destruct (remoteDeadline s) as [t|]|destruct (originDeadline s) as [t|]]; try done; by exists t.
Qed.

Lemma progress s : tcp_ok s -> finished s = false ->
  (waiting Up s /\ waiting Down s) \/ exists a s', benign a = true /\ exec a s = Some s'.
Proof.
  intros Hs Hf.
  assert (forall d, (exists e, pos_of d s = Done e) \/ waiting d s \/ exists a s', benign a = true /\ exec a s = Some s') as Hd.
  { intros d. destruct (pos_of d s) as [|b|e|e] eqn:E; [..|by left; exists e]; right; apply copy_progress; by rewrite ?E. }
  destruct (Hd Up) as [[e Eu]|[Hu|?]], (Hd Down) as [[e' Ed]|[Hw|?]]; auto.
  - right. eexists Finish, _. split; [done|]. unfold TunTcp.exec. cbn in Eu, Ed. by rewrite Hf, Eu, Ed.
  - destruct (done_deadline Up e s Hs Eu) as (t & Et & _). destruct Hw as (_ & _ & _ & H). cbn in *. congruence.
  - destruct (done_deadline Down e' s Hs Ed) as (t & Et & _). destruct Hu as (_ & _ & _ & H). cbn in *. congruence.
Qed.

(** The deadline a direction left behind is never moved, and nothing is read after it. *)
Lemma deadline_step d t a s s' : (exists e, pos_of d s = Done e) -> deadline (other d) s = Some t -> exec a s = Some s' ->
  (exists e, pos_of d s' = Done e) /\ deadline (other d) s' = Some t /\
  (t <= clock s -> source (other d) s' = source (other d) s) /\ clock s <= clock s'.
Proof.
  intros [e Hu] Ht E. unfold TunTcp.exec in E. destruct (finished s); [done|].
  destruct s as [ck cl up dn fo fr tr tor rd od fi fio inf st fin]. destruct d; cbn in *; subst.
  all: destruct a as [d n now|d|d e0|d now|d|d e0|d now|]; cbn in E.
  1,4,7,9,12,15: unfold at_time in E; cbn in E; destruct (Z.leb_spec ck now); [|done]; cbn in E.
  all: try (destruct d; cbn in E; try done); repeat (case_match; try done); injection E as <-; cbn; split_and!; eauto; try lia.
  all: intros Hle; exfalso; unfold expired in *; cbn in *; lia.
Qed.
Lemma deadline_stays d t acts : forall s s', (exists e, pos_of d s = Done e) -> deadline (other d) s = Some t -> run acts s = Some s' ->
  deadline (other d) s' = Some t /\ (t <= clock s -> source (other d) s' = source (other d) s).
Proof.
  induction acts as [|a acts IH]; intros s s' Hu Ht E; cbn [TunTcp.run] in E; [by injection E as <-|].
  destruct (exec a s) as [s1|] eqn:E1; [|done]. cbn in E. destruct (deadline_step d t a s s1 Hu Ht E1) as (Hu1 & Ht1 & Hr1 & Hc1).
  destruct (IH s1 s' Hu1 Ht1 E) as (H1 & H2). split; [done|]. intros Hle. rewrite H2 by lia. by apply Hr1.
Qed.

(** A write that the peer does not take has no end of its own. *)
Definition write_of (d : dir) (a : action) : bool :=
  match a, d with Write Up, Up | Write Down, Down | WriteFail Up _, Up | WriteFail Down _, Down => true | _, _ => false end.
Lemma blocked_step d b a s s' : pos_of d s = Writing b -> write_of d a = false -> exec a s = Some s' ->
  pos_of d s' = Writing b /\ finished s' = false.
Proof.
  intros Hp Ha E. unfold TunTcp.exec in E. destruct (finished s) eqn:Ef; [done|].
  destruct s as [ck cl up dn fo fr tr tor rd od fi fio inf st fin]. destruct d; cbn in *; subst.
  all: destruct a as [d n now|d|d e0|d now|d|d e0|d now|]; cbn in E.
  1,4,7,9,12,15: unfold at_time in E; cbn in E; destruct (Z.leb_spec ck now); [|done]; cbn in E.
  all: try (destruct d; cbn in E); try done; repeat (case_match; try done); by injection E as <-.
Qed.
Lemma blocked_run d b acts : forall s s', pos_of d s = Writing b -> finished s = false -> Forall (fun a => write_of d a = false) acts ->
  run acts s = Some s' -> pos_of d s' = Writing b /\ finished s' = false.
Proof.
  induction acts as [|a acts IH]; intros s s' Hp Hf Ha E; cbn [TunTcp.run] in E; [by injection E as <-|].
  destruct (exec a s) as [s1|] eqn:E1; [|done]. apply Forall_cons in Ha as [H1 H2].
  destruct (blocked_step d b a s s1) as [? ?]; try done. by eapply IH.
Qed.

Lemma half_close_deadline d now s s' : exec (HalfClose d now) s = Some s' -> deadline (other d) s' = Some (now + 60 * 10 ^ 9).
Proof.
  unfold TunTcp.exec, at_time. intros E. destruct (finished s); [done|]. destruct (clock s <=? now); [|done]. cbn in E.
  destruct d; cbn in E; case_match; try done; by injection E as <-.
Qed.
Lemma left_nonneg s : 0 <= left s.
Proof.
  unfold left. pose proof (zlen_nonneg (fromOrigin s)). pose proof (zlen_nonneg (fromRemote s)).
  assert (forall p, 1 <= rank p) as Hr by (intros []; cbn; lia). pose proof (Hr (upPos s)). pose proof (Hr (downPos s)).
  destruct (finished s); lia.
Qed.

(** CloseWrite exists as it did when the session began. *)
Lemma closable_run acts : forall s s', run acts s = Some s' -> closable s' = closable s.
Proof.
  induction acts as [|a acts IH]; intros s s' E; cbn [TunTcp.run] in E; [by injection E as <-|].
  destruct (exec a s) as [s1|] eqn:E1; [|done]. rewrite (IH s1 s' E). clear -E1. unfold TunTcp.exec, at_time in E1.
  destruct (finished s); [done|]. destruct a as [d n now|d|d e|d now|d|d e|d now|]; cbn in E1;
    try (destruct (clock s <=? now); [|done]; cbn in E1); try destruct d; cbn in E1;
    repeat match type of E1 with
           | (if ?b then _ else _) = _ => destruct b; try done
           | match ?p with Reading => _ | _ => _ end = _ => destruct p; try done
           end; by injection E1 as <-.
Qed.
End spec.

(** C36: a TCP connection of the device goes through the tunnel.  Once BillProxy has
    dialled, what is written to the target is a prefix of what the application sends and the
    other way round, in order and without change, and all of it where the direction ended
    without an error; the connection's counters are exactly the bytes written up and read
    down, and it is listed while it runs and not after.  Whichever direction ends first, up
    or down, it sets the read deadline of the connection it wrote to exactly 60 seconds
    ahead; no later step moves that deadline, and nothing is read from that peer after it,
    even if it still sends.  Every run is finite.  While the session is not finished there
    is a step that needs no failure, unless both directions wait for peers that have nothing
    more to send and never close: so once one direction has ended, a peer that stays silent
    cannot keep the session, but two silent peers can.  So can a peer that never takes what
    is written to it: only the end of that write moves its direction.  The end of the
    application's stream is passed on only to a raw connection: over a connection wrapped
    for a policy, or to the resolver, CloseWrite is never called. *)
Theorem tun_tcp_session {L : LRU} {names : DNSNames} (cfg : config) closes dial w eid id app target stats b c s0 acts s :
  fst (handleTCPConn cfg dial w eid id app target stats b) = Ret (c, s0) -> run closes acts s0 = Some s ->
  (mjoin (toRemote s) `prefix_of` app /\ mjoin (toOrigin s) `prefix_of` target /\
   (upPos s = Done None -> mjoin (toRemote s) = app) /\ (downPos s = Done None -> mjoin (toOrigin s) = target) /\
   UploadTotal (info s) = i64 (zlen (mjoin (toRemote s))) /\
   DownloadTotal (info s) = i64 (zlen target - zlen (fromRemote s)) /\
   (finished s = false <-> id ∈ connections (TunTcp.stats s))) /\
  (forall now s', exec closes (HalfClose Up now) s = Some s' -> remoteDeadline s' = Some (now + 60 * 10 ^ 9)) /\
  (forall now s', exec closes (HalfClose Down now) s = Some s' -> originDeadline s' = Some (now + 60 * 10 ^ 9)) /\
  (forall e, upPos s = Done e -> exists t, remoteDeadline s = Some t /\ t <= clock s + 60 * 10 ^ 9 /\
     forall acts' s', run closes acts' s = Some s' -> remoteDeadline s' = Some t /\ (t <= clock s -> fromRemote s' = fromRemote s)) /\
  (forall e, downPos s = Done e -> exists t, originDeadline s = Some t /\ t <= clock s + 60 * 10 ^ 9 /\
     forall acts' s', run closes acts' s = Some s' -> originDeadline s' = Some t /\ (t <= clock s -> fromOrigin s' = fromOrigin s)) /\
  zlen acts <= 3 * (zlen app + zlen target) + 7 /\
  (finished s = false ->
     (upPos s = Reading /\ downPos s = Reading /\ fromOrigin s = [] /\ fromRemote s = [] /\ closes Up = false /\ closes Down = false) \/
     exists a s', benign a = true /\ exec closes a s = Some s') /\
  (forall d buf, pos_of d s = Writing buf -> forall acts' s', Forall (fun a => write_of d a = false) acts' ->
     run closes acts' s = Some s' -> pos_of d s' = Writing buf /\ finished s' = false) /\
  (finRemote s = true -> exists host, c = Mobile.RawConn host).
Proof.
  intros H0 E. pose (now0 := now w). assert (s0 = new_tcp now0 id c app target stats) as ->.
  { unfold handleTCPConn in H0. destruct (Mobile.DialContext _ _ _ _ b) as [[c'|e|] b']; try discriminate H0. cbn in H0. by simplify_eq. }
  clear H0. destruct (run_ok closes app target id acts _ s (new_tcp_ok app target id now0 c stats) E) as [Hs Hl].
  pose proof (ok_up _ _ _ _ Hs) as Hu. pose proof (ok_down _ _ _ _ Hs) as Hd.
  assert (forall d e, pos_of d s = Done e -> exists t, deadline (other d) s = Some t /\ t <= clock s + 60 * 10 ^ 9 /\
     forall acts' s', run closes acts' s = Some s' -> deadline (other d) s' = Some t /\ (t <= clock s -> source (other d) s' = source (other d) s)) as Hdl.
  { intros d e Ep. destruct (done_deadline _ _ _ d e s Hs Ep) as (t & Et & Ht). exists t. split; [done|]. split; [done|].
    intros acts' s' E'. eapply deadline_stays; eauto. }
  split_and!.
  - apply (out_prefix _ _ Up s Hu).
  - apply (out_prefix _ _ Down s Hd).
  - intros Ep. destruct Hu as (_ & H2 & _). cbn in H2. by rewrite Ep in H2.
  - intros Ep. destruct Hd as (_ & H2 & _). cbn in H2. by rewrite Ep in H2.
  - apply Hs.
  - apply Hs.
  - apply Hs.
  - intros now s'. apply (half_close_deadline closes Up).
  - intros now s'. apply (half_close_deadline closes Down).
  - apply (Hdl Up).
  - apply (Hdl Down).
  - pose proof (left_nonneg s). unfold left at 2 in Hl. cbn in Hl. lia.
  - intros Hf. destruct (progress closes _ _ _ s Hs Hf) as [((? & ? & ? & _) & (? & ? & ? & _))|?]; [left|by right]. by split_and!.
  - intros d buf Hp acts' s' Ha E'. eapply blocked_run; try done.
    destruct (finished s) eqn:Ef; [|done]. destruct (ok_over _ _ _ _ Hs Ef) as (e & e' & H1 & H2). destruct d; cbn in Hp; congruence.
  - intros Hfin. destruct (ok_fin _ _ _ _ Hs Hfin) as [Hcl _]. rewrite (closable_run closes acts _ s E) in Hcl. cbn in Hcl.
    destruct c; try done. by eexists.
Qed.

(** The application has sent its request and closed; the target never closes, and of its
    answer the last byte comes a second after the deadline. *)
Definition w_acts : list action :=
  [Read Up 2 0; Write Up; ReadEOF Up; HalfClose Up 0; Read Down 3 (59 * 10 ^ 9); Write Down;
   ReadTimeout Down (61 * 10 ^ 9); HalfClose Down (61 * 10 ^ 9); Finish].
(** The target has closed first, and the application never does. *)
Definition w_acts' : list action :=
  [Read Down 4 0; Write Down; ReadEOF Down; HalfClose Down 5; Read Up 1 (59 * 10 ^ 9); Write Up].
Definition w_closes (d : dir) (d' : dir) : bool := match d, d' with Up, Up | Down, Down => true | _, _ => false end.
Definition w_handled : go (Mobile.dialed * tcp) :=
  fst (handleTCPConn (L := map_lru) (names := Dns.w_names) Dns.w_cfg (fun _ _ => Ret tt) (Dns.w_world 0)
    (mkID [10; 0; 0; 1] 1000 [203; 0; 113; 11] 443) "id" [1; 2] [3; 4; 5; 6] newManager (Mobile.mkBill Dns.w_core 0 0)).
Lemma w_start : exists c s0 s s', w_handled = Ret (c, s0) /\ run (w_closes Up) w_acts s0 = Some s /\ run (w_closes Down) w_acts' s0 = Some s' /\
  toRemote s = [[1; 2]] /\ toOrigin s = [[3; 4; 5]] /\ fromRemote s = [6] /\ finRemote s = false /\ downPos s' = Done None.
Proof.
  eexists _, _, _, _. split; [vm_compute; reflexivity|]. split; [vm_compute; reflexivity|]. split; [vm_compute; reflexivity|]. by split_and!.
Qed.

Lemma tun_tcp_session_witness :
  exists s0 c s s', w_handled = Ret (c, s0) /\ run (w_closes Up) w_acts s0 = Some s /\ run (w_closes Down) w_acts' s0 = Some s' /\
    toOrigin s = [[3; 4; 5]] /\ fromRemote s = [6] /\ finRemote s = false /\
    mjoin (toRemote s) `prefix_of` [1; 2] /\ zlen w_acts <= 3 * (2 + 4) + 7 /\ is_Some (originDeadline s').
Proof.
  destruct w_start as (c & s0 & s & s' & E0 & E & E' & H1 & H2 & H3 & H4 & H5). exists s0, c, s, s'.
  pose proof (fun closes => tun_tcp_session (L := map_lru) (names := Dns.w_names) Dns.w_cfg closes (fun _ _ => Ret tt) (Dns.w_world 0)
    (mkID [10; 0; 0; 1] 1000 [203; 0; 113; 11] 443) "id" [1; 2] [3; 4; 5; 6] newManager (Mobile.mkBill Dns.w_core 0 0) c s0) as T.
  destruct (T (w_closes Up) w_acts s E0 E) as ((Hp & _) & _ & _ & _ & _ & Hb & _).
  destruct (T (w_closes Down) w_acts' s' E0 E') as (_ & _ & _ & _ & Ht & _). destruct (Ht None H5) as (t & Et & _).
  split_and!; try done.
Defined.

End TunTcp.
