(* ===== verification/RelayProxy.v ===== *)
(** * The relay proxy (src/tun2socks/proxy/relay.go)

    A connection to a gost relay server: a request, answered by a response, then the bytes
    of a TCP connection or length-prefixed datagrams.  Without noDelay the request waits
    for the first write and goes out with it, and the response is read before the first
    read.  The encoding of requests and responses is that of the go-gost/relay package,
    which is not part of the repository: a parameter. *)

From S2P Require Import Prelude GoStrings GoState Conn GoIO NetIP GoNet TunTunnel.

Module RelayProxy.
Import TunTunnel.

(** ** The relay package *)

Inductive Feature :=
| NetworkFeature (network : Z)
| UserAuthFeature (Username Password : string)
| AddrFeature (AType : Z) (Host : string) (Port : Z).
Record Request := mkReq { Version : Z; Cmd : Z; Features : list Feature }.

Class Relay := {
  Version1 : Z; CmdConnect : Z; FUDP : Z; NetworkUDP : Z; AddrIPv4 : Z; AddrIPv6 : Z; StatusOK : Z;
  (* the bytes of Request.WriteTo *)
  request_bytes : Request -> go bytes;
  (* Response.ReadFrom: version and status *)
  read_response : list bytes -> go (Z * Z) * list bytes
}.

(** A response on the wire is read exactly, however it arrives. *)
Definition reads_as `{Relay} (b : bytes) (v st : Z) : Prop :=
  forall segs rest, segs_ok segs -> mjoin segs = b ++ rest ->
  exists segs', read_response segs = (Ret (v, st), segs') /\ segs_ok segs' /\ mjoin segs' = rest.

Section relay.
Context `{Relay} {env : Env}.

(** ** Connections *)

(** relayConn: what will arrive and what was sent, the once and the buffer ([None] is nil). *)
Record relayConn := mkRC { rin : list bytes; rtrace : list event; udp : bool; once : bool; wbuf : option bytes }.

Definition newRelayConn (segs : list bytes) (tr : list event) (noDelay udp : bool) : relayConn :=
  mkRC segs tr udp false (if noDelay then None else Some []).

Definition set_in (segs : list bytes) (c : relayConn) : relayConn := mkRC segs (rtrace c) (udp c) (once c) (wbuf c).
Definition set_once (c : relayConn) : relayConn := mkRC (rin c) (rtrace c) (udp c) true (wbuf c).
Definition set_wbuf (b : option bytes) (c : relayConn) : relayConn := mkRC (rin c) (rtrace c) (udp c) (once c) b.
Definition set_trace (tr : list event) (c : relayConn) : relayConn := mkRC (rin c) tr (udp c) (once c) (wbuf c).

(** [relay.ErrBadVersion]. *)
Definition ErrBadVersion : string := "bad version".

Definition readRelayResponse : St (list bytes) unit := fun segs =>
  match read_response segs with
  | (Ret (v, st), segs) =>
    (if negb (v =? Version1) then Err ErrBadVersion
     else if negb (st =? StatusOK) then Err ("status " +:+ Itoa st)
     else Ret tt, segs)
  | (Err e, segs) => (Err e, segs)
  | (Panic, segs) => (Panic, segs)
  end.

(** [rc.once.Do(...)] of Read. *)
Definition first_response : St relayConn unit := fun c =>
  if once c then (Ret tt, c)
  else
    let c := set_once c in
    match wbuf c with
    | Some _ => let (r, segs) := readRelayResponse (rin c) in (r, set_in segs c)
    | None => (Ret tt, c)
    end.

(** [io.ReadFull(rc.Conn, b)] with [n = len(b)]. *)
Definition read_full (n : Z) : St relayConn bytes := fun c =>
  let (r, segs) := seg_ReadFull n (rin c) in (r, set_in segs c).

(** relayConn.Read, and ReadFrom, into a buffer of length [k]. *)
Definition Read (k : Z) : St relayConn bytes :=
  first_response ~;
  fun c =>
    if negb (udp c) then let (r, segs) := seg_read k (rin c) in (r, set_in segs c)
    else
      (bb <~ read_full 2 ;
       dLen <~ stlift (be16_at bb 0) ;
       if dLen <=? k then read_full dLen
       else buf <~ read_full dLen ; stret (take (Z.to_nat k) buf)) c.

(** [rc.Conn.Write(b)]. *)
Definition send (b : bytes) : St relayConn (option string) := fun c =>
  let (r, tr) := write (fun e => e) b (rtrace c) in
  (Ret (match r with Err e => Some e | _ => None end), set_trace tr c).

(** [rc.wbuf != nil && rc.wbuf.Len() > 0]: the bytes that wait. *)
Definition waiting (c : relayConn) : option bytes :=
  match wbuf c with Some (x :: b) => Some (x :: b) | _ => None end.

Definition tcpWrite (b : bytes) : St relayConn (Z * option string) := fun c =>
  match waiting c with
  | Some w => (err <~ send (w ++ b) ; fun c => (Ret (zlen b, err), set_wbuf (Some []) c)) c
  | None => (err <~ send b ; stret (match err with None => zlen b | Some _ => 0 end, err)) c
  end.

(** What is buffered stays there when it could not be sent. *)
Definition udpWrite (b : bytes) : St relayConn (Z * option string) := fun c =>
  if 65535 <? zlen b then (Ret (0, Some "write: data maximum exceeded"%string), c)
  else
    match waiting c with
    | Some w =>
      let w := w ++ put16 (zlen b) ++ b in
      (err <~ send w ; fun c => (Ret (zlen b, err), set_wbuf (Some (match err with None => [] | Some _ => w end)) c)) c
    | None =>
      (err <~ send (put16 (zlen b)) ;
       match err with
       | Some e => stret (zlen b, Some e)
       | None => err <~ send b ; stret (match err with None => zlen b | Some _ => 0 end, err)
       end) c
    end.

(** relayConn.Write and WriteTo. *)
Definition Write (b : bytes) : St relayConn (Z * option string) := fun c =>
  if udp c then udpWrite b c else tcpWrite b c.

(** ** Dialling *)

Definition serializeRelayAddr (m : Metadata) : Feature :=
  match DstIP m with
  | Some (Addr4 v) => AddrFeature AddrIPv4 (AddrString (Addr4 v)) (DstPort m)
  | Some a => AddrFeature AddrIPv6 (AddrString a) (DstPort m)
  | None => AddrFeature AddrIPv6 "invalid IP" (DstPort m)
  end.

Definition is_udp (n : Network) : bool := match n with UDP => true | _ => false end.

Definition make_request (user pass : string) (m : Metadata) : Request :=
  mkReq Version1 (if is_udp (network m) then Z.lor CmdConnect FUDP else CmdConnect)
    ((if is_udp (network m) then [NetworkFeature NetworkUDP] else []) ++
     (if decide (user = "")%string then [] else [UserAuthFeature user pass]) ++
     [serializeRelayAddr m]).

(** Relay.dialContext, given how dialling the server ends: the connection, and what the
    TCP connection to the server got. *)
Definition dialContext (addr user pass : string) (noDelay : bool) (dialed : option string) (segs : list bytes) (m : Metadata) :
    go relayConn * list event :=
  match dialed with
  | Some e => (Err ("connect to " +:+ addr +:+ ": " +:+ e), [])
  | None =>
    let fails e tr := (Err e, tr ++ [EvClose]) in
    let connected segs tr :=
      match network m with
      | OtherNetwork _ => fails ("network " +:+ NetworkString (network m) +:+ " is unsupported") tr
      | n =>
        let c := newRelayConn segs tr noDelay (is_udp n) in
        if noDelay then (Ret c, tr)
        else
          match request_bytes (make_request user pass m) with
          | Ret b => (Ret (set_wbuf (Some b) c), tr)
          | Err e => fails e tr
          | Panic => (Panic, tr)
          end
      end in
    if noDelay then
      match request_bytes (make_request user pass m) with
      | Ret b =>
        match write (fun e => e) b [] with
        | (Ret _, tr) =>
          match readRelayResponse segs with
          | (Ret _, segs) => connected segs tr
          | (Err e, _) => fails e tr
          | (Panic, _) => (Panic, tr)
          end
        | (Err e, tr) => fails e tr
        | (Panic, tr) => (Panic, tr)
        end
      | Err e => fails e []
      | Panic => (Panic, [])
      end
    else connected segs []
  end.
End relay.

(** ** What is sent *)

Section spec.
Context `{Relay}.

(** A datagram on the wire. *)
Definition frame (d : bytes) : bytes := put16 (zlen d) ++ d.
Definition enc (u : bool) (b : bytes) : bytes := if u then frame b else b.
Definition fits (u : bool) (b : bytes) : Prop := u = true -> zlen b <= 65535.

Lemma Write_reliable b c : existsb is_oob (rtrace c) = false -> fits (udp c) b -> exists c',
  Write (env := reliable) b c = (Ret (zlen b, None), c') /\ udp c' = udp c /\ existsb is_oob (rtrace c') = false /\
  default [] (wbuf c') = [] /\ delivered (rtrace c') = delivered (rtrace c) ++ default [] (wbuf c) ++ enc (udp c) b.
Proof.
  intros Ho Hf. unfold Write, enc. assert (default [] (wbuf c) = match waiting c with Some w => w | None => [] end) as Hw.
  { unfold waiting. by destruct (wbuf c) as [[|]|]. }
  assert (waiting c = None -> default [] (wbuf c) = []) as Hw0 by (intros E; by rewrite Hw, E).
  destruct (udp c) eqn:Eu.
  - specialize (Hf eq_refl). unfold udpWrite. rewrite (proj2 (Z.ltb_ge _ _)) by lia. rewrite Hw. destruct (waiting c) as [w|]; cbn.
    + eexists. split; [done|]. cbn. rewrite existsb_app, Ho, delivered_no_oob by done. cbn. rewrite app_nil_r. done.
    + eexists. split; [done|]. cbn. rewrite !existsb_app, Ho, !delivered_no_oob by done. cbn. rewrite !app_nil_r, <- app_assoc.
      split_and!; try done; by apply Hw0.
  - unfold tcpWrite. rewrite Hw. destruct (waiting c) as [w|]; cbn.
    + eexists. split; [done|]. cbn. rewrite existsb_app, Ho, delivered_no_oob by done. cbn. by rewrite app_nil_r.
    + eexists. split; [done|]. cbn. rewrite existsb_app, Ho, delivered_no_oob by done. cbn. rewrite app_nil_r.
      split_and!; try done; by apply Hw0.
Qed.

Fixpoint writes (bs : list bytes) : St relayConn (list (Z * option string)) :=
  match bs with
  | [] => stret []
  | b :: bs => r <~ Write (env := reliable) b ; rs <~ writes bs ; stret (r :: rs)
  end.

Lemma relay_writes b bs : forall c, existsb is_oob (rtrace c) = false -> Forall (fits (udp c)) (b :: bs) -> exists c',
  writes (b :: bs) c = (Ret ((fun b => (zlen b, None)) <$> b :: bs), c') /\
  delivered (rtrace c') = delivered (rtrace c) ++ default [] (wbuf c) ++ mjoin (enc (udp c) <$> b :: bs).
Proof.
  revert b. induction bs as [|b' bs IH]; intros b c Ho Hf; apply Forall_cons in Hf as [Hb Hbs].
  all: destruct (Write_reliable b c Ho Hb) as (c1 & E & Hu & Ho1 & Hw1 & Hd).
  - exists c1. cbn [writes]. unfold stbind. rewrite E. split; [done|]. rewrite Hd. cbn. by rewrite app_nil_r.
  - rewrite <- Hu in Hbs. destruct (IH b' c1 Ho1 Hbs) as (c2 & E2 & Hd2). exists c2. split.
    + cbn [writes] in E2 |- *. unfold stbind at 1. rewrite E. unfold stbind at 1. by rewrite E2.
    + rewrite Hd2, Hd, Hw1, Hu. rewrite !fmap_cons, !mjoin_cons, <- !app_assoc. done.
Qed.

(** ** What is read *)

(** The connection will still get [rest], after the response where it has to read one. *)
Definition holds (resp rest : bytes) (c : relayConn) : Prop :=
  segs_ok (rin c) /\
  mjoin (rin c) = (if once c then [] else match wbuf c with Some _ => resp | None => [] end) ++ rest.

Section reading.
Context (resp : bytes) (Hr : reads_as resp Version1 StatusOK).

Lemma first_response_holds rest c : holds resp rest c -> exists c',
  first_response c = (Ret tt, c') /\ once c' = true /\ udp c' = udp c /\ segs_ok (rin c') /\ mjoin (rin c') = rest.
Proof.
  intros [Hs Hj]. unfold first_response. destruct (once c) eqn:Eo; [by exists c|]. cbn [set_once wbuf rin].
  destruct (wbuf c) as [w|]; [|by eexists].
  destruct (Hr (rin c) rest Hs Hj) as (segs' & E & Hs' & Hj'). unfold readRelayResponse. rewrite E, !Z.eqb_refl. cbn. by eexists.
Qed.

#[local] Instance relay_delivers : Delivers Read (fun left c => udp c = false /\ holds resp left c) "EOF".
Proof.
  split.
  - intros left k c Hk [Hu Hh] Hne. destruct (first_response_holds left c Hh) as (c1 & E & Ho & Hu1 & Hs & Hj).
    subst left. destruct (seg_read_spec k (rin c1) Hk Hs Hne) as (b & segs' & E1 & Hb & _ & Ej & Hs').
    exists b, (mjoin segs'), (set_in segs' c1). unfold Read, stbind. rewrite E, Hu1, Hu, E1. split; [done|]. split; [done|].
    split; [done|]. split; [by cbn; rewrite Hu1, Hu|]. split; [done|]. cbn. by rewrite Ho.
  - intros k c Hk [Hu Hh]. destruct (first_response_holds [] c Hh) as (c1 & E & Ho & Hu1 & Hs & Hj).
    unfold Read, stbind. rewrite E, Hu1, Hu. destruct Hs as [|x ss Hx _]; [done|]. destruct x; [done|discriminate].
Qed.

(** One datagram: its length, its bytes, and as many of them as the buffer takes. *)
Lemma read_datagram d rest k c : 0 <= k -> zlen d <= 65535 -> udp c = true -> holds resp (frame d ++ rest) c -> exists c',
  Read k c = (Ret (take (Z.to_nat k) d), c') /\ udp c' = true /\ holds resp rest c'.
Proof.
  intros Hk Hd Hu Hh. destruct (first_response_holds _ c Hh) as (c1 & E & Ho & Hu1 & Hs & Hj). unfold frame in Hj. rewrite <- app_assoc in Hj.
  destruct (seg_ReadFull_app 2 (rin c1) _ _ Hs Hj ltac:(done)) as (segs2 & E2 & Hs2 & Hj2).
  destruct (seg_ReadFull_app (zlen d) segs2 _ _ Hs2 Hj2 ltac:(done)) as (segs3 & E3 & Hs3 & Hj3).
  exists (set_in segs3 (set_in segs2 c1)). pose proof (zlen_nonneg d).
  split; [|split; [by cbn; rewrite Hu1|split; [done|by cbn; rewrite Ho]]].
  unfold Read, stbind at 1. rewrite E, Hu1, Hu. cbn [negb]. unfold stbind at 1. unfold read_full at 1. rewrite E2.
  unfold stbind at 1, stlift. rewrite (be16_at_app _ [] [] (zlen d)) by done. rewrite u16_small by lia.
  destruct (Z.leb_spec (zlen d) k) as [Hl|Hl].
  - unfold read_full. cbn [rin set_in]. rewrite E3. rewrite take_ge; [done|]. unfold zlen in Hl. lia.
  - unfold stbind, read_full. cbn [rin set_in]. by rewrite E3.
Qed.

Lemma read_datagrams ks : forall ds rest c, Forall (fun k => 0 <= k) ks -> Forall (fun d => zlen d <= 65535) ds -> (length ks <= length ds)%nat ->
  udp c = true -> holds resp (mjoin (frame <$> ds) ++ rest) c ->
  reads Read ks c = (zip_with (fun k d => take (Z.to_nat k) d) ks ds, More).
Proof.
  induction ks as [|k ks IH]; intros ds rest c Hks Hds Hl Hu Hh; [done|]. destruct ds as [|d ds]; [simpl in Hl; lia|].
  apply Forall_cons in Hks as [Hk Hks]. apply Forall_cons in Hds as [Hd Hds]. rewrite fmap_cons, mjoin_cons, <- app_assoc in Hh.
  destruct (read_datagram d _ k c Hk Hd Hu Hh) as (c' & E & Hu' & Hh'). cbn [reads]. rewrite E.
  by rewrite (IH ds rest c' Hks Hds ltac:(simpl in Hl; lia) Hu' Hh').
Qed.

(** The end of the stream. *)
Lemma read_over k c : udp c = true -> holds resp [] c -> fst (Read k c) = Err "EOF".
Proof.
  intros Hu Hh. destruct (first_response_holds _ c Hh) as (c1 & E & Ho & Hu1 & Hs & Hj).
  unfold Read, stbind at 1. rewrite E, Hu1, Hu. cbn [negb]. unfold stbind at 1. unfold read_full at 1. by rewrite seg_ReadFull_eof.
Qed.
End reading.

(** A connection just dialled. *)
Lemma dial_ready addr user pass noDelay m rb resp segs rest :
  request_bytes (make_request user pass m) = Ret rb -> reads_as resp Version1 StatusOK ->
  segs_ok segs -> mjoin segs = resp ++ rest -> (network m = TCP \/ network m = UDP) ->
  exists c, dialContext (env := reliable) addr user pass noDelay None segs m = (Ret c, rtrace c) /\
    rtrace c = (if noDelay then [EvWrite rb] else []) /\ wbuf c = (if noDelay then None else Some rb) /\
    udp c = is_udp (network m) /\ holds resp rest c.
Proof.
  intros Erb Hr Hs Hj Hn. unfold dialContext, holds. rewrite Erb. destruct noDelay.
  - cbn [write perform env_fail reliable app]. destruct (Hr segs rest Hs Hj) as (segs' & E & Hs' & Hj').
    unfold readRelayResponse. rewrite E, !Z.eqb_refl. cbn [negb].
    exists (newRelayConn segs' [EvWrite rb] true (is_udp (network m))). by destruct Hn as [-> | ->].
  - exists (mkRC segs [] (is_udp (network m)) false (Some rb)). by destruct Hn as [-> | ->].
Qed.

(** The relay proxy carries streams and datagrams.  For every destination over TCP or
    UDP, with or without noDelay, dialling succeeds when the server accepts, with exactly
    the request on the wire under noDelay and nothing at all without it; after the first
    write the wire holds the request, once, and then the bytes written, datagrams with
    their lengths in front, and each write reports its length.  A datagram of more than
    65535 bytes is refused and nothing is sent.  However the answer is segmented, reads of
    a TCP connection return a prefix of the bytes behind the response and enough of them
    return all and then EOF; each read of a UDP connection returns one datagram, cut to
    the buffer, without losing the place of the next.  A server that refuses makes the
    dial fail under noDelay and close the connection; without noDelay the first read
    reports it, and the next read goes on behind the response as if it had accepted. *)
Theorem relay_proxy addr user pass noDelay m rb resp segs rest :
  request_bytes (make_request user pass m) = Ret rb -> reads_as resp Version1 StatusOK ->
  segs_ok segs -> mjoin segs = resp ++ rest -> (network m = TCP \/ network m = UDP) ->
  (exists c, dialContext (env := reliable) addr user pass noDelay None segs m = (Ret c, rtrace c) /\
     delivered (rtrace c) = (if noDelay then rb else []) /\
     (forall b bs, Forall (fits (is_udp (network m))) (b :: bs) -> exists c',
        writes (b :: bs) c = (Ret ((fun b => (zlen b, None)) <$> b :: bs), c') /\
        delivered (rtrace c') = rb ++ mjoin (enc (is_udp (network m)) <$> b :: bs)) /\
     (network m = UDP -> forall b, 65535 < zlen b ->
        Write (env := reliable) b c = (Ret (0, Some "write: data maximum exceeded"%string), c)) /\
     (network m = TCP -> forall ks, Forall (fun k => 1 <= k) ks ->
        let (outs, e) := reads Read ks c in
        mjoin outs `prefix_of` rest /\ (zlen rest < zlen ks -> mjoin outs = rest /\ e = Failed "EOF")) /\
     (network m = UDP -> forall ds ks, rest = mjoin (frame <$> ds) -> Forall (fun d => zlen d <= 65535) ds ->
        Forall (fun k => 0 <= k) ks -> (length ks <= length ds)%nat ->
        reads Read ks c = (zip_with (fun k d => take (Z.to_nat k) d) ks ds, More))) /\
  (forall resp' st segs' rest' k, reads_as resp' Version1 st -> st <> StatusOK -> segs_ok segs' -> mjoin segs' = resp' ++ rest' ->
     if noDelay then exists tr, dialContext (env := reliable) addr user pass noDelay None segs' m = (Err ("status " +:+ Itoa st), tr ++ [EvClose])
     else exists c c1 left, dialContext (env := reliable) addr user pass noDelay None segs' m = (Ret c, []) /\
       Read k c = (Err ("status " +:+ Itoa st), c1) /\ mjoin left = rest' /\
       (network m = TCP -> fst (Read k c1) = fst (seg_read k left))).
Proof.
  intros Erb Hr Hs Hj Hn. split.
  - destruct (dial_ready addr user pass noDelay m rb resp segs rest Erb Hr Hs Hj Hn) as (c & E & Et & Ew & Hu & Hh).
    exists c. split; [done|]. split; [rewrite Et; destruct noDelay; cbn; by rewrite ?app_nil_r|]. split; [|split; [|split]].
    + intros b bs Hf. rewrite <- Hu in Hf |- *. destruct (relay_writes b bs c) as (c' & EW & Hd); [by rewrite Et; destruct noDelay|done|].
      exists c'. split; [done|]. rewrite Hd, Et, Ew. destruct noDelay; cbn; by rewrite ?app_nil_r.
    + intros EU b Hb. unfold Write, udpWrite. rewrite Hu, EU. cbn [is_udp]. by rewrite (proj2 (Z.ltb_lt _ _)).
    + intros ET ks Hks. assert (HD := relay_delivers resp Hr).
      destruct (reads_deliver Read _ "EOF" ks Hks rest c) as [H1 H2]; [by rewrite Hu, ET|]. by destruct (reads Read ks c).
    + intros EU ds ks Er Hds Hks Hl. apply (read_datagrams resp Hr ks ds [] c); try done; [by rewrite Hu, EU|]. by rewrite app_nil_r, <- Er.
  - intros resp' st segs' rest' k Hr' Hst Hs' Hj'. destruct (Hr' segs' rest' Hs' Hj') as (left & E & Hsl & Hjl). unfold dialContext. rewrite Erb.
    destruct noDelay.
    + cbn [write perform env_fail reliable app]. unfold readRelayResponse. rewrite E, Z.eqb_refl, (proj2 (Z.eqb_neq _ _) Hst). by exists [EvWrite rb].
    + assert (exists u, (match network m with OtherNetwork _ => false | _ => true end = true) /\ u = is_udp (network m)) as (u & Hu1 & Hu2)
        by (destruct Hn as [-> | ->]; by eexists).
      exists (mkRC segs' [] u false (Some rb)), (mkRC left [] u true (Some rb)), left. split; [|split; [|split; [done|]]].
      * subst u. destruct Hn as [-> | ->]; done.
      * unfold Read, stbind, first_response, readRelayResponse. cbn [once set_once wbuf rin]. rewrite E, Z.eqb_refl, (proj2 (Z.eqb_neq _ _) Hst). done.
      * intros ET. subst u. rewrite ET. unfold Read, stbind, first_response. cbn. by destruct (seg_read k left).
Qed.
End spec.

(** ** Witnesses *)

(** A codec of one-byte requests and two-byte responses. *)
#[local] Instance toy_relay : Relay := {|
  Version1 := 1; CmdConnect := 1; FUDP := 128; NetworkUDP := 1; AddrIPv4 := 1; AddrIPv6 := 4; StatusOK := 0;
  request_bytes r := Ret [Version r; Cmd r];
  read_response segs :=
    match seg_ReadFull 2 segs with
    | (Ret [v; st], segs) => (Ret (v, st), segs)
    | (Err e, segs) => (Err e, segs)
    | (_, segs) => (Err "bad response", segs)
    end
|}.
Lemma toy_reads v st : reads_as [v; st] v st.
Proof. intros segs rest Hs Hj. destruct (seg_ReadFull_app 2 segs [v; st] rest Hs Hj eq_refl) as (segs' & E & H1 & H2). exists segs'. cbn. by rewrite E. Qed.

(** Two datagrams, the first cut to the buffer. *)
Lemma relay_proxy_witness :
  let m := mkMetadata UDP None None (Some (Addr4 0x01020304)) 0 0 53 in
  exists c c', dialContext (env := reliable) "r:1" "" "" false None [[1]; [0; 0; 3; 7; 8]; [9; 0; 1; 5]] m = (Ret c, rtrace c) /\
    writes [[4; 4]; [6]] c = (Ret [(2, None); (1, None)], c') /\ delivered (rtrace c') = [1; 129; 0; 2; 4; 4; 0; 1; 6] /\
    reads Read [2; 9] c = ([[7; 8]; [5]], More).
Proof.
  intros m. destruct (relay_proxy "r:1" "" "" false m [1; 129] [1; 0] [[1]; [0; 0; 3; 7; 8]; [9; 0; 1; 5]] [0; 3; 7; 8; 9; 0; 1; 5])
    as ((c & E & _ & HW & _ & _ & HR) & _).
  - reflexivity.
  - apply toy_reads.
  - repeat constructor; discriminate.
  - reflexivity.
  - by right.
  - destruct (HW [4; 4] [[6]]) as (c' & EW & Hd); [repeat constructor; intros _; vm_compute; discriminate|].
    exists c, c'. split; [exact E|]. split; [exact EW|]. split; [exact Hd|].
    apply (HR eq_refl [[7; 8; 9]; [5]] [2; 9]); [reflexivity|repeat constructor; vm_compute; discriminate|repeat constructor; discriminate|simpl; lia].
Defined.

End RelayProxy.
