(* ===== verification/Netstack.v ===== *)
(** * The network stack and its link (src/tun2socks/core, tunnel/tunnel.go)

    CreateStack configures gVisor's stack by a list of options, each of which may fail, and
    binds it to the device; the forwarders hand new connections to the tunnel over two
    unbuffered channels, which one goroutine empties; the endpoint of core/device/iobased
    moves packets between the device and the stack.  gVisor itself is a state with the
    settings the code makes: the checks of its TCP options are those of its source
    (src/vendor/gvisor.dev), the other calls fail as an environment decides. *)

From S2P Require Import Prelude GoStrings GoState NetIP GoNet.

Module Netstack.

(** ** The stack *)

(** option.go, from gVisor's tcp package. *)
Definition tcpMinBufferSize : Z := Z.shiftl 4 10.
Definition tcpMaxBufferSize : Z := Z.shiftl 4 20.
Definition tcpDefaultSendBufferSize : Z := Z.shiftl 1 20.
Definition tcpDefaultReceiveBufferSize : Z := Z.shiftl 1 20.
Definition defaultTimeToLive : Z := 64.
Definition icmpBurst : Z := 50.
Definition icmpLimit : Z := 1000.

Record buffer_range := mkRange { Min : Z; Default : Z; Max : Z }.

(** What the program asks the stack to do; [v6] chooses the network protocol. *)
Inductive request :=
| DefaultTTLOption (v6 : bool) (ttl : Z)
| Forwarding (v6 v : bool)
| SetICMPBurst (n : Z)
| SetICMPLimit (n : Z)
| SendBufferSize (r : buffer_range)
| ReceiveBufferSize (r : buffer_range)
| CongestionControl (cc : string)
| TCPDelay (v : bool)
| ModerateReceiveBuffer (v : bool)
| SACKEnabled (v : bool)
| TCPRecovery (v : Z)
| TCPHandler | UDPHandler
| CreateNIC
| PromiscuousMode (v : bool)
| Spoofing (v : bool)
| RouteTable (prefixes : list (Addr * Z))
| AddProtocolAddress (a : Addr) (bits : Z)
| JoinGroup (v6 : bool) (a : Addr).

(** The stack is what was done to it, in order. *)
Definition stack : Type := list request.

(** Whether gVisor refuses a request. *)
Class StackEnv := refuses : stack -> request -> option string.

(** tcp's protocol.SetOption on the options with a check. *)
Definition valid_range (r : buffer_range) : bool := (0 <? Min r) && (Min r <=? Default r) && (Default r <=? Max r).
Definition availableCongestionControl : list string := ["reno"; "cubic"]%string.
Definition checks (q : request) : option string :=
  match q with
  | SendBufferSize r | ReceiveBufferSize r => if valid_range r then None else Some "invalid option value specified"%string
  | CongestionControl cc => if bool_decide (cc ∈ availableCongestionControl) then None else Some "no such file"%string
  | DefaultTTLOption _ _ | SetICMPBurst _ | SetICMPLimit _ | TCPDelay _ | ModerateReceiveBuffer _ | SACKEnabled _
  | TCPRecovery _ | TCPHandler | UDPHandler | RouteTable _ => None
  | _ => None
  end.
(** The requests that can fail for other reasons. *)
Definition external (q : request) : bool :=
  match q with
  | Forwarding _ _ | CreateNIC | PromiscuousMode _ | Spoofing _ | AddProtocolAddress _ _ | JoinGroup _ _ => true
  | _ => false
  end.

Section stack.
Context {env : StackEnv}.

Definition ask (q : request) (s : stack) : option string * stack :=
  match (match checks q with Some e => Some e | None => if external q then refuses s q else None end) with
  | Some e => (Some e, s)
  | None => (None, s ++ [q])
  end.

(** option.Option: an error or nil. *)
Definition Option : Type := stack -> option string * stack.

(** [if err := s.X(..); err != nil { return fmt.Errorf("what: %s", err) }; return nil] *)
Definition ask_or (what : string) (q : request) : Option := fun s =>
  let (e, s) := ask q s in (e ← e; Some (what +:+ ": " +:+ e)%string, s).
Definition andThen (f g : Option) : Option := fun s =>
  match f s with
  | (Some e, s) => (Some e, s)
  | (None, s) => g s
  end.
(** [for _, opt := range opts { if err := opt(s); err != nil { return err } }] *)
Fixpoint apply_all (opts : list Option) : Option := fun s =>
  match opts with
  | [] => (None, s)
  | o :: opts => andThen o (apply_all opts) s
  end.

Definition WithDefaultTTL (ttl : Z) : Option :=
  andThen (ask_or "set ipv4 default TTL" (DefaultTTLOption false ttl)) (ask_or "set ipv6 default TTL" (DefaultTTLOption true ttl)).
Definition WithForwarding (v : bool) : Option :=
  andThen (ask_or "set ipv4 forwarding" (Forwarding false v)) (ask_or "set ipv6 forwarding" (Forwarding true v)).
Definition WithICMPBurst (burst : Z) : Option := fun s => (None, snd (ask (SetICMPBurst burst) s)).
Definition WithICMPLimit (limit : Z) : Option := fun s => (None, snd (ask (SetICMPLimit limit) s)).
Definition WithTCPSendBufferSizeRange (a b c : Z) : Option :=
  ask_or "set TCP send buffer size range" (SendBufferSize (mkRange a b c)).
Definition WithTCPSendBufferSize (size : Z) : Option :=
  ask_or "set TCP send buffer size range" (SendBufferSize (mkRange tcpMinBufferSize size tcpMaxBufferSize)).
Definition WithTCPReceiveBufferSizeRange (a b c : Z) : Option :=
  ask_or "set TCP receive buffer size range" (ReceiveBufferSize (mkRange a b c)).
Definition WithTCPReceiveBufferSize (size : Z) : Option :=
  ask_or "set TCP receive buffer size range" (ReceiveBufferSize (mkRange tcpMinBufferSize size tcpMaxBufferSize)).
Definition WithTCPCongestionControl (cc : string) : Option :=
  ask_or "set TCP congestion control algorithm" (CongestionControl cc).
Definition WithTCPDelay (v : bool) : Option := ask_or "set TCP delay" (TCPDelay v).
Definition WithTCPModerateReceiveBuffer (v : bool) : Option :=
  ask_or "set TCP moderate receive buffer" (ModerateReceiveBuffer v).
Definition WithTCPSACKEnabled (v : bool) : Option := ask_or "set TCP SACK" (SACKEnabled v).
(** tcpip.TCPRACKLossDetection is 1. *)
Definition WithTCPRecovery (v : Z) : Option := ask_or "set TCP Recovery" (TCPRecovery v).

Definition WithDefault : Option := apply_all
  [WithDefaultTTL defaultTimeToLive; WithForwarding true; WithICMPBurst icmpBurst; WithICMPLimit icmpLimit;
   WithTCPSendBufferSizeRange tcpMinBufferSize tcpDefaultSendBufferSize tcpMaxBufferSize;
   WithTCPReceiveBufferSizeRange tcpMinBufferSize tcpDefaultReceiveBufferSize tcpMaxBufferSize;
   WithTCPCongestionControl "reno"; WithTCPDelay false; WithTCPModerateReceiveBuffer false; WithTCPSACKEnabled true;
   WithTCPRecovery 1].

(** tcp.go, udp.go, nic.go, route.go. *)
Definition withTCPHandler : Option := fun s => (None, snd (ask TCPHandler s)).
Definition withUDPHandler : Option := fun s => (None, snd (ask UDPHandler s)).
Definition withCreatingNIC : Option := ask_or "create NIC" CreateNIC.
Definition withPromiscuousMode (v : bool) : Option := ask_or "set promiscuous mode" (PromiscuousMode v).
Definition withSpoofing (v : bool) : Option := ask_or "set spoofing" (Spoofing v).
Definition withRouteTable : Option := fun s => (None, snd (ask (RouteTable [(Addr4 0, 0); (Addr6 0 "", 0)]) s)).

(** [tcpip.AddrFrom4([4]byte{0x0a, 0, 0, 0x01})] and [tcpip.AddrFrom16] of an array literal
    with fifteen of its sixteen bytes. *)
Definition groups_v4 : Addr := Addr4 0x0a000001.
Definition groups_v6 : Addr :=
  Addr6 (fold_left (fun v b => 256 * v + b) (take 16 ([0xfd; 0; 0; 0; 0; 0; 0; 0; 0; 0; 0; 0; 0; 0; 0x01] ++ replicate 16 0)) 0) "".

Definition joining (group : Addr) : Option :=
  ask_or "join multicast group" (JoinGroup (match group with Addr4 _ => false | Addr6 _ _ => true end) group).
Definition withMulticastGroups (groups : list Addr) : Option := fun s =>
  match groups with
  | [] => (None, s)
  | _ =>
    let s := snd (ask (AddProtocolAddress groups_v4 8) s) in
    let s := snd (ask (AddProtocolAddress groups_v6 8) s) in
    apply_all (joining <$> groups) s
  end.

(** stack.go: CreateStack. *)
Definition CreateStack (groups : list Addr) (options : list Option) : Option := fun _ =>
  apply_all
    ([WithDefault] ++ options ++
     [withTCPHandler; withUDPHandler; withCreatingNIC; withPromiscuousMode true; withSpoofing true; withRouteTable;
      withMulticastGroups groups]) [].
End stack.

(** *** What the options do *)

(** The requests behind an option, with the words before their error; the error of a
    request without words is ignored. *)
Notation plan := (list (option string * request)).

Section plans.
Context {env : StackEnv}.

Fixpoint follow (l : plan) : Option := fun s =>
  match l with
  | [] => (None, s)
  | (w, q) :: l =>
    match ask q s, w with
    | (Some e, _), Some what => (Some (what +:+ ": " +:+ e)%string, s)
    | (_, s'), _ => follow l s'
    end
  end.

(** [f] does what [l] says. *)
Definition does (f : Option) (l : plan) : Prop := forall s, f s = follow l s.

Lemma follow_app l1 l2 s : follow (l1 ++ l2) s = andThen (follow l1) (follow l2) s.
Proof.
  revert s. induction l1 as [|[w q] l1 IH]; intros s; cbn; [by destruct (follow l2 s)|].
  unfold andThen in *. cbn. destruct (ask q s) as [[e|] s']; destruct w; cbn; try apply IH. done.
Qed.

Lemma does_ask what q : does (ask_or what q) [(Some what, q)].
Proof. intros s. unfold ask_or. cbn. unfold ask. by destruct (match checks q with Some _ => _ | None => _ end). Qed.
Lemma does_ignore q : does (fun s => (None, snd (ask q s))) [(None, q)].
Proof. intros s. cbn. by destruct (ask q s) as [[e|] s']. Qed.
Lemma does_then f g l1 l2 : does f l1 -> does g l2 -> does (andThen f g) (l1 ++ l2).
Proof. intros Hf Hg s. rewrite follow_app. unfold andThen. rewrite Hf. destruct (follow l1 s) as [[e|] s']; [done|apply Hg]. Qed.
Lemma does_eq f l l' : does f l -> l = l' -> does f l'.
Proof. by intros H <-. Qed.
Lemma does_all fs ls : Forall2 does fs ls -> does (apply_all fs) (mjoin ls).
Proof.
  induction 1 as [|f l fs ls Hf Hfs IH]; [by intros s|]. intros s.
  change (mjoin (l :: ls)) with (l ++ mjoin ls). by rewrite <- (does_then f (apply_all fs)).
Qed.
End plans.

Definition default_plan : plan :=
  [(Some "set ipv4 default TTL", DefaultTTLOption false 64); (Some "set ipv6 default TTL", DefaultTTLOption true 64);
   (Some "set ipv4 forwarding", Forwarding false true); (Some "set ipv6 forwarding", Forwarding true true);
   (None, SetICMPBurst 50); (None, SetICMPLimit 1000);
   (Some "set TCP send buffer size range", SendBufferSize (mkRange 4096 1048576 4194304));
   (Some "set TCP receive buffer size range", ReceiveBufferSize (mkRange 4096 1048576 4194304));
   (Some "set TCP congestion control algorithm", CongestionControl "reno"); (Some "set TCP delay", TCPDelay false);
   (Some "set TCP moderate receive buffer", ModerateReceiveBuffer false); (Some "set TCP SACK", SACKEnabled true);
   (Some "set TCP Recovery", TCPRecovery 1)]%string.

Definition nic_plan (groups : list Addr) : plan :=
  [(None, TCPHandler); (None, UDPHandler); (Some "create NIC", CreateNIC); (Some "set promiscuous mode", PromiscuousMode true);
   (Some "set spoofing", Spoofing true); (None, RouteTable [(Addr4 0, 0); (Addr6 0 "", 0)])]%string ++
  match groups with
  | [] => []
  | _ => [(None, AddProtocolAddress groups_v4 8); (None, AddProtocolAddress groups_v6 8)] ++
         ((fun g => (Some "join multicast group"%string, JoinGroup (match g with Addr4 _ => false | Addr6 _ _ => true end) g)) <$> groups)
  end.

(** The options the engine adds. *)
Inductive custom := Moderate | SendSize (n : Z) | ReceiveSize (n : Z).
Definition custom_option {env : StackEnv} (c : custom) : Option :=
  match c with
  | Moderate => WithTCPModerateReceiveBuffer true
  | SendSize n => WithTCPSendBufferSize n
  | ReceiveSize n => WithTCPReceiveBufferSize n
  end.
Definition custom_plan (c : custom) : plan :=
  match c with
  | Moderate => [(Some "set TCP moderate receive buffer", ModerateReceiveBuffer true)]
  | SendSize n => [(Some "set TCP send buffer size range", SendBufferSize (mkRange 4096 n 4194304))]
  | ReceiveSize n => [(Some "set TCP receive buffer size range", ReceiveBufferSize (mkRange 4096 n 4194304))]
  end%string.

Definition full_plan (groups : list Addr) (cs : list custom) : plan := default_plan ++ mjoin (custom_plan <$> cs) ++ nic_plan groups.

Section created.
Context {env : StackEnv}.

Lemma does_default : does WithDefault default_plan.
Proof.
  eapply does_eq; [eapply does_all; repeat (eapply List.Forall2_cons; [first [eapply does_then; apply does_ask|apply does_ask|apply does_ignore]|]); apply List.Forall2_nil|reflexivity].
Qed.

Lemma does_groups groups : does (withMulticastGroups groups) (drop 6 (nic_plan groups)).
Proof.
  intros s. destruct groups as [|g gs]; [done|].
  unfold nic_plan. rewrite drop_app_length'; [|done].
  set (js := _ <$> g :: gs). rewrite follow_app. unfold andThen. cbn [follow].
  assert (forall q s, (let (o, s') := ask q s in match o with Some _ => follow [] s' | None => follow [] s' end) = (None, snd (ask (env := env) q s))) as H0.
  { intros q s0. by destruct (ask q s0) as [[]]. }
  unfold withMulticastGroups.
  transitivity (follow js (snd (ask (AddProtocolAddress groups_v6 8) (snd (ask (AddProtocolAddress groups_v4 8) s))))).
  - set (s' := snd _). replace js with (mjoin ((fun x => [x]) <$> js)).
    + apply does_all. subst js. rewrite <- list_fmap_compose. generalize (g :: gs). intros l.
      induction l; constructor; [apply does_ask|done].
    + clear. induction js as [|x l IH]; [done|]. cbn. by f_equal.
  - destruct (ask (AddProtocolAddress groups_v4 8) s) as [[e|] s1]; cbn [snd];
      by destruct (ask (AddProtocolAddress groups_v6 8) s1) as [[e'|] s2].
Qed.

(** CreateStack makes the requests of the plan, in order. *)
Lemma CreateStack_plan groups cs s : CreateStack groups (custom_option <$> cs) s = follow (full_plan groups cs) [].
Proof.
  unfold CreateStack, full_plan.
  assert (Forall2 does ([WithDefault] ++ (custom_option <$> cs) ++
     [withTCPHandler; withUDPHandler; withCreatingNIC; withPromiscuousMode true; withSpoofing true; withRouteTable; withMulticastGroups groups])
    ([default_plan] ++ (custom_plan <$> cs) ++ ((fun x => [x]) <$> take 6 (nic_plan groups)) ++ [drop 6 (nic_plan groups)])) as H.
  { apply Forall2_app; [constructor; [apply does_default|done]|]. apply Forall2_app.
    - induction cs as [|[| |] cs IH]; constructor; try apply does_ask; done.
    - do 6 (constructor; [first [apply does_ask|apply does_ignore]|]). constructor; [apply does_groups|done]. }
  rewrite (does_all _ _ H), !join_app. unfold full_plan.
  change (mjoin [default_plan]) with (default_plan ++ []). change (mjoin [drop 6 (nic_plan groups)]) with (drop 6 (nic_plan groups) ++ []).
  rewrite !app_nil_r. by do 3 f_equal.
Qed.

(** What a plan leaves on the stack are requests of it. *)
Lemma follow_log l : forall s, exists qs, snd (follow l s) = s ++ qs /\ qs ⊆ l.*2.
Proof.
  induction l as [|[w q] l IH]; intros s; [exists []; split; [by rewrite app_nil_r|done]|].
  cbn [follow]. unfold ask. destruct (match checks q with Some _ => _ | None => _ end) as [e|].
  - destruct w; cbn [snd].
    + exists []. split; [by rewrite app_nil_r|set_solver].
    + destruct (IH s) as (qs & E & H). exists qs. split; [done|]. cbn. set_solver.
  - destruct (IH (s ++ [q])) as (qs & E & H). exists (q :: qs). destruct w; rewrite E, <- app_assoc; (split; [done|]); cbn; set_solver.
Qed.

Definition accepted (q : request) : Prop := checks q = None /\ (external q = true -> forall s, refuses s q = None).

Lemma ask_accepted q s : accepted q -> ask q s = (None, s ++ [q]).
Proof. intros [H1 H2]. unfold ask. rewrite H1. destruct (external q); [by rewrite H2|done]. Qed.

Lemma follow_all l : forall s, Forall (fun x => accepted x.2) l -> follow l s = (None, s ++ l.*2).
Proof.
  induction l as [|[w q] l IH]; intros s H; cbn [follow]; [by rewrite app_nil_r|].
  apply Forall_cons_1 in H as [Hq Hl]. rewrite ask_accepted by done. destruct w; rewrite IH by done; by rewrite <- app_assoc.
Qed.

(** A refused request ends the plan with its words. *)
Lemma follow_refused l1 what q e l2 s : Forall (fun x => accepted x.2) l1 ->
  fst (ask q (s ++ l1.*2)) = Some e -> follow (l1 ++ (Some what, q) :: l2) s = (Some (what +:+ ": " +:+ e)%string, s ++ l1.*2).
Proof.
  intros H E. rewrite follow_app. unfold andThen. rewrite follow_all by done. cbn [follow].
  destruct (ask q (s ++ l1.*2)) as [o s'] eqn:Ea. cbn in E. by subst o.
Qed.
End created.

(** The sizes gVisor accepts. *)
Definition valid_custom (c : custom) : bool :=
  match c with Moderate => true | SendSize n | ReceiveSize n => (4096 <=? n) && (n <=? 4194304) end.

(** The send buffer's default size after some requests: the last one set. *)
Definition send_size (s : stack) : option Z :=
  last (omap (fun q => match q with SendBufferSize r => Some (Default r) | _ => None end) s).
Definition last_send (cs : list custom) : option Z := last (omap (fun c => match c with SendSize n => Some n | _ => None end) cs).

Lemma custom_requests cs : (mjoin (custom_plan <$> cs)).*2 =
  (fun c => match c with
            | Moderate => ModerateReceiveBuffer true
            | SendSize n => SendBufferSize (mkRange 4096 n 4194304)
            | ReceiveSize n => ReceiveBufferSize (mkRange 4096 n 4194304)
            end) <$> cs.
Proof. induction cs as [|[| |] cs IH]; [done|..]; cbn; by f_equal. Qed.

Lemma valid_accepted {env : StackEnv} cs : Forall (fun c => valid_custom c = true) cs ->
  Forall (fun x => accepted x.2) (mjoin (custom_plan <$> cs)).
Proof.
  induction 1 as [|c cs Hc _ IH]; [done|]. cbn. apply Forall_app; split; [|done].
  destruct c; (constructor; [|done]); (split; [|done]); cbn in *; [done|..]; unfold valid_range; cbn; by rewrite Hc.
Qed.

Lemma last_send_size pre cs post : send_size pre = Some 1048576 -> send_size post = None ->
  send_size (pre ++ (mjoin (custom_plan <$> cs)).*2 ++ post) = Some (default 1048576 (last_send cs)).
Proof.
  unfold send_size, last_send. rewrite custom_requests, !omap_app. intros Hp Hn.
  apply last_None in Hn. rewrite Hn, app_nil_r, last_app.
  assert (forall l, omap (fun q => match q with SendBufferSize r => Some (Default r) | _ => None end)
      ((fun c => match c with
            | Moderate => ModerateReceiveBuffer true
            | SendSize n => SendBufferSize (mkRange 4096 n 4194304)
            | ReceiveSize n => ReceiveBufferSize (mkRange 4096 n 4194304)
            end) <$> l) = omap (fun c => match c with SendSize n => Some n | _ => None end) l) as ->.
  { intros l. induction l as [|[| |] l IH]; cbn; by rewrite ?IH. }
  rewrite Hp. by destruct (last (omap _ cs)).
Qed.

(** ** The tunnel's queues *)

(** tcp.go: at most this many connection attempts at a time. *)
Definition maxConnAttempts : Z := Z.shiftl 2 10.

Inductive kind := IsTCP | IsUDP.

(** The forwarders and the tunnel.  [inFlight] are the TCP requests gVisor has handed to the
    handler and that are not completed: first in the handshake, then blocked in HandleTCP.
    gVisor calls the UDP handler on the goroutine that dispatches packets, so while it is
    blocked in HandleUDP ([udpSender]) no packet is looked at.  [accepted] is the history of
    the requests, [handled] of the goroutines the tunnel has started. *)
Record tunnel := mkTunnel {
  inFlight : list Z; shaking : list Z; tcpSenders : list Z; udpSender : option Z;
  started : bool; running : bool; cancelled : bool;
  accepted_ids : list (kind * Z); handled : list (kind * Z); resets : list Z }.

(** tunnel.go: New. *)
Definition NewTunnel : tunnel := mkTunnel [] [] [] None false false false [] [] [].

Inductive taction :=
| Syn (id : Z)                     (* a SYN reaches the forwarder *)
| Shaken (id : Z) (ok : bool)      (* r.CreateEndpoint returns *)
| Datagram (id : Z) (ok : bool)    (* a datagram of a new session; r.CreateEndpoint *)
| TakeTCP (id : Z) | TakeUDP       (* the process loop receives from a channel *)
| ProcessAsync | Close
| ProcessExit.                     (* the loop sees ctx.Done() *)

Definition remove (id : Z) (l : list Z) : list Z := filter (fun x => x <> id) l.

Definition tunnel_step (a : taction) (t : tunnel) : option tunnel :=
  let 'mkTunnel fl sh ts us st ru ca ac ha re := t in
  match a with
  | Syn id =>
    if us then None
    else if bool_decide (id ∈ fl) || (maxConnAttempts <=? zlen fl) then Some t
    else Some (mkTunnel (fl ++ [id]) (sh ++ [id]) ts us st ru ca (ac ++ [(IsTCP, id)]) ha re)
  | Shaken id ok =>
    if bool_decide (id ∈ sh) then
      if ok then Some (mkTunnel fl (remove id sh) (ts ++ [id]) us st ru ca ac ha re)
      else Some (mkTunnel (remove id fl) (remove id sh) ts us st ru ca ac ha (re ++ [id]))
    else None
  | Datagram id ok =>
    if us then None
    else if ok then Some (mkTunnel fl sh ts (Some id) st ru ca (ac ++ [(IsUDP, id)]) ha re) else Some t
  | TakeTCP id =>
    (* handle returns, and the deferred r.Complete(false) runs *)
    if ru && bool_decide (id ∈ ts)
    then Some (mkTunnel (remove id fl) sh (remove id ts) us st ru ca ac (ha ++ [(IsTCP, id)]) re) else None
  | TakeUDP =>
    match us with
    | Some id => if ru then Some (mkTunnel fl sh ts None st ru ca ac (ha ++ [(IsUDP, id)]) re) else None
    | None => None
    end
  | ProcessAsync => Some (if st then t else mkTunnel fl sh ts us true true ca ac ha re)
  | Close => Some (if st then mkTunnel fl sh ts us st ru true ac ha re else t)
  | ProcessExit => if ru && ca then Some (mkTunnel fl sh ts us st false ca ac ha re) else None
  end.

Fixpoint tunnel_run (acts : list taction) (t : tunnel) : option tunnel :=
  match acts with
  | [] => Some t
  | a :: acts => t ← tunnel_step a t; tunnel_run acts t
  end.

(** ** The endpoint *)

(** iobased: New. *)
Definition NewEndpoint (mtu offset : Z) : go unit :=
  if mtu =? 0 then Err "MTU size is zero"
  else if offset <? 0 then Err "offset must be non-negative"
  else Ret tt.

(** header.IPVersion. *)
Definition IPVersion (b : bytes) : Z := match b with [] => -1 | x :: _ => Z.shiftr x 4 end.

(** One turn of dispatchLoop after a Read that left [data] in the buffer and returned [n]:
    the packet injected into the stack and whether it is IPv6. *)
Definition dispatch (mtu offset : Z) (attached : bool) (data : bytes) (n : Z) : go (option (bool * bytes)) :=
  if (n =? 0) || (mtu <? n) then Ret None
  else if negb attached then Ret None
  else
    let! pkt := slice data offset (offset + n) in
    let! head := slice_from data offset in
    Ret (if IPVersion head =? 4 then Some (false, pkt) else if IPVersion head =? 6 then Some (true, pkt) else None).

(** dispatchLoop until Read fails. *)
Fixpoint dispatchLoop (mtu offset : Z) (reads : list (bool * bytes * Z)) : go (list (bool * bytes)) :=
  match reads with
  | [] => Ret []
  | (attached, data, n) :: reads =>
    let! o := dispatch mtu offset attached data n in
    let! l := dispatchLoop mtu offset reads in
    Ret (option_list o ++ l)
  end.

(** writePacket: what goes to the device. *)
Definition writePacket (offset : Z) (pkt : bytes) : bytes := replicate (Z.to_nat offset) 0 ++ pkt.

(** The Read of tun_wireguard.go: the packet at the offset, and its length. *)
Definition tun_read (mtu offset : Z) (pkt : bytes) : bytes * Z :=
  (take (Z.to_nat (offset + mtu)) (replicate (Z.to_nat offset) 0 ++ pkt ++ replicate (Z.to_nat mtu) 0), zlen pkt).
(** The Read of a file whose packets have a header of [offset] bytes (open_unix.go). *)
Definition file_read (mtu offset : Z) (head pkt : bytes) : bytes * Z :=
  let b := take (Z.to_nat (offset + mtu)) (head ++ pkt) in
  (b ++ replicate (Z.to_nat (offset + mtu - zlen b)) 0, zlen b).

(** *** The queues *)

Definition tcp_ids (l : list (kind * Z)) : list Z := omap (fun x => match x.1 with IsTCP => Some x.2 | IsUDP => None end) l.
Definition udp_ids (l : list (kind * Z)) : list Z := omap (fun x => match x.1 with IsUDP => Some x.2 | IsTCP => None end) l.

#[local] Arguments tcp_ids : simpl never.
#[local] Arguments udp_ids : simpl never.

Lemma remove_perm id l : NoDup l -> id ∈ l -> l ≡ₚ id :: remove id l.
Proof.
  induction 1 as [|x l Hx Hl IH]; intros Hi; [by apply not_elem_of_nil in Hi|]. unfold remove in *. rewrite filter_cons.
  destruct (decide (x <> id)) as [Hn|Hn].
  - rewrite perm_swap. f_equiv. apply IH. by apply elem_of_cons in Hi as [?|?].
  - apply dec_stable in Hn. subst x. f_equiv. clear - Hx. induction l as [|y l IH]; [done|].
    rewrite filter_cons, decide_True; [|intros ->; apply Hx; left]. f_equiv. apply IH. intros H. apply Hx. by right.
Qed.

Lemma remove_app id a b : NoDup (a ++ b) -> id ∈ a -> remove id (a ++ b) ≡ₚ remove id a ++ b.
Proof.
  intros Hn Hi. apply (Permutation_cons_inv (a := id)).
  rewrite <- (remove_perm id (a ++ b)) by (done || apply elem_of_app; by left).
  change (id :: remove id a ++ b) with ((id :: remove id a) ++ b). f_equiv.
  apply remove_perm; [by apply NoDup_app in Hn as (? & _ & _)|done].
Qed.

Record tunnel_ok (t : tunnel) : Prop := {
  tk_flight : inFlight t ≡ₚ shaking t ++ tcpSenders t;
  tk_nodup : NoDup (inFlight t);
  tk_bound : zlen (inFlight t) <= maxConnAttempts;
  tk_tcp : tcp_ids (accepted_ids t) ≡ₚ tcp_ids (handled t) ++ resets t ++ inFlight t;
  tk_udp : udp_ids (accepted_ids t) = udp_ids (handled t) ++ option_list (udpSender t);
}.

Lemma tcp_ids_snoc l k id : tcp_ids (l ++ [(k, id)]) = tcp_ids l ++ match k with IsTCP => [id] | IsUDP => [] end.
Proof. unfold tcp_ids. rewrite omap_app. by destruct k. Qed.
Lemma udp_ids_snoc l k id : udp_ids (l ++ [(k, id)]) = udp_ids l ++ match k with IsUDP => [id] | IsTCP => [] end.
Proof. unfold udp_ids. rewrite omap_app. by destruct k. Qed.

(** A request leaves the flight. *)
Lemma leave_flight id fl sh ts : fl ≡ₚ sh ++ ts -> NoDup fl -> zlen fl <= maxConnAttempts ->
  (id ∈ sh -> remove id fl ≡ₚ remove id sh ++ ts) /\ (id ∈ ts -> remove id fl ≡ₚ sh ++ remove id ts) /\
  (id ∈ sh \/ id ∈ ts -> fl ≡ₚ id :: remove id fl) /\ NoDup (remove id fl) /\ zlen (remove id fl) <= maxConnAttempts.
Proof.
  intros Hf Hn Hb.
  assert (NoDup (sh ++ ts)) as Hn' by (by rewrite <- Hf).
  assert (remove id fl ≡ₚ remove id (sh ++ ts)) as Hr by (unfold remove; by rewrite Hf).
  split_and!.
  - intros Hi. by rewrite Hr, remove_app.
  - intros Hi. rewrite (Permutation_app_comm sh). rewrite Hr. unfold remove. rewrite (Permutation_app_comm sh ts).
    apply remove_app; [by rewrite Permutation_app_comm|done].
  - intros Hi. apply remove_perm; [done|]. rewrite Hf. by apply elem_of_app.
  - by apply NoDup_filter.
  - unfold zlen in *. pose proof (length_filter (fun x => x <> id) fl). unfold remove. lia.
Qed.

Lemma tunnel_step_ok a t t' : tunnel_ok t -> tunnel_step a t = Some t' -> tunnel_ok t'.
Proof.
  intros [Hf Hn Hb Ht Hu] E. destruct t as [fl sh ts us st ru ca ac ha re]. cbn in *. destruct a as [id|id ok|id ok|id| | | |]; cbn in E.
  - destruct us; [done|]. destruct (bool_decide_reflect (id ∈ fl)) as [|Hi]; cbn in E; [by injection E as <-|].
    destruct (Z.leb_spec maxConnAttempts (zlen fl)); injection E as <-; [done|]. constructor; cbn.
    + rewrite Hf. by rewrite <- !app_assoc, (Permutation_app_comm ts).
    + apply NoDup_app. split_and!; [done| |apply NoDup_singleton]. intros x Hx ->%list_elem_of_singleton. done.
    + rewrite zlen_app, zlen_cons, zlen_nil. lia.
    + rewrite tcp_ids_snoc, Ht. by rewrite <- !app_assoc.
    + by rewrite udp_ids_snoc, app_nil_r.
  - destruct (bool_decide_reflect (id ∈ sh)) as [Hi|]; [|done].
    destruct (leave_flight id fl sh ts) as (H1 & _ & H3 & H4 & H5); [done..|].
    destruct ok; injection E as <-; constructor; cbn; try done.
    + rewrite Hf. rewrite (remove_perm id sh) at 1; [|rewrite Hf in Hn; by apply NoDup_app in Hn as (? & _ & _)|done].
      rewrite (Permutation_app_comm ts). cbn. by rewrite Permutation_middle.
    + by apply H1.
    + rewrite Ht, (H3 (or_introl Hi)) at 1. by rewrite <- !app_assoc.
  - destruct us; [done|]. destruct ok; injection E as <-; [|done]. constructor; cbn; try done.
    + by rewrite tcp_ids_snoc, app_nil_r.
    + rewrite udp_ids_snoc, Hu. by rewrite app_nil_r.
  - destruct ru; [|done]. destruct (bool_decide_reflect (id ∈ ts)) as [Hi|]; [|done]. injection E as <-.
    destruct (leave_flight id fl sh ts) as (_ & H2 & H3 & H4 & H5); [done..|]. constructor; cbn; try done.
    + by apply H2.
    + rewrite tcp_ids_snoc, Ht, (H3 (or_intror Hi)) at 1. rewrite <- !app_assoc. f_equiv. cbn. by rewrite Permutation_middle.
    + by rewrite udp_ids_snoc, app_nil_r.
  - destruct us as [id|]; [|done]. destruct ru; [|done]. injection E as <-. constructor; cbn; try done.
    + by rewrite tcp_ids_snoc, app_nil_r.
    + by rewrite udp_ids_snoc, app_nil_r.
  - injection E as <-. by destruct st.
  - injection E as <-. by destruct st.
  - destruct ru; [|done]. destruct ca; [|done]. by injection E as <-.
Qed.

Lemma tunnel_run_ok acts : forall t t', tunnel_ok t -> tunnel_run acts t = Some t' -> tunnel_ok t'.
Proof.
  induction acts as [|a acts IH]; intros t t' H E; cbn [tunnel_run] in E; [by injection E as <-|].
  destruct (tunnel_step a t) as [t1|] eqn:E1; [|done]. eapply IH; [by eapply tunnel_step_ok|done].
Qed.

(** Once the process loop has returned nothing more is handled, and a datagram that waits
    keeps every packet from the forwarders. *)
Definition halted (t : tunnel) : Prop := started t = true /\ running t = false.

Lemma halted_step a t t' : halted t -> tunnel_step a t = Some t' ->
  halted t' /\ handled t' = handled t /\
  (is_Some (udpSender t) -> udpSender t' = udpSender t /\ accepted_ids t' = accepted_ids t).
Proof.
  intros [Hs Hr] E. destruct t as [fl sh ts us st ru ca ac ha re]. cbn in *. subst st ru. unfold halted.
  destruct a as [id|id ok|id ok|id| | | |]; cbn in E.
  - destruct us; [done|]. case_match; injection E as <-; split_and!; try done; by intros [].
  - case_match; [|done]. destruct ok; injection E as <-; by split_and!.
  - destruct us; [done|]. destruct ok; injection E as <-; split_and!; try done; by intros [].
  - done.
  - by destruct us.
  - injection E as <-. by split_and!.
  - injection E as <-. by split_and!.
  - done.
Qed.

Lemma halted_run acts : forall t t', halted t -> tunnel_run acts t = Some t' ->
  handled t' = handled t /\ (is_Some (udpSender t) -> udpSender t' = udpSender t /\ accepted_ids t' = accepted_ids t).
Proof.
  induction acts as [|a acts IH]; intros t t' H E; cbn [tunnel_run] in E; [by injection E as <-|].
  destruct (tunnel_step a t) as [t1|] eqn:E1; [|done]. destruct (halted_step a t t1 H E1) as (H1 & Eh & Hu).
  destruct (IH t1 t' H1 E) as [Eh' Hu']. split; [congruence|]. intros Hw. destruct (Hu Hw) as [E2 E3].
  rewrite E2, E3 in Hu'. by apply Hu'.
Qed.

(** *** The endpoint *)

Definition inject (pkt : bytes) : option (bool * bytes) :=
  if IPVersion pkt =? 4 then Some (false, pkt) else if IPVersion pkt =? 6 then Some (true, pkt) else None.

Lemma slice_mid (a b c : bytes) : slice (a ++ b ++ c) (zlen a) (zlen a + zlen b) = Ret b.
Proof.
  rewrite slice_in_range by (rewrite ?zlen_app; pose proof (zlen_nonneg a); pose proof (zlen_nonneg b); pose proof (zlen_nonneg c); lia).
  f_equal. unfold zlen. rewrite Nat2Z.id, drop_app_length. rewrite take_app_length'; [done|lia].
Qed.
Lemma slice_tail (a b : bytes) : slice_from (a ++ b) (zlen a) = Ret b.
Proof.
  unfold slice_from. rewrite slice_in_range by (rewrite ?zlen_app; pose proof (zlen_nonneg a); pose proof (zlen_nonneg b); lia).
  f_equal. rewrite zlen_app. unfold zlen. rewrite Nat2Z.id, drop_app_length. apply take_ge. lia.
Qed.

(** A packet behind [zlen a] bytes, which the rest of the buffer follows. *)
Lemma dispatch_at mtu a pkt rest : pkt <> [] -> zlen pkt <= mtu ->
  dispatch mtu (zlen a) true (a ++ pkt ++ rest) (zlen pkt) = Ret (inject pkt).
Proof.
  intros Hp Hm. unfold dispatch. destruct pkt as [|x pkt]; [done|]. rewrite zlen_cons in *. pose proof (zlen_nonneg pkt).
  destruct (Z.eqb_spec (1 + zlen pkt) 0), (Z.ltb_spec mtu (1 + zlen pkt)); try lia. cbn [orb negb].
  rewrite <- !(zlen_cons x). rewrite slice_mid, slice_tail. cbn [go_bind]. unfold inject. cbn. by repeat case_match.
Qed.

(** What a link passes: attached, not empty, and not longer than the MTU. *)
Definition passes (mtu : Z) (x : bool * bytes) : option (bool * bytes) :=
  if x.1 && (1 <=? zlen x.2) && (zlen x.2 <=? mtu) then inject x.2 else None.

Lemma tun_buffer mtu offset pkt : 0 <= offset -> zlen pkt <= mtu ->
  exists rest, (tun_read mtu offset pkt).1 = replicate (Z.to_nat offset) 0 ++ pkt ++ rest.
Proof.
  intros Ho Hm. unfold tun_read. cbn. exists (take (Z.to_nat (mtu - zlen pkt)) (replicate (Z.to_nat mtu) 0)).
  unfold zlen in *. rewrite !take_app, length_replicate, !take_ge by (rewrite ?length_replicate; lia).
  do 2 f_equal. f_equal. lia.
Qed.

Lemma dispatch_tun mtu offset x : 0 <= offset ->
  dispatch mtu offset x.1 (tun_read mtu offset x.2).1 (tun_read mtu offset x.2).2 = Ret (passes mtu x).
Proof.
  intros Ho. destruct x as [at_ pkt]. unfold passes. cbn [fst snd].
  destruct (Z.leb_spec 1 (zlen pkt)), (Z.leb_spec (zlen pkt) mtu), at_; cbn [andb].
  1: { destruct (tun_buffer mtu offset pkt) as [rest ->]; [done..|].
    replace offset with (zlen (replicate (Z.to_nat offset) 0)) at 1 by (unfold zlen; rewrite length_replicate; lia).
    apply dispatch_at; [|done]. intros ->. rewrite zlen_nil in *. lia. }
  all: unfold dispatch; cbn [tun_read snd]; destruct (Z.eqb_spec (zlen pkt) 0), (Z.ltb_spec mtu (zlen pkt)); cbn; try done;
    pose proof (zlen_nonneg pkt); lia.
Qed.

Lemma dispatchLoop_tun mtu offset l : 0 <= offset ->
  dispatchLoop mtu offset ((fun x => (x.1, (tun_read mtu offset x.2).1, (tun_read mtu offset x.2).2)) <$> l) = Ret (omap (passes mtu) l).
Proof.
  intros Ho. induction l as [|x l IH]; [done|]. cbn [fmap list_fmap dispatchLoop].
  rewrite dispatch_tun by done. cbn [go_bind]. change (list_fmap _ _ ?f l) with (f <$> l). rewrite IH. cbn.
  by destruct (passes mtu x).
Qed.

(** A file with a header in front of each packet: the packet with trailing zeros. *)
Lemma dispatch_file mtu head pkt : pkt <> [] -> zlen pkt <= mtu ->
  dispatch mtu (zlen head) true (file_read mtu (zlen head) head pkt).1 (file_read mtu (zlen head) head pkt).2 =
  Ret (if zlen head + zlen pkt <=? mtu then inject (pkt ++ replicate (length head) 0) else None).
Proof.
  intros Hp Hm. pose proof (zlen_nonneg head). unfold file_read. cbn [fst snd].
  assert (take (Z.to_nat (zlen head + mtu)) (head ++ pkt) = head ++ pkt) as E.
  { apply take_ge. rewrite length_app. unfold zlen in *. lia. }
  rewrite E, zlen_app. destruct (Z.leb_spec (zlen head + zlen pkt) mtu).
  - replace (zlen head + zlen pkt) with (zlen (pkt ++ replicate (length head) 0)) at 2
      by (rewrite zlen_app; unfold zlen; rewrite length_replicate; lia).
    assert (exists m, (Z.to_nat (zlen head + mtu - (zlen head + zlen pkt)) = length head + m)%nat) as [m ->].
    { exists (Z.to_nat (mtu - zlen pkt - zlen head)). unfold zlen in *. lia. }
    rewrite replicate_add, <- !app_assoc, (app_assoc pkt). apply dispatch_at.
    + by destruct pkt.
    + rewrite zlen_app. unfold zlen in *. rewrite length_replicate. lia.
  - unfold dispatch. destruct (Z.ltb_spec mtu (zlen head + zlen pkt)); [|lia]. by rewrite orb_true_r.
Qed.

(** ** The theorems *)

Lemma split_once {A} (x : A) l1 : forall l2 pre post, l1 ++ x :: l2 = pre ++ x :: post -> x ∉ l1 -> x ∉ l2 -> l1 = pre.
Proof.
  induction l1 as [|y l1 IH]; intros l2 [|z pre] post E H1 H2; cbn in E; try done.
  - injection E as <- ->. destruct H2. apply elem_of_app. right. left.
  - injection E as -> E. destruct H1. left.
  - injection E as <- E. f_equal. apply (IH l2 pre post E); [|done]. intros H. apply H1. by right.
Qed.

Definition setup_plan (cs : list custom) : plan := default_plan ++ mjoin (custom_plan <$> cs).

Lemma full_plan_split groups cs : full_plan groups cs = setup_plan cs ++ (None, TCPHandler) :: (None, UDPHandler) ::
  (Some "create NIC"%string, CreateNIC) :: drop 3 (nic_plan groups).
Proof. unfold full_plan, setup_plan. by rewrite <- app_assoc. Qed.

Lemma no_nic_before cs : CreateNIC ∉ (setup_plan cs).*2.
Proof.
  unfold setup_plan. rewrite fmap_app, custom_requests, elem_of_app. intros [H|H].
  - apply list_elem_of_In in H. cbn in H. naive_solver.
  - apply list_elem_of_fmap in H as ([| |] & ? & _); done.
Qed.
Lemma no_nic_after groups : CreateNIC ∉ (drop 3 (nic_plan groups)).*2.
Proof.
  destruct groups as [|g gs]; [intros H; apply list_elem_of_In in H; cbn in H; naive_solver|].
  unfold nic_plan. cbn [app drop fmap list_fmap snd]. rewrite !elem_of_cons. intros [|[|[|[|[|H]]]]]; try done.
  change (list_fmap _ _ ?f ?l) with (f <$> l) in H. rewrite <- list_fmap_compose in H.
  destruct H as [H|H]; [done|]. by apply list_elem_of_fmap in H as (? & ? & _).
Qed.

(** The handlers are there before the NIC, whatever is refused. *)
Lemma handlers_first {env : StackEnv} groups cs pre post :
  snd (follow (full_plan groups cs) []) = pre ++ CreateNIC :: post -> TCPHandler ∈ pre /\ UDPHandler ∈ pre.
Proof.
  rewrite full_plan_split, follow_app. unfold andThen.
  destruct (follow_log (setup_plan cs) []) as (s1 & E1 & H1). cbn [app] in E1.
  destruct (follow (setup_plan cs) []) as [[e|] s]; cbn [snd] in *; subst s.
  { intros ->. exfalso. apply (no_nic_before cs), H1. apply elem_of_app. right. left. }
  cbn [follow]. rewrite !ask_accepted by done. unfold ask at 1.
  destruct (match checks CreateNIC with Some _ => _ | None => _ end) as [e|]; cbn [snd].
  - rewrite <- app_assoc. intros E. exfalso.
    assert (CreateNIC ∈ (s1 ++ [TCPHandler; UDPHandler])) as Hin by (setoid_rewrite E; apply elem_of_app; right; left).
    apply elem_of_app in Hin as [Hin|Hin]; [by apply (no_nic_before cs), H1|]. apply list_elem_of_In in Hin. cbn in Hin. naive_solver.
  - destruct (follow_log (drop 3 (nic_plan groups)) (((s1 ++ [TCPHandler]) ++ [UDPHandler]) ++ [CreateNIC])) as (qs & E2 & H2).
    rewrite E2. rewrite <- !app_assoc. cbn [app]. intros E.
    change (s1 ++ TCPHandler :: UDPHandler :: CreateNIC :: qs) with (s1 ++ [TCPHandler; UDPHandler] ++ CreateNIC :: qs) in E.
    rewrite app_assoc in E. apply split_once in E as <-.
    + split; apply elem_of_app; right; [left|right; left].
    + intros Hin. apply elem_of_app in Hin as [Hin|Hin]; [by apply (no_nic_before cs), H1|]. apply list_elem_of_In in Hin. cbn in Hin. naive_solver.
    + intros Hin. by apply (no_nic_after groups), H2.
Qed.

Definition never : StackEnv := fun _ _ => None.
(** The environment that refuses to join a group. *)
Definition refusing (g : Addr) (e : string) : StackEnv := fun _ q =>
  match q with JoinGroup _ a => if decide (a = g) then Some e else None | _ => None end.

Lemma never_accepted (env : StackEnv) q : (forall s, refuses s q = None) -> checks q = None -> accepted q.
Proof. by split. Qed.

Lemma default_accepted (env : StackEnv) : (forall s b, refuses s (Forwarding b true) = None) -> Forall (fun x => accepted x.2) default_plan.
Proof. intros H. repeat (constructor; [split; [done|try done; intros _ s; apply H]|]). done. Qed.

Lemma nic_accepted groups : Forall (fun x => accepted (env := never) x.2) (nic_plan groups).
Proof.
  apply Forall_app; split; [by repeat constructor|]. destruct groups as [|g gs]; [done|].
  apply Forall_app; split; [by repeat constructor|]. apply Forall_fmap, Forall_true. by constructor.
Qed.

(** The requests of a plan whose refusal is an error. *)
Definition required (l : plan) : list request := omap (fun x => match x with (Some _, q) => Some q | _ => None end) l.

Section outcome.
Context {env : StackEnv}.

(** A plan ends with everything required done, or at the first required request that is
    refused, with its words; in both cases nothing else is done, and all in order. *)
Lemma follow_outcome l : forall s,
  match follow l s with
  | (None, s') => exists d, s' = s ++ d /\ required l `sublist_of` d /\ d `sublist_of` l.*2
  | (Some err, s') => exists pre what q post e d, l = pre ++ (Some what, q) :: post /\ s' = s ++ d /\
      err = (what +:+ ": " +:+ e)%string /\ fst (ask q s') = Some e /\ required pre `sublist_of` d /\ d `sublist_of` pre.*2
  end.
Proof.
  induction l as [|[w q] l IH]; intros s; cbn [follow].
  { exists []. split; [by rewrite app_nil_r|]. split; constructor. }
  destruct (ask q s) as [[e|] s'] eqn:Ea.
  - assert (s' = s) as ->.
    { unfold ask in Ea. by destruct (match checks q with Some _ => _ | None => _ end); inversion Ea. }
    destruct w as [what|].
    + exists [], what, q, l, e, []. cbn. rewrite Ea, app_nil_r. repeat split; constructor.
    + specialize (IH s). destruct (follow l s) as [[err|] s'].
      * destruct IH as (pre & what & q' & post & e' & d & -> & H). exists ((None, q) :: pre), what, q', post, e', d.
        cbn. split; [done|]. destruct H as (? & ? & ? & ? & ?). split_and!; try done. by apply sublist_cons.
      * destruct IH as (d & ? & ? & ?). exists d. split_and!; try done. by apply sublist_cons.
  - assert (s' = s ++ [q]) as ->.
    { unfold ask in Ea. by destruct (match checks q with Some _ => _ | None => _ end); inversion Ea. }
    assert (forall l' d, required l' `sublist_of` d -> required ((w, q) :: l') `sublist_of` q :: d) as Hr.
    { intros l' d H. destruct w; cbn; [by apply sublist_skip|by apply sublist_cons]. }
    specialize (IH (s ++ [q])). replace (match w with Some _ => follow l (s ++ [q]) | None => _ end) with (follow l (s ++ [q])) by by destruct w.
    destruct (follow l (s ++ [q])) as [[err|] s'].
    + destruct IH as (pre & what & q' & post & e' & d & -> & -> & H). exists ((w, q) :: pre), what, q', post, e', (q :: d).
      rewrite <- app_assoc in H |- *. destruct H as (? & ? & ? & ?). split_and!; try done; [by apply Hr|by apply sublist_skip].
    + destruct IH as (d & -> & ? & ?). exists (q :: d). rewrite <- app_assoc. split_and!; [done|by apply Hr|by apply sublist_skip].
Qed.

(** What is done was accepted. *)
Lemma follow_done l q : forall s, q ∈ snd (follow l s) -> q ∈ s \/ exists s', fst (ask q s') = None.
Proof.
  induction l as [|[w q'] l IH]; intros s; cbn [follow]; [by left|].
  destruct (ask q' s) as [[e|] s'] eqn:Ea; unfold ask in Ea;
    destruct (match checks q' with Some _ => _ | None => _ end) eqn:Ec; inversion Ea; subst.
  - destruct w; [by left|apply IH].
  - intros [H|H]%(fun H => IH (s ++ [q']) ltac:(by destruct w)); [|by right].
    apply elem_of_app in H as [H| ->%list_elem_of_singleton]; [by left|]. right. exists s. unfold ask. by rewrite Ec.
Qed.

(** A required request that is always refused makes the plan fail. *)
Lemma follow_must l what q e s : (Some what, q) ∈ l -> external q = true -> (forall s, refuses s q = Some e) -> q ∉ s ->
  is_Some (fst (follow l s)).
Proof.
  intros Hl Hx Hr Hs. pose proof (follow_outcome l s) as Ho. pose proof (follow_done l q s) as Hd.
  destruct (follow l s) as [[err|] s']; [by eexists|]. exfalso. destruct Ho as (d & -> & Hq & _).
  destruct Hd as [H|[s' H]]; [|done|].
  - apply elem_of_app. right. apply (elem_of_submseteq (required l)); [|by apply sublist_submseteq]. apply list_elem_of_omap. by exists (Some what, q).
  - unfold ask in H. destruct (checks q); [done|]. by rewrite Hx, Hr in H.
Qed.
End outcome.

(** The requests in full: what is asked for, in order, with the words of its error; no words
    where the code ignores it. *)
Lemma full_plan_literal groups cs : full_plan groups cs =
  [(Some "set ipv4 default TTL", DefaultTTLOption false 64); (Some "set ipv6 default TTL", DefaultTTLOption true 64);
   (Some "set ipv4 forwarding", Forwarding false true); (Some "set ipv6 forwarding", Forwarding true true);
   (None, SetICMPBurst 50); (None, SetICMPLimit 1000);
   (Some "set TCP send buffer size range", SendBufferSize (mkRange 4096 1048576 4194304));
   (Some "set TCP receive buffer size range", ReceiveBufferSize (mkRange 4096 1048576 4194304));
   (Some "set TCP congestion control algorithm", CongestionControl "reno"); (Some "set TCP delay", TCPDelay false);
   (Some "set TCP moderate receive buffer", ModerateReceiveBuffer false); (Some "set TCP SACK", SACKEnabled true);
   (Some "set TCP Recovery", TCPRecovery 1)]%string ++
  ((fun c => match c with
             | Moderate => (Some "set TCP moderate receive buffer", ModerateReceiveBuffer true)
             | SendSize n => (Some "set TCP send buffer size range", SendBufferSize (mkRange 4096 n 4194304))
             | ReceiveSize n => (Some "set TCP receive buffer size range", ReceiveBufferSize (mkRange 4096 n 4194304))
             end%string) <$> cs) ++
  [(None, TCPHandler); (None, UDPHandler); (Some "create NIC", CreateNIC); (Some "set promiscuous mode", PromiscuousMode true);
   (Some "set spoofing", Spoofing true); (None, RouteTable [(Addr4 0, 0); (Addr6 0 "", 0)])]%string ++
  (if bool_decide (groups = []) then []
   else [(None, AddProtocolAddress groups_v4 8); (None, AddProtocolAddress groups_v6 8)]) ++
  ((fun g => (Some "join multicast group"%string, JoinGroup (match g with Addr4 _ => false | Addr6 _ _ => true end) g)) <$> groups).
Proof.
  unfold full_plan, default_plan. do 2 f_equal; [|unfold nic_plan; by destruct groups].
  induction cs as [|[| |] cs IH]; [done|..]; cbn; by f_equal.
Qed.

Lemma plan_outcome {env : StackEnv} l :
  match follow l [] with
  | (None, s) => required l `sublist_of` s /\ s `sublist_of` l.*2
  | (Some err, s) => exists pre what q post e, l = pre ++ (Some what, q) :: post /\
      err = (what +:+ ": " +:+ e)%string /\ fst (ask q s) = Some e /\ required pre `sublist_of` s /\ s `sublist_of` pre.*2
  end.
Proof.
  pose proof (follow_outcome l []) as Ho. destruct (follow l []) as [[err|] s].
  - destruct Ho as (pre & what & q & post & e & d & H1 & -> & H). by exists pre, what, q, post, e.
  - by destruct Ho as (d & -> & H).
Qed.

Lemma must_fail {env : StackEnv} groups cs q e :
  q ∈ [Forwarding false true; Forwarding true true; CreateNIC; PromiscuousMode true; Spoofing true] \/
    (exists g, g ∈ groups /\ q = JoinGroup (match g with Addr4 _ => false | Addr6 _ _ => true end) g) ->
  (forall s, refuses s q = Some e) -> is_Some (fst (follow (full_plan groups cs) [])).
Proof.
  intros Hq Hr.
  assert (external q = true /\ exists what, (Some what, q) ∈ full_plan groups cs) as (Hx & what & Hin).
  { rewrite full_plan_literal. destruct Hq as [Hq|(g & Hg & ->)].
    - repeat (apply elem_of_cons in Hq as [->|Hq]); [..|by apply elem_of_nil in Hq]; (split; [done|]); eexists; rewrite !elem_of_app.
      1-2: left; apply list_elem_of_In; cbn; tauto.
      all: do 2 right; left; apply list_elem_of_In; cbn; tauto.
    - split; [done|]. eexists. rewrite !elem_of_app. do 4 right. apply list_elem_of_fmap. by exists g. }
  eapply follow_must; try done. apply not_elem_of_nil.
Qed.

Lemma plan_succeeds groups cs : Forall (fun c => valid_custom c = true) cs ->
  follow (env := never) (full_plan groups cs) [] = (None, (full_plan groups cs).*2) /\
  send_size (full_plan groups cs).*2 = Some (default 1048576 (last_send cs)).
Proof.
  intros Hv. split.
  - rewrite follow_all; [done|]. unfold full_plan. rewrite !Forall_app.
    split_and!; [by apply default_accepted|by apply valid_accepted|apply nic_accepted].
  - unfold full_plan. rewrite !fmap_app. apply last_send_size; [done|].
    unfold nic_plan. rewrite fmap_app. unfold send_size. rewrite omap_app. destruct groups as [|g gs]; [done|].
    cbn. change (list_fmap _ _ ?f ?l) with (f <$> l). rewrite <- list_fmap_compose. by induction gs.
Qed.

Lemma size_refused groups cs1 c cs2 : Forall (fun c => valid_custom c = true) cs1 -> valid_custom c = false ->
  exists what, follow (env := never) (full_plan groups (cs1 ++ c :: cs2)) [] =
    (Some (what +:+ ": invalid option value specified")%string, take (13 + length cs1) (full_plan groups (cs1 ++ c :: cs2)).*2) /\
    what ∈ ["set TCP send buffer size range"; "set TCP receive buffer size range"]%string.
Proof.
  intros Hv Hc. unfold full_plan. rewrite fmap_app, join_app, fmap_cons.
  change (mjoin (custom_plan c :: ?l)) with (custom_plan c ++ mjoin l).
  replace (default_plan ++ (mjoin (custom_plan <$> cs1) ++ custom_plan c ++ mjoin (custom_plan <$> cs2)) ++ nic_plan groups)
    with (setup_plan cs1 ++ custom_plan c ++ mjoin (custom_plan <$> cs2) ++ nic_plan groups)
    by (unfold setup_plan; by rewrite <- !app_assoc).
  assert (Forall (fun x => accepted (env := never) x.2) (setup_plan cs1)) as Ha.
  { apply Forall_app; split; [by apply default_accepted|by apply valid_accepted]. }
  assert (length (setup_plan cs1).*2 = (13 + length cs1)%nat) as Hl.
  { unfold setup_plan. by rewrite fmap_app, custom_requests, length_app, !length_fmap. }
  rewrite fmap_app, take_app_length' by done.
  destruct c as [|n|n]; [done|..]; cbn [custom_plan app]; eexists; (split; [apply follow_refused; [exact Ha|]|]).
  1, 3: unfold ask; cbn [checks]; unfold valid_range; cbn in Hc |- *; by rewrite Hc.
  all: apply list_elem_of_In; cbn; tauto.
Qed.

Lemma group_refused gs1 g gs2 cs e : g ∉ gs1 -> Forall (fun c => valid_custom c = true) cs ->
  exists s, follow (env := refusing g e) (full_plan (gs1 ++ g :: gs2) cs) [] =
    (Some ("join multicast group: " +:+ e)%string, s) /\ CreateNIC ∈ s.
Proof.
  intros Hg Hv.
  set (js := fun g => (Some "join multicast group"%string, JoinGroup (match g with Addr4 _ => false | Addr6 _ _ => true end) g)).
  set (l1 := setup_plan cs ++ take 6 (nic_plan [g]) ++ [(None, AddProtocolAddress groups_v4 8); (None, AddProtocolAddress groups_v6 8)] ++ (js <$> gs1)).
  assert (full_plan (gs1 ++ g :: gs2) cs = l1 ++ js g :: (js <$> gs2)) as ->.
  { unfold full_plan, l1, setup_plan, nic_plan. destruct gs1 as [|g1 gs1]; cbn [app]; rewrite <- !app_assoc; cbn [app take].
    - done.
    - change (g1 :: gs1 ++ g :: gs2) with ((g1 :: gs1) ++ g :: gs2). rewrite fmap_app. done. }
  exists (l1.*2). split; [apply (follow_refused (env := refusing g e) l1 "join multicast group" (js g).2 e (js <$> gs2) [])|].
  + apply Forall_app; split; [apply Forall_app; split; [by apply default_accepted|by apply valid_accepted]|].
    apply Forall_app; split; [by repeat constructor|]. apply Forall_app; split; [by repeat constructor|].
    apply Forall_fmap, Forall_forall. intros x Hx. split; [done|]. intros _ s. cbn. unfold refuses, refusing.
    rewrite decide_False; [done|]. by intros ->.
  + unfold ask. cbn. unfold refuses, refusing. by rewrite decide_True.
  + cbn [app]. unfold l1. rewrite !fmap_app. apply elem_of_app. right. apply elem_of_app. left. apply list_elem_of_In. cbn. tauto.
Qed.

(** nic.go means fd00::1/8: the literal of sixteen bytes has fifteen. *)
Example groups_v6_address : AddrString groups_v6 = "fd00::100"%string.
Proof. by vm_compute. Qed.

(** C40: creating the stack.  CreateStack asks gVisor for exactly the listed requests, in
    that order, and whatever is refused, at any moment: either it returns no error and every
    request whose error the code looks at was done, or it returns the error of the first
    such request that was refused, behind the words of that request, and nothing after it
    was asked for; requests whose error the code drops (ICMP limits, the addresses of the
    NIC) may be missing.  So when forwarding, the NIC, promiscuous mode, spoofing or a
    multicast group is refused there is an error, and the TCP and UDP handlers are in place
    before the NIC is created, as the comment in the code asks.  When nothing is refused
    CreateStack succeeds when every buffer size given is between 4 KiB and 4 MiB, and the
    last send buffer size given is the one in force; the first size out of range ends it
    before the NIC exists.  A multicast group that cannot be joined ends it after the NIC was
    created, and nothing removes it. *)
Theorem create_stack groups cs :
  let requests : plan :=
    [(Some "set ipv4 default TTL", DefaultTTLOption false 64); (Some "set ipv6 default TTL", DefaultTTLOption true 64);
     (Some "set ipv4 forwarding", Forwarding false true); (Some "set ipv6 forwarding", Forwarding true true);
     (None, SetICMPBurst 50); (None, SetICMPLimit 1000);
     (Some "set TCP send buffer size range", SendBufferSize (mkRange 4096 1048576 4194304));
     (Some "set TCP receive buffer size range", ReceiveBufferSize (mkRange 4096 1048576 4194304));
     (Some "set TCP congestion control algorithm", CongestionControl "reno"); (Some "set TCP delay", TCPDelay false);
     (Some "set TCP moderate receive buffer", ModerateReceiveBuffer false); (Some "set TCP SACK", SACKEnabled true);
     (Some "set TCP Recovery", TCPRecovery 1)]%string ++
    ((fun c => match c with
               | Moderate => (Some "set TCP moderate receive buffer", ModerateReceiveBuffer true)
               | SendSize n => (Some "set TCP send buffer size range", SendBufferSize (mkRange 4096 n 4194304))
               | ReceiveSize n => (Some "set TCP receive buffer size range", ReceiveBufferSize (mkRange 4096 n 4194304))
               end%string) <$> cs) ++
    [(None, TCPHandler); (None, UDPHandler); (Some "create NIC", CreateNIC); (Some "set promiscuous mode", PromiscuousMode true);
     (Some "set spoofing", Spoofing true); (None, RouteTable [(Addr4 0, 0); (Addr6 0 "", 0)])]%string ++
    (if bool_decide (groups = []) then []
     else [(None, AddProtocolAddress groups_v4 8); (None, AddProtocolAddress groups_v6 8)]) ++
    ((fun g => (Some "join multicast group"%string, JoinGroup (match g with Addr4 _ => false | Addr6 _ _ => true end) g)) <$> groups) in
  (forall env : StackEnv,
     match CreateStack groups (custom_option <$> cs) [] with
     | (None, s) => required requests `sublist_of` s /\ s `sublist_of` requests.*2
     | (Some err, s) => exists pre what q post e, requests = pre ++ (Some what, q) :: post /\
         err = (what +:+ ": " +:+ e)%string /\ fst (ask q s) = Some e /\
         required pre `sublist_of` s /\ s `sublist_of` pre.*2
     end) /\
  (forall (env : StackEnv) q e,
     q ∈ [Forwarding false true; Forwarding true true; CreateNIC; PromiscuousMode true; Spoofing true] \/
       (exists g, g ∈ groups /\ q = JoinGroup (match g with Addr4 _ => false | Addr6 _ _ => true end) g) ->
     (forall s, refuses s q = Some e) -> is_Some (fst (CreateStack groups (custom_option <$> cs) []))) /\
  (forall (env : StackEnv) pre post, snd (CreateStack groups (custom_option <$> cs) []) = pre ++ CreateNIC :: post ->
     TCPHandler ∈ pre /\ UDPHandler ∈ pre) /\
  (Forall (fun c => valid_custom c = true) cs ->
     CreateStack (env := never) groups (custom_option (env := never) <$> cs) [] = (None, requests.*2) /\
     send_size requests.*2 = Some (default 1048576 (last_send cs))) /\
  (forall cs1 c cs2, cs = cs1 ++ c :: cs2 -> Forall (fun c => valid_custom c = true) cs1 -> valid_custom c = false ->
     exists what, CreateStack (env := never) groups (custom_option (env := never) <$> cs) [] =
       (Some (what +:+ ": invalid option value specified")%string, take (13 + length cs1) requests.*2) /\
       what ∈ ["set TCP send buffer size range"; "set TCP receive buffer size range"]%string) /\
  (forall gs1 g gs2 e, groups = gs1 ++ g :: gs2 -> g ∉ gs1 -> Forall (fun c => valid_custom c = true) cs ->
     exists s, CreateStack (env := refusing g e) groups (custom_option (env := refusing g e) <$> cs) [] =
       (Some ("join multicast group: " +:+ e)%string, s) /\ CreateNIC ∈ s).
Proof.
  intros requests. assert (requests = full_plan groups cs) as -> by (symmetry; apply full_plan_literal). split_and!.
  - intros env. rewrite CreateStack_plan. apply plan_outcome.
  - intros env q e Hq Hr. rewrite CreateStack_plan. by eapply must_fail.
  - intros env pre post. rewrite CreateStack_plan. apply handlers_first.
  - intros Hv. rewrite CreateStack_plan. by apply plan_succeeds.
  - intros cs1 c cs2 -> Hv Hc. rewrite CreateStack_plan. by apply size_refused.
  - intros gs1 g gs2 e -> Hg Hv. rewrite CreateStack_plan. by apply group_refused.
Qed.

Definition w_v6 : Addr := Addr6 (0xff02 * 2 ^ 112 + 1) "".

(** The environment that refuses promiscuous mode. *)
Definition w_denied : StackEnv := fun _ q => match q with PromiscuousMode _ => Some "denied"%string | _ => None end.

Lemma create_stack_witness :
  snd (CreateStack (env := never) [] [] []) = (full_plan [] []).*2 /\
  is_Some (fst (CreateStack (env := w_denied) [] [] [])) /\
  fst (CreateStack (env := never) [] (custom_option (env := never) <$> [SendSize 8192; SendSize 100]) []) =
    Some "set TCP send buffer size range: invalid option value specified"%string /\
  (exists s, CreateStack (env := refusing w_v6 "no device") [w_v6] [] [] = (Some "join multicast group: no device"%string, s) /\ CreateNIC ∈ s).
Proof.
  split_and!.
  - destruct (create_stack [] []) as (_ & _ & _ & H & _). destruct H as [E _]; [done|]. exact (f_equal snd E).
  - destruct (create_stack [] []) as (_ & H & _). apply (H w_denied (PromiscuousMode true) "denied"%string); [|done].
    left. apply list_elem_of_In. cbn. tauto.
  - destruct (create_stack [] [SendSize 8192; SendSize 100]) as (_ & _ & _ & _ & H & _).
    destruct (H [SendSize 8192] (SendSize 100) []) as (what & E & _); [done|by repeat constructor|done|].
    by vm_compute.
  - destruct (create_stack [w_v6] []) as (_ & _ & _ & _ & _ & H).
    apply (H [] w_v6 [] "no device"%string); [done|apply not_elem_of_nil|done].
Defined.

(** C39: handing connections to the tunnel, for every interleaving of the packets, the
    handshakes, the loop of the tunnel and its Close.  Every TCP request accepted is exactly
    one of: handed to handleTCPConn once, reset, or still in flight, of which there are at
    most 2048, all different; UDP sessions are handed over in the order they came.  While
    the loop runs it can take every connection that waits.  Once it has returned nothing is
    ever handled again; the first UDP session that then arrives blocks gVisor's dispatcher,
    and no connection of either kind is accepted any more. *)
Theorem tunnel_queues acts t : tunnel_run acts NewTunnel = Some t ->
  tcp_ids (accepted_ids t) ≡ₚ tcp_ids (handled t) ++ resets t ++ inFlight t /\
  udp_ids (accepted_ids t) = udp_ids (handled t) ++ option_list (udpSender t) /\
  zlen (inFlight t) <= 2048 /\ NoDup (inFlight t) /\
  (running t = true -> (forall id, id ∈ tcpSenders t -> is_Some (tunnel_step (TakeTCP id) t)) /\
     (is_Some (udpSender t) -> is_Some (tunnel_step TakeUDP t))) /\
  (started t = true -> running t = false -> forall acts' t', tunnel_run acts' t = Some t' ->
     handled t' = handled t /\ (is_Some (udpSender t) -> udpSender t' = udpSender t /\ accepted_ids t' = accepted_ids t)) /\
  (udpSender t = None -> forall id, exists t', tunnel_step (Datagram id true) t = Some t' /\ udpSender t' = Some id).
Proof.
  intros E. assert (tunnel_ok t) as [H1 H2 H3 H4 H5].
  { eapply tunnel_run_ok; [|exact E]. by repeat constructor. }
  split_and!; try done.
  - intros Hr. destruct t as [fl sh ts us st ru ca ac ha re]. cbn in *. subst ru. split.
    + intros id Hi. rewrite bool_decide_eq_true_2 by done. by eexists.
    + intros [id ->]. by eexists.
  - intros Hs Hr acts' t' E'. by eapply halted_run.
  - intros Hu id. destruct t as [fl sh ts us st ru ca ac ha re]. cbn in *. subst us. by eexists.
Qed.

Definition w_queue : list taction :=
  [ProcessAsync; Syn 7; Shaken 7 true; Syn 8; Shaken 8 false; Datagram 9 true; TakeUDP; TakeTCP 7; Close; ProcessExit; Datagram 10 true].

Lemma tunnel_queues_witness : exists t, tunnel_run w_queue NewTunnel = Some t /\
  handled t = [(IsUDP, 9); (IsTCP, 7)] /\ resets t = [8] /\ tunnel_step (Syn 11) t = None /\
  forall acts' t', tunnel_run acts' t = Some t' -> handled t' = [(IsUDP, 9); (IsTCP, 7)].
Proof.
  eexists. split; [vm_compute; reflexivity|]. split_and!; [done..|]. intros acts' t' E.
  match type of E with tunnel_run _ ?t = _ => destruct (tunnel_queues w_queue t) as (_ & _ & _ & _ & _ & H & _); [vm_compute; reflexivity|] end.
  by destruct (H eq_refl eq_refl acts' t' E) as [-> _].
Defined.

(** The link: through a TUN device exactly the packets of IPv4 and IPv6 that fit the MTU
    reach the stack, in order, and nothing panics; what the stack sends is the packet behind
    the offset.  Through a file with a header of [offset] bytes in front of each packet (the
    fd device of iOS) packets that leave no room for the header within the MTU are dropped,
    and the others get [offset] zeros at their end. *)
Lemma link_packets mtu offset l head pkt : 0 <= offset -> pkt <> [] -> zlen pkt <= mtu ->
  dispatchLoop mtu offset ((fun x => (x.1, (tun_read mtu offset x.2).1, (tun_read mtu offset x.2).2)) <$> l) = Ret (omap (passes mtu) l) /\
  drop (Z.to_nat offset) (writePacket offset pkt) = pkt /\
  dispatch mtu (zlen head) true (file_read mtu (zlen head) head pkt).1 (file_read mtu (zlen head) head pkt).2 =
    Ret (if zlen head + zlen pkt <=? mtu then inject (pkt ++ replicate (length head) 0) else None).
Proof.
  intros Ho Hp Hm. split_and!; [by apply dispatchLoop_tun| |by apply dispatch_file].
  unfold writePacket. by rewrite drop_app_length' by (rewrite length_replicate; lia).
Qed.

End Netstack.
