(* ===== verification/Engine.v ===== *)
(** * The engine's life cycle
      (src/tun2socks/engine/engine.go, src/mobile/mobile_api.go)

    Package variables of the engine: the key, the injected proxy, and the device and stack
    of the last start.  What it calls to parse, open and create them is a parameter; the
    devices and stacks themselves are numbered, and the calls that open and close them are
    recorded in order.  On top of it the life cycle the Android app drives. *)

From S2P Require Import Prelude GoStrings GoState NetIP Policy.

Module Engine.

(** key.go. *)
Record Key := mkKey {
  MTU : Z; Mark : Z; Proxy : string; RestAPI : string; Device : string; LogLevel : string;
  Interface : string; TCPModerateReceiveBuffer : bool; TCPSendBufferSize : string;
  TCPReceiveBufferSize : string; MulticastGroups : string; TUNPreUp : string; TUNPostUp : string;
  UDPTimeout : Z
}.

(** What the engine does to the outside. *)
Inductive effect :=
| SetLogger (level : string)
| BindInterface (name : string)
| SetMark (mark : Z)
| SetUDPTimeout (d : Z)
| ServeREST (url : string)
| Execute (cmd : string)
| SetDialer (proxy : string)
| OpenDevice (id : nat)
| CreateStack (id : nat)
| CloseDevice (id : nat)
| CloseStack (id : nat).
#[export] Instance effect_eq_dec : EqDecision effect.
Proof. solve_decision. Defined.

Record engine := mkEngine {
  defaultKey : option Key;
  customProxy : option string;
  defaultProxy : option string;
  defaultDevice : option nat;
  defaultStack : option nat;
  fresh : nat;                   (* the number of the next device or stack *)
  effects : list effect
}.

Definition newEngine : engine := mkEngine None None None None None 0 [].

Definition E : Type -> Type := St engine.

Definition get {A} (f : engine -> A) : E A := fun s => (Ret (f s), s).
Definition put (f : engine -> engine) : E unit := fun s => (Ret tt, f s).

Definition log_effect (x : effect) (s : engine) : engine :=
  mkEngine (defaultKey s) (customProxy s) (defaultProxy s) (defaultDevice s) (defaultStack s) (fresh s) (effects s ++ [x]).
Definition set_proxy (p : option string) (s : engine) : engine :=
  mkEngine (defaultKey s) (customProxy s) p (defaultDevice s) (defaultStack s) (fresh s) (effects s).
Definition set_device (d : option nat) (s : engine) : engine :=
  mkEngine (defaultKey s) (customProxy s) (defaultProxy s) d (defaultStack s) (fresh s) (effects s).
Definition set_stack (d : option nat) (s : engine) : engine :=
  mkEngine (defaultKey s) (customProxy s) (defaultProxy s) (defaultDevice s) d (fresh s) (effects s).
Definition bump (s : engine) : engine :=
  mkEngine (defaultKey s) (customProxy s) (defaultProxy s) (defaultDevice s) (defaultStack s) (S (fresh s)) (effects s).

Definition emit (x : effect) : E unit := put (log_effect x).

Definition SetCustomProxy (p : string) : E unit := put (fun s =>
  mkEngine (defaultKey s) (Some p) (defaultProxy s) (defaultDevice s) (defaultStack s) (fresh s) (effects s)).
Definition ClearCustomProxy : E unit := put (fun s =>
  mkEngine (defaultKey s) None (defaultProxy s) (defaultDevice s) (defaultStack s) (fresh s) (effects s)).
Definition Insert (k : Key) : E unit := put (fun s =>
  mkEngine (Some k) (customProxy s) (defaultProxy s) (defaultDevice s) (defaultStack s) (fresh s) (effects s)).

(** What the engine calls: zap's levels, the operating system, url and size parsers, the
    device drivers and gVisor.  A command's error is only logged. *)
Class Deps := {
  zapParseLevel : string -> go string;
  InterfaceByName : string -> go string;
  parseRestAPI : string -> go string;
  parseProxy : string -> go string;
  parseDevice : string -> Z -> go unit;
  RAMInBytes : string -> go Z;
  createStack : list Addr -> list (option Z) -> go unit;
}.

(** [Addr.IsMulticast]. *)
Definition IsMulticast (a : Addr) : bool :=
  match Unmap a with
  | Addr4 v => Z.shiftr v 28 =? 0xe
  | Addr6 v _ => Z.shiftr v 120 =? 0xff
  end.

(** parse.go: parseMulticastGroups, over the parts between commas. *)
Fixpoint multicast_loop (parts : list string) (acc : list Addr) : go (list Addr) :=
  match parts with
  | [] => Ret acc
  | ip :: parts =>
    let ip := Policy.TrimSpace ip in
    if decide (ip = "")%string then multicast_loop parts acc
    else
      match ParseAddr ip with
      | None => Err ("ParseAddr: " +:+ ip)
      | Some addr =>
        if IsMulticast addr then multicast_loop parts (acc ++ [addr])
        else Err ("invalid multicast IP: " +:+ AddrString addr)
      end
  end.
Definition parseMulticastGroups (s : string) : go (list Addr) :=
  multicast_loop (string_of_bytes <$> split_byte 44 (bytes_of_string s)) [].

Section engine.
Context `{Deps}.

Definition nonempty (s : string) : bool := negb (bool_decide (s = "")%string).

(** log/level.go. *)
Definition ParseLevel (text : string) : go string :=
  if bool_decide (text = "silent" \/ text = "SILENT")%string then Ret "silent"%string else zapParseLevel text.

Definition general (k : Key) : E unit :=
  level <~ stlift (ParseLevel (LogLevel k)) ;
  emit (SetLogger level) ~;
  (if nonempty (Interface k) then
     name <~ stlift (InterfaceByName (Interface k)) ;
     emit (BindInterface name)
   else stret tt) ~;
  (if negb (Mark k =? 0) then emit (SetMark (Mark k)) else stret tt) ~;
  (if 0 <? UDPTimeout k then
     if UDPTimeout k <? 10 ^ 9 then stfail "invalid udp timeout value"
     else emit (SetUDPTimeout (UDPTimeout k))
   else stret tt).

Definition restAPI (k : Key) : E unit :=
  if nonempty (RestAPI k) then
    u <~ stlift (parseRestAPI (RestAPI k)) ;
    emit (ServeREST u)
  else stret tt.

(** [_defaultDevice, err = parseDevice(...)]: the variable is nil after an error. *)
Definition open_device (k : Key) : E unit := fun s =>
  match parseDevice (Device k) (u32 (MTU k)) with
  | Ret _ => (Ret tt, log_effect (OpenDevice (fresh s)) (bump (set_device (Some (fresh s)) s)))
  | Err e => (Err e, set_device None s)
  | Panic => (Panic, s)
  end.

(** [_defaultStack, err = core.CreateStack(...)]. *)
Definition open_stack (groups : list Addr) (opts : list (option Z)) : E unit := fun s =>
  match createStack groups opts with
  | Ret _ => (Ret tt, log_effect (CreateStack (fresh s)) (bump (set_stack (Some (fresh s)) s)))
  | Err e => (Err e, set_stack None s)
  | Panic => (Panic, s)
  end.

(** A buffer size option: [None] is TCPModerateReceiveBuffer. *)
Definition size_option (text : string) : go (list (option Z)) :=
  if nonempty text then let! size := RAMInBytes text in Ret [Some size] else Ret [].

Definition choose_proxy (k : Key) : E unit :=
  custom <~ get customProxy ;
  match custom with
  | Some p => put (set_proxy (Some p))
  | None => fun s =>
    match parseProxy (Proxy k) with
    | Ret p => (Ret tt, set_proxy (Some p) s)
    | Err e => (Err e, set_proxy None s)
    | Panic => (Panic, s)
    end
  end.

Definition netstack (k : Key) : E unit :=
  custom <~ get customProxy ;
  if bool_decide (Proxy k = "")%string && negb (bool_decide (is_Some custom)) then stfail "empty proxy"
  else if bool_decide (Device k = "")%string then stfail "empty device"
  else
    (if nonempty (TUNPreUp k) then emit (Execute (TUNPreUp k)) else stret tt) ~;
    choose_proxy k ~;
    proxy <~ get defaultProxy ;
    emit (SetDialer (default "" proxy)) ~;
    open_device k ~;
    groups <~ stlift (parseMulticastGroups (MulticastGroups k)) ;
    snd_opt <~ stlift (size_option (TCPSendBufferSize k)) ;
    rcv_opt <~ stlift (size_option (TCPReceiveBufferSize k)) ;
    open_stack groups ((if TCPModerateReceiveBuffer k then [None] else []) ++ snd_opt ++ rcv_opt) ~;
    (if nonempty (TUNPostUp k) then emit (Execute (TUNPostUp k)) else stret tt).

Definition start : E unit :=
  key <~ get defaultKey ;
  match key with
  | None => stfail "empty key"
  | Some k => general k ~; restAPI k ~; netstack k
  end.
Definition StartErr : E unit := start.

(** The variables keep the closed device and stack. *)
Definition stop : E unit :=
  d <~ get defaultDevice ;
  (match d with Some i => emit (CloseDevice i) | None => stret tt end) ~;
  t <~ get defaultStack ;
  (match t with Some i => emit (CloseStack i) | None => stret tt end).
Definition StopErr : E unit := stop.
End engine.

(** ** The Android app's view (mobile_api.go) *)

Record app := mkApp {
  workingDir : string; isRunning : bool; logWriter : bool; logEntries : list string; eng : engine
}.

Definition newApp : app := mkApp "" false false [] newEngine.

Definition SetWorkingDir (dir : string) (a : app) : app :=
  mkApp dir (isRunning a) (logWriter a) (logEntries a) (eng a).
Definition IsRunning (a : app) : bool := isRunning a.

Definition mobile_key (fd : Z) : Key :=
  mkKey 1500 0 "" "" ("fd://" +:+ Itoa fd) "info" "" false "" "" "" "" "" 0.

(** The message StartBill logs first, and LoadConfig on [filepath.Join(workingDir, name)]. *)
Class Config := { startLine : string; LoadConfig : string -> string -> option string }.

(** The part of StartBill after the configuration was loaded: the error, if any. *)
Definition start_engine `{Deps} (fd : Z) : St engine (option string) := fun s =>
  match (SetCustomProxy "bill" ~; Insert (mobile_key fd) ~; StartErr) s with
  | (Ret _, s) => (Ret None, s)
  | (Err e, s) => (ClearCustomProxy ~; stret (Some ("engine start error: " +:+ e)%string)) s
  | (Panic, s) => (Panic, s)
  end.

Definition StartBill `{Deps, Config} (fd : Z) (configName : string) (a : app) : go string * app :=
  if decide (workingDir a = "")%string then (Ret "working directory not set"%string, a)
  else if isRunning a then (Ret ""%string, a)
  else
    let a := mkApp (workingDir a) false true [startLine] (eng a) in
    match LoadConfig (workingDir a) (configName +:+ ".json") with
    | Some e => (Ret ("load config error: " +:+ e)%string, a)
    | None =>
      match start_engine fd (eng a) with
      | (Ret None, s) => (Ret ""%string, mkApp (workingDir a) true true (logEntries a) s)
      | (Ret (Some e), s) => (Ret e, mkApp (workingDir a) false true (logEntries a) s)
      | (Err e, s) => (Err e, mkApp (workingDir a) false true (logEntries a) s)
      | (Panic, s) => (Panic, mkApp (workingDir a) false true (logEntries a) s)
      end
    end.

Definition StopBill (a : app) : app :=
  if negb (isRunning a) then a
  else
    let (_, s) := (fun s => let (_, s) := StopErr s in ClearCustomProxy s) (eng a) in
    mkApp (workingDir a) false false (logEntries a) s.

(** ** Devices opened and closed *)

Definition opens (l : list effect) : list nat := omap (fun x => match x with OpenDevice i => Some i | _ => None end) l.
Definition closes (l : list effect) : list nat := omap (fun x => match x with CloseDevice i => Some i | _ => None end) l.

Lemma opens_app l k : opens (l ++ k) = opens l ++ opens k.
Proof. apply omap_app. Qed.
Lemma closes_app l k : closes (l ++ k) = closes l ++ closes k.
Proof. apply omap_app. Qed.

(** [s'] is [s] after effects that open the devices [ds] and close none. *)
Record after (s : engine) (ds : list nat) (s' : engine) : Prop := {
  af_effects : exists fx, effects s' = effects s ++ fx /\ opens fx = ds /\ closes fx = [];
  af_custom : customProxy s' = customProxy s;
  af_fresh : (fresh s <= fresh s')%nat;
  af_new : Forall (fun d => fresh s <= d < fresh s')%nat ds
}.

Lemma after_refl s : after s [] s.
Proof. constructor; try done. exists []. by rewrite app_nil_r. Qed.

Lemma after_trans s ds s1 ds' s2 : after s ds s1 -> after s1 ds' s2 -> after s (ds ++ ds') s2.
Proof.
  intros [(fx & E1 & O1 & C1) P1 F1 N1] [(fx' & E2 & O2 & C2) P2 F2 N2]. constructor.
  - exists (fx ++ fx'). by rewrite E2, E1, opens_app, closes_app, O1, O2, C1, C2, app_assoc.
  - congruence.
  - lia.
  - apply Forall_app. split; eapply Forall_impl; [exact N1| |exact N2|]; simpl; lia.
Qed.

(** Operations that open and close nothing and keep the device. *)
Definition quiet {A} (m : E A) : Prop := forall s, after s [] (snd (m s)) /\ defaultDevice (snd (m s)) = defaultDevice s.

Lemma quiet_bind {A B} (m : E A) (k : A -> E B) : quiet m -> (forall a, quiet (k a)) -> quiet (stbind m k).
Proof.
  intros Hm Hk s. unfold stbind. destruct (Hm s) as [H1 H2]. destruct (m s) as [[a|e|] s1]; [|done..].
  destruct (Hk a s1) as [H3 H4]. cbn [snd] in *. split; [by apply (after_trans s [] s1 [])|congruence].
Qed.
Lemma quiet_ret {A} (a : A) : quiet (stret a).
Proof. intros s. split; [apply after_refl|done]. Qed.
Lemma quiet_fail {A} e : quiet (stfail (A := A) e).
Proof. intros s. split; [apply after_refl|done]. Qed.
Lemma quiet_lift {A} (m : go A) : quiet (stlift m).
Proof. intros s. split; [apply after_refl|done]. Qed.
Lemma quiet_get {A} (f : engine -> A) : quiet (get f).
Proof. intros s. split; [apply after_refl|done]. Qed.
Lemma quiet_emit x : opens [x] = [] -> closes [x] = [] -> quiet (emit x).
Proof. intros Ho Hc s. split; [|done]. constructor; try done. by exists [x]. Qed.
Lemma quiet_proxy p : quiet (put (set_proxy p)).
Proof. intros s. split; [|done]. constructor; try done. exists []. by rewrite app_nil_r. Qed.

Create HintDb quiet.
#[export] Hint Resolve quiet_ret quiet_fail quiet_lift quiet_get quiet_proxy : quiet.
#[export] Hint Extern 1 (quiet (emit _)) => (apply quiet_emit; reflexivity) : quiet.

Ltac quiet_solve :=
  repeat (apply quiet_bind; [|intros ?]);
  repeat match goal with
  | |- quiet (if ?b then _ else _) => destruct b
  | |- quiet (match ?o with Some _ => _ | None => _ end) => destruct o
  | |- quiet (stbind _ _) => apply quiet_bind; [|intros ?]
  end; auto with quiet.

Section start.
Context `{Deps}.

Lemma quiet_general k : quiet (general k).
Proof. unfold general. quiet_solve. Qed.
Lemma quiet_restAPI k : quiet (restAPI k).
Proof. unfold restAPI. quiet_solve. Qed.

Lemma quiet_choose k : quiet (choose_proxy k).
Proof.
  unfold choose_proxy. quiet_solve. intros s.
  destruct (parseProxy (Proxy k)) as [p|e|]; cbn [snd]; [exact (quiet_proxy (Some p) s)|exact (quiet_proxy None s)|].
  split; [apply after_refl|done].
Qed.

Lemma open_stack_spec groups opts s :
  after s [] (snd (open_stack groups opts s)) /\ defaultDevice (snd (open_stack groups opts s)) = defaultDevice s /\
  (fst (open_stack groups opts s) = Ret tt -> is_Some (defaultStack (snd (open_stack groups opts s)))).
Proof.
  unfold open_stack. destruct (createStack groups opts) as [[]|e|]; cbn [fst snd].
  - split; [|split; [done|by eexists]]. constructor; simpl; try done; [|lia]. by exists [CreateStack (fresh s)].
  - split; [|done]. constructor; try done. exists []. by rewrite app_nil_r.
  - split; [apply after_refl|done].
Qed.

Lemma open_device_spec k s :
  match open_device k s with
  | (Ret _, s') => after s [fresh s] s' /\ defaultDevice s' = Some (fresh s)
  | (_, s') => after s [] s'
  end.
Proof.
  unfold open_device. destruct (parseDevice _ _) as [u|e|]; [| |apply after_refl].
  - split; [|done]. constructor; simpl; try done; [by exists [OpenDevice (fresh s)]|lia|]. repeat constructor; simpl; lia.
  - constructor; try done. exists []. by rewrite app_nil_r.
Qed.

(** How a start ends: with a device and a stack, or with an error and at most one device
    opened. *)
Definition start_post (s : engine) (r : go unit) (s' : engine) : Prop :=
  match r with
  | Ret _ => exists d, after s [d] s' /\ defaultDevice s' = Some d /\ is_Some (defaultStack s')
  | _ => after s [] s' \/ exists d, after s [d] s'
  end.

Lemma start_post_quiet {A} (m : E A) (k : A -> E unit) : quiet m ->
  (forall a s, start_post s (fst (k a s)) (snd (k a s))) -> forall s, start_post s (fst (stbind m k s)) (snd (stbind m k s)).
Proof.
  intros Hm Hk s. unfold stbind. destruct (Hm s) as [H1 _]. destruct (m s) as [[a|e|] s1]; cbn [fst snd] in *; [|by left..].
  specialize (Hk a s1). unfold start_post in *. destruct (fst (k a s1)) as [u|e|].
  - destruct Hk as (d & Ha & Hd). exists d. split; [|done]. by apply (after_trans s [] s1 [d]).
  - destruct Hk as [Hk|[d Hk]]; [left; by apply (after_trans s [] s1 [])|right; exists d; by apply (after_trans s [] s1 [d])].
  - destruct Hk as [Hk|[d Hk]]; [left; by apply (after_trans s [] s1 [])|right; exists d; by apply (after_trans s [] s1 [d])].
Qed.

(** The end of netstack, once the device is open. *)
Definition with_device (k : Key) : E unit :=
  groups <~ stlift (parseMulticastGroups (MulticastGroups k)) ;
  snd_opt <~ stlift (size_option (TCPSendBufferSize k)) ;
  rcv_opt <~ stlift (size_option (TCPReceiveBufferSize k)) ;
  open_stack groups ((if TCPModerateReceiveBuffer k then [None] else []) ++ snd_opt ++ rcv_opt) ~;
  (if nonempty (TUNPostUp k) then emit (Execute (TUNPostUp k)) else stret tt).

Lemma with_device_spec k s : after s [] (snd (with_device k s)) /\ defaultDevice (snd (with_device k s)) = defaultDevice s /\
  (fst (with_device k s) = Ret tt -> is_Some (defaultStack (snd (with_device k s)))).
Proof.
  unfold with_device, stlift. unfold stbind at 1. destruct (parseMulticastGroups _) as [gs|e|]; [|split; [apply after_refl|]; split; [reflexivity|discriminate]..].
  unfold stbind at 1. destruct (size_option _) as [o1|e|]; [|split; [apply after_refl|]; split; [reflexivity|discriminate]..].
  unfold stbind at 1. destruct (size_option _) as [o2|e|]; [|split; [apply after_refl|]; split; [reflexivity|discriminate]..].
  destruct (open_stack_spec gs ((if TCPModerateReceiveBuffer k then [None] else []) ++ o1 ++ o2) s) as (H1 & H2 & H3).
  unfold stbind. destruct (open_stack gs _ s) as [[[]|e|] s1]; cbn [fst snd] in *; [|done..].
  destruct (nonempty _); [|done]. cbn. split; [|split; [done|by intros _; apply H3]].
  apply (after_trans s [] s1 [] _ H1). constructor; try done. by exists [Execute (TUNPostUp k)].
Qed.

Lemma device_post k s : let m := stbind (open_device k) (fun _ => with_device k) in start_post s (fst (m s)) (snd (m s)).
Proof.
  cbv zeta. unfold stbind. pose proof (open_device_spec k s) as Hd.
  destruct (open_device k s) as [[[]|e|] s1]; [|by left..]. destruct Hd as [Ha Hd].
  destruct (with_device_spec k s1) as (H1 & H2 & H3).
  pose proof (after_trans _ _ _ _ _ Ha H1) as Hall. rewrite app_nil_r in Hall.
  destruct (with_device k s1) as [[[]|e|] s2]; cbn [fst snd] in *.
  - exists (fresh s). split_and!; [done|congruence|by apply H3].
  - right. by exists (fresh s).
  - right. by exists (fresh s).
Qed.

Lemma netstack_post k s : start_post s (fst (netstack k s)) (snd (netstack k s)).
Proof.
  unfold netstack. revert s. apply start_post_quiet; [auto with quiet|]. intros custom s.
  destruct (_ && _); [left; apply after_refl|]. destruct (bool_decide _); [left; apply after_refl|]. revert s.
  apply start_post_quiet; [quiet_solve|intros _]. apply start_post_quiet; [apply quiet_choose|intros _].
  apply start_post_quiet; [auto with quiet|intros p]. apply start_post_quiet; [auto with quiet|intros _].
  intros s. exact (device_post k s).
Qed.

Lemma start_spec s : start_post s (fst (StartErr s)) (snd (StartErr s)).
Proof.
  unfold StartErr, start. revert s. apply start_post_quiet; [auto with quiet|]. intros [k|] s; [|left; apply after_refl].
  revert s. apply start_post_quiet; [apply quiet_general|intros _].
  apply start_post_quiet; [apply quiet_restAPI|intros _]. apply netstack_post.
Qed.
End start.

(** ** Every sequence of calls of the app *)

(** The devices opened since [a]. *)
Definition opened_since (a a' : app) : list nat := opens (drop (length (effects (eng a))) (effects (eng a'))).

(** The states the app's calls lead to, with the devices that starts which failed had
    opened.  Each start finds its own surroundings. *)
Inductive reachable : list nat -> app -> Prop :=
| reach_new : reachable [] newApp
| reach_dir lost a dir : reachable lost a -> reachable lost (SetWorkingDir dir a)
| reach_stop lost a : reachable lost a -> reachable lost (StopBill a)
| reach_start lost a (deps : Deps) (conf : Config) fd name r a' : reachable lost a -> StartBill fd name a = (Ret r, a') ->
    reachable (lost ++ (if isRunning a' then [] else opened_since a a')) a'.

(** The device in use. *)
Definition in_use (a : app) : list nat := if isRunning a then option_list (defaultDevice (eng a)) else [].

Record inv (lost : list nat) (a : app) : Prop := {
  inv_ledger : opens (effects (eng a)) ≡ₚ closes (effects (eng a)) ++ lost ++ in_use a;
  inv_nodup : NoDup (opens (effects (eng a)));
  inv_fresh : Forall (fun d => d < fresh (eng a))%nat (opens (effects (eng a)));
  inv_running : isRunning a = true -> is_Some (defaultDevice (eng a)) /\ is_Some (defaultStack (eng a)) /\
                customProxy (eng a) = Some "bill"%string;
  inv_stopped : isRunning a = false -> customProxy (eng a) = None
}.

Lemma after_opens s ds s' : after s ds s' ->
  opens (effects s') = opens (effects s) ++ ds /\ closes (effects s') = closes (effects s) /\
  opens (drop (length (effects s)) (effects s')) = ds.
Proof.
  intros [(fx & E & O & C) _ _ _]. rewrite E, opens_app, closes_app, O, C, drop_app_length, app_nil_r. done.
Qed.

(** New devices have new numbers. *)
Lemma after_nodup s ds s' : after s ds s' -> (length ds <= 1)%nat -> NoDup (opens (effects s)) ->
  Forall (fun d => d < fresh s)%nat (opens (effects s)) ->
  NoDup (opens (effects s')) /\ Forall (fun d => d < fresh s')%nat (opens (effects s')).
Proof.
  intros Ha Hl Hn Hf. destruct (after_opens _ _ _ Ha) as (-> & _ & _). pose proof (af_fresh _ _ _ Ha) as HF.
  pose proof (af_new _ _ _ Ha) as HN. split.
  - apply NoDup_app. split_and!; [done| |by destruct ds as [|? []]; simpl in Hl; [constructor|apply NoDup_singleton|lia]].
    intros d Hd Hd'. rewrite Forall_forall in Hf, HN. apply Hf in Hd. apply HN in Hd'. lia.
  - apply Forall_app. split; eapply Forall_impl; [exact Hf| |exact HN|]; simpl; lia.
Qed.

(** The setters before a start leave the ledger alone. *)
Lemma start_engine_spec `{Deps} fd s :
  match start_engine fd s with
  | (Ret None, s') => exists d, opens (effects s') = opens (effects s) ++ [d] /\ closes (effects s') = closes (effects s) /\
      defaultDevice s' = Some d /\ is_Some (defaultStack s') /\ customProxy s' = Some "bill"%string
  | (Ret (Some _), s') => exists ds, opens (effects s') = opens (effects s) ++ ds /\ closes (effects s') = closes (effects s) /\
      opens (drop (length (effects s)) (effects s')) = ds /\ customProxy s' = None
  | _ => True
  end /\
  (NoDup (opens (effects s)) -> Forall (fun d => d < fresh s)%nat (opens (effects s)) ->
   NoDup (opens (effects (snd (start_engine fd s)))) /\
   Forall (fun d => d < fresh (snd (start_engine fd s)))%nat (opens (effects (snd (start_engine fd s))))).
Proof.
  unfold start_engine. cbn [stbind SetCustomProxy Insert put]. unfold stbind at 1. cbn [SetCustomProxy put].
  unfold stbind at 1. cbn [Insert put].
  match goal with |- context [StartErr ?x] => set (s0 := x) end.
  assert (effects s0 = effects s /\ fresh s0 = fresh s /\ customProxy s0 = Some "bill"%string) as (E0 & F0 & P0) by done.
  pose proof (start_spec s0) as HS. destruct (StartErr s0) as [[u|e|] s1]; cbn [fst snd] in *.
  - destruct HS as (d & Ha & Hd & Ht). rewrite <- E0, <- F0. split; [|intros; by eapply after_nodup].
    destruct (after_opens _ _ _ Ha) as (-> & -> & _). exists d. split_and!; try done. by rewrite (af_custom _ _ _ Ha).
  - assert (exists ds, after s0 ds s1 /\ (length ds <= 1)%nat) as (ds & Ha & Hl).
    { destruct HS as [Ha|[d Ha]]; [exists []|exists [d]]; split; simpl; (done || lia). }
    unfold stbind, ClearCustomProxy, put, stret. cbn [fst snd effects fresh]. rewrite <- E0, <- F0.
    split; [|intros; by eapply after_nodup]. destruct (after_opens _ _ _ Ha) as (-> & -> & Ho). by exists ds.
  - assert (exists ds, after s0 ds s1 /\ (length ds <= 1)%nat) as (ds & Ha & Hl).
    { destruct HS as [Ha|[d Ha]]; [exists []|exists [d]]; split; simpl; (done || lia). }
    split; [done|]. rewrite <- E0, <- F0. intros; by eapply after_nodup.
Qed.

Lemma inv_start lost a (deps : Deps) (conf : Config) fd name r a' : inv lost a -> StartBill fd name a = (Ret r, a') ->
  inv (lost ++ (if isRunning a' then [] else opened_since a a')) a'.
Proof.
  intros Hi Es. unfold StartBill in Es. assert (opened_since a a = []) as Hs by (unfold opened_since; by rewrite drop_all).
  case_decide; [simplify_eq; destruct (isRunning a'); by rewrite ?Hs, app_nil_r|].
  destruct (isRunning a) eqn:Er; [simplify_eq; by rewrite Er, app_nil_r|].
  destruct Hi as [Hl Hn Hf _ Hp]. unfold in_use in Hl. rewrite Er, app_nil_r in Hl. cbv zeta in Es. cbn [workingDir logEntries eng] in Es.
  destruct (LoadConfig _ _) as [e|].
  { simplify_eq. cbn [isRunning]. assert (opened_since a (mkApp (workingDir a) false true [startLine] (eng a)) = []) as -> by exact Hs.
    rewrite app_nil_r. constructor; unfold in_use; cbn [isRunning eng]; try done; [by rewrite app_nil_r|by intros _; apply Hp]. }
  destruct (start_engine_spec fd (eng a)) as [HS HN]. destruct (HN Hn Hf) as [Hn' Hf'].
  destruct (start_engine fd (eng a)) as [[[e|]|e|] s1]; try done; cbn [snd] in *; simplify_eq; cbn [isRunning].
  - destruct HS as (ds & Ho & Hc & Hd & HP). constructor; unfold in_use; cbn [isRunning eng]; try done.
    unfold opened_since. cbn [eng]. rewrite Hd, Ho, Hc, Hl, app_nil_r. by rewrite <- app_assoc.
  - destruct HS as (d & Ho & Hc & Hd & Ht & HP). rewrite app_nil_r. constructor; unfold in_use; cbn [isRunning eng]; try done.
    rewrite Hd, Ho, Hc, Hl. cbn [option_list]. by rewrite <- app_assoc.
Qed.

Lemma inv_stop lost a : inv lost a -> inv lost (StopBill a).
Proof.
  intros Hi. unfold StopBill. destruct (isRunning a) eqn:Er; cbn [negb]; [|done].
  destruct Hi as [Hl Hn Hf Hr _]. destruct (Hr Er) as ([d Hd] & [t Ht] & _). unfold in_use in Hl. rewrite Er, Hd in Hl.
  unfold StopErr, stop, stbind, get, emit, put. rewrite Hd. cbn [log_effect defaultStack]. rewrite Ht.
  cbn [ClearCustomProxy put log_effect].
  constructor; unfold in_use; unfold log_effect; cbn [isRunning eng effects fresh customProxy]; try done; rewrite !opens_app; cbn [opens omap list_omap];
    rewrite ?app_nil_r; try done.
  rewrite !closes_app. cbn [closes omap list_omap]. rewrite app_nil_r, Hl. cbn [option_list].
  rewrite <- !app_assoc. f_equiv. apply Permutation_app_comm.
Qed.

Lemma app_inv_reachable lost a : reachable lost a -> inv lost a.
Proof.
  induction 1 as [|lost a dir _ IH|lost a _ IH|lost a deps conf fd name r a' _ IH E].
  - constructor; try done. constructor.
  - destruct IH as [Hl Hn Hf Hr Hp]. constructor; done.
  - by apply inv_stop.
  - by eapply inv_start.
Qed.

(** A start that fails after the device was opened. *)
Definition w_deps (stack : go unit) : Deps :=
  {| zapParseLevel := fun s => Ret s; InterfaceByName := fun s => Ret s; parseRestAPI := fun s => Ret s;
     parseProxy := fun s => Ret s; parseDevice := fun _ _ => Ret tt; RAMInBytes := fun _ => Err "invalid size";
     createStack := fun _ _ => stack |}.
Definition w_conf : Config := {| startLine := "Bill mobile starting..."; LoadConfig := fun _ _ => None |}.
Definition w_start (stack : go unit) (a : app) : app := snd (StartBill (H := w_deps stack) (H0 := w_conf) 7 "default" a).

Lemma w_reachable_lost : reachable [0%nat] (w_start (Err "no nic") (SetWorkingDir "/data" newApp)).
Proof.
  apply (reach_start [] (SetWorkingDir "/data" newApp) (w_deps (Err "no nic")) w_conf 7 "default" "engine start error: no nic"
           (w_start (Err "no nic") (SetWorkingDir "/data" newApp))).
  - apply reach_dir, reach_new.
  - vm_compute. reflexivity.
Qed.

(** C31: The app's calls keep the engine's devices in order.  After any calls of
    SetWorkingDir, StartBill and StopBill, whatever each start meets, every device ever
    opened is accounted for exactly once: it was closed once by a stop, it is the one in
    use, or a start that failed had opened it.  While running there is a device, a stack
    and the injected proxy; when not, the proxy is cleared.  A device a failed start had
    opened is never closed: StopBill does nothing then. *)
Theorem engine_lifecycle :
  (forall lost a, reachable lost a ->
     opens (effects (eng a)) ≡ₚ closes (effects (eng a)) ++ lost ++ in_use a /\
     NoDup (closes (effects (eng a)) ++ lost ++ in_use a) /\
     (isRunning a = true -> length (in_use a) = 1%nat /\ is_Some (defaultStack (eng a)) /\ customProxy (eng a) = Some "bill"%string) /\
     (isRunning a = false -> customProxy (eng a) = None)) /\
  (exists d a, reachable [d] a /\ isRunning a = false /\ d ∈ opens (effects (eng a)) /\ StopBill a = a).
Proof.
  split.
  - intros lost a Hr. destruct (app_inv_reachable lost a Hr) as [Hl Hn _ Hrun Hst]. split; [done|].
    split; [by rewrite <- Hl|]. split; [|done]. intros H. destruct (Hrun H) as ([d Hd] & Ht & Hp). unfold in_use. by rewrite H, Hd.
  - exists 0%nat. eexists. split; [exact w_reachable_lost|]. split; [vm_compute; reflexivity|]. split; [vm_compute; left|vm_compute; reflexivity].
Qed.

End Engine.
