(* ===== verification/Allocator.v ===== *)
(** * The buffer allocator (src/tun2socks/buffer)

    Seventeen pools of byte slices, one per power of two up to 64 KiB.  A slice is known
    by its length and capacity; what a pool hands out is any slice put into it and not yet
    taken again, or a new one, as [sync.Pool] promises. *)

From S2P Require Import Prelude.

Module Allocator.

Record slice_hdr := mkSlice { blen : Z; bcap : Z }.

(** internal/pool: the slices a pool holds.  [pick] is the one a Get finds, if any. *)
Notation Allocator := (list (list slice_hdr)).

Definition New : Allocator := replicate 17 [].

(** [make([]byte, 1<<uint32(i))]. *)
Definition fresh_slice (i : nat) : slice_hdr := mkSlice (2 ^ Z.of_nat i) (2 ^ Z.of_nat i).

(** [pool.Get()] of the [i]-th pool: the slice at [pick] leaves the pool, or a new one is
    made. *)
Definition pool_get (alloc : Allocator) (i : nat) (pick : option nat) : go (slice_hdr * Allocator) :=
  match alloc !! i with
  | None => Panic
  | Some p =>
    match pick ≫= (fun j => (fun s => (j, s)) <$> p !! j) with
    | Some (j, s) => Ret (s, <[i := delete j p]> alloc)
    | None => Ret (fresh_slice i, alloc)
    end
  end.
Definition pool_put (alloc : Allocator) (i : nat) (s : slice_hdr) : go Allocator :=
  match alloc !! i with
  | None => Panic
  | Some p => Ret (<[i := s :: p]> alloc)
  end.

(** [bits.Len32(uint32(size)) - 1] as uint16. *)
Definition msb (size : Z) : Z := u16 ((if u32 size =? 0 then 0 else Z.log2 (u32 size) + 1) - 1).

(** [s[:n]]: allowed up to the capacity. *)
Definition reslice (s : slice_hdr) (n : Z) : go slice_hdr :=
  if (0 <=? n) && (n <=? bcap s) then Ret (mkSlice n (bcap s)) else Panic.

(** Allocator.Get; [None] is the nil slice. *)
Definition Get (alloc : Allocator) (size : Z) (pick : option nat) : go (option slice_hdr * Allocator) :=
  if (size <=? 0) || (65536 <? size) then Ret (None, alloc)
  else
    let b := msb size in
    let i := if size =? Z.shiftl 1 b then b else b + 1 in
    let! (s, alloc) := pool_get alloc (Z.to_nat i) pick in
    let! s := reslice s size in
    Ret (Some s, alloc).

(** Allocator.Put: the error, if any. *)
Definition Put (alloc : Allocator) (buf : slice_hdr) : go (option string * Allocator) :=
  let b := msb (bcap buf) in
  if (bcap buf =? 0) || (65536 <? bcap buf) || negb (bcap buf =? Z.shiftl 1 b)
  then Ret (Some "allocator Put() incorrect buffer size"%string, alloc)
  else
    let! alloc := pool_put alloc (Z.to_nat b) buf in
    Ret (None, alloc).

(** ** What the pools hold *)

(** The [i]-th pool holds slices of capacity [2 ^ i] only. *)
Definition well_typed (alloc : Allocator) : Prop :=
  length alloc = 17%nat /\ forall i p, alloc !! i = Some p -> Forall (fun s => bcap s = 2 ^ Z.of_nat i) p.

Lemma New_well_typed : well_typed New.
Proof. split; [done|]. intros i p H. apply lookup_replicate in H as [-> _]. constructor. Qed.

Lemma msb_spec n : 1 <= n <= 65536 -> msb n = Z.log2 n /\ 0 <= Z.log2 n <= 16.
Proof.
  intros Hn. assert (u32 n = n) as E by (unfold u32; apply Z.mod_small; lia).
  assert (Z.log2 n <= Z.log2 65536) as H by (apply Z.log2_le_mono; lia). change (Z.log2 65536) with 16 in H.
  pose proof (Z.log2_nonneg n). unfold msb. rewrite E. rewrite (proj2 (Z.eqb_neq _ _)) by lia.
  rewrite u16_small by lia. lia.
Qed.

(** The pool a request goes to. *)
Lemma pool_of n : 1 <= n <= 65536 ->
  let b := msb n in let i := if n =? Z.shiftl 1 b then b else b + 1 in
  0 <= i <= 16 /\ n <= 2 ^ i < 2 * n.
Proof.
  intros Hn. destruct (msb_spec n Hn) as [E Hr]. cbv zeta. rewrite E, Z.shiftl_1_l.
  destruct (Z.log2_spec n ltac:(lia)) as [H1 H2]. unfold Z.succ in H2.
  destruct (Z.eqb_spec n (2 ^ Z.log2 n)) as [En|En]; [split; lia|].
  assert (Z.log2 n <> 16).
  { intros E16. rewrite E16 in *. change (2 ^ 16) with 65536 in *. lia. }
  rewrite Z.pow_add_r in * by lia. change (2 ^ 1) with 2 in *. lia.
Qed.

Lemma pool_get_spec alloc i pick : well_typed alloc -> (i < 17)%nat ->
  exists s alloc', pool_get alloc i pick = Ret (s, alloc') /\ bcap s = 2 ^ Z.of_nat i /\ well_typed alloc'.
Proof.
  intros [Hl Hw] Hi. destruct (lookup_lt_is_Some_2 alloc i ltac:(lia)) as [p Hp]. unfold pool_get. rewrite Hp.
  destruct (pick ≫= _) as [[j s]|] eqn:E; [|by eexists _, _].
  destruct pick as [k|]; [|done]. cbn in E. apply fmap_Some in E as (s' & Hs & [= -> ->]).
  pose proof (Hw i p Hp) as HF. eexists _, _. split; [done|]. split; [exact (Forall_lookup_1 _ p k s' HF Hs)|].
  split; [by rewrite length_insert|]. intros i' p' Hp'. destruct (decide (i = i')) as [->|Hne].
  - rewrite list_lookup_insert_eq in Hp' by lia. injection Hp' as <-. by apply Forall_delete.
  - rewrite list_lookup_insert_ne in Hp' by done. by apply Hw.
Qed.

Lemma Get_spec alloc n pick : well_typed alloc -> 1 <= n <= 65536 ->
  exists s alloc', Get alloc n pick = Ret (Some s, alloc') /\ blen s = n /\ n <= bcap s < 2 * n /\
    (exists i, 0 <= i <= 16 /\ bcap s = 2 ^ i) /\ well_typed alloc'.
Proof.
  intros Hw Hn. unfold Get. rewrite (proj2 (Z.leb_gt _ _)), (proj2 (Z.ltb_ge _ _)) by lia. cbn [orb].
  destruct (pool_of n Hn) as [Hi Hb]. cbv zeta in *. set (i := if n =? Z.shiftl 1 (msb n) then msb n else msb n + 1) in *.
  destruct (pool_get_spec alloc (Z.to_nat i) pick Hw ltac:(lia)) as (s & alloc' & -> & Hc & Hw'). cbn [go_bind].
  rewrite Z2Nat.id in Hc by lia. unfold reslice. rewrite (proj2 (Z.leb_le 0 n)), (proj2 (Z.leb_le n _)) by lia. cbn [andb go_bind].
  eexists _, _. split; [reflexivity|]. cbn [blen bcap]. split_and!; try done; try lia. by exists i.
Qed.

Lemma Put_spec alloc buf : well_typed alloc -> 0 <= bcap buf < 2 ^ 32 ->
  exists e alloc', Put alloc buf = Ret (e, alloc') /\ well_typed alloc' /\
    (e = None <-> exists i, 0 <= i <= 16 /\ bcap buf = 2 ^ i) /\ (e <> None -> alloc' = alloc).
Proof.
  intros [Hl Hw] Hc. unfold Put. destruct (_ || _) eqn:E.
  - eexists _, _. split; [done|]. split; [done|]. split; [|done]. split; [done|]. intros (i & Hi & Eb). exfalso.
    assert (1 <= bcap buf <= 65536) as Hr.
    { rewrite Eb. change 65536 with (2 ^ 16). split; [pose proof (Z.pow_pos_nonneg 2 i); lia|]. apply Z.pow_le_mono_r; lia. }
    destruct (msb_spec _ Hr) as [Em _]. rewrite Em, Z.shiftl_1_l, Eb, Z.log2_pow2, Z.eqb_refl in E by lia.
    rewrite <- Eb in E. rewrite (proj2 (Z.eqb_neq _ _)), (proj2 (Z.ltb_ge _ _)) in E by lia. done.
  - apply orb_false_elim in E as [[E1 E2]%orb_false_elim E3]. apply Z.eqb_neq in E1. apply Z.ltb_ge in E2.
    apply negb_false_iff, Z.eqb_eq in E3. destruct (msb_spec (bcap buf) ltac:(lia)) as [Em Hr].
    rewrite Em, Z.shiftl_1_l in E3. rewrite Em. unfold pool_put.
    destruct (lookup_lt_is_Some_2 alloc (Z.to_nat (Z.log2 (bcap buf))) ltac:(lia)) as [p Hp]. rewrite Hp. cbn [go_bind].
    eexists _, _. split; [done|]. split; [|split; [split; [|done]; intros _; by exists (Z.log2 (bcap buf))|done]].
    split; [by rewrite length_insert|]. intros i' p' Hp'. destruct (decide (Z.to_nat (Z.log2 (bcap buf)) = i')) as [<-|Hne].
    + rewrite list_lookup_insert_eq in Hp' by lia. injection Hp' as <-. constructor; [|by apply Hw].
      by rewrite Z2Nat.id by lia.
    + rewrite list_lookup_insert_ne in Hp' by done. by apply Hw.
Qed.

(** The states Get and Put calls lead to. *)
Inductive reachable : Allocator -> Prop :=
| reach_new : reachable New
| reach_get a n pick s a' : reachable a -> Get a n pick = Ret (s, a') -> reachable a'
| reach_put a buf e a' : reachable a -> 0 <= bcap buf < 2 ^ 32 -> Put a buf = Ret (e, a') -> reachable a'.

Lemma reachable_well_typed a : reachable a -> well_typed a.
Proof.
  induction 1 as [|a n pick s a' _ IH E|a buf e a' _ IH Hb E]; [apply New_well_typed| |].
  - destruct (decide (1 <= n <= 65536)) as [Hn|Hn].
    + destruct (Get_spec a n pick IH Hn) as (s' & a1 & E' & _ & _ & _ & Hw). rewrite E' in E. by injection E as _ <-.
    + unfold Get in E. assert ((n <=? 0) || (65536 <? n) = true) as Hb
        by (destruct (Z.leb_spec n 0); [done|]; destruct (Z.ltb_spec 65536 n); [done|lia]).
      rewrite Hb in E. by injection E as _ <-.
  - destruct (Put_spec a buf IH Hb) as (e' & a1 & E' & Hw & _). rewrite E' in E. by injection E as _ <-.
Qed.

(** C35: The pools stay typed.  However Get and Put calls interleave, every pool holds
    slices of its own capacity only, no call panics, a request of 1 to 65536 bytes gets a
    slice of exactly that length whose capacity is a power of two below twice the request,
    any other request gets nil, and Put takes exactly the slices whose capacity is a power
    of two up to 64 KiB and leaves the pools alone otherwise. *)
Theorem allocator_typed a : reachable a ->
  well_typed a /\
  (forall n pick, 1 <= n <= 65536 -> exists s a', Get a n pick = Ret (Some s, a') /\
     blen s = n /\ n <= bcap s < 2 * n /\ exists i, 0 <= i <= 16 /\ bcap s = 2 ^ i) /\
  (forall n pick, ~ 1 <= n <= 65536 -> Get a n pick = Ret (None, a)) /\
  (forall buf, 0 <= bcap buf < 2 ^ 32 -> exists e a', Put a buf = Ret (e, a') /\
     (e = None <-> exists i, 0 <= i <= 16 /\ bcap buf = 2 ^ i) /\ (e <> None -> a' = a)).
Proof.
  intros Hr. pose proof (reachable_well_typed a Hr) as Hw. split; [done|]. split_and!.
  - intros n pick Hn. destruct (Get_spec a n pick Hw Hn) as (s & a' & E & H1 & H2 & H3 & _). by exists s, a'.
  - intros n pick Hn. unfold Get. assert ((n <=? 0) || (65536 <? n) = true) as ->; [|done].
    destruct (Z.leb_spec n 0); [done|]. destruct (Z.ltb_spec 65536 n); [done|lia].
  - intros buf Hb. destruct (Put_spec a buf Hw Hb) as (e & a' & E & _ & H). by exists e, a'.
Qed.

Lemma allocator_typed_witness :
  exists s a', Get New 20480 None = Ret (Some s, a') /\ blen s = 20480 /\ bcap s < 40960.
Proof.
  destruct (allocator_typed New reach_new) as (_ & HG & _).
  destruct (HG 20480 None ltac:(lia)) as (s & a' & E & Hl & Hc & _). exists s, a'.
  split; [exact E|]. split; [exact Hl|]. lia.
Defined.

End Allocator.
